(* ===== verification/_CoqProject ===== *)
-Q . S2P
Prelude.v
WireFormat.v
TxFormat.v
WireCommon.v
WireMsgTx.v
WireMsgTxEncode.v
WireMsgTxDecode.v
WireMsgTxProps.v
WireScriptPool.v
Sha256.v
ChainHash.v
WireBlock.v
Genesis.v
ChainParams.v
JsonTypes.v
AcbcJson.v
AcbcJsonProps.v
AcbcJsonCmds.v
RpcAuth.v
GoStrings.v
GoNet.v
Certgen.v
RpcServer.v
RpcServerProps.v
RpcHttp.v
RpcHttpProps.v
RpcWebsocket.v
RpcWebsocketProps.v
GoFloat.v
Amount.v
AcbcUtil.v
RpcNotify.v
RpcSpent.v
WsLife.v
WsRefine.v
WsAnswers.v
RpcServerLife.v
RpcClientNtfn.v
RpcClient.v
RpcClientProps.v
RpcClientApi.v
RpcClientConn.v
RpcClientLife.v
RpcClientServer.v
EndToEnd.v
Config.v
ConfigProps.v
RpcClientExamples.v
Connmgr.v
Server.v
ServerProps.v
