(* ===== verification/Prelude.v ===== *)
(** * A verification of acbc

acbc is a full-node skeleton in Go, a fork of btcd: the wire encoding of
transactions and blocks (wire/), the parameters of the networks (chaincfg/,
params.go), the JSON-RPC command layer (acbcjson/), the RPC server over HTTP and
websockets (rpcserver.go, rpcwebsocket.go), a client for it (rpcclient/), and
utilities (acbcutil/, blockchain/, connmgr/, config.go).

** How the code is modelled

Fallible code returns a [result]; code with effects is a function on an explicit
state, most of it in the state-and-error monad [stm] of this file.  Go integers
are [Z], with [u8] .. [i64] where the code wraps.  A panic is a value of the
error type, so that "never panics" is a statement.  Concurrent parts (the client
count, the goroutines of a websocket and of the RPC server, those of its client, the
process with its signals) are step relations whose steps are what runs between two
synchronisations, with channels at their capacities and wait groups as counters:
invariants are proved over every reachable state, larger steps are refined by smaller
ones, and a bound on the steps that are left, with a step for whoever has not returned,
shows that what is told to stop comes to an end.  The
standard library is modelled where the program depends on it: encoding/json at the
level of documents and Go types (JsonTypes), base64 and constant-time comparison
(RpcAuth), hexadecimal (ChainHash), SHA-256 (Sha256, executable and tested on known
digests), strings, paths, decimal numbers and host:port texts (GoStrings), IP
addresses and networks (GoNet), binary64 floating point (GoFloat).  Code that is
neither the program's nor the standard library's is a parameter: the parser of
options and the levels of the logging package (Config), the socket of the client
(RpcClientConn), and so are math.Exp (Connmgr), what the processor gives for a float64
out of the range of an integer, and what the system answers when a certificate is made
(Certgen: keys, randomness, host, the encodings of X.509).

** The files

- Prelude: results, the monad, machine integers, bytes, list lemmas, tactics.
- WireFormat: formats as codecs, a pair of an encoder and a parser with laws
  ([CodecLaws]), combinators for pairs, dependent pairs, vectors and
  variable-length integers.  TxFormat: the format of transactions built from
  them, the specification the code of wire/msgtx.go is proved against.
- WireCommon (wire/common.go): the free list of buffers, the fixed-width readers
  and writers, readElement and writeElement, ReadVarInt and the rest over a
  reader and a bounded writer.  [implements] and [writes] relate them to
  WireFormat.
- WireMsgTx (wire/msgtx.go): encoding and decoding with the script free list,
  whose buffers have identities, and the contiguous copy.  WireMsgTxEncode,
  WireMsgTxDecode, WireMsgTxProps: sizes, partial writes, refinement of the
  format, round trip, canonicity, totality.  WireScriptPool: the free list keeps
  every buffer exactly once.
- Sha256, ChainHash (chaincfg/chainhash), WireBlock (wire/blockheader.go,
  msgblock.go), Genesis (chaincfg/genesis.go), ChainParams (chaincfg/params.go,
  deployment_time_frame.go, params.go).
- JsonTypes, AcbcJson, AcbcJsonProps, AcbcJsonCmds (acbcjson/): reflection and
  encoding/json, the registry of commands, marshalling and unmarshalling of
  commands, every command and notification type, and package initialisation.
- GoStrings, GoNet, GoFloat: the parts of the standard library named above.
  Certgen (acbcutil/certgen.go, net.go): the certificate of the server, its names,
  addresses and validity, and the PEM texts.
- RpcAuth, RpcServer, RpcServerProps, RpcHttp, RpcHttpProps (rpcserver.go):
  credentials, dispatch, batches, replies; the HTTP endpoints, the client limit,
  starting and stopping, the files of the certificate.
- RpcWebsocket, RpcWebsocketProps, RpcNotify, RpcSpent (rpcwebsocket.go): what the
  input handler of a client does with a message and with a request, the queues, the
  notification manager, notifications of spent outputs.
- WsLife (rpcwebsocket.go): the goroutines of a websocket client from Start to
  WaitForShutdown.  Notifications are written in order; a client that stays connected
  writes all it was given and is done with every request it accepted; one that is
  disconnected ends, if and only if it may serve at most 48 requests at a time.  WsRefine: its runs
  are runs of the turns of RpcWebsocketProps.  WsAnswers: what its goroutines carry are
  answers that processRequest gives, and notifications.  RpcServerLife (rpcserver.go,
  rpcwebsocket.go): the listeners, the goroutines of the manager, the WebsocketHandlers
  with their clients, and Stop: it returns, and takes the registered clients with it; the
  limit on websockets does not hold.
- Amount (acbcutil/amount.go), AcbcUtil (acbcutil/, blockchain/): amounts; blocks
  and transactions with their caches, data directories, weights, blocks by height.
- RpcClient, RpcClientProps (rpcclient/infrastructure.go): numbering, tracking,
  sending and answering of requests, disconnection, reconnection and shutdown, as
  an abstract map of calls in flight that the client refines.  RpcClientNtfn
  (notify.go): the parsers of notifications and the dispatch to handlers.
  RpcClientApi (notify.go, chain.go): subscriptions, rescans, getblockhash,
  registration after a reconnection.  RpcClientConn: credentials and cookie file,
  dialing, POST requests with their retries and the goroutine that sends them, attempt
  by attempt up to the panic after ten that failed.
  RpcClientLife: the goroutines of a websocket client, which refine the steps of
  RpcClientProps, and their end after a shutdown; what the network does for one that
  waits is a step apart, so that a silent network is a case of every theorem.
  RpcClientServer: the client against the server of this development, from a call
  to its answer, from a block to a notification, and from a dial to a login.
  EndToEnd: the goroutines of the client, its connections one after the other, and the
  goroutines of the server that serve each, as one step relation; its runs are runs of
  RpcClientLife and of WsLife, and whatever a caller receives is an error of the client's
  own or the answer to its own request.  RpcClientExamples (rpcclient/examples/): the two
  programs, of which the one that posts panics unless the host trusts the certificate of
  the server, and the one over a websocket never gets to its request.
- Config (config.go, log.go, version.go): the defaults, the reading of the options,
  the checks and settings of loadConfig, one definition for each group of options in
  the order of the source, the file of defaults, log levels, dial and lookup.
  ConfigProps: what an accepted configuration promises.
- Connmgr (connmgr/): the Tor resolver as a dialogue over a connection that delivers
  in pieces, and the ban score.
- Server (server.go, acbc.go, signal.go, rpcadapters.go): listen addresses, the
  server's life, and the process.  ServerProps composes it with Config and RpcHttp:
  listeners in the clear are local, the process ends after a signal and not before,
  without a panic.

** Bounds and fuel

Decoding loops run over counts read from the wire, which the code bounds before
the loop.  Fuel is needed by the printing of numbers (the number of bits), the roots
that give the constants of SHA-256 (40 bits), the expansion of variables in a path
(its length, for each round takes a byte) and the groups of an IPv6 address (eight,
for each round reads two of sixteen bytes).  The bound of 48 requests at a time in WsLife
is exact: the input handler, the notification handler and the requests can each have
one message past the check of SendMessage, and sendChan holds 50.  EndToEnd is about runs
in which the client makes fewer than 2^53 channels: it reads the id of a response as a
float64, which does not tell larger ids apart.

** Not modelled

Sockets, TLS, X.509, the clock and the file system appear as inputs and outcomes.  The
goroutine by which jsonRPCRead watches for the end of a connection is left out.  The
mempool, mining, database, indexer and peer packages hold type declarations and interfaces
without operations, but for what AcbcUtil models, and much of server.go is commented
out.  Logging is left out.  Options that no code reads are not part of the
configuration. *)

From Stdlib Require Import ZArith Lia List.
From Stdlib Require Export Strings.Byte.
From stdpp Require Export base list strings gmap.
From stdpp Require Import numbers.

#[global] Open Scope Z_scope.

(** ** Outcomes and the error monad of a Go call

A Go function that returns [(value, error)] is modelled as a [result]; one
that also reads or changes some shared state (a reader, a writer, a free list,
a registry) is a state-passing function [stm]. *)

Inductive result (E A : Type) : Type :=
  | Ok (a : A)
  | Err (e : E).
Arguments Ok {E A} a.
Arguments Err {E A} e.

Definition is_ok {E A} (r : result E A) : bool :=
  match r with Ok _ => true | Err _ => false end.

#[export] Instance result_ret E : MRet (result E) := fun A a => Ok a.
#[export] Instance result_bind E : MBind (result E) := fun A B k r =>
  match r with Ok a => k a | Err e => Err e end.

(** [stm S E A]: a computation over the state [S] that returns an [A] or stops
with an error of [E]; the state is kept on both paths, as in Go. *)
Definition stm (S E A : Type) : Type := S -> result E A * S.

#[export] Instance stm_ret S E : MRet (stm S E) := fun A a s => (Ok a, s).
#[export] Instance stm_bind S E : MBind (stm S E) := fun A B k m s =>
  match m s with
  | (Ok a, s') => k a s'
  | (Err e, s') => (Err e, s')
  end.

Definition fail {S E A} (e : E) : stm S E A := fun s => (Err e, s).

(** A sequential loop [for i := 0; i < n; i++ { x[i], err = m; ... }]. *)
Fixpoint repeatM {S E A} (n : nat) (m : stm S E A) : stm S E (list A) :=
  match n with
  | O => mret []
  | S n' => x ← m; xs ← repeatM n' m; mret (x :: xs)
  end.

(** A [for _, x := range xs] loop that stops at the first error. *)
Fixpoint forM_ {S E A} (xs : list A) (f : A -> stm S E unit) : stm S E unit :=
  match xs with
  | [] => mret tt
  | x :: xs' => f x ;; forM_ xs' f
  end.

(** ** Hint databases and tactics *)

Create HintDb words.
Create Rewrite HintDb bytes.
Create Rewrite HintDb len.

(** [split_res]: break a computation bound in a hypothesis or the goal into
its [Ok] and [Err] cases. *)
Ltac split_res :=
  match goal with
  | H : context [match ?m ?s with (_, _) => _ end] |- _ =>
      let r := fresh "r" in let s' := fresh "s" in let E := fresh "E" in
      destruct (m s) as [r s'] eqn:E; destruct r; try discriminate H
  | |- context [match ?m ?s with (_, _) => _ end] =>
      let r := fresh "r" in let s' := fresh "s" in let E := fresh "E" in
      destruct (m s) as [r s'] eqn:E; destruct r
  end.

(** [boolify]: reflect the boolean comparisons on Z in the context. *)
Ltac boolify :=
  repeat match goal with
  | H : (_ <? _) = true |- _ => apply Z.ltb_lt in H
  | H : (_ <? _) = false |- _ => apply Z.ltb_ge in H
  | H : (_ <=? _) = true |- _ => apply Z.leb_le in H
  | H : (_ <=? _) = false |- _ => apply Z.leb_gt in H
  | H : (_ =? _) = true |- _ => apply Z.eqb_eq in H
  | H : (_ =? _) = false |- _ => apply Z.eqb_neq in H
  | H : (_ && _)%bool = true |- _ => apply andb_true_iff in H; destruct H
  end.

(** [decide_now]: a closed decidable goal, by evaluation. *)
Ltac decide_now := apply (bool_decide_unpack _); vm_compute; exact I.

Lemma bind_Ok_inv {S E A B} (m : stm S E A) (k : A -> stm S E B) s b s' :
  (m ≫= k) s = (Ok b, s') -> exists a s1, m s = (Ok a, s1) /\ k a s1 = (Ok b, s').
Proof.
  unfold mbind, stm_bind. destruct (m s) as [[a|e] s1]; [eauto|discriminate].
Qed.

(** [go_ok H]: decompose a successful run of a bind chain. *)
Ltac go_ok H :=
  lazymatch type of H with
  | (_ ≫= _) _ = (Ok _, _) =>
      let a := fresh "a" in let s1 := fresh "s" in
      let H1 := fresh "Hm" in let H2 := fresh "Hk" in
      apply bind_Ok_inv in H as (a & s1 & H1 & H2);
      cbv beta in H2; go_ok H1; go_ok H2
  | (mret _) _ = (Ok _, _) => unfold mret, stm_ret in H; inv H
  | _ => idtac
  end.

(** ** Bytes and machine words *)

Abbreviation bytes := (list byte).

Definition byte_val (b : byte) : Z := Z.of_N (Byte.to_N b).

(** Go's [byte(z)]: the low eight bits. *)
Definition byte_of (z : Z) : byte :=
  match Byte.of_N (Z.to_N (z mod 256)) with Some b => b | None => x00 end.

Lemma byte_val_range b : 0 <= byte_val b < 256.
Proof.
  unfold byte_val. pose proof (Byte.to_N_bounded b). lia.
Qed.

Lemma byte_val_of z : byte_val (byte_of z) = z mod 256.
Proof.
  unfold byte_val, byte_of.
  assert (0 <= z mod 256 < 256) by (apply Z.mod_pos_bound; lia).
  destruct (Byte.of_N (Z.to_N (z mod 256))) as [b|] eqn:E.
  - apply Byte.to_of_N in E. rewrite E. lia.
  - apply Byte.of_N_None_iff in E. lia.
Qed.

Lemma byte_val_inj b1 b2 : byte_val b1 = byte_val b2 -> b1 = b2.
Proof.
  unfold byte_val. intros H%N2Z.inj.
  pose proof (Byte.of_to_N b1). pose proof (Byte.of_to_N b2). congruence.
Qed.

Lemma byte_of_val b : byte_of (byte_val b) = b.
Proof.
  apply byte_val_inj. rewrite byte_val_of.
  apply Z.mod_small, byte_val_range.
Qed.

#[export] Instance byte_eq_dec : EqDecision byte := Byte.byte_eq_dec.

#[export] Instance byte_countable : Countable byte.
Proof.
  apply (inj_countable Byte.to_N Byte.of_N). intros b. apply Byte.of_to_N.
Defined.

(** Fixed-width integers: Go's conversions wrap. *)
Definition u8 (z : Z) : Z := z mod 2 ^ 8.
Definition u16 (z : Z) : Z := z mod 2 ^ 16.
Definition u32 (z : Z) : Z := z mod 2 ^ 32.
Definition u64 (z : Z) : Z := z mod 2 ^ 64.
Definition i32 (z : Z) : Z := (z + 2 ^ 31) mod 2 ^ 32 - 2 ^ 31.
Definition i64 (z : Z) : Z := (z + 2 ^ 63) mod 2 ^ 64 - 2 ^ 63.

Definition in_u8 (z : Z) : Prop := 0 <= z < 2 ^ 8.
Definition in_u16 (z : Z) : Prop := 0 <= z < 2 ^ 16.
Definition in_u32 (z : Z) : Prop := 0 <= z < 2 ^ 32.
Definition in_u64 (z : Z) : Prop := 0 <= z < 2 ^ 64.
Definition in_i32 (z : Z) : Prop := - 2 ^ 31 <= z < 2 ^ 31.
Definition in_i64 (z : Z) : Prop := - 2 ^ 63 <= z < 2 ^ 63.

#[export] Hint Unfold in_u8 in_u16 in_u32 in_u64 in_i32 in_i64 : words.

Ltac words := autounfold with words in *; cbn in *; lia.

Lemma u32_range z : in_u32 (u32 z).
Proof. apply Z.mod_pos_bound; lia. Qed.
Lemma u64_range z : in_u64 (u64 z).
Proof. apply Z.mod_pos_bound; lia. Qed.

Lemma i32_range z : in_i32 (i32 z).
Proof.
  unfold i32, in_i32. pose proof (Z.mod_pos_bound (z + 2 ^ 31) (2 ^ 32)). lia.
Qed.
Lemma i64_range z : in_i64 (i64 z).
Proof.
  unfold i64, in_i64. pose proof (Z.mod_pos_bound (z + 2 ^ 63) (2 ^ 64)). lia.
Qed.

Lemma u32_small z : in_u32 z -> u32 z = z.
Proof. intros; now apply Z.mod_small. Qed.
Lemma u64_small z : in_u64 z -> u64 z = z.
Proof. intros; now apply Z.mod_small. Qed.
Lemma i64_small z : in_i64 z -> i64 z = z.
Proof. intros H. unfold i64, in_i64 in *. rewrite Z.mod_small; lia. Qed.

(** Reading back a signed integer that was written through its unsigned
conversion: [int32(uint32(x)) = x]. *)
Lemma signed_unsigned w z : 0 < w -> - 2 ^ (w - 1) <= z < 2 ^ (w - 1) ->
  (z mod 2 ^ w + 2 ^ (w - 1)) mod 2 ^ w - 2 ^ (w - 1) = z.
Proof.
  intros Hw Hz.
  assert (H2 : 2 ^ w = 2 * 2 ^ (w - 1)).
  { rewrite <- Z.pow_succ_r by lia. f_equal; lia. }
  rewrite Zplus_mod_idemp_l. rewrite Z.mod_small; lia.
Qed.

Lemma unsigned_signed w z : 0 < w -> 0 <= z < 2 ^ w ->
  ((z + 2 ^ (w - 1)) mod 2 ^ w - 2 ^ (w - 1)) mod 2 ^ w = z.
Proof.
  intros Hw Hz. rewrite Zminus_mod_idemp_l.
  rewrite Z.mod_small; lia.
Qed.

Lemma i32_u32 z : in_i32 z -> i32 (u32 z) = z.
Proof. apply (signed_unsigned 32); lia. Qed.
Lemma i64_u64 z : in_i64 z -> i64 (u64 z) = z.
Proof. apply (signed_unsigned 64); lia. Qed.
Lemma u32_i32 z : in_u32 z -> u32 (i32 z) = z.
Proof. apply (unsigned_signed 32); lia. Qed.
Lemma u64_i64 z : in_u64 z -> u64 (i64 z) = z.
Proof. apply (unsigned_signed 64); lia. Qed.

#[export] Hint Resolve u32_range u64_range i32_range i64_range : words.
#[export] Hint Rewrite byte_of_val byte_val_of : bytes.

(** ** Little and big endian *)

Fixpoint le_bytes (n : nat) (z : Z) : bytes :=
  match n with
  | O => []
  | S n' => byte_of z :: le_bytes n' (z / 256)
  end.

Fixpoint le_val (bs : bytes) : Z :=
  match bs with
  | [] => 0
  | b :: bs' => byte_val b + 256 * le_val bs'
  end.

Definition be_bytes (n : nat) (z : Z) : bytes := rev (le_bytes n z).
Definition be_val (bs : bytes) : Z := le_val (rev bs).

Lemma length_le_bytes n z : length (le_bytes n z) = n.
Proof. revert z; induction n; intros; simpl; auto. Qed.

Lemma length_be_bytes n z : length (be_bytes n z) = n.
Proof. unfold be_bytes. now rewrite List.length_rev, length_le_bytes. Qed.

#[export] Hint Rewrite length_le_bytes length_be_bytes : bytes.

Lemma pow256_S n : 256 ^ Z.of_nat (S n) = 256 * 256 ^ Z.of_nat n.
Proof. rewrite Nat2Z.inj_succ, Z.pow_succ_r; lia. Qed.

Lemma le_val_range bs : 0 <= le_val bs < 256 ^ Z.of_nat (length bs).
Proof.
  induction bs as [|b bs IH]; [simpl; lia|].
  cbn [le_val length]. rewrite pow256_S. pose proof (byte_val_range b). lia.
Qed.

Lemma le_val_bytes n z : 0 <= z < 256 ^ Z.of_nat n -> le_val (le_bytes n z) = z.
Proof.
  revert z; induction n as [|n IH]; intros z Hz; [simpl in *; lia|].
  rewrite pow256_S in Hz. cbn [le_bytes le_val]. rewrite byte_val_of, IH.
  - pose proof (Z.div_mod z 256). lia.
  - split; [apply Z.div_pos; lia|apply Z.div_lt_upper_bound; lia].
Qed.

Lemma le_bytes_val bs : le_bytes (length bs) (le_val bs) = bs.
Proof.
  induction bs as [|b bs IH]; [done|].
  cbn [length le_bytes le_val]. pose proof (byte_val_range b).
  rewrite (Z.mul_comm 256), Z.div_add, Z.div_small, Z.add_0_l, IH by lia.
  f_equal. apply byte_val_inj.
  now rewrite byte_val_of, Z.mod_add, Z.mod_small by lia.
Qed.

Lemma be_val_bytes n z : 0 <= z < 256 ^ Z.of_nat n -> be_val (be_bytes n z) = z.
Proof. unfold be_val, be_bytes. rewrite rev_involutive. apply le_val_bytes. Qed.

Lemma be_bytes_val bs : be_bytes (length bs) (be_val bs) = bs.
Proof.
  unfold be_bytes, be_val. rewrite <- (List.length_rev bs), le_bytes_val.
  apply rev_involutive.
Qed.

(** ** Lists *)

Lemma take_app_exact {A} (l k : list A) n : n = length l -> take n (l ++ k) = l.
Proof. intros ->. apply take_app_length. Qed.
Lemma drop_app_exact {A} (l k : list A) n : n = length l -> drop n (l ++ k) = k.
Proof. intros ->. apply drop_app_length. Qed.

Definition len {A} (l : list A) : Z := Z.of_nat (length l).

Lemma len_nonneg {A} (l : list A) : 0 <= len l.
Proof. unfold len; lia. Qed.
Lemma len_app {A} (l k : list A) : len (l ++ k) = len l + len k.
Proof. unfold len. rewrite length_app. lia. Qed.
Lemma len_cons {A} (x : A) l : len (x :: l) = 1 + len l.
Proof. unfold len. cbn [length]. lia. Qed.
Lemma len_nil {A} : len (@nil A) = 0.
Proof. done. Qed.

#[export] Hint Rewrite @len_app @len_cons @len_nil : len.

(** Sum of a measure over a list, the [n += f(x)] loops of the source. *)
Definition sum_map {A} (f : A -> Z) (l : list A) : Z :=
  fold_right (fun x n => f x + n) 0 l.

Lemma sum_map_app {A} (f : A -> Z) l k : sum_map f (l ++ k) = sum_map f l + sum_map f k.
Proof. induction l; simpl; lia. Qed.

Lemma len_concat_map {A B} (g : A -> list B) (f : A -> Z) (l : list A) :
  Forall (fun x => len (g x) = f x) l -> len (concat (map g l)) = sum_map f l.
Proof.
  induction 1 as [|x l Hx _ IH]; [done|]. cbn [map concat sum_map fold_right].
  rewrite len_app, Hx, IH. done.
Qed.

(** Sums over a list. *)
Fixpoint total {A} (f : A -> nat) (l : list A) : nat := match l with [] => 0 | x :: l => f x + total f l end.
Lemma total_app {A} (f : A -> nat) l k : total f (l ++ k) = (total f l + total f k)%nat.
Proof. induction l as [|x l IH]; cbn; [done|]. rewrite IH. lia. Qed.
#[export] Instance total_proper {A} (f : A -> nat) : Proper ((≡ₚ) ==> (=)) (total f).
Proof. intros l k H. induction H; cbn; lia. Qed.

Lemma total_bound {A} (f : A -> nat) n l : (forall x, f x <= n)%nat -> (total f l <= n * length l)%nat.
Proof. intros H. induction l as [|x l IH]; cbn; [lia|]. specialize (H x). lia. Qed.
