(* ===== verification/WireFormat.v ===== *)
(** * The wire format, abstractly

The specification side of package wire: its error values, readers as the bytes
they still deliver, and the codecs of the format.  A codec pairs an encoding
function with a parser and a well-formedness predicate; its laws
([CodecLaws]) say that parsing inverts encoding on well-formed values and that
the parser accepts nothing but encodings of well-formed values.  The
definitions translated from the Go code (files WireCommon and WireMsgTx) are
proved to implement these codecs. *)

From Stdlib Require Import ZArith Lia List.
From stdpp Require Import pretty.
From S2P Require Import Prelude.

(** ** Error values (wire/error.go and package io) *)

(** [MessageError] of wire/error.go. *)
Record MessageError := MkMessageError { Func : string; Description : string }.

Inductive werr : Type :=
  | EOF                          (** io.EOF *)
  | ErrUnexpectedEOF             (** io.ErrUnexpectedEOF *)
  | ErrReader (msg : string)     (** any other error of the reader *)
  | ErrWriter                    (** the error of a full or failing writer *)
  | ErrInvalidType               (** encoding/binary: invalid type *)
  | ErrMessage (m : MessageError)
  | Panic.                       (** not an error value: a run-time panic *)

#[export] Instance MessageError_eq_dec : EqDecision MessageError.
Proof. solve_decision. Defined.
#[export] Instance werr_eq_dec : EqDecision werr.
Proof. solve_decision. Defined.

(** messageError: creates an error for the given function and description. *)
Definition messageError (f desc : string) : werr :=
  ErrMessage {| Func := f; Description := desc |}.

(** (e *MessageError) Error. *)
Definition MessageError_Error (e : MessageError) : string :=
  if decide (Func e = "") then Description e
  else (Func e +:+ ": " +:+ Description e)%string.

(** fmt's [%d] and [%x] verbs on integers. *)
Definition fmt_d (z : Z) : string := pretty z.

Definition hex_digit (d : Z) : string :=
  match String.get (Z.to_nat d) "0123456789abcdef" with
  | Some c => String c ""
  | None => ""
  end.
Fixpoint hex_fuel (fuel : nat) (z : Z) (acc : string) : string :=
  match fuel with
  | O => acc
  | S f => let acc' := (hex_digit (z mod 16) +:+ acc)%string in
           if z / 16 =? 0 then acc' else hex_fuel f (z / 16) acc'
  end.
Definition fmt_x (z : Z) : string := hex_fuel 64 z "".

(** ** Readers

What an [io.Reader] still delivers, and the error it reports afterwards
([EOF] for a reader over a byte slice). *)
Record reader := Reader { r_data : bytes; r_end : werr }.

(** The error of [io.ReadFull] when [got] bytes arrived before the reader
reported [e]. *)
Definition short_err (got : nat) (e : werr) : werr :=
  match e with
  | EOF => if decide (got = O) then EOF else ErrUnexpectedEOF
  | _ => e
  end.

Definition parser (A : Type) : Type := stm reader werr A.

(** Take exactly [n] bytes. *)
Definition p_take (n : nat) : parser bytes := fun r =>
  if decide (n <= length (r_data r))%nat
  then (Ok (take n (r_data r)), Reader (drop n (r_data r)) (r_end r))
  else (Err (short_err (length (r_data r)) (r_end r)), Reader [] (r_end r)).

(** ** Codecs *)

Record codec (A : Type) := Codec {
  enc : A -> bytes;
  dec : parser A;
  wf : A -> Prop
}.
Arguments Codec {A} _ _ _.
Arguments enc {A} _ _.
Arguments dec {A} _ _.
Arguments wf {A} _ _.

Class CodecLaws {A} (c : codec A) : Prop := {
  dec_enc a rest e : wf c a ->
    dec c (Reader (enc c a ++ rest) e) = (Ok a, Reader rest e);
  dec_sound r a r' : dec c r = (Ok a, r') ->
    wf c a /\ r_data r = enc c a ++ r_data r' /\ r_end r' = r_end r
}.

(** The laws of a codec in the form used along a bind chain. *)
Lemma dec_enc_bind {A B} (c : codec A) `{!CodecLaws c} (k : A -> parser B) a rest e :
  wf c a -> (dec c ≫= k) (Reader (enc c a ++ rest) e) = k a (Reader rest e).
Proof. intros. unfold mbind, stm_bind. now rewrite dec_enc. Qed.

(** *** Fixed-size fields *)

Definition c_bytes (n : nat) : codec bytes :=
  Codec (fun b => b) (p_take n) (fun b => length b = n).

Definition c_uint (n : nat) : codec Z :=
  Codec (le_bytes n) (b ← p_take n; mret (le_val b))
        (fun z => 0 <= z < 256 ^ Z.of_nat n).

#[export] Instance c_bytes_laws n : CodecLaws (c_bytes n).
Proof.
  constructor; cbn.
  - intros a rest e <-. unfold p_take. cbn. rewrite length_app.
    rewrite decide_True by lia. now rewrite take_app_length, drop_app_length.
  - intros [d e] a r'. unfold p_take. cbn. case_decide; [|discriminate].
    intros [= <- <-]. cbn. rewrite length_take, take_drop. repeat split; lia.
Qed.

#[export] Instance c_uint_laws n : CodecLaws (c_uint n).
Proof.
  constructor; cbn.
  - intros z rest e Hz. unfold mbind, stm_bind.
    pose proof (dec_enc (c:=c_bytes n) (le_bytes n z) rest e) as H.
    cbn in H. rewrite H by apply length_le_bytes.
    unfold mret, stm_ret. now rewrite le_val_bytes.
  - intros r z r' H. go_ok H.
    apply (dec_sound (c:=c_bytes n)) in Hm as (Hl & Hd & He). cbn in *.
    rewrite <- Hl, le_bytes_val. split; [apply le_val_range|done].
Qed.

(** *** Products, changes of representation and vectors *)

(** A field whose format depends on an earlier one. *)
Definition c_dep {A B} (ca : codec A) (cb : A -> codec B) : codec (A * B) :=
  Codec (fun p => enc ca p.1 ++ enc (cb p.1) p.2)
        (a ← dec ca; b ← dec (cb a); mret (a, b))
        (fun p => wf ca p.1 /\ wf (cb p.1) p.2).

Lemma c_dep_laws {A B} (ca : codec A) (cb : A -> codec B) `{!CodecLaws ca} :
  (forall a, CodecLaws (cb a)) -> CodecLaws (c_dep ca cb).
Proof.
  intros Hcb. constructor; cbn.
  - intros [a b] rest e [Ha Hb]; cbn in *. rewrite <- app_assoc.
    now rewrite !dec_enc_bind.
  - intros r [a b] r' H. go_ok H.
    apply dec_sound in Hm as (? & Hd1 & He1). apply dec_sound in Hm0 as (? & Hd2 & He2).
    cbn. rewrite Hd1, Hd2, app_assoc, He2. auto.
Qed.

Definition c_pair {A B} (ca : codec A) (cb : codec B) : codec (A * B) :=
  c_dep ca (fun _ => cb).

#[export] Instance c_pair_laws {A B} (ca : codec A) (cb : codec B)
  `{!CodecLaws ca, !CodecLaws cb} : CodecLaws (c_pair ca cb).
Proof. apply c_dep_laws; auto. Qed.

(** A field that takes no bytes and has one value. *)
Definition c_const {A} (a : A) : codec A := Codec (fun _ => []) (mret a) (fun x => x = a).

#[export] Instance c_const_laws {A} (a : A) : CodecLaws (c_const a).
Proof.
  constructor; cbn; [now intros ? ? ? ->|]. intros r x r' H. go_ok H. auto.
Qed.

(** A change of representation; [P] is the range of the new one. *)
Definition c_map {A B} (P : B -> Prop) (f : A -> B) (g : B -> A) (c : codec A) : codec B :=
  Codec (fun b => enc c (g b)) (a ← dec c; mret (f a)) (fun b => P b /\ wf c (g b)).

Lemma c_map_laws {A B} (P : B -> Prop) (f : A -> B) (g : B -> A) (c : codec A) `{!CodecLaws c} :
  (forall b, P b -> f (g b) = b) -> (forall a, wf c a -> g (f a) = a /\ P (f a)) ->
  CodecLaws (c_map P f g c).
Proof.
  intros Hfg Hgf. constructor; cbn.
  - intros b rest e [HP Hb]. rewrite dec_enc_bind by done. now rewrite Hfg.
  - intros r b r' H. go_ok H. apply dec_sound in Hm as (Hw & Hd & He).
    destruct (Hgf a Hw) as [-> ?]. auto.
Qed.

Definition c_int32 : codec Z := c_map in_i32 i32 u32 (c_uint 4).
Definition c_int64 : codec Z := c_map in_i64 i64 u64 (c_uint 8).

#[export] Instance c_int32_laws : CodecLaws c_int32.
Proof.
  apply (c_map_laws _ _ _ _); [apply i32_u32|].
  intros; split; [now apply u32_i32|apply i32_range].
Qed.
#[export] Instance c_int64_laws : CodecLaws c_int64.
Proof.
  apply (c_map_laws _ _ _ _); [apply i64_u64|].
  intros; split; [now apply u64_i64|apply i64_range].
Qed.

Definition c_vec {A} (n : nat) (c : codec A) : codec (list A) :=
  Codec (fun l => concat (map (enc c) l)) (repeatM n (dec c))
        (fun l => length l = n /\ Forall (wf c) l).

#[export] Instance c_vec_laws {A} n (c : codec A) `{!CodecLaws c} : CodecLaws (c_vec n c).
Proof.
  constructor; cbn.
  - intros l rest e [<- Hl]. induction Hl as [|a l Ha _ IH]; [done|].
    cbn [length map concat repeatM]. rewrite <- app_assoc, dec_enc_bind by done.
    unfold mbind, stm_bind at 1. now rewrite IH.
  - induction n as [|n IH]; intros r l r' H; cbn in H; go_ok H; [done|].
    apply dec_sound in Hm as (? & Hd1 & He1). apply IH in Hm0 as ([<- ?] & Hd2 & He2).
    cbn. rewrite Hd1, Hd2, app_assoc, He2. auto.
Qed.

(** *** Counted sequences

A count, a check of the count, and a body whose codec depends on the count. *)
Definition c_counted {A} (cn : codec Z) (check : Z -> option werr)
    (count : A -> Z) (body : Z -> codec A) : codec A :=
  Codec (fun a => enc cn (count a) ++ enc (body (count a)) a)
        (n ← dec cn;
         match check n with
         | Some e => fail e
         | None => dec (body n)
         end)
        (fun a => wf cn (count a) /\ check (count a) = None /\ wf (body (count a)) a).

Lemma c_counted_laws {A} (cn : codec Z) check (count : A -> Z) body
  `{!CodecLaws cn} {Hbody : forall n, CodecLaws (body n)} :
  (forall n a, 0 <= n -> wf (body n) a -> count a = n) ->
  (forall n, wf cn n -> 0 <= n) ->
  CodecLaws (c_counted cn check count body).
Proof.
  intros Hcount Hpos. constructor; cbn.
  - intros a rest e (Hn & Hc & Hb). rewrite <- app_assoc, dec_enc_bind by done.
    rewrite Hc. now apply dec_enc.
  - intros r a r' H. go_ok H. destruct (check a0) eqn:Hc; [discriminate|].
    apply dec_sound in Hm as (Hw1 & Hd1 & He1). apply dec_sound in Hk as (Hw2 & Hd2 & He2).
    rewrite (Hcount a0 a) by auto. rewrite Hd1, Hd2, app_assoc, He2. auto.
Qed.

(** ** Variable length integers

The canonical encoding: one byte below 0xfd, otherwise a discriminant and the
smallest of two, four or eight little-endian bytes that holds the value. *)

Definition varint_width (v : Z) : nat :=
  if v <? 0xfd then 0%nat else if v <=? 0xffff then 2%nat
  else if v <=? 0xffffffff then 4%nat else 8%nat.

Definition varint_disc (v : Z) : Z :=
  if v <? 0xfd then v else if v <=? 0xffff then 0xfd
  else if v <=? 0xffffffff then 0xfe else 0xff.

Definition varint_bytes (v : Z) : bytes :=
  byte_of (varint_disc v) :: le_bytes (varint_width v) v.

Definition varint_size (v : Z) : Z := 1 + Z.of_nat (varint_width v).

Definition nonCanonical (rv disc min : Z) : werr :=
  messageError "ReadVarInt"
    ("non-canonical varint " +:+ fmt_x rv +:+ " - discriminant " +:+ fmt_x disc +:+
     " must encode a value greater than " +:+ fmt_x min)%string.

Definition p_varint_tail (n : nat) (disc min : Z) : parser Z :=
  rv ← dec (c_uint n);
  if rv <? min then fail (nonCanonical rv disc min) else mret rv.

Definition p_varint : parser Z :=
  d ← dec (c_uint 1);
  if d =? 0xff then p_varint_tail 8 d 0x100000000
  else if d =? 0xfe then p_varint_tail 4 d 0x10000
  else if d =? 0xfd then p_varint_tail 2 d 0xfd
  else mret d.

Definition c_varint : codec Z := Codec varint_bytes p_varint in_u64.

Lemma length_varint_bytes v : len (varint_bytes v) = varint_size v.
Proof. unfold varint_bytes, varint_size, len. cbn [length]. rewrite length_le_bytes. lia. Qed.

Lemma varint_tail_enc n disc min v rest e :
  0 <= v < 256 ^ Z.of_nat n -> min <= v ->
  p_varint_tail n disc min (Reader (le_bytes n v ++ rest) e) = (Ok v, Reader rest e).
Proof.
  intros Hv Hm. unfold p_varint_tail.
  rewrite (dec_enc_bind (c_uint n) _ v) by done.
  destruct (v <? min) eqn:E; boolify; [lia|done].
Qed.

Lemma varint_tail_sound n disc min r v r' :
  p_varint_tail n disc min r = (Ok v, r') ->
  min <= v < 256 ^ Z.of_nat n /\ r_data r = le_bytes n v ++ r_data r' /\ r_end r' = r_end r.
Proof.
  unfold p_varint_tail. intros Hp. go_ok Hp.
  apply dec_sound in Hm as (Hw & Hd & He). cbn in Hw.
  destruct (a <? min) eqn:E; [discriminate|]. inv Hk. boolify. auto with lia.
Qed.

Ltac case_cmp :=
  match goal with
  | |- context [if ?a <? ?b then _ else _] => destruct (a <? b) eqn:?
  | |- context [if ?a <=? ?b then _ else _] => destruct (a <=? b) eqn:?
  | |- context [if ?a =? ?b then _ else _] => destruct (a =? b) eqn:?
  end; boolify.

Lemma varint_first v rest e : in_u64 v ->
  dec (c_uint 1) (Reader (varint_bytes v ++ rest) e) =
  (Ok (varint_disc v), Reader (le_bytes (varint_width v) v ++ rest) e).
Proof.
  intros Hv.
  apply (dec_enc (c:=c_uint 1) (varint_disc v) (le_bytes (varint_width v) v ++ rest) e).
  cbn. unfold varint_disc. repeat case_cmp; words.
Qed.

#[export] Instance c_varint_laws : CodecLaws c_varint.
Proof.
  constructor; cbn [enc dec wf c_varint].
  - intros v rest e Hv. unfold p_varint, mbind, stm_bind. rewrite varint_first by done.
    unfold varint_disc, varint_width in *. unfold in_u64 in Hv.
    destruct (v <? 0xfd) eqn:?; boolify.
    { repeat case_cmp; try lia; done. }
    destruct (v <=? 0xffff) eqn:?; boolify; cbn [Z.eqb];
      [|destruct (v <=? 0xffffffff) eqn:?; boolify]; apply varint_tail_enc; lia.
  - intros r v r' H. unfold p_varint in H. go_ok H.
    apply dec_sound in Hm as (Hw & Hd & He). cbn in Hw.
    destruct (a =? 0xff) eqn:E1; [|destruct (a =? 0xfe) eqn:E2; [|destruct (a =? 0xfd) eqn:E3]];
      boolify; subst;
      try (apply varint_tail_sound in Hk as (Hv & Hd2 & He2)).
    1-3: rewrite Hd, Hd2, He2; split; [words|];
      unfold varint_bytes, varint_disc, varint_width; repeat case_cmp; try (cbn in Hv; lia); auto.
    inv Hk. split; [words|]. rewrite Hd. unfold varint_bytes, varint_disc, varint_width.
    repeat case_cmp; try lia. auto.
Qed.

(** ** Length-prefixed byte strings *)

Definition at_most (max : Z) (err : Z -> werr) (n : Z) : option werr :=
  if max <? n then Some (err n) else None.

Definition c_varbytes (max : Z) (err : Z -> werr) : codec bytes :=
  c_counted c_varint (at_most max err) len (fun n => c_bytes (Z.to_nat n)).

#[export] Instance c_varbytes_laws max err : CodecLaws (c_varbytes max err).
Proof.
  apply (c_counted_laws _ _ _ _); [intros n b; cbn; unfold len; lia|cbn; words].
Qed.

(** A counted sequence of items of codec [c]. *)
Definition c_varvec {A} (max : Z) (err : Z -> werr) (c : codec A) : codec (list A) :=
  c_counted c_varint (at_most max err) len (fun n => c_vec (Z.to_nat n) c).

#[export] Instance c_varvec_laws {A} max err (c : codec A) `{!CodecLaws c} :
  CodecLaws (c_varvec max err c).
Proof.
  apply (c_counted_laws _ _ _ _); [intros n b ? [Hl _]; unfold len; lia|cbn; words].
Qed.

Lemma at_most_None max err n : at_most max err n = None <-> n <= max.
Proof. unfold at_most. destruct (max <? n) eqn:?; boolify; split; intros; try done; lia. Qed.

Lemma wf_varbytes max err b : max < 2 ^ 64 ->
  wf (c_varbytes max err) b <-> len b <= max.
Proof.
  intros Hmax. cbn. rewrite at_most_None. unfold in_u64, len. split; [tauto|].
  intros; repeat split; lia.
Qed.

Lemma wf_varvec {A} max err (c : codec A) l : max < 2 ^ 64 ->
  wf (c_varvec max err c) l <-> len l <= max /\ Forall (wf c) l.
Proof.
  intros Hmax. cbn. rewrite at_most_None. unfold in_u64, len.
  split; [tauto|]. intros [? ?]; repeat split; try done; lia.
Qed.

Lemma len_varbytes max err b : len (enc (c_varbytes max err) b) = varint_size (len b) + len b.
Proof. cbn [enc c_varbytes c_counted c_varint c_bytes]. now rewrite len_app, length_varint_bytes. Qed.
