(* ===== verification/TxFormat.v ===== *)
(** * Transactions: data types and wire format

The transaction types of wire/msgtx.go, parametric in the representation [S]
of a script (a byte string; while decoding, a buffer borrowed from the script
pool; after decoding, a window of one contiguous buffer), and the abstract
format of a serialised transaction with its two theorems: parsing inverts
encoding, and the parser accepts only encodings. *)

From Stdlib Require Import ZArith Lia List.
From S2P Require Import Prelude WireFormat.

(** ** Constants of wire/message.go and wire/msgtx.go *)

Definition HashSize : Z := 32.
Definition MaxMessagePayload : Z := 1024 * 1024 * 32.
Definition TxFlagMarker : Z := 0x00.
Definition WitnessFlag : byte := x01.
Definition freeListMaxItems : nat := Z.to_nat 12500.
Definition freeListMaxScriptSize : nat := 512.
Definition minTxInPayload : Z := 9 + HashSize.
Definition maxTxInPerMessage : Z := MaxMessagePayload / minTxInPayload + 1.
Definition MinTxOutPayload : Z := 9.
Definition maxTxOutPerMessage : Z := MaxMessagePayload / MinTxOutPayload + 1.
Definition maxWitnessItemsPerInput : Z := 500000.
Definition maxWitnessItemSize : Z := 11000.

Inductive MessageEncoding := BaseEncoding | WitnessEncoding.
#[export] Instance MessageEncoding_eq_dec : EqDecision MessageEncoding.
Proof. solve_decision. Defined.

(** ** Data *)

Record OutPoint := MkOutPoint { Hash : bytes; Index : Z }.

Record TxIn (S : Type) := MkTxIn {
  PreviousOutPoint : OutPoint;
  SignatureScript : S;
  Witness : list S;
  Sequence : Z
}.
Record TxOut (S : Type) := MkTxOut { Value : Z; PkScript : S }.
Record MsgTx (S : Type) := MkMsgTx {
  Version : Z;
  TxIns : list (TxIn S);
  TxOuts : list (TxOut S);
  LockTime : Z
}.
Arguments MkTxIn {S} _ _ _ _.
Arguments PreviousOutPoint {S} _.
Arguments SignatureScript {S} _.
Arguments Witness {S} _.
Arguments Sequence {S} _.
Arguments MkTxOut {S} _ _.
Arguments Value {S} _.
Arguments PkScript {S} _.
Arguments MkMsgTx {S} _ _ _ _.
Arguments Version {S} _.
Arguments TxIns {S} _.
Arguments TxOuts {S} _.
Arguments LockTime {S} _.

Abbreviation tx_in := (TxIn bytes).
Abbreviation tx_out := (TxOut bytes).
Abbreviation tx := (MsgTx bytes).

#[export] Instance OutPoint_eq_dec : EqDecision OutPoint.
Proof. solve_decision. Defined.

(** (msg *MsgTx) HasWitness. *)
Definition HasWitness {S} (msg : MsgTx S) : bool :=
  existsb (fun ti => negb (len (Witness ti) =? 0)) (TxIns msg).

Definition set_Witness {S} (w : list S) (ti : TxIn S) : TxIn S :=
  MkTxIn (PreviousOutPoint ti) (SignatureScript ti) w (Sequence ti).

(** What a transaction is after a trip through the encoding without witnesses. *)
Definition strip_witness {S} (msg : MsgTx S) : MsgTx S :=
  MkMsgTx (Version msg) (map (set_Witness []) (TxIns msg)) (TxOuts msg) (LockTime msg).

(** ** Errors of the transaction decoder *)

Definition tooLarge (func fieldName : string) (max count : Z) : werr :=
  messageError func (fieldName +:+ " is larger than the max allowed size [count " +:+
    fmt_d count +:+ ", max " +:+ fmt_d max +:+ "]")%string.

Definition tooMany (what : string) (max count : Z) : werr :=
  messageError "MsgTx.BtcDecode" ("too many " +:+ what +:+
    " to fit into max message size [count " +:+ fmt_d count +:+ ", max " +:+ fmt_d max +:+ "]")%string.

Definition badFlag (flag : byte) : werr :=
  messageError "MsgTx.BtcDecode" ("witness tx but flag byte is " +:+
    hex_digit (byte_val flag / 16) +:+ hex_digit (byte_val flag mod 16))%string.

(** ** Codecs of the parts *)

Definition c_outpoint : codec OutPoint :=
  c_map (fun _ => True) (fun p => MkOutPoint p.1 p.2) (fun o => (Hash o, Index o))
    (c_pair (c_bytes 32) (c_uint 4)).

Definition c_script (fieldName : string) (max : Z) : codec bytes :=
  c_varbytes max (tooLarge "readScript" fieldName max).

(** An input without its witness, which the format stores after the outputs. *)
Definition c_txin : codec tx_in :=
  c_map (fun ti => Witness ti = [])
    (fun p => MkTxIn p.1.1 p.1.2 [] p.2)
    (fun ti => (PreviousOutPoint ti, SignatureScript ti, Sequence ti))
    (c_pair (c_pair c_outpoint
              (c_script "transaction input signature script" MaxMessagePayload))
            (c_uint 4)).

Definition c_txout : codec tx_out :=
  c_map (fun _ => True) (fun p => MkTxOut p.1 p.2) (fun o => (Value o, PkScript o))
    (c_pair c_int64
       (c_script "transaction output public key script" MaxMessagePayload)).

Definition c_witness : codec (list bytes) :=
  c_varvec maxWitnessItemsPerInput (tooMany "witness items" maxWitnessItemsPerInput)
    (c_script "script witness item" maxWitnessItemSize).

Definition c_txins : codec (list tx_in) :=
  c_varvec maxTxInPerMessage (tooMany "input transactions" maxTxInPerMessage) c_txin.

Definition c_txouts : codec (list tx_out) :=
  c_varvec maxTxOutPerMessage (tooMany "output transactions" maxTxOutPerMessage) c_txout.

#[export] Instance c_outpoint_laws : CodecLaws c_outpoint.
Proof. apply (c_map_laws _ _ _ _); [now intros []|now intros []]. Qed.
#[export] Instance c_script_laws f max : CodecLaws (c_script f max).
Proof. apply _. Qed.
#[export] Instance c_txin_laws : CodecLaws c_txin.
Proof.
  apply (c_map_laws _ _ _ _); [intros []; cbn; congruence|now intros [[? ?] ?]].
Qed.
#[export] Instance c_txout_laws : CodecLaws c_txout.
Proof. apply (c_map_laws _ _ _ _); [now intros []|now intros []]. Qed.
#[export] Instance c_witness_laws : CodecLaws c_witness.
Proof. apply _. Qed.
#[export] Instance c_txins_laws : CodecLaws c_txins.
Proof. apply _. Qed.
#[export] Instance c_txouts_laws : CodecLaws c_txouts.
Proof. apply _. Qed.

(** ** The whole transaction

[tx_tail f] is everything after the input count; [f] says whether witnesses
follow the outputs. *)

Definition c_witnesses (f : bool) (n : nat) : codec (list (list bytes)) :=
  if f then c_vec n c_witness else c_const (replicate n []).

#[export] Instance c_witnesses_laws f n : CodecLaws (c_witnesses f n).
Proof. destruct f; apply _. Qed.

Definition attach (ins : list tx_in) (ws : list (list bytes)) : list tx_in :=
  zip_with set_Witness ws ins.

Definition c_body (f : bool) : codec (list tx_in * list tx_out * list (list bytes) * Z) :=
  c_pair (c_dep (c_pair c_txins c_txouts) (fun p => c_witnesses f (length p.1)))
         (c_uint 4).

#[export] Instance c_body_laws f : CodecLaws (c_body f).
Proof. unfold c_body. apply c_pair_laws; [apply c_dep_laws|]; apply _. Qed.

(** The four parts of a transaction, in the order of the format. *)
Definition tx_parts (t : tx) : list tx_in * list tx_out * list (list bytes) * Z :=
  (map (set_Witness []) (TxIns t), TxOuts t, map Witness (TxIns t), LockTime t).

Definition marker : bytes := [byte_of TxFlagMarker; WitnessFlag].

Definition tx_bytes_flag (f : bool) (t : tx) : bytes :=
  le_bytes 4 (u32 (Version t)) ++ (if f then marker else []) ++
  enc (c_body f) (tx_parts t).

Definition doWitness (e : MessageEncoding) (t : tx) : bool :=
  bool_decide (e = WitnessEncoding) && HasWitness t.

Definition tx_bytes (e : MessageEncoding) (t : tx) : bytes :=
  tx_bytes_flag (doWitness e t) t.


(** ** The transaction parser *)

(** The input count, behind an optional marker and flag byte: [(true, n)] when
the marker announced witnesses. *)
Definition p_count (e : MessageEncoding) : parser (bool * Z) :=
  count ← dec c_varint;
  if (count =? TxFlagMarker) && bool_decide (e = WitnessEncoding) then
    fl ← p_take 1;
    if decide (fl = [WitnessFlag]) then
      count' ← dec c_varint; mret (true, count')
    else fail (badFlag (hd x00 fl))
  else mret (false, count).

Definition p_after_count (f : bool) (count : Z) :
    parser (list tx_in * list tx_out * list (list bytes) * Z) :=
  match at_most maxTxInPerMessage (tooMany "input transactions" maxTxInPerMessage) count with
  | Some err => fail err
  | None =>
      ins ← repeatM (Z.to_nat count) (dec c_txin);
      outs ← dec c_txouts;
      ws ← dec (c_witnesses f (length ins));
      lt ← dec (c_uint 4);
      mret (ins, outs, ws, lt)
  end.

Definition p_tx (e : MessageEncoding) : parser tx :=
  v ← dec c_int32;
  fc ← p_count e;
  parts ← p_after_count fc.1 fc.2;
  let '(ins, outs, ws, lt) := parts in
  mret (MkMsgTx v (attach ins ws) outs lt).

(** ** Well-formed transactions *)

Record txin_wf (ti : tx_in) : Prop := {
  wf_hash : len (Hash (PreviousOutPoint ti)) = HashSize;
  wf_index : in_u32 (Index (PreviousOutPoint ti));
  wf_sigscript : len (SignatureScript ti) <= MaxMessagePayload;
  wf_sequence : in_u32 (Sequence ti)
}.

Record txout_wf (t : tx_out) : Prop := {
  wf_value : in_i64 (Value t);
  wf_pkscript : len (PkScript t) <= MaxMessagePayload
}.

Definition witness_wf (w : list bytes) : Prop :=
  len w <= maxWitnessItemsPerInput /\ Forall (fun i => len i <= maxWitnessItemSize) w.

(** The transactions the decoder can produce. *)
Record tx_wf (t : tx) : Prop := {
  wf_version : in_i32 (Version t);
  wf_nins : len (TxIns t) <= maxTxInPerMessage;
  wf_ins : Forall txin_wf (TxIns t);
  wf_wits : Forall (fun ti => witness_wf (Witness ti)) (TxIns t);
  wf_nouts : len (TxOuts t) <= maxTxOutPerMessage;
  wf_outs : Forall txout_wf (TxOuts t);
  wf_locktime : in_u32 (LockTime t)
}.

Lemma wf_c_txin ti : wf c_txin (set_Witness [] ti) <-> txin_wf ti.
Proof.
  destruct ti as [[h i] s w q]. unfold c_txin, c_outpoint, c_script.
  cbn -[c_varbytes MaxMessagePayload]. rewrite wf_varbytes by reflexivity. split.
  - intros (_ & ((_ & Hh & Hi) & Hs) & Hq). constructor; cbn -[MaxMessagePayload]; try done.
    unfold len. rewrite Hh. done.
  - intros [Hh Hi Hs Hq]. cbn -[MaxMessagePayload] in *. split_and!; try done; try words.
    unfold len, HashSize in Hh. lia.
Qed.

Lemma wf_c_txout t : wf c_txout t <-> txout_wf t.
Proof.
  destruct t as [v s]. unfold c_txout, c_script, c_int64.
  cbn -[c_varbytes MaxMessagePayload u64]. rewrite wf_varbytes by reflexivity. split.
  - intros (_ & [Hv _] & Hs). constructor; done.
  - intros [Hv Hs]. cbn -[MaxMessagePayload] in *.
    split; [done|]. split; [|done]. split; [done|apply u64_range].
Qed.

Lemma wf_c_witness w : wf c_witness w <-> witness_wf w.
Proof.
  unfold c_witness, witness_wf. rewrite wf_varvec by reflexivity.
  apply and_iff_compat_l, Forall_iff. intros i. now apply wf_varbytes.
Qed.


Lemma Forall_map_iff {A B} (P : B -> Prop) (g : A -> B) (l : list A) :
  Forall P (map g l) <-> Forall (fun x => P (g x)) l.
Proof. apply Forall_fmap. Qed.

Lemma len_map {A B} (g : A -> B) (l : list A) : len (map g l) = len l.
Proof. unfold len. now rewrite List.length_map. Qed.

Lemma HasWitness_false t : HasWitness t = false <-> Forall (fun ti : tx_in => Witness ti = []) (TxIns t).
Proof.
  unfold HasWitness. induction (TxIns t) as [|ti l IH]; cbn; [done|].
  rewrite orb_false_iff, IH, Forall_cons, negb_false_iff, Z.eqb_eq. unfold len.
  apply and_iff_compat_r. destruct (Witness ti); cbn; split; intros; try done; lia.
Qed.

Lemma no_witness_replicate (l : list tx_in) :
  Forall (fun ti => Witness ti = []) l <-> map Witness l = replicate (length l) [].
Proof.
  induction l as [|ti l IH]; cbn; [done|]. rewrite Forall_cons, IH. split.
  - intros [-> ->]. done.
  - intros [= ? ?]. done.
Qed.

(** The parts of a transaction are well formed exactly when the transaction is
(and carries no witness, when the format has no place for one). *)
Lemma wf_parts f t : in_i32 (Version t) ->
  wf (c_body f) (tx_parts t) <-> tx_wf t /\ (f = false -> HasWitness t = false).
Proof.
  intros Hv. unfold c_body, tx_parts, c_txins, c_txouts.
  cbn [wf c_pair c_dep fst snd]. rewrite !wf_varvec by reflexivity.
  rewrite len_map, Forall_map_iff. setoid_rewrite wf_c_txin.
  rewrite (Forall_iff (wf c_txout) _ txout_wf) by apply wf_c_txout.
  assert (Hw : wf (c_witnesses f (length (map (set_Witness []) (TxIns t)))) (map Witness (TxIns t)) <->
    Forall (fun ti => witness_wf (Witness ti)) (TxIns t) /\ (f = false -> HasWitness t = false)).
  { rewrite List.length_map, HasWitness_false. destruct f; cbn.
    - rewrite List.length_map, Forall_map_iff. setoid_rewrite wf_c_witness.
      intuition discriminate.
    - rewrite <- no_witness_replicate. split; [|intuition].
      intros H; split; [|done]. apply (Forall_impl _ _ _ H). intros ti ->.
      split; [done|constructor]. }
  rewrite Hw. split.
  - intros [[[[? ?] [? ?]] [? ?]] ?]. split; [constructor|]; done.
  - intros ([? ? ? ? ? ? ?] & ?). auto 10.
Qed.

(** ** Round trip *)

Lemma attach_parts (l : list tx_in) : attach (map (set_Witness []) l) (map Witness l) = l.
Proof. induction l as [|[o s w q] l IH]; cbn; [done|]. unfold attach in IH. now rewrite IH. Qed.

Lemma parts_attach (ins : list tx_in) (ws : list (list bytes)) :
  length ws = length ins -> Forall (fun ti => Witness ti = []) ins ->
  map (set_Witness []) (attach ins ws) = ins /\ map Witness (attach ins ws) = ws.
Proof.
  intros Hl Hw. revert ws Hl. induction Hw as [|[o s w q] l Hi _ IH]; intros [|w' ws] Hl;
    try discriminate Hl; [done|]. cbn in *. subst w.
  destruct (IH ws) as [H1 H2]; [lia|]. unfold attach in *. cbn. now rewrite H1, H2.
Qed.

Lemma dec_body f r : dec (c_body f) r = (n ← dec c_varint; p_after_count f n) r.
Proof.
  cbn [dec c_body c_pair c_dep c_txins c_varvec c_counted].
  unfold p_after_count, mbind, stm_bind. destruct (dec c_varint r) as [[n|] r1]; [|done].
  destruct (at_most maxTxInPerMessage _ n); [done|].
  cbn [dec c_vec]. destruct (repeatM (Z.to_nat n) (dec c_txin) r1) as [[ins|] r2]; [|done].
  unfold c_txouts, mret, stm_ret.
  destruct (dec (c_varvec _ _ c_txout) r2) as [[outs|] r3]; [|done]. cbn [fst].
  destruct (dec (c_witnesses f (length ins)) r3) as [[ws|] r4]; [|done].
  destruct (dec (c_uint 4) r4) as [[lt|] r5]; done.
Qed.

(** The body without its leading count. *)
Definition body_tail (f : bool) (t : tx) : bytes :=
  enc (c_vec (Z.to_nat (len (TxIns t))) c_txin) (map (set_Witness []) (TxIns t)) ++
  enc c_txouts (TxOuts t) ++
  enc (c_witnesses f (length (TxIns t))) (map Witness (TxIns t)) ++ le_bytes 4 (LockTime t).

Lemma enc_body f t :
  enc (c_body f) (tx_parts t) = varint_bytes (len (TxIns t)) ++ body_tail f t.
Proof.
  unfold c_body, tx_parts, body_tail, c_txins. cbn [enc c_pair c_dep c_varvec c_counted c_varint c_uint fst snd].
  now rewrite len_map, List.length_map, !app_assoc.
Qed.

Lemma in_u64_count n : 0 <= n <= maxTxInPerMessage -> in_u64 n.
Proof. assert (maxTxInPerMessage < 2 ^ 64) by reflexivity. words. Qed.

Lemma p_after_count_enc f t rest e : wf (c_body f) (tx_parts t) -> tx_wf t ->
  p_after_count f (len (TxIns t)) (Reader (body_tail f t ++ rest) e) = (Ok (tx_parts t), Reader rest e).
Proof.
  intros Hb Ht. pose proof (dec_enc (tx_parts t) rest e Hb) as H.
  rewrite dec_body, enc_body, <- app_assoc in H.
  rewrite <- H. symmetry. apply (dec_enc_bind c_varint).
  apply in_u64_count. split; [apply len_nonneg|apply Ht].
Qed.

Lemma p_count_enc e f t tail w : tx_wf t ->
  (f = true -> e = WitnessEncoding) -> (e = WitnessEncoding -> f = false -> TxIns t <> []) ->
  p_count e (Reader ((if f then marker else []) ++ varint_bytes (len (TxIns t)) ++ tail) w) =
    (Ok (f, len (TxIns t)), Reader tail w).
Proof.
  intros Ht Hf He.
  assert (Hn : in_u64 (len (TxIns t))).
  { apply in_u64_count. split; [apply len_nonneg|apply Ht]. }
  unfold p_count. destruct f.
  - rewrite (Hf eq_refl). change marker with (varint_bytes 0 ++ [WitnessFlag]).
    rewrite <- app_assoc.
    rewrite (dec_enc_bind c_varint _ 0) by (cbn; words). cbn [Z.eqb andb TxFlagMarker].
    rewrite bool_decide_true by done.
    rewrite (dec_enc_bind (c_bytes 1) _ [WitnessFlag]) by done. cbn [andb]. rewrite decide_True by done.
    now rewrite (dec_enc_bind c_varint).
  - cbn [app]. rewrite (dec_enc_bind c_varint) by done.
    destruct (len (TxIns t) =? TxFlagMarker) eqn:E; [|done].
    rewrite bool_decide_false; [done|]. intros ->. boolify.
    apply (He eq_refl eq_refl). destruct (TxIns t); [done|].
    unfold len, TxFlagMarker in E. cbn in E. lia.
Qed.

Lemma p_tx_flag e f t rest w : tx_wf t -> (f = false -> HasWitness t = false) ->
  (f = true -> e = WitnessEncoding) -> (e = WitnessEncoding -> f = false -> TxIns t <> []) ->
  p_tx e (Reader (tx_bytes_flag f t ++ rest) w) = (Ok t, Reader rest w).
Proof.
  intros Ht Hw Hf He. pose proof (wf_version _ Ht) as Hv.
  assert (Hb : wf (c_body f) (tx_parts t)) by now apply wf_parts.
  unfold tx_bytes_flag, p_tx. rewrite <- !app_assoc.
  rewrite (dec_enc_bind c_int32 _ (Version t)) by (split; [done|apply u32_range]).
  rewrite enc_body, <- app_assoc. unfold mbind, stm_bind.
  rewrite p_count_enc by done. cbn [fst snd].
  rewrite p_after_count_enc by done. unfold mret, stm_ret, tx_parts.
  rewrite attach_parts. now destruct t.
Qed.

(** ** Soundness: only encodings are accepted *)

Lemma varint_prefix_inj n m x y : in_u64 n -> in_u64 m ->
  varint_bytes n ++ x = varint_bytes m ++ y -> n = m.
Proof.
  intros Hn Hm H. pose proof (dec_enc (c:=c_varint) n x EOF Hn) as H1.
  pose proof (dec_enc (c:=c_varint) m y EOF Hm) as H2. cbn [enc c_varint] in *.
  rewrite H in H1. congruence.
Qed.

Lemma p_count_sound e r f n r' : p_count e r = (Ok (f, n), r') ->
  r_data r = (if f then marker else []) ++ varint_bytes n ++ r_data r' /\ r_end r' = r_end r /\
  in_u64 n /\ (f = true -> e = WitnessEncoding) /\ (e = WitnessEncoding -> f = false -> n <> 0).
Proof.
  unfold p_count. intros H. go_ok H. apply dec_sound in Hm as (Hw & Hd & He). cbn in Hw.
  destruct ((a =? TxFlagMarker) && bool_decide (e = WitnessEncoding)) eqn:E.
  - apply andb_true_iff in E as [E1 E2%bool_decide_eq_true]. boolify. unfold TxFlagMarker in E1. subst.
    go_ok Hk. destruct (decide (a = [WitnessFlag])) as [->|]; [|discriminate]. go_ok Hk0.
    apply (dec_sound (c:=c_bytes 1)) in Hm as (_ & Hd1 & He1).
    apply dec_sound in Hm0 as (Hw2 & Hd2 & He2). cbn [enc c_bytes c_varint] in *.
    rewrite Hd, Hd1, Hd2, He2, He1. done.
  - go_ok Hk. rewrite Hd. split_and!; try done. intros -> _ ->. done.
Qed.

(** What a successful parse of the parts says of the transaction they make. *)
Lemma wf_body_attach f v ins outs ws lt : in_i32 v ->
  wf (c_body f) (ins, outs, ws, lt) ->
  let t := MkMsgTx v (attach ins ws) outs lt in
  tx_parts t = (ins, outs, ws, lt) /\ tx_wf t /\ (f = false -> HasWitness t = false).
Proof.
  intros Hv Hw t.
  assert (Hparts : tx_parts t = (ins, outs, ws, lt)).
  { destruct Hw as [[[Hi _] Hws] _]. unfold tx_parts, t. cbn.
    destruct (parts_attach ins ws) as [-> ->]; [| |done].
    - destruct f; cbn in Hws; [apply Hws|]. rewrite Hws. apply length_replicate.
    - apply wf_varvec in Hi as [_ Hi]; [|done]. apply (Forall_impl _ _ _ Hi). now intros ? []. }
  rewrite <- Hparts in Hw. split; [done|]. now apply wf_parts.
Qed.

Lemma p_tx_sound e r t r' : p_tx e r = (Ok t, r') ->
  exists f, tx_wf t /\ (f = false -> HasWitness t = false) /\
    (f = true -> e = WitnessEncoding) /\ (e = WitnessEncoding -> f = false -> TxIns t <> []) /\
    r_data r = tx_bytes_flag f t ++ r_data r' /\ r_end r' = r_end r.
Proof.
  unfold p_tx. intros H. go_ok H.
  apply (dec_sound (c:=c_int32)) in Hm as ([Hv _] & Hd & He).
  destruct a0 as [f n]. apply p_count_sound in Hm0 as (Hd1 & He1 & Hn & Hf & Hne).
  destruct a1 as [[[ins outs] ws] lt]. cbn [fst snd] in Hm1.
  assert (Hbody : dec (c_body f) (Reader (varint_bytes n ++ r_data s0) (r_end s0)) =
                  (Ok (ins, outs, ws, lt), s1)).
  { rewrite dec_body. rewrite (dec_enc_bind c_varint) by done. now destruct s0. }
  apply dec_sound in Hbody as (Hw & Hd2 & He2). unfold mret, stm_ret in Hk. inv Hk.
  destruct (wf_body_attach f a ins outs ws lt) as (Hparts & Ht & Hwit); [done..|].
  exists f. rewrite <- Hparts in Hd2. cbn [r_data r_end] in Hd2, He2.
  split_and!; try done.
  - intros -> Hff Hnil. apply (Hne eq_refl Hff).
    rewrite enc_body, Hnil, <- app_assoc in Hd2. now apply varint_prefix_inj in Hd2.
  - unfold tx_bytes_flag. rewrite Hd, Hd1, Hd2, <- !app_assoc. done.
  - congruence.
Qed.
