(* ===== verification/WireCommon.v ===== *)
(** * wire/common.go

The reading and writing of the primitive items of the wire protocol, with the
free list of eight-byte buffers they go through.  The state of package wire is
a [world]: the reader, the writer, the two free lists and a supply of buffer
identities.  Each reading function is proved to implement a parser of
WireFormat and each writing function to write a byte string of it, so clients
reason about formats and never about buffers. *)

From Stdlib Require Import ZArith Lia List.
From S2P Require Import Prelude WireFormat TxFormat.

(** ** State *)

(** A buffer of the script pool: its identity and its memory, whose length is
Go's [cap]. *)
Record buffer := Buffer { buf_id : nat; buf_mem : bytes }.

Record world := World {
  w_rd : reader;
  w_out : bytes;                (** what the writer has received *)
  w_room : option nat;          (** bytes it still accepts; [None]: no limit *)
  w_bin : list bytes;           (** binarySerializer: idle eight-byte buffers *)
  w_scripts : list buffer;      (** scriptPool: idle script buffers *)
  w_next : nat                  (** identity of the next allocated buffer *)
}.

Definition set_rd (r : reader) (w : world) : world :=
  World r (w_out w) (w_room w) (w_bin w) (w_scripts w) (w_next w).
Definition set_writer (o : bytes) (m : option nat) (w : world) : world :=
  World (w_rd w) o m (w_bin w) (w_scripts w) (w_next w).
Definition set_bin (l : list bytes) (w : world) : world :=
  World (w_rd w) (w_out w) (w_room w) l (w_scripts w) (w_next w).
Definition set_scripts (l : list buffer) (n : nat) (w : world) : world :=
  World (w_rd w) (w_out w) (w_room w) (w_bin w) l n.

Abbreviation IO := (stm world werr).

(** ** Package io

[io.ReadFull] into the first [n] bytes of a buffer: the error, the new memory
of the buffer and the new state. *)
Definition io_ReadFull (n : nat) (buf : bytes) (w : world) : option werr * bytes * world :=
  let d := r_data (w_rd w) in
  if decide (n <= length d)%nat
  then (None, take n d ++ drop n buf, set_rd (Reader (drop n d) (r_end (w_rd w))) w)
  else (Some (short_err (length d) (r_end (w_rd w))), d ++ drop (length d) buf,
        set_rd (Reader [] (r_end (w_rd w))) w).

(** What a writer with [room] bytes left does with [p]. *)
Definition put (p : bytes) (room : option nat) : result werr unit * bytes * option nat :=
  match room with
  | None => (Ok tt, p, None)
  | Some k => if decide (length p <= k)%nat then (Ok tt, p, Some (k - length p)%nat)
              else (Err ErrWriter, take k p, Some O)
  end.

Definition io_Write (p : bytes) : IO unit := fun w =>
  let '(r, taken, room) := put p (w_room w) in
  (r, set_writer (w_out w ++ taken) room w).

(** The call [_, err := io.ReadFull(r, buf[:n])] and what the caller does next. *)
Definition with_ReadFull {A} (n : nat) (buf : bytes)
    (k : option werr -> bytes -> IO A) : IO A := fun w =>
  let '(err, buf', w') := io_ReadFull n buf w in k err buf' w'.

(** A call whose error the caller inspects before going on. *)
Definition try_ {A B} (m : IO A) (k : result werr A -> IO B) : IO B := fun w =>
  let '(r, w') := m w in k r w'.

(** [buf := make([]byte, n)] followed by [io.ReadFull(r, buf)]. *)
Definition make_ReadFull (n : nat) : IO bytes :=
  with_ReadFull n (replicate n x00) (fun err buf =>
    match err with Some e => fail e | None => mret buf end).

(** ** binaryFreeList *)

Definition MaxVarIntPayload : Z := 9.
Definition binaryFreeListMaxItems : nat := 1024.

(** (l binaryFreeList) Borrow: the oldest idle buffer, or a new one. *)
Definition bin_Borrow : IO bytes := fun w =>
  match w_bin w with
  | buf :: l => (Ok buf, set_bin l w)
  | [] => (Ok (replicate 8 x00), w)
  end.

(** (l binaryFreeList) Return: dropped when the channel is full. *)
Definition bin_Return (buf : bytes) : IO unit := fun w =>
  if decide (length (w_bin w) < binaryFreeListMaxItems)%nat
  then (Ok tt, set_bin (w_bin w ++ [buf]) w)
  else (Ok tt, w).

Inductive ByteOrder := littleEndian | bigEndian.

Definition order_val (o : ByteOrder) : bytes -> Z :=
  match o with littleEndian => le_val | bigEndian => be_val end.
Definition order_bytes (o : ByteOrder) (n : nat) (z : Z) : bytes :=
  match o with littleEndian => le_bytes n z | bigEndian => be_bytes n z end.

(** The common body of Uint8, Uint16, Uint32 and Uint64: borrow, read [n]
bytes, convert, return the buffer on both paths. *)
Definition borrow_read (n : nat) (conv : bytes -> Z) : IO Z :=
  buf ← bin_Borrow;
  with_ReadFull n buf (fun err buf' =>
    match err with
    | Some e => bin_Return buf' ;; fail e
    | None => let rv := conv (take n buf') in bin_Return buf' ;; mret rv
    end).

Definition Uint8 : IO Z := borrow_read 1 (fun b => byte_val (hd x00 b)).
Definition Uint16 (o : ByteOrder) : IO Z := borrow_read 2 (order_val o).
Definition Uint32 (o : ByteOrder) : IO Z := borrow_read 4 (order_val o).
Definition Uint64 (o : ByteOrder) : IO Z := borrow_read 8 (order_val o).

(** The common body of the Put functions: borrow, overwrite the first bytes,
write them, return the buffer, report the writer's error. *)
Definition borrow_write (v : bytes) : IO unit :=
  buf ← bin_Borrow;
  let buf' := v ++ drop (length v) buf in
  try_ (io_Write (take (length v) buf')) (fun r =>
    bin_Return buf' ;; match r with Ok _ => mret tt | Err e => fail e end).

Definition PutUint8 (val : Z) : IO unit := borrow_write [byte_of val].
Definition PutUint16 (o : ByteOrder) (val : Z) : IO unit := borrow_write (order_bytes o 2 val).
Definition PutUint32 (o : ByteOrder) (val : Z) : IO unit := borrow_write (order_bytes o 4 val).
Definition PutUint64 (o : ByteOrder) (val : Z) : IO unit := borrow_write (order_bytes o 8 val).

(** ** Elements

The types of the fast path of readElement and writeElement. *)

(** A [time.Time] as seconds since the epoch and nanoseconds. *)
Record gotime := Time { unix_sec : Z; nsec : Z }.

Inductive kind :=
  | KInt32 | KUint32 | KInt64 | KUint64 | KBool | KUint32Time | KInt64Time
  | KChecksum | KCommand | KIP | KHash
  | KServiceFlag | KInvType | KBitcoinNet | KBloomUpdateType | KRejectCode.

Definition CommandSize : nat := 12.

Definition elem_type (k : kind) : Type :=
  match k with
  | KBool => bool
  | KUint32Time | KInt64Time => gotime
  | KChecksum | KCommand | KIP | KHash => bytes
  | _ => Z
  end.

Definition readElement (k : kind) : IO (elem_type k) :=
  match k with
  | KInt32 => rv ← Uint32 littleEndian; mret (i32 rv)
  | KUint32 => Uint32 littleEndian
  | KInt64 => rv ← Uint64 littleEndian; mret (i64 rv)
  | KUint64 => Uint64 littleEndian
  | KBool => rv ← Uint8; mret (negb (rv =? 0x00))
  | KUint32Time => rv ← Uint32 littleEndian; mret (Time (i64 rv) 0)
  | KInt64Time => rv ← Uint64 littleEndian; mret (Time (i64 rv) 0)
  | KChecksum => make_ReadFull 4
  | KCommand => make_ReadFull CommandSize
  | KIP => make_ReadFull 16
  | KHash => make_ReadFull 32
  | KServiceFlag => Uint64 littleEndian
  | KInvType => Uint32 littleEndian
  | KBitcoinNet => Uint32 littleEndian
  | KBloomUpdateType => Uint8
  | KRejectCode => Uint8
  end.

(** The two time types have no case in writeElement: binary.Write, the slow
path, rejects them. *)
Definition writeElement (k : kind) : elem_type k -> IO unit :=
  match k with
  | KInt32 => fun e => PutUint32 littleEndian (u32 e)
  | KUint32 => fun e => PutUint32 littleEndian e
  | KInt64 => fun e => PutUint64 littleEndian (u64 e)
  | KUint64 => fun e => PutUint64 littleEndian e
  | KBool => fun e => if e then PutUint8 0x01 else PutUint8 0x00
  | KUint32Time | KInt64Time => fun _ => fail ErrInvalidType
  | KChecksum | KCommand | KIP | KHash => fun e => io_Write e
  | KServiceFlag => fun e => PutUint64 littleEndian e
  | KInvType | KBitcoinNet => fun e => PutUint32 littleEndian e
  | KBloomUpdateType | KRejectCode => fun e => PutUint8 e
  end.

Fixpoint elems_type (ks : list kind) : Type :=
  match ks with
  | [] => unit
  | k :: ks' => (elem_type k * elems_type ks')%type
  end.

Fixpoint readElements (ks : list kind) : IO (elems_type ks) :=
  match ks with
  | [] => mret tt
  | k :: ks' => e ← readElement k; es ← readElements ks'; mret (e, es)
  end.

Fixpoint writeElements (ks : list kind) : elems_type ks -> IO unit :=
  match ks with
  | [] => fun _ => mret tt
  | k :: ks' => fun es => writeElement k es.1 ;; writeElements ks' es.2
  end.

(** ** Variable length integers, strings and byte arrays *)

Definition MaxUint16 : Z := 0xffff.
Definition MaxUint32 : Z := 0xffffffff.

Definition ReadVarInt : IO Z :=
  discriminant ← Uint8;
  if discriminant =? 0xff then
    sv ← Uint64 littleEndian;
    let min := 0x100000000 in
    if sv <? min then fail (nonCanonical sv discriminant min) else mret sv
  else if discriminant =? 0xfe then
    sv ← Uint32 littleEndian;
    let min := 0x10000 in
    if sv <? min then fail (nonCanonical sv discriminant min) else mret sv
  else if discriminant =? 0xfd then
    sv ← Uint16 littleEndian;
    let min := 0xfd in
    if sv <? min then fail (nonCanonical sv discriminant min) else mret sv
  else mret discriminant.

Definition WriteVarInt (val : Z) : IO unit :=
  if val <? 0xfd then PutUint8 (u8 val)
  else if val <=? MaxUint16 then
    PutUint8 0xfd ;; PutUint16 littleEndian (u16 val)
  else if val <=? MaxUint32 then
    PutUint8 0xfe ;; PutUint32 littleEndian (u32 val)
  else PutUint8 0xff ;; PutUint64 littleEndian val.

Definition VarIntSerializeSize (val : Z) : Z :=
  if val <? 0xfd then 1
  else if val <=? MaxUint16 then 3
  else if val <=? MaxUint32 then 5
  else 9.

Definition varStringTooLong (count : Z) : werr :=
  messageError "ReadVarString" ("variable length string is too long [count " +:+
    fmt_d count +:+ ", max " +:+ fmt_d MaxMessagePayload +:+ "]")%string.

Definition ReadVarString : IO bytes :=
  count ← ReadVarInt;
  if MaxMessagePayload <? count then fail (varStringTooLong count)
  else make_ReadFull (Z.to_nat count).

Definition WriteVarString (str : bytes) : IO unit :=
  WriteVarInt (u64 (len str)) ;; io_Write str.

Definition ReadVarBytes (maxAllowed : Z) (fieldName : string) : IO bytes :=
  count ← ReadVarInt;
  if maxAllowed <? count then fail (tooLarge "ReadVarBytes" fieldName maxAllowed count)
  else make_ReadFull (Z.to_nat count).

Definition WriteVarBytes (b : bytes) : IO unit :=
  WriteVarInt (u64 (len b)) ;; io_Write b.

(** randomUint64: a big-endian integer from the given source of randomness. *)
Definition randomUint64 : IO Z := Uint64 bigEndian.

(** ** Refinement: a reading function implements a parser

On every reader, with any stale bytes in the pooled buffers, it returns what
the parser returns (value or error), leaves the reader where the parser does
and touches nothing of the writer. *)

Definition res_map {E A B} (f : A -> B) (r : result E A) : result E B :=
  match r with Ok a => Ok (f a) | Err e => Err e end.

(** The free lists hold buffers of the right capacity. *)
Definition bufs_ok (w : world) : Prop :=
  Forall (fun b => length b = 8%nat) (w_bin w) /\
  (length (w_bin w) <= binaryFreeListMaxItems)%nat /\
  Forall (fun b => length (buf_mem b) = freeListMaxScriptSize) (w_scripts w).

#[export] Instance bufs_ok_dec w : Decision (bufs_ok w).
Proof. unfold bufs_ok. apply _. Defined.

Definition same_writer (w w' : world) : Prop :=
  w_out w' = w_out w /\ w_room w' = w_room w.

Definition implements {A B} (f : A -> B) (m : IO A) (p : parser B) : Prop :=
  forall w, bufs_ok w ->
    p (w_rd w) = (res_map f (m w).1, w_rd (m w).2) /\
    bufs_ok (m w).2 /\ same_writer w (m w).2.

Abbreviation reads := (implements (fun a => a)).

(** A writing function delivers [bs]: all of it and returns nil, or as much as
the writer takes and returns the writer's error. *)
Definition writes (m : IO unit) (bs : bytes) : Prop :=
  forall w, bufs_ok w ->
    (let '(r, taken, room) := put bs (w_room w) in
     (m w).1 = r /\ w_out (m w).2 = w_out w ++ taken /\ w_room (m w).2 = room) /\
    w_rd (m w).2 = w_rd w /\ bufs_ok (m w).2.

Create HintDb wire.

Lemma implements_ret {A B} (f : A -> B) a b : f a = b -> implements f (mret a) (mret b).
Proof. intros <- w Hw. done. Qed.

Lemma implements_fail {A B} (f : A -> B) e : implements f (fail e) (fail e).
Proof. intros w Hw. done. Qed.

Lemma implements_bind {A B C D} (f : A -> B) (g : C -> D) m p k q :
  implements f m p -> (forall a, implements g (k a) (q (f a))) ->
  implements g (m ≫= k) (p ≫= q).
Proof.
  intros Hm Hk w Hw. destruct (Hm w Hw) as (Hp & Hb & Ho & Hr).
  unfold mbind, stm_bind. rewrite Hp. destruct (m w) as [[a|e] w1]; cbn in *; [|done].
  destruct (Hk a w1 Hb) as (Hq & Hb' & Ho' & Hr'). rewrite Hq.
  split_and!; try done. split; congruence.
Qed.

(** Binds that only the code has: a call that changes no more than the pools. *)
Definition pool_only {A} (m : IO A) : Prop := forall w, bufs_ok w ->
  bufs_ok (m w).2 /\ same_writer w (m w).2 /\ w_rd (m w).2 = w_rd w /\ is_ok (m w).1 = true.

Lemma implements_pool_bind {A B C} (f : B -> C) (m : IO A) (k : A -> IO B) (q : parser C) :
  pool_only m -> (forall a, implements f (k a) q) -> implements f (m ≫= k) q.
Proof.
  intros Hm Hk w Hw. destruct (Hm w Hw) as (Hb & [Ho Hr] & Hrd & Hok).
  unfold mbind, stm_bind. destruct (m w) as [[a|e] w1]; cbn in *; [|done].
  destruct (Hk a w1 Hb) as (Hq & Hb' & Ho' & Hr'). rewrite <- Hrd.
  split_and!; try done. split; congruence.
Qed.

Lemma pool_Return buf : length buf = 8%nat -> pool_only (bin_Return buf).
Proof.
  intros Hl w (Hb & Hc & Hs). unfold bin_Return. case_decide; [|done].
  split_and!; try done. cbn. split_and!; [apply Forall_app; auto| |done].
  cbn [w_bin set_bin]. rewrite length_app. cbn [length]. lia.
Qed.

(** Borrowing succeeds with an eight-byte buffer. *)
Lemma implements_Borrow {B C} (f : B -> C) (k : bytes -> IO B) q :
  (forall buf, length buf = 8%nat -> implements f (k buf) q) -> implements f (bin_Borrow ≫= k) q.
Proof.
  intros Hk w (Hb & Hc & Hs). unfold mbind, stm_bind, bin_Borrow.
  destruct (w_bin w) as [|buf l] eqn:E; cbn.
  - apply Hk; [done|]. unfold bufs_ok. now rewrite E.
  - inv Hb. cbn in Hc. destruct (Hk buf ltac:(done) (set_bin l w)) as (Hq & Hb' & Ho & Hr).
    { split_and!; cbn; try done. lia. }
    done.
Qed.

Lemma implements_with_ReadFull {A B} (f : A -> B) n buf k q :
  (n <= length buf)%nat ->
  (forall b', length b' = length buf -> implements f (k None b') (q (take n b'))) ->
  (forall e b', length b' = length buf -> implements f (k (Some e) b') (fail e)) ->
  implements f (with_ReadFull n buf k) (p_take n ≫= q).
Proof.
  intros Hn HN HS w Hw. unfold with_ReadFull, io_ReadFull, mbind, stm_bind, p_take.
  destruct (decide (n <= length (r_data (w_rd w)))%nat) as [Hle|Hgt].
  - set (w1 := set_rd _ w).
    set (b' := take n (r_data (w_rd w)) ++ drop n buf).
    assert (Hb' : length b' = length buf).
    { unfold b'. rewrite length_app, length_take, length_drop. lia. }
    assert (Ht : take n b' = take n (r_data (w_rd w))).
    { unfold b'. apply take_app_exact. rewrite length_take. lia. }
    destruct (HN b' Hb' w1) as (Hq & Hx); [done|]. rewrite Ht in Hq. done.
  - set (w1 := set_rd _ w).
    set (b' := r_data (w_rd w) ++ _).
    assert (Hb' : length b' = length buf).
    { unfold b'. rewrite length_app, length_drop. lia. }
    destruct (HS (short_err (length (r_data (w_rd w))) (r_end (w_rd w))) b' Hb' w1) as (Hq & Hx);
      [done|].
    cbn in Hq. split; [|done]. etransitivity; [|exact Hq]. done.
Qed.

Lemma reads_borrow n conv : (n <= 8)%nat ->
  reads (borrow_read n conv) (b ← p_take n; mret (conv b)).
Proof.
  intros Hn. apply implements_Borrow. intros buf Hl.
  apply (implements_with_ReadFull _ n buf _ (fun b => mret (conv b))); [lia| |].
  - intros b' Hb'. apply implements_pool_bind; [apply pool_Return; lia|].
    intros _. now apply implements_ret.
  - intros e b' Hb'. apply implements_pool_bind; [apply pool_Return; lia|].
    intros _. apply implements_fail.
Qed.

Lemma reads_make n : reads (make_ReadFull n) (p_take n).
Proof.
  assert (Hret : forall r, p_take n r = (p_take n ≫= mret) r).
  { intros r. unfold mbind, stm_bind, p_take. now case_decide. }
  intros w Hw. rewrite Hret. revert w Hw. change (reads (make_ReadFull n) (p_take n ≫= mret)).
  apply implements_with_ReadFull.
  - now rewrite length_replicate.
  - intros b' Hb'. rewrite length_replicate in Hb'. apply implements_ret.
    rewrite take_ge; [done|lia].
  - intros e b' _. apply implements_fail.
Qed.

Lemma implements_eq {A B} (f : A -> B) m p q :
  (forall r, p r = q r) -> implements f m p -> implements f m q.
Proof. intros Heq Hm w Hw. rewrite <- Heq. now apply Hm. Qed.

(** *** The unsigned integers *)

Lemma reads_Uint8 : reads Uint8 (dec (c_uint 1)).
Proof.
  eapply implements_eq; [|apply (reads_borrow 1); lia]. intros r.
  unfold c_uint. cbn [dec]. unfold mbind, stm_bind.
  destruct (p_take 1 r) as [[b|] r'] eqn:E; [|done].
  apply (dec_sound (c:=c_bytes 1)) in E as (Hl & _). cbn in Hl.
  destruct b as [|x [|y b]]; try discriminate Hl. cbn. do 2 f_equal. unfold mret, stm_ret. do 2 f_equal. lia.
Qed.

Lemma reads_Uint16 : reads (Uint16 littleEndian) (dec (c_uint 2)).
Proof. apply (reads_borrow 2). lia. Qed.
Lemma reads_Uint32 : reads (Uint32 littleEndian) (dec (c_uint 4)).
Proof. apply (reads_borrow 4). lia. Qed.
Lemma reads_Uint64 : reads (Uint64 littleEndian) (dec (c_uint 8)).
Proof. apply (reads_borrow 8). lia. Qed.

#[export] Hint Resolve reads_Uint8 reads_Uint16 reads_Uint32 reads_Uint64 reads_make : wire.
#[export] Hint Resolve implements_fail : wire.
#[export] Hint Extern 1 (implements _ (mret _) (mret _)) => apply implements_ret; reflexivity : wire.

(** *** Elements *)

Definition p_elem (k : kind) : parser (elem_type k) :=
  match k with
  | KInt32 => dec c_int32
  | KUint32 | KInvType | KBitcoinNet => dec (c_uint 4)
  | KInt64 => dec c_int64
  | KUint64 | KServiceFlag => dec (c_uint 8)
  | KBool => b ← dec (c_uint 1); mret (negb (b =? 0))
  | KUint32Time => s ← dec (c_uint 4); mret (Time (i64 s) 0)
  | KInt64Time => s ← dec (c_uint 8); mret (Time (i64 s) 0)
  | KChecksum => p_take 4
  | KCommand => p_take 12
  | KIP => p_take 16
  | KHash => p_take 32
  | KBloomUpdateType | KRejectCode => dec (c_uint 1)
  end.

Fixpoint p_elems (ks : list kind) : parser (elems_type ks) :=
  match ks with
  | [] => mret tt
  | k :: ks' => e ← p_elem k; es ← p_elems ks'; mret (e, es)
  end.

(** [wire_step]: match a reading function and its parser, call by call. *)
Ltac wire_step :=
  lazymatch goal with
  | |- implements _ (_ ≫= _) (_ ≫= _) =>
      eapply (implements_bind (fun a => a)); [eauto with wire|intros ?; cbv beta]
  | |- implements _ (if ?b then _ else _) (if ?b then _ else _) => destruct b
  | |- implements _ (mret _) (mret _) => apply implements_ret
  | |- implements _ (fail _) (fail _) => apply implements_fail
  end.
Ltac wire := repeat wire_step; eauto with wire.

Lemma reads_Element k : reads (readElement k) (p_elem k).
Proof.
  destruct k; cbn [readElement p_elem dec c_int32 c_int64 c_map];
    first [solve [auto with wire] | wire].
Qed.
#[export] Hint Resolve reads_Element : wire.

Lemma reads_Elements ks : reads (readElements ks) (p_elems ks).
Proof. induction ks as [|k ks IH]; cbn [readElements p_elems]; wire. Qed.
#[export] Hint Resolve reads_Elements : wire.

(** *** Variable length items *)

Lemma reads_VarInt : reads ReadVarInt (dec c_varint).
Proof. unfold ReadVarInt, c_varint, p_varint, p_varint_tail. cbn [dec]. wire. Qed.
#[export] Hint Resolve reads_VarInt : wire.

Definition c_varstring : codec bytes := c_varbytes MaxMessagePayload varStringTooLong.

(** The check of a count followed by the item, as codecs write it. *)
Lemma implements_checked {A B} (f : A -> B) max err n (m : IO A) (p : parser B) :
  implements f m p ->
  implements f (if max <? n then fail (err n) else m)
    (match at_most max err n with Some e => fail e | None => p end).
Proof. intros H. unfold at_most. destruct (max <? n); auto with wire. Qed.

Lemma reads_VarString : reads ReadVarString (dec c_varstring).
Proof.
  unfold ReadVarString. cbn [dec c_varstring c_varbytes c_counted]. wire_step.
  apply implements_checked. auto with wire.
Qed.

Lemma reads_VarBytes max name : reads (ReadVarBytes max name)
  (dec (c_varbytes max (tooLarge "ReadVarBytes" name max))).
Proof.
  unfold ReadVarBytes. cbn [dec c_varbytes c_counted]. wire_step.
  apply (implements_checked _ max (tooLarge _ _ _)). auto with wire.
Qed.
#[export] Hint Resolve reads_VarString reads_VarBytes : wire.

(** ** Refinement: a writing function delivers an encoding *)

Lemma put_app p q room :
  put (p ++ q) room =
  match put p room with
  | (Ok _, a, room') =>
      let '(r, b, room'') := put q room' in (r, a ++ b, room'')
  | stopped => stopped
  end.
Proof.
  destruct room as [k|]; cbn; [|done]. rewrite length_app.
  case_decide; case_decide; try lia; unfold put; try (case_decide; try lia).
  - do 2 f_equal. lia.
  - rewrite take_app_ge by lia. done.
  - rewrite take_app_le by lia. done.
Qed.

Lemma writes_nil : writes (mret tt) [].
Proof.
  intros w Hw. unfold put. cbn. destruct (w_room w) as [k|]; [|now rewrite app_nil_r].
  rewrite decide_True by lia. now rewrite app_nil_r, Nat.sub_0_r.
Qed.

Lemma writes_app m k a b : writes m a -> writes k b -> writes (m ;; k) (a ++ b).
Proof.
  intros Hm Hk w Hw. destruct (Hm w Hw) as (H1 & Hrd & Hb). rewrite put_app.
  unfold mbind, stm_bind. destruct (put a (w_room w)) as [[r ta] ra].
  destruct (m w) as [[u|e] w1]; cbn in H1, Hrd, Hb; destruct H1 as (<- & Ho & Hro); cbn; [|done].
  destruct (Hk w1 Hb) as (H2 & Hrd2 & Hb2). rewrite Hro in H2.
  destruct (put b ra) as [[r2 tb] rb]. destruct H2 as (? & Ho2 & ?).
  rewrite Ho2, Ho, <- app_assoc. split_and!; try done. congruence.
Qed.

Lemma writes_Write bs : writes (io_Write bs) bs.
Proof.
  intros w Hw. unfold io_Write. destruct (put bs (w_room w)) as [[r t] room]. done.
Qed.

Lemma writes_eq m a b : a = b -> writes m a -> writes m b.
Proof. now intros ->. Qed.

Lemma writes_Borrow (k : bytes -> IO unit) bs :
  (forall buf, length buf = 8%nat -> writes (k buf) bs) -> writes (bin_Borrow ≫= k) bs.
Proof.
  intros Hk w Hw. unfold mbind, stm_bind, bin_Borrow.
  destruct (w_bin w) as [|buf l] eqn:E; [now apply Hk|].
  destruct Hw as (Hb & Hc & Hs). rewrite E in Hb, Hc. inv Hb.
  apply (Hk buf ltac:(done) (set_bin l w)). split_and!; cbn in *; try done. lia.
Qed.

Lemma writes_try_Return v buf : length buf = 8%nat ->
  writes (try_ (io_Write v) (fun r =>
    bin_Return buf ;; match r with Ok _ => mret tt | Err e => fail e end)) v.
Proof.
  intros Hbuf w Hw. unfold try_. destruct (writes_Write v w Hw) as (H1 & H2 & H3).
  destruct (io_Write v w) as [r w1]. cbn [fst snd] in *.
  destruct (pool_Return buf Hbuf w1 H3) as (Hb1 & [Ho Hr] & Hrd & Hok).
  unfold mbind, stm_bind. destruct (bin_Return buf w1) as [[[]|] w2]; cbn in *; [|done].
  destruct (put v (w_room w)) as [[r' t] room]. destruct H1 as (-> & ? & ?).
  destruct r' as [[]|]; cbn; split_and!; try done; congruence.
Qed.

Lemma writes_borrow v : (length v <= 8)%nat -> writes (borrow_write v) v.
Proof.
  intros Hl. apply writes_Borrow. intros buf Hbuf. cbv zeta. rewrite take_app_exact by done.
  apply writes_try_Return. rewrite length_app, length_drop. lia.
Qed.

Lemma byte_of_mod z : byte_of (u8 z) = byte_of z.
Proof. unfold byte_of, u8. now rewrite Z.mod_mod by lia. Qed.

Lemma le_bytes_mod n z : le_bytes n (z mod 256 ^ Z.of_nat n) = le_bytes n z.
Proof.
  revert z; induction n as [|n IH]; intros z; [done|]. cbn [le_bytes]. rewrite pow256_S. f_equal.
  - apply byte_val_inj. rewrite !byte_val_of. rewrite Z.rem_mul_r by lia.
    rewrite (Z.mul_comm 256), Z.mod_add, Z.mod_mod; lia.
  - rewrite <- (IH (z / 256)). f_equal. rewrite Z.rem_mul_r by lia.
    rewrite (Z.mul_comm 256), Z.div_add, Z.div_small; [lia|apply Z.mod_pos_bound; lia|lia].
Qed.

Lemma writes_PutUint8 z : writes (PutUint8 z) [byte_of z].
Proof. apply writes_borrow. cbn. lia. Qed.
Lemma writes_PutUint16 z : writes (PutUint16 littleEndian z) (le_bytes 2 z).
Proof. apply writes_borrow. cbn. lia. Qed.
Lemma writes_PutUint32 z : writes (PutUint32 littleEndian z) (le_bytes 4 z).
Proof. apply writes_borrow. cbn. lia. Qed.
Lemma writes_PutUint64 z : writes (PutUint64 littleEndian z) (le_bytes 8 z).
Proof. apply writes_borrow. cbn. lia. Qed.

#[export] Hint Resolve writes_nil writes_Write writes_PutUint8 writes_PutUint16
  writes_PutUint32 writes_PutUint64 : wire.

Lemma writes_forM {A} (l : list A) (f : A -> IO unit) (g : A -> bytes) :
  (forall x, writes (f x) (g x)) -> writes (forM_ l f) (concat (map g l)).
Proof.
  intros H. induction l as [|x l IH]; cbn; [apply writes_nil|]. now apply writes_app.
Qed.

Lemma writes_VarInt v : in_u64 v -> writes (WriteVarInt v) (varint_bytes v).
Proof.
  intros Hv. unfold WriteVarInt, varint_bytes, varint_disc, varint_width, MaxUint16, MaxUint32.
  repeat case_cmp; boolify; try (unfold in_u64 in Hv; lia).
  - rewrite <- byte_of_mod. apply writes_PutUint8.
  - apply (writes_app _ _ [_]); [apply writes_PutUint8|].
    rewrite <- (le_bytes_mod 2). apply writes_PutUint16.
  - apply (writes_app _ _ [_]); [apply writes_PutUint8|].
    rewrite <- (le_bytes_mod 4). apply writes_PutUint32.
  - apply (writes_app _ _ [_]); auto with wire.
Qed.

Lemma writes_VarString s : len s < 2 ^ 64 -> writes (WriteVarString s) (varint_bytes (len s) ++ s).
Proof.
  intros Hs. unfold WriteVarString.
  assert (Hu : in_u64 (len s)) by (pose proof (len_nonneg s); words).
  rewrite u64_small by done. apply writes_app; auto using writes_VarInt with wire.
Qed.

Lemma writes_VarBytes b : len b < 2 ^ 64 -> writes (WriteVarBytes b) (varint_bytes (len b) ++ b).
Proof. apply writes_VarString. Qed.

(** What writeElement emits for the kinds it supports. *)
Definition elem_bytes (k : kind) : elem_type k -> option bytes :=
  match k with
  | KInt32 => fun e => Some (le_bytes 4 (u32 e))
  | KUint32 | KInvType | KBitcoinNet => fun e => Some (le_bytes 4 e)
  | KInt64 => fun e => Some (le_bytes 8 (u64 e))
  | KUint64 | KServiceFlag => fun e => Some (le_bytes 8 e)
  | KBool => fun e => Some [if e : bool then x01 else x00]
  | KUint32Time | KInt64Time => fun _ => None
  | KChecksum | KCommand | KIP | KHash => fun e => Some e
  | KBloomUpdateType | KRejectCode => fun e => Some [byte_of e]
  end.

(** The Go type of each kind, as a range. *)
Definition elem_wf (k : kind) : elem_type k -> Prop :=
  match k with
  | KInt32 => in_i32
  | KUint32 | KInvType | KBitcoinNet => in_u32
  | KInt64 => in_i64
  | KUint64 | KServiceFlag => in_u64
  | KBool => fun _ => True
  | KUint32Time | KInt64Time => fun _ => True
  | KChecksum => fun e => length e = 4%nat
  | KCommand => fun e => length e = CommandSize
  | KIP => fun e => length e = 16%nat
  | KHash => fun e => length e = 32%nat
  | KBloomUpdateType | KRejectCode => in_u8
  end.

Lemma writes_Element k v bs : elem_bytes k v = Some bs -> writes (writeElement k v) bs.
Proof.
  destruct k; cbn; intros [= <-]; auto with wire.
  destruct v; [apply (writes_PutUint8 1)|apply (writes_PutUint8 0)].
Qed.

Lemma p_elem_bytes k v bs rest e : elem_wf k v -> elem_bytes k v = Some bs ->
  p_elem k (Reader (bs ++ rest) e) = (Ok v, Reader rest e).
Proof.
  destruct k; cbn [elem_type elem_wf elem_bytes p_elem]; intros Hv H;
    try discriminate H; apply (inj Some) in H; subst bs;
    lazymatch goal with
    | |- dec (c_uint ?n) _ = _ => apply (dec_enc (c:=c_uint n)); cbn; words
    | |- p_take ?n _ = _ => now apply (dec_enc (c:=c_bytes n))
    | |- dec c_int32 _ = _ => apply (dec_enc (c:=c_int32)); split; [done|apply u32_range]
    | |- dec c_int64 _ = _ => apply (dec_enc (c:=c_int64)); split; [done|apply u64_range]
    | |- _ => now destruct v
    end.
Qed.

(** ** Running a writer and then a reader *)

(** The world of a call that reads [bs] (from a reader that ends with [e]) with
free lists and writer as in [w]. *)
Definition reading (bs : bytes) (e : werr) (w : world) : world := set_rd (Reader bs e) w.

(** The bytes a call appends to the writer. *)
Definition written (m : IO unit) (w : world) : bytes :=
  drop (length (w_out w)) (w_out (m w).2).

Lemma bufs_ok_reading bs e w : bufs_ok (reading bs e w) <-> bufs_ok w.
Proof. done. Qed.

Lemma writes_unlimited m bs w : writes m bs -> bufs_ok w -> w_room w = None ->
  (m w).1 = Ok tt /\ written m w = bs /\ bufs_ok (m w).2.
Proof.
  intros Hm Hw Hr. destruct (Hm w Hw) as (H & _ & Hb). rewrite Hr in H. cbn in H.
  destruct H as (? & Ho & _). unfold written. rewrite Ho. now rewrite drop_app_length.
Qed.

Lemma reads_run {A} (m : IO A) p w a bs rest e : reads m p -> bufs_ok w ->
  p (Reader (bs ++ rest) e) = (Ok a, Reader rest e) ->
  (m (reading (bs ++ rest) e w)).1 = Ok a /\
  w_rd (m (reading (bs ++ rest) e w)).2 = Reader rest e.
Proof.
  intros Hm Hw Hp. destruct (Hm (reading (bs ++ rest) e w)) as (H & _); [done|].
  cbn [w_rd reading set_rd] in H. rewrite Hp in H. inv H.
  destruct (m (reading (bs ++ rest) e w)) as [[]]; cbn in *; [|discriminate].
  split; congruence.
Qed.

Lemma reads_Ok {A} (m : IO A) p w a : reads m p -> bufs_ok w -> (m w).1 = Ok a ->
  p (w_rd w) = (Ok a, w_rd (m w).2).
Proof. intros Hm Hw H. destruct (Hm w Hw) as (-> & _). now rewrite H. Qed.

(** ** Properties *)

(** WriteVarInt and ReadVarInt are inverse: what WriteVarInt emits for a
uint64, followed by anything, is read back as that value, and the reader is
left exactly after it. *)
Theorem VarInt_roundtrip w w' v rest e :
  bufs_ok w -> bufs_ok w' -> w_room w = None -> in_u64 v ->
  (WriteVarInt v w).1 = Ok tt /\
  let r := ReadVarInt (reading (written (WriteVarInt v) w ++ rest) e w') in
  r.1 = Ok v /\ w_rd r.2 = Reader rest e.
Proof.
  intros Hw Hw' Hr Hv.
  destruct (writes_unlimited _ _ w (writes_VarInt v Hv) Hw Hr) as (H1 & H2 & _).
  split; [done|]. cbn zeta. rewrite H2.
  apply (reads_run _ _ w' v _ _ _ reads_VarInt Hw'). now apply (dec_enc (c:=c_varint)).
Qed.

Lemma VarIntSerializeSize_spec v : VarIntSerializeSize v = varint_size v.
Proof.
  unfold VarIntSerializeSize, varint_size, varint_width, MaxUint16, MaxUint32.
  repeat case_cmp; done.
Qed.

(** ReadVarInt accepts only canonical encodings: when it returns a value the
reader started with exactly the bytes WriteVarInt emits for it, which are as
many as VarIntSerializeSize announces and never more than MaxVarIntPayload. *)
Theorem ReadVarInt_canonical w v :
  bufs_ok w -> (ReadVarInt w).1 = Ok v ->
  in_u64 v /\ writes (WriteVarInt v) (varint_bytes v) /\
  r_data (w_rd w) = varint_bytes v ++ r_data (w_rd (ReadVarInt w).2) /\
  len (varint_bytes v) = VarIntSerializeSize v /\ VarIntSerializeSize v <= MaxVarIntPayload.
Proof.
  intros Hw H. apply (reads_Ok _ _ _ _ reads_VarInt Hw) in H.
  apply (dec_sound (c:=c_varint)) in H as (Hv & Hd & _).
  rewrite length_varint_bytes, VarIntSerializeSize_spec.
  split_and!; try done; [now apply writes_VarInt|].
  unfold varint_size, varint_width, MaxVarIntPayload. repeat case_cmp; lia.
Qed.

Example ReadVarInt_canonical_witness :
  let w := World (Reader [xfd; xfd; x00; x07] EOF) [] None [] [] 0 in
  (ReadVarInt w).1 = Ok 253 /\ varint_bytes 253 = [xfd; xfd; x00] /\ VarIntSerializeSize 253 = 3.
Proof.
  intros w.
  assert (Hw : bufs_ok w) by decide_now.
  assert (H : (ReadVarInt w).1 = Ok 253) by reflexivity.
  destruct (ReadVarInt_canonical w 253 Hw H) as (_ & _ & _ & Hl & _).
  split_and!; [done|reflexivity|reflexivity].
Defined.

(** A varint that a shorter form could encode is refused. *)
Lemma ReadVarInt_rejects_padding :
  let w := World (Reader [xfd; xfc; x00] EOF) [] None [] [] 0 in
  (ReadVarInt w).1 = Err (nonCanonical 0xfc 0xfd 0xfd).
Proof. reflexivity. Qed.

(** The free list is invisible and stays sound: whatever stale bytes its
buffers hold and however many are idle, readElements returns the same values or
the same error and consumes the same bytes, writes nothing, and leaves the free
lists well formed and no longer than binaryFreeListMaxItems. *)
Theorem readElements_freelist ks w w' :
  bufs_ok w -> bufs_ok w' -> w_rd w = w_rd w' ->
  (readElements ks w).1 = (readElements ks w').1 /\
  w_rd (readElements ks w).2 = w_rd (readElements ks w').2 /\
  same_writer w (readElements ks w).2 /\ bufs_ok (readElements ks w).2.
Proof.
  intros Hw Hw' Heq. destruct (reads_Elements ks w Hw) as (H1 & Hb & Ho).
  destruct (reads_Elements ks w' Hw') as (H2 & _). rewrite Heq, H2 in H1.
  destruct (readElements ks w) as [r w1], (readElements ks w') as [r' w1']. cbn in *.
  destruct r, r'; inv H1; done.
Qed.

Example readElements_freelist_witness :
  let rd := Reader [x01; x02; x03; x04; x05] EOF in
  let w := World rd [] None [] [] 0 in
  let w' := World rd [] None [replicate 8 xaa; replicate 8 xbb] [] 0 in
  (readElements [KInt32; KBool] w).1 = (readElements [KInt32; KBool] w').1 /\
  w_bin (readElements [KInt32; KBool] w').2 =
    [ [x01; x02; x03; x04; xaa; xaa; xaa; xaa]; x05 :: replicate 7 xbb ].
Proof.
  intros rd w w'.
  assert (Hw : bufs_ok w) by decide_now.
  assert (Hw' : bufs_ok w') by decide_now.
  destruct (readElements_freelist [KInt32; KBool] w w' Hw Hw' eq_refl) as (H & _).
  split; [exact H|reflexivity].
Defined.

Fixpoint elems_bytes (ks : list kind) : elems_type ks -> option bytes :=
  match ks with
  | [] => fun _ => Some []
  | k :: ks' => fun vs =>
      b ← elem_bytes k vs.1; bs ← elems_bytes ks' vs.2; Some (b ++ bs)
  end.

Lemma writes_Elements ks (vs : elems_type ks) bs :
  elems_bytes ks vs = Some bs -> writes (writeElements ks vs) bs.
Proof.
  revert vs bs; induction ks as [|k ks IH]; intros vs bs H; cbn in H.
  - inv H. apply writes_nil.
  - destruct (elem_bytes k vs.1) as [b|] eqn:E; [|discriminate].
    destruct (elems_bytes ks vs.2) as [bs'|] eqn:E'; [|discriminate]. cbn in H. inv H.
    apply writes_app; [now apply writes_Element|auto].
Qed.

(** Every supported element type survives writeElement followed by
readElement; the two timestamp types cannot be written at all. *)
Theorem Element_roundtrip k (v : elem_type k) w w' rest e :
  bufs_ok w -> bufs_ok w' -> w_room w = None -> elem_wf k v ->
  match k with
  | KUint32Time | KInt64Time => writeElement k v w = (Err ErrInvalidType, w)
  | _ =>
      (writeElement k v w).1 = Ok tt /\
      let r := readElement k (reading (written (writeElement k v) w ++ rest) e w') in
      r.1 = Ok v /\ w_rd r.2 = Reader rest e
  end.
Proof.
  intros Hw Hw' Hr Hv. destruct (elem_bytes k v) as [bs|] eqn:E.
  - destruct (writes_unlimited _ _ w (writes_Element k v bs E) Hw Hr) as (H1 & H2 & _).
    pose proof (reads_run _ _ w' v bs rest e (reads_Element k) Hw'
                  (p_elem_bytes k v bs rest e Hv E)) as H3.
    rewrite H2. destruct k; try done; discriminate E.
  - destruct k; try discriminate E; done.
Qed.

(** ReadVarBytes enforces its limit before it reads: when the announced
count exceeds maxAllowed it fails with the ReadVarBytes message error and has
consumed the count and not one byte of the payload; when it succeeds the result
has the announced length and respects the limit. *)
Theorem ReadVarBytes_limit max name w n rest e :
  bufs_ok w -> in_u64 n -> w_rd w = Reader (varint_bytes n ++ rest) e ->
  if max <? n then
    (ReadVarBytes max name w).1 = Err (tooLarge "ReadVarBytes" name max n) /\
    w_rd (ReadVarBytes max name w).2 = Reader rest e
  else if decide (Z.to_nat n <= length rest)%nat then
    (ReadVarBytes max name w).1 = Ok (take (Z.to_nat n) rest) /\
    w_rd (ReadVarBytes max name w).2 = Reader (drop (Z.to_nat n) rest) e
  else (ReadVarBytes max name w).1 = Err (short_err (length rest) e).
Proof.
  intros Hw Hn Hrd. destruct (reads_VarBytes max name w Hw) as (H & _).
  rewrite Hrd in H. cbn [dec c_varbytes c_counted] in H.
  rewrite (dec_enc_bind c_varint) in H by done.
  unfold at_most in H. destruct (max <? n).
  - destruct (ReadVarBytes max name w) as [[] w1]; cbn in *; inv H; done.
  - cbn [dec c_bytes] in H. unfold p_take in H. cbn [r_data r_end] in H. case_decide;
      destruct (ReadVarBytes max name w) as [[] w1]; cbn in *; inv H; done.
Qed.

Example ReadVarBytes_limit_witness :
  let w := World (Reader [x05; x41; x42] EOF) [] None [] [] 0 in
  (ReadVarBytes 4 "script" w).1 = Err (tooLarge "ReadVarBytes" "script" 4 5) /\
  (ReadVarBytes 9 "script" w).1 = Err ErrUnexpectedEOF.
Proof.
  intros w.
  assert (Hw : bufs_ok w) by decide_now.
  assert (Hn : in_u64 5) by words.
  pose proof (ReadVarBytes_limit 4 "script" w 5 [x41; x42] EOF Hw Hn eq_refl) as [H1 _].
  pose proof (ReadVarBytes_limit 9 "script" w 5 [x41; x42] EOF Hw Hn eq_refl) as H2.
  split; [exact H1|exact H2].
Defined.

Lemma put_room bs k :
  put bs (Some k) = (if decide (length bs <= k)%nat then Ok tt else Err ErrWriter,
                     take k bs, Some (k - length bs)%nat).
Proof.
  cbn. case_decide; [now rewrite take_ge by lia|]. do 2 f_equal. lia.
Qed.

(** A failing writer is reported, never hidden: into a writer with room for
[k] bytes WriteVarBytes returns nil exactly when count and payload fit, and
otherwise the writer's error after a prefix of them, with nothing written past
the failure. *)
Theorem WriteVarBytes_partial b w k :
  bufs_ok w -> w_room w = Some k -> len b < 2 ^ 64 ->
  let all := varint_bytes (len b) ++ b in
  (WriteVarBytes b w).1 = (if decide (length all <= k)%nat then Ok tt else Err ErrWriter) /\
  written (WriteVarBytes b) w = take k all.
Proof.
  intros Hw Hr Hb all. destruct (writes_VarBytes b Hb w Hw) as (H & _).
  fold all in H. rewrite Hr, put_room in H. destruct H as (H1 & H2 & _).
  split; [done|]. unfold written. rewrite H2. now rewrite drop_app_length.
Qed.

Example WriteVarBytes_partial_witness :
  let w := World (Reader [] EOF) [] (Some 2%nat) [] [] 0 in
  (WriteVarBytes [x41; x42; x43] w).1 = Err ErrWriter /\
  written (WriteVarBytes [x41; x42; x43]) w = [x03; x41].
Proof.
  intros w.
  assert (Hw : bufs_ok w) by decide_now.
  exact (WriteVarBytes_partial [x41; x42; x43] w 2 Hw eq_refl eq_refl).
Defined.

Example VarInt_roundtrip_witness :
  let w := World (Reader [] EOF) [] None [] [] 0 in
  (WriteVarInt 515 w).1 = Ok tt /\
  let r := ReadVarInt (reading (written (WriteVarInt 515) w ++ [x09]) EOF w) in
  r.1 = Ok 515 /\ w_rd r.2 = Reader [x09] EOF.
Proof.
  intros w.
  assert (Hw : bufs_ok w) by decide_now.
  apply (VarInt_roundtrip w w 515 [x09] EOF Hw Hw eq_refl). words.
Defined.

Example Element_roundtrip_witness :
  let w := World (Reader [] EOF) [] None [] [] 0 in
  (writeElement KInt32 (-2) w).1 = Ok tt /\
  let r := readElement KInt32 (reading (written (writeElement KInt32 (-2)) w ++ [x09]) EOF w) in
  r.1 = Ok (-2) /\ w_rd r.2 = Reader [x09] EOF.
Proof.
  intros w.
  assert (Hw : bufs_ok w) by decide_now.
  apply (Element_roundtrip KInt32 (-2) w w [x09] EOF Hw Hw eq_refl). cbn. words.
Defined.
