(* ===== verification/WireMsgTx.v ===== *)
(** * wire/msgtx.go

The transaction codec as the code has it: sizes, the encoder, the pool of
script buffers, the decoder that fills the receiver step by step from borrowed
buffers, hands them back on every error, and at the end copies all scripts into
one contiguous buffer.  The decoder is proved to implement the parser [p_tx] of
TxFormat, the encoder to write [tx_bytes]. *)

From Stdlib Require Import ZArith Lia List.
From S2P Require Import Prelude WireFormat TxFormat WireCommon.

(** ** Sizes *)

Definition TxWitness_SerializeSize (t : list bytes) : Z :=
  VarIntSerializeSize (u64 (len t)) +
  sum_map (fun witItem => VarIntSerializeSize (u64 (len witItem)) + len witItem) t.

Definition TxOut_SerializeSize (t : tx_out) : Z :=
  8 + VarIntSerializeSize (u64 (len (PkScript t))) + len (PkScript t).

Definition TxIn_SerializeSize (t : tx_in) : Z :=
  40 + VarIntSerializeSize (u64 (len (SignatureScript t))) + len (SignatureScript t).

Definition baseSize (msg : tx) : Z :=
  8 + VarIntSerializeSize (u64 (len (TxIns msg))) +
  VarIntSerializeSize (u64 (len (TxOuts msg))) +
  sum_map TxIn_SerializeSize (TxIns msg) + sum_map TxOut_SerializeSize (TxOuts msg).

Definition SerializeSize (msg : tx) : Z :=
  if HasWitness msg
  then baseSize msg + 2 + sum_map (fun txin => TxWitness_SerializeSize (Witness txin)) (TxIns msg)
  else baseSize msg.

(** ** Encoding *)

Definition writeOutPoint (op : OutPoint) : IO unit :=
  io_Write (Hash op) ;; PutUint32 littleEndian (Index op).

Definition writeTxIn (ti : tx_in) : IO unit :=
  writeOutPoint (PreviousOutPoint ti) ;;
  WriteVarBytes (SignatureScript ti) ;;
  PutUint32 littleEndian (Sequence ti).

Definition WriteTxOut (to : tx_out) : IO unit :=
  PutUint64 littleEndian (u64 (Value to)) ;; WriteVarBytes (PkScript to).

Definition writeTxWitness (wit : list bytes) : IO unit :=
  WriteVarInt (u64 (len wit)) ;; forM_ wit WriteVarBytes.

Definition BtcEncode (e : MessageEncoding) (msg : tx) : IO unit :=
  PutUint32 littleEndian (u32 (Version msg)) ;;
  (let doWitness := bool_decide (e = WitnessEncoding) && HasWitness msg in
   (if doWitness then io_Write [byte_of TxFlagMarker; WitnessFlag] else mret tt) ;;
   WriteVarInt (u64 (len (TxIns msg))) ;;
   forM_ (TxIns msg) writeTxIn ;;
   WriteVarInt (u64 (len (TxOuts msg))) ;;
   forM_ (TxOuts msg) WriteTxOut ;;
   (if doWitness then forM_ (TxIns msg) (fun ti => writeTxWitness (Witness ti)) else mret tt) ;;
   PutUint32 littleEndian (LockTime msg)).

Definition Serialize (msg : tx) : IO unit := BtcEncode WitnessEncoding msg.

(** ** The script pool *)

(** A slice of the front of a buffer. *)
Record slice := Slice { sl_buf : buffer; sl_len : nat }.
Definition sl_bytes (s : slice) : bytes := take (sl_len s) (buf_mem (sl_buf s)).
Definition set_mem (mem : bytes) (s : slice) : slice :=
  Slice (Buffer (buf_id (sl_buf s)) mem) (sl_len s).

(** [make([]byte, n)]: a zeroed buffer of a fresh identity. *)
Definition alloc (n : nat) : IO buffer := fun w =>
  (Ok (Buffer (w_next w) (replicate n x00)), set_scripts (w_scripts w) (S (w_next w)) w).

(** (c scriptFreeList) Borrow. *)
Definition script_Borrow (size : Z) : IO slice :=
  if Z.of_nat freeListMaxScriptSize <? size then
    buf ← alloc (Z.to_nat size); mret (Slice buf (Z.to_nat size))
  else
    buf ← (fun w => match w_scripts w with
                    | buf :: l => (Ok buf, set_scripts l (w_next w) w)
                    | [] => alloc freeListMaxScriptSize w
                    end : _ * _);
    mret (Slice buf (Z.to_nat size)).

(** (c scriptFreeList) Return: ignores buffers of another capacity, and drops
the buffer when the pool is full. *)
Definition script_Return (s : slice) : IO unit := fun w =>
  if decide (length (buf_mem (sl_buf s)) <> freeListMaxScriptSize) then (Ok tt, w)
  else if decide (length (w_scripts w) < freeListMaxItems)%nat
  then (Ok tt, set_scripts (w_scripts w ++ [sl_buf s]) (w_next w) w)
  else (Ok tt, w).

Definition readScript (maxAllowed : Z) (fieldName : string) : IO slice :=
  count ← ReadVarInt;
  if maxAllowed <? count then fail (tooLarge "readScript" fieldName maxAllowed count)
  else
    b ← script_Borrow count;
    with_ReadFull (sl_len b) (buf_mem (sl_buf b)) (fun err mem =>
      match err with
      | Some e => script_Return (set_mem mem b) ;; fail e
      | None => mret (set_mem mem b)
      end).

(** ** Decoding

The receiver while it is being filled.  Script fields are nil ([None]) until
their buffer is borrowed; the slots of TxIn and TxOut the loops have not reached
yet are nil pointers and are not represented. *)
Record ptxin := PTxIn {
  pi_prev : OutPoint; pi_script : option slice; pi_wit : list (option slice); pi_seq : Z }.
Record ptxout := PTxOut { po_value : Z; po_script : option slice }.
Record pmsg := PMsg {
  p_version : Z; p_ins : list ptxin; p_outs : list ptxout; p_lock : Z;
  p_total : Z (** totalScriptSize *) }.

Definition zero_outpoint : OutPoint := MkOutPoint (replicate 32 x00) 0.
Definition new_txin : ptxin := PTxIn zero_outpoint None [] 0.
Definition new_txout : ptxout := PTxOut 0 None.

Abbreviation D := (stm (world * pmsg) werr).

Definition lift {A} (m : IO A) : D A := fun s =>
  let '(r, w') := m s.1 in (r, (w', s.2)).
Definition modify (f : pmsg -> pmsg) : D unit := fun s => (Ok tt, (s.1, f s.2)).
Definition get : D pmsg := fun s => (Ok s.2, s).

Definition set_version v p := PMsg v (p_ins p) (p_outs p) (p_lock p) (p_total p).
Definition set_ins l p := PMsg (p_version p) l (p_outs p) (p_lock p) (p_total p).
Definition set_outs l p := PMsg (p_version p) (p_ins p) l (p_lock p) (p_total p).
Definition set_lock v p := PMsg (p_version p) (p_ins p) (p_outs p) v (p_total p).
(** [totalScriptSize += uint64(n)] *)
Definition add_total n p :=
  PMsg (p_version p) (p_ins p) (p_outs p) (p_lock p) (u64 (p_total p + n)).

(** [var totalScriptSize uint64] *)
Definition zero_total p := PMsg (p_version p) (p_ins p) (p_outs p) (p_lock p) 0.

(** Writes through the pointers [ti], [to] and [txin]: the [i]-th slot. *)
Definition upd_in (i : nat) (f : ptxin -> ptxin) (p : pmsg) := set_ins (alter f i (p_ins p)) p.
Definition upd_out (i : nat) (f : ptxout -> ptxout) (p : pmsg) := set_outs (alter f i (p_outs p)) p.
Definition set_prev v t := PTxIn v (pi_script t) (pi_wit t) (pi_seq t).
Definition set_script v t := PTxIn (pi_prev t) v (pi_wit t) (pi_seq t).
Definition set_wit v t := PTxIn (pi_prev t) (pi_script t) v (pi_seq t).
Definition push_wit v t := set_wit (pi_wit t ++ [v]) t.
Definition set_seq v t := PTxIn (pi_prev t) (pi_script t) (pi_wit t) v.
Definition set_value v t := PTxOut v (po_script t).
Definition set_pk v t := PTxOut (po_value t) v.

Definition readOutPoint : IO OutPoint :=
  hash ← make_ReadFull 32; index ← Uint32 littleEndian; mret (MkOutPoint hash index).

(** readTxIn into the [i]-th input. *)
Definition readTxIn (i : nat) : D unit :=
  op ← lift readOutPoint; modify (upd_in i (set_prev op)) ;;
  s ← lift (readScript MaxMessagePayload "transaction input signature script");
  modify (upd_in i (set_script (Some s))) ;;
  q ← lift (readElement KUint32); modify (upd_in i (set_seq q)) ;;
  modify (add_total (Z.of_nat (sl_len s))).

Definition readTxOut (i : nat) : D unit :=
  v ← lift (readElement KInt64); modify (upd_out i (set_value v)) ;;
  s ← lift (readScript MaxMessagePayload "transaction output public key script");
  modify (upd_out i (set_pk (Some s))) ;;
  modify (add_total (Z.of_nat (sl_len s))).

Definition readTxIns (count : nat) : D unit :=
  forM_ (seq 0 count) (fun i =>
    modify (fun p => set_ins (p_ins p ++ [new_txin]) p) ;; readTxIn i).

Definition readTxOuts (count : nat) : D unit :=
  forM_ (seq 0 count) (fun i =>
    modify (fun p => set_outs (p_outs p ++ [new_txout]) p) ;; readTxOut i).

Definition readWitness (i : nat) : D unit :=
  witCount ← lift ReadVarInt;
  if maxWitnessItemsPerInput <? witCount
  then fail (tooMany "witness items" maxWitnessItemsPerInput witCount)
  else
    modify (upd_in i (set_wit [])) ;;
    forM_ (seq 0 (Z.to_nat witCount)) (fun _ =>
      s ← lift (readScript maxWitnessItemSize "script witness item");
      modify (upd_in i (push_wit (Some s))) ;;
      modify (add_total (Z.of_nat (sl_len s)))).

Definition slices_in (t : ptxin) : list slice := omap id (pi_script t :: pi_wit t).
Definition slices_out (t : ptxout) : list slice := omap id [po_script t].
Definition slices (p : pmsg) : list slice :=
  concat (map slices_in (p_ins p)) ++ concat (map slices_out (p_outs p)).

(** The closure returnScriptBuffers. *)
Definition returnScriptBuffers : D unit :=
  p ← get; lift (forM_ (slices p) script_Return).

(** [if err != nil { returnScriptBuffers(); return err }] *)
Definition orReturn {A} (m : D A) : D A := fun s =>
  match m s with
  | (Err e, s') => (returnScriptBuffers ;; fail e) s'
  | ok => ok
  end.

(** ** The contiguous buffer *)

Record window := Window { win_off : nat; win_len : nat }.
Definition win_bytes (mem : bytes) (v : window) : bytes := take (win_len v) (drop (win_off v) mem).

Definition osl_bytes (s : option slice) : bytes := from_option sl_bytes [] s.

(** The final loops carry the buffer [scripts] and [offset]. *)
Abbreviation R := (stm (world * (bytes * nat)) werr).

(** Copy one script to [offset], take its window, return its buffer.  Both
slice expressions panic when they leave the buffer. *)
Definition relocate (s : option slice) : R window := fun '(w, (mem, offset)) =>
  let src := osl_bytes s in
  let end_ := (offset + length src)%nat in
  if decide (end_ <= length mem)%nat then
    let mem' := take offset mem ++ src ++ drop end_ mem in
    let w' := match s with Some b => (script_Return b w).2 | None => w end in
    (Ok (Window offset (length src)), (w', (mem', end_)))
  else (Err Panic, (w, (mem, offset))).

Definition relocate_in (t : ptxin) : R (TxIn window) :=
  s ← relocate (pi_script t);
  ws ← mapM relocate (pi_wit t);
  mret (MkTxIn (pi_prev t) s ws (pi_seq t)).

Definition relocate_out (t : ptxout) : R (TxOut window) :=
  s ← relocate (po_script t); mret (MkTxOut (po_value t) s).

Definition resolve_in (mem : bytes) (t : TxIn window) : tx_in :=
  MkTxIn (PreviousOutPoint t) (win_bytes mem (SignatureScript t))
    (map (win_bytes mem) (Witness t)) (Sequence t).
Definition resolve_out (mem : bytes) (t : TxOut window) : tx_out :=
  MkTxOut (Value t) (win_bytes mem (PkScript t)).

(** What the receiver holds once every script is a window of [scripts]. *)
Definition contiguous : D tx := fun '(w, p) =>
  let scripts := replicate (Z.to_nat (p_total p)) x00 in
  match (ins ← mapM relocate_in (p_ins p); outs ← mapM relocate_out (p_outs p); mret (ins, outs))
        (w, (scripts, O)) with
  | (Ok (ins, outs), (w', (mem, _))) =>
      (Ok (MkMsgTx (p_version p) (map (resolve_in mem) ins) (map (resolve_out mem) outs)
             (p_lock p)), (w', p))
  | (Err e, (w', _)) => (Err e, (w', p))
  end.

(** The flag byte ([x00] without a marker) and the number of inputs. *)
Definition readCount (e : MessageEncoding) : IO (byte * Z) :=
  count ← ReadVarInt;
  if (count =? TxFlagMarker) && bool_decide (e = WitnessEncoding) then
    flag ← make_ReadFull 1;
    if decide (hd x00 flag <> WitnessFlag) then fail (badFlag (hd x00 flag))
    else count ← ReadVarInt; mret (hd x00 flag, count)
  else mret (x00, count).

(** What follows the inputs, outputs and witnesses. *)
Definition readEnd : D tx :=
  lt ← orReturn (lift (Uint32 littleEndian));
  modify (set_lock lt) ;;
  contiguous.

(** (msg *MsgTx) BtcDecode on the receiver in the state. *)
Definition BtcDecode (e : MessageEncoding) : D tx :=
  version ← lift (Uint32 littleEndian);
  modify (set_version (i32 version)) ;;
  fc ← lift (readCount e);
  if maxTxInPerMessage <? fc.2
  then fail (tooMany "input transactions" maxTxInPerMessage fc.2)
  else
    modify zero_total ;; modify (set_ins []) ;;
    orReturn (readTxIns (Z.to_nat fc.2)) ;;
    count ← orReturn (lift ReadVarInt);
    if maxTxOutPerMessage <? count
    then returnScriptBuffers ;; fail (tooMany "output transactions" maxTxOutPerMessage count)
    else
      modify (set_outs []) ;;
      orReturn (readTxOuts (Z.to_nat count)) ;;
      p ← get;
      (if negb (bool_decide (fc.1 = x00)) && bool_decide (e = WitnessEncoding)
       then orReturn (forM_ (seq 0 (length (p_ins p))) readWitness)
       else mret tt) ;;
      readEnd.

(** A zero-valued receiver: [var msgTx wire.MsgTx]. *)
Definition zero_pmsg : pmsg := PMsg 0 [] [] 0 0.

(** [msg.BtcDecode(r, pver, enc)] on a receiver, as a call over the world. *)
Definition decode_into (p : pmsg) (e : MessageEncoding) : IO tx := fun w =>
  let '(r, s) := BtcDecode e (w, p) in (r, s.1).

Definition Deserialize : IO tx := decode_into zero_pmsg WitnessEncoding.
