(* ===== verification/WireMsgTxEncode.v ===== *)
(** * The transaction encoder

BtcEncode writes the format [tx_bytes], and SerializeSize announces its length. *)

From Stdlib Require Import ZArith Lia List.
From S2P Require Import Prelude WireFormat TxFormat WireCommon WireMsgTx.

(** Every slice is shorter than 2^64, as Go's [len] is an [int]. *)
Definition sized {A} (l : list A) : Prop := len l < 2 ^ 64.

Record txin_sized (ti : tx_in) : Prop := {
  sized_script : sized (SignatureScript ti);
  sized_wit : sized (Witness ti);
  sized_items : Forall sized (Witness ti)
}.
Record tx_sized (t : tx) : Prop := {
  sized_ins : sized (TxIns t);
  sized_in : Forall txin_sized (TxIns t);
  sized_outs : sized (TxOuts t);
  sized_out : Forall (fun o => sized (PkScript o)) (TxOuts t)
}.

Lemma sized_u64 {A} (l : list A) : sized l -> in_u64 (len l).
Proof. unfold sized. pose proof (len_nonneg l). words. Qed.

Lemma tx_wf_sized t : tx_wf t -> tx_sized t.
Proof.
  assert (H1 : maxTxInPerMessage < 2 ^ 64) by reflexivity.
  assert (H2 : maxTxOutPerMessage < 2 ^ 64) by reflexivity.
  assert (H3 : MaxMessagePayload < 2 ^ 64) by reflexivity.
  assert (H4 : maxWitnessItemsPerInput < 2 ^ 64) by reflexivity.
  assert (H5 : maxWitnessItemSize < 2 ^ 64) by reflexivity.
  intros [Hv Hn Hi Hw Ho Hos Hl]. constructor; unfold sized; [lia| |lia|].
  - rewrite Forall_forall in Hi, Hw |- *. intros ti Hti.
    destruct (Hi ti Hti) as [_ _ Hs _]. destruct (Hw ti Hti) as [Hc Hits].
    constructor; unfold sized; [lia|lia|]. apply (Forall_impl _ _ _ Hits). intros; lia.
  - apply (Forall_impl _ _ _ Hos). intros o [_ Hs]. lia.
Qed.

(** ** What the encoder writes *)

Lemma writes_count {A} (l : list A) : sized l -> writes (WriteVarInt (u64 (len l))) (varint_bytes (len l)).
Proof. intros H%sized_u64. rewrite u64_small by done. now apply writes_VarInt. Qed.

Lemma writes_OutPoint o : writes (writeOutPoint o) (enc c_outpoint o).
Proof. apply writes_app; auto with wire. Qed.

Lemma writes_TxIn ti : sized (SignatureScript ti) ->
  writes (writeTxIn ti) (enc c_txin (set_Witness [] ti)).
Proof.
  intros H. eapply writes_eq; cycle 1.
  - apply writes_app; [apply writes_OutPoint|].
    apply writes_app; [now apply writes_VarBytes|apply writes_PutUint32].
  - destruct ti. exact (app_assoc (enc c_outpoint _) (enc (c_script _ _) _) (le_bytes 4 _)).
Qed.

Lemma writes_TxOut o : sized (PkScript o) -> writes (WriteTxOut o) (enc c_txout o).
Proof. intros H. apply writes_app; auto using writes_VarBytes with wire. Qed.

Lemma writes_Forall {A} (P : A -> Prop) (l : list A) (f : A -> IO unit) (g : A -> bytes) :
  Forall P l -> (forall x, P x -> writes (f x) (g x)) -> writes (forM_ l f) (concat (map g l)).
Proof.
  intros Hl H. induction Hl as [|x l Hx _ IH]; cbn; [apply writes_nil|]. auto using writes_app.
Qed.

Lemma writes_TxWitness w : sized w -> Forall sized w -> writes (writeTxWitness w) (enc c_witness w).
Proof.
  intros Hw Hi. apply writes_app; [now apply writes_count|].
  apply (writes_Forall sized); [done|]. intros. now apply writes_VarBytes.
Qed.

Lemma map_txin_enc (l : list tx_in) :
  concat (map (fun ti => enc c_txin (set_Witness [] ti)) l) =
  concat (map (enc c_txin) (map (set_Witness []) l)).
Proof. now rewrite map_map. Qed.

(** BtcEncode writes exactly the format, on every writer. *)
Lemma writes_BtcEncode e t : tx_sized t -> writes (BtcEncode e t) (tx_bytes e t).
Proof.
  intros [Hi Hin Ho Hout]. unfold BtcEncode, tx_bytes, tx_bytes_flag, doWitness.
  set (f := bool_decide (e = WitnessEncoding) && HasWitness t).
  apply writes_app; [apply writes_PutUint32|]. rewrite enc_body.
  apply writes_app; [destruct f; auto with wire|].
  apply writes_app; [now apply writes_count|]. unfold body_tail.
  apply writes_app.
  { cbn [enc c_vec]. rewrite <- map_txin_enc.
    apply (writes_Forall txin_sized); [done|]. intros ti [? _ _]. now apply writes_TxIn. }
  cbn [enc c_txouts c_varvec c_counted c_vec c_varint]. rewrite <- (app_assoc (varint_bytes _)).
  apply writes_app; [now apply writes_count|].
  apply writes_app; [apply (writes_Forall _ _ _ _ Hout); auto using writes_TxOut|].
  apply writes_app; [|apply writes_PutUint32].
  destruct f; [|apply writes_nil]. cbn [c_witnesses enc c_vec]. rewrite map_map.
  apply (writes_Forall txin_sized); [done|]. intros ti [_ ? ?]. now apply writes_TxWitness.
Qed.

(** ** Sizes *)

Lemma VarInt_size_len {A} (l : list A) : sized l ->
  VarIntSerializeSize (u64 (len l)) = varint_size (len l).
Proof. intros H%sized_u64. now rewrite u64_small, VarIntSerializeSize_spec. Qed.

Lemma len_le_bytes n z : len (le_bytes n z) = Z.of_nat n.
Proof. unfold len. now rewrite length_le_bytes. Qed.

Lemma len_txin ti : len (Hash (PreviousOutPoint ti)) = HashSize -> sized (SignatureScript ti) ->
  len (enc c_txin (set_Witness [] ti)) = TxIn_SerializeSize ti.
Proof.
  intros Hh Hs. unfold TxIn_SerializeSize. rewrite VarInt_size_len by done.
  destruct ti as [[h i] s w q]. unfold c_txin, c_outpoint, c_script. cbn in Hh.
  cbn [enc c_map c_pair c_dep fst snd set_Witness PreviousOutPoint SignatureScript Sequence Hash Index c_bytes c_uint].
  rewrite !len_app, len_varbytes, !len_le_bytes, Hh. unfold HashSize. lia.
Qed.

Lemma len_txout o : sized (PkScript o) -> len (enc c_txout o) = TxOut_SerializeSize o.
Proof.
  intros Hs. unfold TxOut_SerializeSize. rewrite VarInt_size_len by done.
  unfold c_txout, c_script. cbn [enc c_map c_pair c_dep fst snd c_int64 c_uint].
  rewrite len_app, len_varbytes, len_le_bytes. lia.
Qed.

Lemma len_witness w : sized w -> Forall sized w -> len (enc c_witness w) = TxWitness_SerializeSize w.
Proof.
  intros Hw Hi. unfold TxWitness_SerializeSize. rewrite VarInt_size_len by done.
  cbn [enc c_witness c_varvec c_counted c_vec c_varint].
  rewrite len_app, length_varint_bytes. f_equal.
  apply len_concat_map. apply (Forall_impl _ _ _ Hi). intros i Hs.
  unfold c_script. now rewrite len_varbytes, VarInt_size_len.
Qed.

Lemma len_body f t : tx_wf t ->
  len (enc (c_body f) (tx_parts t)) =
    baseSize t - 4 +
    (if f then sum_map (fun ti => TxWitness_SerializeSize (Witness ti)) (TxIns t) else 0).
Proof.
  intros Ht. destruct (tx_wf_sized t Ht) as [Hi Hin Ho Hout].
  rewrite enc_body. unfold body_tail, baseSize.
  cbn [enc c_txouts c_varvec c_counted c_vec c_varint].
  rewrite !len_app, !length_varint_bytes, len_le_bytes, !VarInt_size_len by done.
  rewrite <- map_txin_enc, (len_concat_map _ TxIn_SerializeSize); cycle 1.
  { rewrite Forall_forall. intros ti Hti. apply len_txin.
    - destruct Ht as [_ _ Hw _ _ _ _]. rewrite Forall_forall in Hw. now destruct (Hw ti Hti).
    - rewrite Forall_forall in Hin. now destruct (Hin ti Hti). }
  rewrite (len_concat_map _ TxOut_SerializeSize); cycle 1.
  { apply (Forall_impl _ _ _ Hout). apply len_txout. }
  destruct f; cbn [c_witnesses enc c_vec c_const].
  - rewrite map_map, (len_concat_map _ (fun ti => TxWitness_SerializeSize (Witness ti))); [lia|].
    apply (Forall_impl _ _ _ Hin). intros ti [_ ? ?]. now apply len_witness.
  - rewrite len_nil. lia.
Qed.

Lemma len_tx_bytes t : tx_wf t -> len (tx_bytes WitnessEncoding t) = SerializeSize t.
Proof.
  intros Ht. unfold tx_bytes, doWitness, SerializeSize. cbn [bool_decide andb].
  rewrite bool_decide_true by done. cbn [andb]. unfold tx_bytes_flag.
  rewrite !len_app, len_body, len_le_bytes by done.
  assert (Hm : len marker = 2) by done.
  destruct (HasWitness t); rewrite ?Hm, ?len_nil; lia.
Qed.

(** C40: SerializeSize is exact: a transaction within the protocol's limits
serialises, without error, into precisely that many bytes. *)
Theorem Serialize_size t w :
  tx_wf t -> bufs_ok w -> w_room w = None ->
  (Serialize t w).1 = Ok tt /\ len (written (Serialize t) w) = SerializeSize t.
Proof.
  intros Ht Hw Hr.
  destruct (writes_unlimited _ _ w (writes_BtcEncode WitnessEncoding t (tx_wf_sized t Ht)) Hw Hr)
    as (H1 & H2 & _).
  split; [done|]. unfold Serialize. rewrite H2. now apply len_tx_bytes.
Qed.

(** BtcEncode is all or nothing on any writer: with room for [k] bytes it
returns nil exactly when the whole encoding fits, and what the writer holds is
the longest prefix of the encoding it has room for, whatever free-list state. *)
Theorem BtcEncode_partial e t w k :
  tx_sized t -> bufs_ok w -> w_room w = Some k ->
  (BtcEncode e t w).1 = (if decide (length (tx_bytes e t) <= k)%nat then Ok tt else Err ErrWriter) /\
  written (BtcEncode e t) w = take k (tx_bytes e t) /\ bufs_ok (BtcEncode e t w).2.
Proof.
  intros Ht Hw Hr. destruct (writes_BtcEncode e t Ht w Hw) as (H & _ & Hb).
  rewrite Hr, put_room in H. destruct H as (H1 & H2 & _).
  split_and!; try done. unfold written. now rewrite H2, drop_app_length.
Qed.

(** A transaction with one input, whose witness has two items, and one output. *)
Definition sample_tx : tx :=
  MkMsgTx (-1) [MkTxIn (MkOutPoint (replicate 32 xab) 7) [x01; x02; x03] [[x09]; []] 5]
    [MkTxOut 100 [x51; x52]] 99.

#[export] Instance txin_wf_dec ti : Decision (txin_wf ti).
Proof.
  refine (cast_if (decide (len (Hash (PreviousOutPoint ti)) = HashSize /\
    in_u32 (Index (PreviousOutPoint ti)) /\ len (SignatureScript ti) <= MaxMessagePayload /\
    in_u32 (Sequence ti)))).
  - destruct_and!. now constructor.
  - intros []. tauto.
Defined.

#[export] Instance txout_wf_dec t : Decision (txout_wf t).
Proof.
  refine (cast_if (decide (in_i64 (Value t) /\ len (PkScript t) <= MaxMessagePayload))).
  - destruct_and!. now constructor.
  - intros []. tauto.
Defined.

#[export] Instance tx_wf_dec t : Decision (tx_wf t).
Proof.
  refine (cast_if (decide ((in_i32 (Version t) /\ len (TxIns t) <= maxTxInPerMessage /\
    Forall txin_wf (TxIns t) /\ Forall (fun ti => witness_wf (Witness ti)) (TxIns t)) /\
    len (TxOuts t) <= maxTxOutPerMessage /\ Forall txout_wf (TxOuts t) /\ in_u32 (LockTime t)))).
  - destruct_and!. now constructor.
  - intros []. tauto.
Defined.

Example Serialize_size_witness :
  let w := World (Reader [] EOF) [] None [] [] 0 in
  (Serialize sample_tx w).1 = Ok tt /\ len (written (Serialize sample_tx) w) = 71.
Proof.
  intros w.
  assert (Ht : tx_wf sample_tx) by decide_now.
  assert (Hw : bufs_ok w) by decide_now.
  destruct (Serialize_size sample_tx w Ht Hw eq_refl) as [H1 H2].
  split; [exact H1|rewrite H2; reflexivity].
Defined.

Example BtcEncode_partial_witness :
  let w := World (Reader [] EOF) [] (Some 6%nat) [] [] 0 in
  (BtcEncode BaseEncoding sample_tx w).1 = Err ErrWriter /\
  written (BtcEncode BaseEncoding sample_tx) w = [xff; xff; xff; xff; x01; xab].
Proof.
  intros w.
  assert (Ht : tx_wf sample_tx) by decide_now.
  assert (Hw : bufs_ok w) by decide_now.
  destruct (BtcEncode_partial BaseEncoding sample_tx w 6 (tx_wf_sized _ Ht) Hw eq_refl) as (H1 & H2 & _).
  split; [exact H1|exact H2].
Defined.
