(* ===== verification/WireMsgTxDecode.v ===== *)
(** * The transaction decoder

BtcDecode, with its borrowed script buffers, its early returns and its final
copy into one contiguous buffer, is proved to implement the parser [p_tx] of
TxFormat, on every receiver and with any stale bytes in the pools.  The round
trip, the canonicity of accepted encodings and the bounds of decoded
transactions follow. *)

From Stdlib Require Import ZArith Lia List.
From S2P Require Import Prelude WireFormat TxFormat WireCommon WireMsgTx WireMsgTxEncode.

#[local] Opaque freeListMaxScriptSize freeListMaxItems.

(** ** A judgement for computations over the receiver

From receiver [p], the computation agrees with the parser [q] on value, error
and consumed bytes, and establishes [Q] of both results and the new receiver. *)
Definition dspec {A B} (p : pmsg) (m : D A) (q : parser B) (Q : A -> B -> pmsg -> Prop) : Prop :=
  forall w, bufs_ok w ->
    let '(r, (w', p')) := m (w, p) in
    w_rd w' = (q (w_rd w)).2 /\ bufs_ok w' /\ same_writer w w' /\
    match r, (q (w_rd w)).1 with
    | Ok a, Ok b => Q a b p'
    | Err e, Err e' => e = e'
    | _, _ => False
    end.

Lemma same_writer_trans w1 w2 w3 : same_writer w1 w2 -> same_writer w2 w3 -> same_writer w1 w3.
Proof. intros [? ?] [? ?]. split; congruence. Qed.

Lemma dspec_ret {A B} p (a : A) (b : B) (Q : A -> B -> pmsg -> Prop) :
  Q a b p -> dspec p (mret a) (mret b) Q.
Proof. intros HQ w Hw. done. Qed.

Lemma dspec_fail {A B} p e (Q : A -> B -> pmsg -> Prop) : dspec p (fail e) (fail e) Q.
Proof. intros w Hw. done. Qed.

Lemma dspec_bind {A B C E} p (m : D A) (q : parser B) Q (k : A -> D C) (h : B -> parser E) Q' :
  dspec p m q Q -> (forall a b p', Q a b p' -> dspec p' (k a) (h b) Q') ->
  dspec p (m ≫= k) (q ≫= h) Q'.
Proof.
  intros Hm Hk w Hw. specialize (Hm w Hw). unfold mbind, stm_bind.
  destruct (m (w, p)) as [[a|e] [w1 p1]], (q (w_rd w)) as [[b|e'] r1]; cbn in Hm;
    destruct Hm as (Hr & Hb & Hs & HQ); try done.
  specialize (Hk a b p1 HQ w1 Hb). subst r1.
  destruct (k a (w1, p1)) as [r [w2 p2]]. destruct Hk as (? & ? & ? & ?).
  eauto using same_writer_trans.
Qed.

Lemma dspec_weaken {A B} p (m : D A) (q : parser B) (Q Q' : A -> B -> pmsg -> Prop) :
  dspec p m q Q -> (forall a b p', Q a b p' -> Q' a b p') -> dspec p m q Q'.
Proof.
  intros Hm HQ w Hw. specialize (Hm w Hw). destruct (m (w, p)) as [[a|e] [w1 p1]];
  destruct (q (w_rd w)) as [[b|e'] r1]; cbn in *; destruct Hm as (?&?&?&?); auto.
Qed.

Lemma dspec_parser_eq {A B} p (m : D A) (q q' : parser B) Q :
  (forall r, q r = q' r) -> dspec p m q' Q -> dspec p m q Q.
Proof. intros Heq Hm w Hw. rewrite Heq. now apply Hm. Qed.

(** A step the parser does not have. *)
Lemma dspec_modify {A B} p f (k : unit -> D A) (q : parser B) Q :
  dspec (f p) (k tt) q Q -> dspec p (modify f ≫= k) q Q.
Proof. intros Hk w Hw. apply (Hk w Hw). Qed.

Lemma dspec_get {A B} p (k : pmsg -> D A) (q : parser B) Q :
  dspec p (k p) q Q -> dspec p (get ≫= k) q Q.
Proof. intros Hk w Hw. apply (Hk w Hw). Qed.

Lemma dspec_modified {B} p f (b : B) (Q : unit -> B -> pmsg -> Prop) :
  Q tt b (f p) -> dspec p (modify f) (mret b) Q.
Proof. intros HQ w Hw. done. Qed.

(** A call on the reader: its value is the parser's through [f]; facts about
the call itself and about the parser may be used to go on. *)
Lemma dspec_lift {A B} p (f : A -> B) (m : IO A) (q : parser B) :
  implements f m q ->
  dspec p (lift m) q (fun a b p' => p' = p /\ f a = b /\
    (exists w, bufs_ok w /\ (m w).1 = Ok a) /\ exists r, (q r).1 = Ok b).
Proof.
  intros Hm w Hw. unfold lift. cbn [fst snd]. destruct (Hm w Hw) as (Hq & Hb & Hs).
  destruct (m w) as [r w1] eqn:E. cbn [fst snd] in *. rewrite Hq. cbn [fst snd].
  split_and!; try done. destruct r as [a|e]; cbn; [|done]. split_and!; eauto.
  - exists w. now rewrite E.
  - exists (w_rd w). now rewrite Hq.
Qed.

(** A loop keeps an invariant relating the items parsed so far and the receiver. *)
Lemma dspec_loop {B} (I : nat -> list B -> pmsg -> Prop) (f : nat -> D unit) (q : parser B) m n :
  (forall i l p, (i < m)%nat -> I i l p ->
     dspec p (f i) q (fun _ b p' => I (S i) (l ++ [b]) p')) ->
  forall i l p, (i + n <= m)%nat -> I i l p ->
  dspec p (forM_ (seq i n) f) (repeatM n q) (fun _ bs p' => I (i + n)%nat (l ++ bs) p').
Proof.
  intros Hf. induction n as [|n IH]; intros i l p Hm HI; cbn [seq forM_ repeatM].
  - apply dspec_ret. now rewrite Nat.add_0_r, app_nil_r.
  - eapply dspec_bind; [apply (Hf i l p); [lia|done]|]. intros [] b p' HI'. cbn beta in HI'.
    specialize (IH (S i) _ _ ltac:(lia) HI'). intros w Hw. specialize (IH w Hw).
    destruct (forM_ (seq (S i) n) f (w, p')) as [r [w1 p1]].
    unfold mbind, stm_bind. destruct (repeatM n q (w_rd w)) as [[bs|e] r1]; cbn in *; [|done].
    destruct r; [|done]. destruct IH as (?&?&?&HI''). split_and!; try done.
    now rewrite Nat.add_succ_r, <- Nat.add_succ_l, <- app_assoc in *.
Qed.

Lemma dspec_for {B} (I : nat -> list B -> pmsg -> Prop) (f : nat -> D unit) (q : parser B) n p :
  I 0%nat [] p ->
  (forall i l p', (i < n)%nat -> I i l p' ->
     dspec p' (f i) q (fun _ b p'' => I (S i) (l ++ [b]) p'')) ->
  dspec p (forM_ (seq 0 n) f) (repeatM n q) (fun _ bs p' => I n bs p').
Proof. intros H0 Hf. by apply (dspec_loop I f q n n Hf 0 [] p). Qed.

(** Returning buffers to the script pool never fails, and keeps the lists sound. *)
Lemma Return_pool s : pool_only (script_Return s).
Proof.
  intros w (Hb & Hc & Hs). unfold script_Return.
  case_decide as Hl; [done|]. case_decide; [|done].
  split_and!; try done. split_and!; try done. cbn [snd w_scripts set_scripts].
  apply Forall_app; split; [done|]. constructor; [done|constructor].
Qed.

Lemma Returns_pool l : pool_only (forM_ l script_Return).
Proof.
  induction l as [|s l IH]; [done|]. intros w Hw. cbn [forM_].
  destruct (Return_pool s w Hw) as (Hb & Hs & Hrd & Hok). unfold mbind, stm_bind.
  destruct (script_Return s w) as [[[]|] w1]; cbn in *; [|done].
  destruct (IH w1 Hb) as (Hb2 & Hs2 & Hrd2 & Hok2).
  split_and!; try done; [now apply (same_writer_trans _ w1)|congruence].
Qed.

(** Handing the buffers back before an error return changes nothing observable. *)
Lemma dspec_orReturn {A B} p (m : D A) (q : parser B) Q :
  dspec p m q Q -> dspec p (orReturn m) q Q.
Proof.
  intros Hm w Hw. specialize (Hm w Hw). unfold orReturn.
  destruct (m (w, p)) as [[a|e] [w1 p1]]; [done|].
  destruct Hm as (Hr & Hb & Hs & HQ).
  unfold returnScriptBuffers, mbind, stm_bind, get, lift. cbn [fst snd].
  destruct (Returns_pool (slices p1) w1 Hb) as (Hb2 & Hs2 & Hrd2 & Hok2).
  destruct (forM_ (slices p1) script_Return w1) as [[[]|] w2]; cbn in *; [|done].
  split_and!; [congruence|done|eauto using same_writer_trans|done].
Qed.

Lemma dspec_returns_fail {A B} p e (Q : A -> B -> pmsg -> Prop) :
  dspec p (returnScriptBuffers ;; fail e) (fail e) Q.
Proof.
  intros w Hw. unfold returnScriptBuffers, mbind, stm_bind, get, lift. cbn [fst snd].
  destruct (Returns_pool (slices p) w Hw) as (Hb2 & Hs2 & Hrd2 & Hok2).
  destruct (forM_ (slices p) script_Return w) as [[[]|] w2]; cbn in *; done.
Qed.

(** ** readScript *)

Definition slice_ok (s : slice) : Prop := (sl_len s <= length (buf_mem (sl_buf s)))%nat.

Lemma slice_ok_len s : slice_ok s -> length (sl_bytes s) = sl_len s.
Proof. unfold slice_ok, sl_bytes. rewrite length_take. lia. Qed.

Lemma implements_script_Borrow {B C} (f : B -> C) size (k : slice -> IO B) q :
  (forall b, slice_ok b -> sl_len b = Z.to_nat size -> implements f (k b) q) ->
  implements f (script_Borrow size ≫= k) q.
Proof.
  intros Hk w Hw. destruct Hw as (Hb & Hc & Hs).
  unfold script_Borrow. destruct (Z.of_nat freeListMaxScriptSize <? size) eqn:E; boolify.
  - assert (Hi : implements f (k (Slice (Buffer (w_next w) (replicate (Z.to_nat size) x00)) (Z.to_nat size))) q).
    { apply Hk; [|done]. unfold slice_ok. cbn. now rewrite length_replicate. }
    now apply (Hi (set_scripts (w_scripts w) (S (w_next w)) w)).
  - assert (Hsz : (Z.to_nat size <= freeListMaxScriptSize)%nat) by lia.
    unfold mbind, stm_bind. destruct (w_scripts w) as [|b l] eqn:El; cbn [alloc].
    + assert (Hi : implements f (k (Slice (Buffer (w_next w) (replicate freeListMaxScriptSize x00)) (Z.to_nat size))) q).
      { apply Hk; [|done]. unfold slice_ok. cbn [buf_mem sl_buf sl_len]. now rewrite length_replicate. }
      apply (Hi (set_scripts (w_scripts w) (S (w_next w)) w)). split_and!; [done..|]. cbn. now rewrite El.
    + inv Hs. assert (Hi : implements f (k (Slice b (Z.to_nat size))) q).
      { apply Hk; [|done]. unfold slice_ok. cbn. lia. }
      now apply (Hi (set_scripts l (w_next w) w)).
Qed.

Lemma reads_script max name : implements sl_bytes (readScript max name) (dec (c_script name max)).
Proof.
  unfold readScript, c_script. cbn [dec c_varbytes c_counted].
  eapply (implements_bind (fun a => a)); [auto with wire|]. intros count. cbv beta.
  apply (implements_checked _ max (tooLarge "readScript" name max)).
  apply implements_script_Borrow. intros b Hb Hl. rewrite Hl. cbn [dec c_bytes].
  eapply implements_eq; [|apply (implements_with_ReadFull _ _ _ _ mret)].
  - intros r. unfold mbind, stm_bind. now destruct (p_take _ r) as [[]].
  - unfold slice_ok in Hb. lia.
  - intros mem Hm. apply implements_ret. unfold sl_bytes, set_mem. cbn. now rewrite Hl.
  - intros e mem Hm. eapply implements_pool_bind; [apply Return_pool|]. intros; apply implements_fail.
Qed.

(** The slice is a front part of its buffer. *)
Lemma readScript_slice_ok max name w s : bufs_ok w -> (readScript max name w).1 = Ok s -> slice_ok s.
Proof.
  intros Hw H. destruct (readScript max name w) as [r w'] eqn:E. cbn in H. subst r.
  unfold readScript in E. apply bind_Ok_inv in E as (count & w1 & H1 & E).
  assert (Hw1 : bufs_ok w1).
  { destruct (reads_VarInt w Hw) as (_ & Hb & _). now rewrite H1 in Hb. }
  destruct (max <? count); [discriminate|]. apply bind_Ok_inv in E as (b & w2 & H2 & E).
  assert (Hb : slice_ok b /\ sl_len b = Z.to_nat count).
  { unfold script_Borrow in H2. destruct (_ <? count) eqn:Ec; boolify; go_ok H2.
    - unfold alloc in Hm. inv Hm. unfold slice_ok. cbn. now rewrite length_replicate.
    - destruct Hw1 as (_ & _ & Hs). destruct (w_scripts w1) as [|x l]; unfold slice_ok; cbn in *.
      + unfold alloc in Hm. inv Hm. cbn. rewrite length_replicate. lia.
      + inv Hm. inv Hs. lia. }
  unfold with_ReadFull, io_ReadFull in E. case_decide as Hd; unfold mret, stm_ret in E.
  - inv E. unfold slice_ok in *. cbn. destruct Hb as [Hb _].
    rewrite length_app, length_take, length_drop. lia.
  - apply bind_Ok_inv in E as (? & ? & ? & ?). discriminate.
Qed.

(** ** The receiver as parsed data *)

Definition sin (t : ptxin) : tx_in :=
  MkTxIn (pi_prev t) (osl_bytes (pi_script t)) (map osl_bytes (pi_wit t)) (pi_seq t).
Definition sout (t : ptxout) : tx_out := MkTxOut (po_value t) (osl_bytes (po_script t)).

Definition all_slices (ins : list ptxin) (outs : list ptxout) : list slice :=
  concat (map slices_in ins) ++ concat (map slices_out outs).
Definition sl_total (l : list slice) : Z := sum_map (fun s => Z.of_nat (sl_len s)) l.

(** The running total is the sum of the lengths of the slices, in a uint64. *)
Definition good (l : list slice) (tot : Z) : Prop :=
  Forall slice_ok l /\ tot = u64 (sl_total l).

#[export] Instance sl_total_perm : Proper ((≡ₚ) ==> eq) sl_total.
Proof.
  unfold sl_total, sum_map. induction 1; cbn; try lia.
Qed.

Lemma good_add l l' s tot : l' ≡ₚ s :: l -> slice_ok s -> good l tot ->
  good l' (u64 (tot + Z.of_nat (sl_len s))).
Proof.
  intros Hp Hs [Hl ->]. split.
  - rewrite Hp. now constructor.
  - rewrite Hp. unfold u64. rewrite Zplus_mod_idemp_l. f_equal.
    unfold sl_total, sum_map. cbn [fold_right]. lia.
Qed.

Lemma upd_in_at n v ins t rest outs lk tot f : length ins = n ->
  upd_in n f (PMsg v (ins ++ t :: rest) outs lk tot) = PMsg v (ins ++ f t :: rest) outs lk tot.
Proof.
  intros <-. unfold upd_in, set_ins. cbn.
  now rewrite alter_app_r_alt, Nat.sub_diag by lia.
Qed.
Lemma upd_out_last n v ins t outs lk tot f : length outs = n ->
  upd_out n f (PMsg v ins (outs ++ [t]) lk tot) = PMsg v ins (outs ++ [f t]) lk tot.
Proof.
  intros <-. unfold upd_out, set_outs. cbn.
  now rewrite alter_app_r_alt, Nat.sub_diag by lia.
Qed.

(** ** The loops *)

Lemma reads_outpoint : reads readOutPoint (dec c_outpoint).
Proof.
  eapply (implements_eq _ _ (h ← p_take 32; i ← dec (c_uint 4); mret (MkOutPoint h i))).
  - intros r. unfold c_outpoint. cbn [dec c_map c_pair c_dep c_bytes c_uint]. unfold mbind, stm_bind.
    destruct (p_take 32 r) as [[h|] r1]; [|done]. now destruct (p_take 4 r1) as [[]].
  - unfold readOutPoint. wire.
Qed.

(** [dlift H]: a call on the reader on both sides, by its refinement lemma. *)
Ltac dlift H := eapply dspec_bind; [apply dspec_lift, H|];
  let a := fresh "a" in let b := fresh "b" in let p' := fresh "p" in
  let w := fresh "w" in let Hw := fresh "Hw" in let Hm := fresh "Hm" in
  intros a b p' (-> & <- & (w & Hw & Hm) & Hq); clear Hq;
  try (apply readScript_slice_ok in Hm; [|exact Hw]).

Lemma dspec_readTxIn n v ins outs lk tot : length ins = n ->
  dspec (PMsg v (ins ++ [new_txin]) outs lk tot) (readTxIn n) (dec c_txin)
    (fun _ b p' => exists t s, slice_ok s /\ sin t = b /\ slices_in t = [s] /\ pi_wit t = [] /\
       p' = PMsg v (ins ++ [t]) outs lk (u64 (tot + Z.of_nat (sl_len s)))).
Proof.
  intros Hn. apply (dspec_parser_eq _ _ _
    (o ← dec c_outpoint; s ← dec (c_script "transaction input signature script" MaxMessagePayload);
     q ← dec (c_uint 4); mret (MkTxIn o s [] q))).
  { intros r. unfold c_txin. cbn [dec c_map c_pair c_dep]. unfold mbind, stm_bind, mret, stm_ret.
    destruct (dec c_outpoint r) as [[o|] r1]; [|done].
    destruct (dec (c_script _ _) r1) as [[s|] r2]; [|done]. now destruct (dec (c_uint 4) r2) as [[]]. }
  unfold readTxIn. dlift reads_outpoint. apply dspec_modify. rewrite upd_in_at by done.
  dlift reads_script. apply dspec_modify. rewrite upd_in_at by done.
  dlift (reads_Element KUint32). apply dspec_modify. rewrite upd_in_at by done.
  apply dspec_modified. eexists _, a0.
  split_and!; [|..|reflexivity]; done.
Qed.

Lemma dspec_readTxOut n v ins outs lk tot : length outs = n ->
  dspec (PMsg v ins (outs ++ [new_txout]) lk tot) (readTxOut n) (dec c_txout)
    (fun _ b p' => exists t s, slice_ok s /\ sout t = b /\ slices_out t = [s] /\
       p' = PMsg v ins (outs ++ [t]) lk (u64 (tot + Z.of_nat (sl_len s)))).
Proof.
  intros Hn. apply (dspec_parser_eq _ _ _
    (x ← dec c_int64; s ← dec (c_script "transaction output public key script" MaxMessagePayload);
     mret (MkTxOut x s))).
  { intros r. unfold c_txout. cbn [dec c_map c_pair c_dep]. unfold mbind, stm_bind, mret, stm_ret.
    destruct (dec c_int64 r) as [[o|] r1]; [|done]. now destruct (dec (c_script _ _) r1) as [[s|] r2]. }
  unfold readTxOut. dlift (reads_Element KInt64). apply dspec_modify. rewrite upd_out_last by done.
  dlift reads_script. apply dspec_modify. rewrite upd_out_last by done.
  apply dspec_modified. eexists _, a0.
  split_and!; [|..|reflexivity]; done.
Qed.

Lemma concat_map_last {A B} (f : A -> list B) l x : concat (map f (l ++ [x])) = concat (map f l) ++ f x.
Proof. rewrite map_app, concat_app. cbn. now rewrite app_nil_r. Qed.

Definition ins_read (v : Z) (outs0 : list ptxout) lk (i : nat) (l : list tx_in) (p : pmsg) : Prop :=
  exists ins tot, p = PMsg v ins outs0 lk tot /\ length ins = i /\ map sin ins = l /\
    Forall (fun t => pi_wit t = []) ins /\ good (all_slices ins []) tot.

Lemma dspec_readTxIns v outs0 lk n :
  dspec (PMsg v [] outs0 lk 0) (readTxIns n) (repeatM n (dec c_txin))
    (fun _ l p' => ins_read v outs0 lk n l p').
Proof.
  apply (dspec_for (ins_read v outs0 lk)).
  { exists [], 0. split_and!; try done. }
  intros i l p _ (ins & tot & -> & Hi & Hl & Hw & Hg). apply dspec_modify.
  unfold set_ins. cbn [p_version p_ins p_outs p_lock p_total].
  eapply dspec_weaken; [now apply dspec_readTxIn|].
  intros [] b p' (t & s & Hs & <- & Ht & Hwt & ->). exists (ins ++ [t]), (u64 (tot + Z.of_nat (sl_len s))).
  rewrite length_app, map_app, Forall_app. cbn. split_and!; try done; [lia|congruence|now constructor|].
  apply (good_add (all_slices ins [])); [|done..].
  unfold all_slices. rewrite concat_map_last, Ht, !app_nil_r. symmetry. apply Permutation_cons_append.
Qed.

Definition outs_read (v : Z) (ins : list ptxin) lk (i : nat) (l : list tx_out) (p : pmsg) : Prop :=
  exists outs tot, p = PMsg v ins outs lk tot /\ length outs = i /\ map sout outs = l /\
    good (all_slices ins outs) tot.

Lemma dspec_readTxOuts v ins lk tot n : good (all_slices ins []) tot ->
  dspec (PMsg v ins [] lk tot) (readTxOuts n) (repeatM n (dec c_txout))
    (fun _ l p' => outs_read v ins lk n l p').
Proof.
  intros Hg0. apply (dspec_for (outs_read v ins lk)).
  { exists [], tot. done. }
  intros i l p _ (outs & tot' & -> & Hi & Hl & Hg). apply dspec_modify.
  unfold set_outs. cbn [p_version p_ins p_outs p_lock p_total].
  eapply dspec_weaken; [now apply dspec_readTxOut|].
  intros [] b p' (t & s & Hs & <- & Ht & ->). exists (outs ++ [t]), (u64 (tot' + Z.of_nat (sl_len s))).
  rewrite length_app, map_app. cbn. split_and!; try done; [lia|congruence|].
  apply (good_add (all_slices ins outs)); [|done..].
  unfold all_slices. rewrite concat_map_last, Ht. rewrite app_assoc. symmetry. apply Permutation_cons_append.
Qed.

(** *** Witnesses *)

Lemma bind_mret {A} (q : parser A) r : q r = (q ≫= mret) r.
Proof. unfold mbind, stm_bind. now destruct (q r) as [[]]. Qed.


Lemma all_slices_middle ins1 t ins2 outs :
  all_slices (ins1 ++ t :: ins2) outs ≡ₚ slices_in t ++ all_slices (ins1 ++ ins2) outs.
Proof.
  unfold all_slices. rewrite !map_app, !concat_app. cbn [map concat]. rewrite <- !app_assoc.
  now rewrite Permutation_app_swap_app.
Qed.

Lemma slices_push t s : slices_in (push_wit (Some s) t) ≡ₚ s :: slices_in t.
Proof.
  unfold slices_in, push_wit, set_wit. destruct t as [o [sc|] ws q]; cbn [pi_script pi_wit pi_prev omap list_omap id];
    rewrite omap_app; cbn; rewrite <- Permutation_cons_append; done || constructor.
Qed.

Definition wit_read v ins1 t0 ins2 outs lk (i : nat) (l : list bytes) (p : pmsg) : Prop :=
  exists t tot, p = PMsg v (ins1 ++ t :: ins2) outs lk tot /\
    sin t = set_Witness l (sin t0) /\ good (all_slices (ins1 ++ t :: ins2) outs) tot.

Lemma dspec_readWitness n v ins1 t ins2 outs lk tot : length ins1 = n -> pi_wit t = [] ->
  good (all_slices (ins1 ++ t :: ins2) outs) tot ->
  dspec (PMsg v (ins1 ++ t :: ins2) outs lk tot) (readWitness n) (dec c_witness)
    (fun _ ws p' => exists t' tot', p' = PMsg v (ins1 ++ t' :: ins2) outs lk tot' /\
       sin t' = set_Witness ws (sin t) /\ good (all_slices (ins1 ++ t' :: ins2) outs) tot').
Proof.
  intros Hn Hw Hg. unfold readWitness, c_witness. cbn [dec c_varvec c_counted].
  dlift reads_VarInt. unfold at_most. destruct (_ <? a); [apply dspec_fail|].
  apply dspec_modify. rewrite upd_in_at by done.
  apply (dspec_for (wit_read v ins1 t ins2 outs lk)).
  { assert (Ht : set_wit [] t = t) by (destruct t; cbn in *; now subst).
    rewrite Ht. exists t, tot. split_and!; try done. unfold set_Witness, sin. cbn. now rewrite Hw. }
  intros i l p _ (t' & tot' & -> & Ht & Hg'). eapply dspec_parser_eq; [apply bind_mret|]. dlift reads_script. apply dspec_modify.
  rewrite upd_in_at by done. apply dspec_modified.
  exists (push_wit (Some a0) t'), (u64 (tot' + Z.of_nat (sl_len a0))). split_and!; [done| |].
  - destruct t' as [o sc ws q], t as [o0 sc0 ws0 q0].
    unfold sin, push_wit, set_wit, set_Witness in *.
    cbn [pi_prev pi_script pi_wit pi_seq PreviousOutPoint SignatureScript Witness Sequence] in *.
    injection Ht as <- H <- <-. now rewrite map_app, H.
  - apply (good_add (all_slices (ins1 ++ t' :: ins2) outs)); [|eauto|done].
    rewrite !all_slices_middle, slices_push. done.
Qed.

Definition wits_read v (ins0 : list ptxin) outs lk (i : nat) (l : list (list bytes)) (p : pmsg) : Prop :=
  exists ins1 tot, p = PMsg v (ins1 ++ drop i ins0) outs lk tot /\ length ins1 = i /\ length l = i /\
    map sin ins1 = attach (map sin (take i ins0)) l /\ good (all_slices (ins1 ++ drop i ins0) outs) tot.

Lemma attach_last ins ws t w : length ws = length ins ->
  attach (ins ++ [t]) (ws ++ [w]) = attach ins ws ++ [set_Witness w t].
Proof. intros Hl. unfold attach. now rewrite zip_with_app. Qed.

Lemma dspec_readWitnesses v ins outs lk tot n : n = length ins ->
  Forall (fun t => pi_wit t = []) ins -> good (all_slices ins outs) tot ->
  dspec (PMsg v ins outs lk tot) (forM_ (seq 0 n) readWitness) (repeatM n (dec c_witness))
    (fun _ ws p' => wits_read v ins outs lk n ws p').
Proof.
  intros -> Hw Hg.
  apply (dspec_for (wits_read v ins outs lk)).
  { exists [], tot. done. }
  intros i ws p Hi (ins1 & tot' & -> & Hl & Hlw & Hs & Hg').
  destruct (lookup_lt_is_Some_2 ins i) as [t Ht]; [done|].
  rewrite (drop_S _ _ _ Ht) in *.
  assert (Hwt : pi_wit t = []) by (by eapply (Forall_lookup_1 _ _ _ _ Hw Ht)).
  eapply dspec_weaken; [now apply dspec_readWitness|].
  intros [] w' p' (t' & tot2 & -> & Ht' & Hg2).
  exists (ins1 ++ [t']), tot2. rewrite <- app_assoc, !length_app, map_app. cbn.
  split_and!; try done; try lia.
  rewrite (take_S_r _ _ _ Ht), map_app, Hs. cbn. rewrite attach_last, Ht'; [done|].
  rewrite List.length_map, length_take. lia.
Qed.

(** ** The contiguous buffer

A relocating computation writes the bytes [src] at the current offset, leaves
the buffer before it alone, and returns windows: [Post final a] holds for every
[final] that keeps what is written up to the new offset. *)
Definition rspec {A} (m : R A) (src : bytes) (Post : bytes -> A -> Prop) : Prop :=
  forall w mem off, bufs_ok w -> (off + length src <= length mem)%nat ->
  exists a w' mem', m (w, (mem, off)) = (Ok a, (w', (mem', (off + length src)%nat))) /\
    length mem' = length mem /\ take (off + length src) mem' = take off mem ++ src /\
    (bufs_ok w' /\ same_writer w w' /\ w_rd w' = w_rd w) /\
    forall final, take (off + length src) final = take (off + length src) mem' -> Post final a.

Lemma rspec_ret {A} (a : A) : rspec (mret a) [] (fun _ b => b = a).
Proof.
  intros w mem off Hw Hl. cbn. rewrite Nat.add_0_r. exists a, w, mem.
  now rewrite app_nil_r.
Qed.

Lemma take_prefix {A} (x y : list A) n m : (n <= m)%nat -> take m x = take m y -> take n x = take n y.
Proof. intros Hn H. rewrite <- (Nat.min_l n m), <- !take_take by done. now rewrite H. Qed.

Lemma rspec_bind {A B} (m : R A) (k : A -> R B) s1 s2 P1 P2 :
  rspec m s1 P1 -> (forall a, rspec (k a) s2 (P2 a)) ->
  rspec (m ≫= k) (s1 ++ s2) (fun final b => exists a, P1 final a /\ P2 a final b).
Proof.
  intros Hm Hk w mem off Hw Hl. rewrite length_app in *.
  destruct (Hm w mem off Hw) as (a & w1 & mem1 & E1 & Hl1 & Ht1 & (Hb1 & Hs1 & Hr1) & HP1); [lia|].
  destruct (Hk a w1 mem1 (off + length s1)%nat Hb1) as (b & w2 & mem2 & E2 & Hl2 & Ht2 & (Hb2 & Hs2 & Hr2) & HP2); [lia|].
  rewrite Nat.add_assoc. exists b, w2, mem2. unfold mbind, stm_bind. rewrite E1.
  rewrite <- !Nat.add_assoc in *. rewrite Ht1, <- app_assoc in Ht2.
  split_and!; try done; try congruence; [now apply (same_writer_trans _ w1)|].
  intros final Hf. exists a. split; [|now apply HP2].
  apply HP1. apply (take_prefix _ _ (off + length s1)) in Hf; [|lia]. rewrite Hf, Ht1.
  rewrite (take_prefix mem2 (take off mem ++ s1 ++ s2) _ (off + (length s1 + length s2))); [|lia|].
  - rewrite app_assoc. apply take_app_exact. rewrite length_app, length_take. lia.
  - rewrite Ht2. symmetry. apply take_ge. rewrite !length_app, length_take. lia.
Qed.

Lemma rspec_weaken {A} (m : R A) s (P P' : bytes -> A -> Prop) :
  rspec m s P -> (forall final a, P final a -> P' final a) -> rspec m s P'.
Proof.
  intros Hm HP w mem off Hw Hl. destruct (Hm w mem off Hw Hl) as (a & w' & mem' & ? & ? & ? & ? & ?).
  exists a, w', mem'. eauto 10.
Qed.

Lemma rspec_mapM {A B} (f : A -> R B) (src : A -> bytes) (Post : A -> bytes -> B -> Prop) l :
  Forall (fun x => rspec (f x) (src x) (Post x)) l ->
  rspec (mapM f l) (concat (map src l)) (fun final bs => Forall2 (fun x b => Post x final b) l bs).
Proof.
  induction 1 as [|x l Hx _ IH]; cbn [mapM map concat].
  - eapply rspec_weaken; [apply rspec_ret|]. cbn. intros ? ? ->. constructor.
  - eapply rspec_weaken.
    + eapply rspec_bind; [apply Hx|]. intros b. rewrite <- (app_nil_r (concat _)).
      eapply rspec_bind; [apply IH|]. intros bs. apply rspec_ret.
    + cbn. intros final bs (b & Hb & bs' & Hbs & ->). now constructor.
Qed.

Lemma Forall2_resolve {A B C} (f : B -> C) (g : A -> C) l k :
  Forall2 (fun x b => f b = g x) l k -> map f k = map g l.
Proof. induction 1; cbn; congruence. Qed.

Lemma rspec_relocate s : from_option slice_ok True s ->
  rspec (relocate s) (osl_bytes s) (fun final v => win_bytes final v = osl_bytes s).
Proof.
  intros Hs w mem off Hw Hl. unfold relocate. rewrite decide_True by done.
  eexists _, _, _. split; [reflexivity|].
  set (src := osl_bytes s) in *.
  assert (Hlt : length (take off mem) = off) by (rewrite length_take; lia).
  assert (Ht : take (off + length src) (take off mem ++ src ++ drop (off + length src) mem) =
               take off mem ++ src).
  { rewrite app_assoc. apply take_app_exact. rewrite length_app. lia. }
  split_and!; [rewrite !length_app, length_drop; lia|done|..].
  1-3: destruct s as [b|]; [|done]; now destruct (Return_pool b w Hw) as (? & [? ?] & ? & _).
  - intros final Hf. rewrite Ht in Hf. unfold win_bytes. cbn [win_off win_len].
    rewrite take_drop_commute, Hf. apply drop_app_exact. lia.
Qed.

Definition in_bytes (t : ptxin) : bytes :=
  osl_bytes (pi_script t) ++ concat (map osl_bytes (pi_wit t)) ++ [].
Definition out_bytes (t : ptxout) : bytes := osl_bytes (po_script t) ++ [].
Definition in_ok (t : ptxin) : Prop :=
  from_option slice_ok True (pi_script t) /\ Forall (from_option slice_ok True) (pi_wit t).

Lemma rspec_relocate_in t : in_ok t ->
  rspec (relocate_in t) (in_bytes t) (fun final v => resolve_in final v = sin t).
Proof.
  intros [Hs Hw]. eapply rspec_weaken.
  - unfold relocate_in, in_bytes. eapply rspec_bind; [apply rspec_relocate, Hs|]. intros s.
    eapply rspec_bind.
    + apply (rspec_mapM _ osl_bytes (fun x final v => win_bytes final v = osl_bytes x)).
      apply (Forall_impl _ _ _ Hw). apply rspec_relocate.
    + intros ws. apply rspec_ret.
  - cbn. intros final v (s & Hs' & ws & Hws & ->). unfold resolve_in, sin. cbn.
    f_equal; [done|]. now apply Forall2_resolve.
Qed.

Lemma rspec_relocate_out t : from_option slice_ok True (po_script t) ->
  rspec (relocate_out t) (out_bytes t) (fun final v => resolve_out final v = sout t).
Proof.
  intros Hs. eapply rspec_weaken.
  - unfold relocate_out, out_bytes. eapply rspec_bind; [apply rspec_relocate, Hs|]. intros s.
    apply rspec_ret.
  - cbn. intros final v (s & Hs' & ->). unfold resolve_out, sout. cbn. now f_equal.
Qed.

(** The buffer is as long as the slices to copy. *)
Lemma osl_total (l : list (option slice)) : Forall slice_ok (omap id l) ->
  len (concat (map osl_bytes l)) = sl_total (omap id l).
Proof.
  induction l as [|[s|] l IH]; cbn; [done| |exact IH]. inversion_clear 1 as [|? ? Hs Hl].
  rewrite len_app, IH by done. unfold len. rewrite slice_ok_len by done.
  unfold sl_total, sum_map. cbn. lia.
Qed.

Lemma sl_total_app l k : sl_total (l ++ k) = sl_total l + sl_total k.
Proof. apply sum_map_app. Qed.

Lemma omap_slice_ok (k : list (option slice)) :
  Forall slice_ok (omap id k) -> Forall (from_option slice_ok True) k.
Proof.
  induction k as [|[s|] k IHk]; cbn; [done| |].
  - intros [? ?]%Forall_cons. constructor; auto.
  - intros. constructor; [done|auto].
Qed.

Lemma ins_total (l : list ptxin) : Forall slice_ok (concat (map slices_in l)) ->
  len (concat (map in_bytes l)) = sl_total (concat (map slices_in l)) /\ Forall in_ok l.
Proof.
  induction l as [|t l IH]; cbn; [done|]. rewrite Forall_app. intros [Ht Hl].
  destruct (IH Hl) as [IH1 IH2]. unfold slices_in in Ht.
  rewrite len_app, IH1, sl_total_app. unfold in_bytes, slices_in. split.
  - rewrite app_nil_r. change (osl_bytes (pi_script t) ++ concat (map osl_bytes (pi_wit t)))
      with (concat (map osl_bytes (pi_script t :: pi_wit t))). now rewrite osl_total.
  - constructor; [|done]. now apply (omap_slice_ok (pi_script t :: pi_wit t)), Forall_cons in Ht.
Qed.

Lemma outs_total (l : list ptxout) : Forall slice_ok (concat (map slices_out l)) ->
  len (concat (map out_bytes l)) = sl_total (concat (map slices_out l)) /\
  Forall (fun t => from_option slice_ok True (po_script t)) l.
Proof.
  induction l as [|t l IH]; cbn; [done|]. rewrite Forall_app. intros [Ht Hl].
  destruct (IH Hl) as [IH1 IH2].
  rewrite len_app, IH1, sl_total_app. unfold out_bytes, slices_out in *. rewrite app_nil_r.
  destruct (po_script t) as [s|] eqn:E; cbn in *; [|split; [done|constructor; [now rewrite E|done]]].
  inv Ht. split; [|constructor; [now rewrite E|done]].
  unfold len at 1. rewrite slice_ok_len by done. unfold sl_total, sum_map. cbn. lia.
Qed.

(** The end of BtcDecode: it cannot panic, and every script survives. *)
Lemma contiguous_spec v ins outs lk tot w :
  bufs_ok w -> good (all_slices ins outs) tot -> sl_total (all_slices ins outs) < 2 ^ 64 ->
  exists w', contiguous (w, PMsg v ins outs lk tot) =
    (Ok (MkMsgTx v (map sin ins) (map sout outs) lk), (w', PMsg v ins outs lk tot)) /\
    bufs_ok w' /\ same_writer w w' /\ w_rd w' = w_rd w.
Proof.
  intros Hw [Hs ->] Hlt. apply Forall_app in Hs as [Hsi Hso].
  destruct (ins_total ins Hsi) as [Hli Hoki], (outs_total outs Hso) as [Hlo Hoko].
  unfold all_slices in *. rewrite sl_total_app in *. rewrite u64_small.
  2: { pose proof (len_nonneg (concat (map in_bytes ins))).
       pose proof (len_nonneg (concat (map out_bytes outs))). words. }
  set (n := Z.to_nat (sl_total (concat (map slices_in ins)) + sl_total (concat (map slices_out outs)))).
  assert (Hr : rspec (ins ← mapM relocate_in ins; outs ← mapM relocate_out outs; mret (ins, outs))
    (concat (map in_bytes ins) ++ concat (map out_bytes outs) ++ [])
    (fun final '(i, o) => map (resolve_in final) i = map sin ins /\ map (resolve_out final) o = map sout outs)).
  { eapply rspec_weaken.
    - eapply rspec_bind; [apply (rspec_mapM _ in_bytes (fun x final v => resolve_in final v = sin x));
        apply (Forall_impl _ _ _ Hoki), rspec_relocate_in|]. intros i.
      eapply rspec_bind; [apply (rspec_mapM _ out_bytes (fun x final v => resolve_out final v = sout x));
        apply (Forall_impl _ _ _ Hoko), rspec_relocate_out|]. intros o. apply rspec_ret.
    - cbn. intros final p (i & Hi & o & Ho & ->). split; now apply Forall2_resolve. }
  destruct (Hr w (replicate n x00) O Hw) as ([i o] & w' & mem & E & _ & _ & (Hb & Hsw & Hrd) & HP).
  { rewrite !length_app, length_replicate. cbn. unfold len in Hli, Hlo. lia. }
  exists w'. unfold contiguous. cbn [p_total p_ins p_outs p_version p_lock]. fold n. rewrite E.
  destruct (HP mem eq_refl) as [-> ->]. done.
Qed.

(** *** The scripts of a transaction within the limits fit a uint64 *)

Lemma len_concat_bound {A} (l : list (list A)) k n :
  Forall (fun x => len x <= k) l -> len l <= n -> 0 <= k -> len (concat l) <= n * k.
Proof.
  intros Hl Hn Hk. transitivity (len l * k); [|nia]. clear Hn.
  induction Hl as [|x l Hx _ IH]; [done|]. cbn [concat]. rewrite len_app, len_cons. lia.
Qed.

Definition in_scripts (ti : tx_in) : bytes := SignatureScript ti ++ concat (Witness ti) ++ [].
Definition out_scripts (o : tx_out) : bytes := PkScript o ++ [].

Lemma scripts_bound t : tx_wf t ->
  len (concat (map in_scripts (TxIns t))) + len (concat (map out_scripts (TxOuts t))) < 2 ^ 64.
Proof.
  intros [_ Hni Hi Hw Hno Ho _].
  assert (H1 : len (concat (map in_scripts (TxIns t))) <=
    maxTxInPerMessage * (MaxMessagePayload + maxWitnessItemsPerInput * maxWitnessItemSize)).
  { apply len_concat_bound; [|now rewrite len_map|done]. apply Forall_map_iff.
    rewrite Forall_forall in *. intros ti Hti. destruct (Hi ti Hti) as [_ _ Hs _], (Hw ti Hti) as [Hc Hits].
    unfold in_scripts. rewrite !len_app, len_nil.
    pose proof (len_concat_bound (Witness ti) _ _ Hits Hc ltac:(done)). lia. }
  assert (H2 : len (concat (map out_scripts (TxOuts t))) <= maxTxOutPerMessage * MaxMessagePayload).
  { apply len_concat_bound; [|now rewrite len_map|done]. apply Forall_map_iff.
    apply (Forall_impl _ _ _ Ho). intros o [_ Hs]. unfold out_scripts. now rewrite app_nil_r. }
  assert (maxTxInPerMessage * (MaxMessagePayload + maxWitnessItemsPerInput * maxWitnessItemSize) +
    maxTxOutPerMessage * MaxMessagePayload < 2 ^ 64) by reflexivity. lia.
Qed.

Lemma map_ext_comp {A B C} (f : B -> C) (g : A -> B) (h : A -> C) l k :
  map g l = k -> (forall x, f (g x) = h x) -> map h l = map f k.
Proof. intros <- H. rewrite map_map. now apply map_ext. Qed.

Lemma slices_bound ins outs t tot : good (all_slices ins outs) tot -> tx_wf t ->
  map sin ins = TxIns t -> map sout outs = TxOuts t -> sl_total (all_slices ins outs) < 2 ^ 64.
Proof.
  intros [Hs _] Ht Hi Ho. apply Forall_app in Hs as [Hsi Hso].
  unfold all_slices. rewrite sl_total_app.
  destruct (ins_total ins Hsi) as [<- _], (outs_total outs Hso) as [<- _].
  rewrite (map_ext_comp in_scripts sin in_bytes _ _ Hi), (map_ext_comp out_scripts sout out_bytes _ _ Ho) by done.
  now apply scripts_bound.
Qed.

(** ** BtcDecode implements the parser *)

Lemma implements_count e :
  implements (fun fc => (negb (bool_decide (fc.1 = x00)), fc.2)) (readCount e) (p_count e).
Proof.
  unfold readCount, p_count. wire_step. wire_step; [|now apply implements_ret].
  eapply (implements_eq _ _ (fl ← p_take 1; if decide (hd x00 fl <> WitnessFlag) then fail (badFlag (hd x00 fl))
     else count ← dec c_varint; mret (true, count))).
  - intros r. unfold mbind, stm_bind. destruct (p_take 1 r) as [[fl|] r'] eqn:E; [|done].
    apply (dec_sound (c:=c_bytes 1)) in E as (Hl & _). cbn in Hl.
    destruct fl as [|x [|y fl]]; try discriminate Hl. cbn [hd].
    case_decide; case_decide; congruence.
  - wire_step. case_decide as Hd; [apply implements_fail|]. rewrite Hd.
    wire_step. now apply implements_ret.
Qed.

(** What a codec accepts is well formed. *)
Lemma dspec_wf {A B} p (m : D A) (c : codec B) `{!CodecLaws c} Q :
  dspec p m (dec c) Q -> dspec p m (dec c) (fun a b p' => Q a b p' /\ wf c b).
Proof.
  intros Hm w Hw. specialize (Hm w Hw). destruct (m (w, p)) as [[a|e] [w1 p1]];
  destruct (dec c (w_rd w)) as [[b|e'] r1] eqn:E; cbn in *; destruct Hm as (?&?&?&?); try done.
  apply dec_sound in E as [? _]. done.
Qed.

(** The parser with its binds flattened and its counts in the open. *)
Definition p_tx_flat (e : MessageEncoding) : parser tx :=
  v ← dec c_int32;
  fc ← p_count e;
  match at_most maxTxInPerMessage (tooMany "input transactions" maxTxInPerMessage) fc.2 with
  | Some err => fail err
  | None =>
      ins ← dec (c_vec (Z.to_nat fc.2) c_txin);
      n ← dec c_varint;
      match at_most maxTxOutPerMessage (tooMany "output transactions" maxTxOutPerMessage) n with
      | Some err => fail err
      | None =>
          outs ← dec (c_vec (Z.to_nat n) c_txout);
          ws ← dec (c_witnesses fc.1 (length ins));
          lt ← dec (c_uint 4);
          mret (MkMsgTx v (attach ins ws) outs lt)
      end
  end.

Lemma p_tx_flatten e r : p_tx e r = p_tx_flat e r.
Proof.
  unfold p_tx, p_tx_flat, p_after_count, mbind, stm_bind.
  destruct (dec c_int32 r) as [[v|] r1]; [|done].
  destruct (p_count e r1) as [[[f n]|] r2]; [|done]. cbn [fst snd].
  destruct (at_most maxTxInPerMessage _ n); [done|].
  change (repeatM (Z.to_nat n) (dec c_txin)) with (dec (c_vec (Z.to_nat n) c_txin)).
  destruct (dec (c_vec (Z.to_nat n) c_txin) r2) as [[ins|] r3]; [|done].
  unfold c_txouts, c_varvec, c_counted. cbn [dec]. unfold mbind, stm_bind.
  destruct (dec c_varint r3) as [[m|] r4]; [|done].
  destruct (at_most maxTxOutPerMessage _ m); [done|].
  destruct (dec (c_vec _ c_txout) r4) as [[outs|] r5]; [|done].
  destruct (dec (c_witnesses f (length ins)) r5) as [[ws|] r6]; [|done].
  now destruct (dec (c_uint 4) r6) as [[lt|] r7].
Qed.

(** The witness section, present or not. *)
Lemma dspec_witnesses (f : bool) v ins outs lk tot n : n = length ins ->
  Forall (fun t => pi_wit t = []) ins -> good (all_slices ins outs) tot ->
  dspec (PMsg v ins outs lk tot)
    (if f then orReturn (forM_ (seq 0 (length ins)) readWitness) else mret tt)
    (dec (c_witnesses f n))
    (fun _ ws p' => exists ins' tot', p' = PMsg v ins' outs lk tot' /\
       map sin ins' = attach (map sin ins) ws /\ good (all_slices ins' outs) tot').
Proof.
  intros -> Hw Hg. destruct f.
  - apply dspec_orReturn. eapply dspec_weaken; [now apply dspec_readWitnesses|].
    intros _ ws p' (ins' & tot' & -> & _ & _ & Ha & Hg'). rewrite take_ge in Ha by done.
    rewrite drop_ge, app_nil_r in * by done. eauto.
  - apply dspec_ret. exists ins, tot. split_and!; try done. clear Hg.
    induction Hw as [|t l Ht _ IH]; cbn; [done|]. unfold attach in IH. rewrite <- IH.
    f_equal. unfold sin, set_Witness. cbn. now rewrite Ht.
Qed.

Lemma dspec_contiguous v ins outs lk tot t : good (all_slices ins outs) tot -> tx_wf t ->
  t = MkMsgTx v (map sin ins) (map sout outs) lk ->
  dspec (PMsg v ins outs lk tot) contiguous (mret t) (fun t1 t2 _ => t1 = t2).
Proof.
  intros Hg Ht -> w Hw.
  destruct (contiguous_spec v ins outs lk tot w Hw Hg) as (w' & -> & Hb & Hs & Hr); [|done].
  by eapply slices_bound.
Qed.

Lemma implements_int32 : implements i32 (Uint32 littleEndian) (dec c_int32).
Proof.
  intros w Hw. destruct (reads_Uint32 w Hw) as (H & Hb & Hs). split; [|done].
  cbn [dec c_int32 c_map]. unfold mbind, stm_bind. rewrite H.
  now destruct (Uint32 littleEndian w) as [[]].
Qed.

(** What the parts of a parse, each well formed, make together. *)
Lemma parsed_wf f v ins outs ws lt n m :
  in_i32 v -> n <= maxTxInPerMessage -> m <= maxTxOutPerMessage ->
  wf (c_vec (Z.to_nat n) c_txin) ins -> wf (c_vec (Z.to_nat m) c_txout) outs ->
  wf (c_witnesses f (length ins)) ws -> wf (c_uint 4) lt ->
  tx_wf (MkMsgTx v (attach ins ws) outs lt).
Proof.
  intros Hv Hn Hm [Hi Hi'] [Ho Ho'] Hw Hl.
  assert (H1 : 0 <= maxTxInPerMessage) by done. assert (H2 : 0 <= maxTxOutPerMessage) by done.
  destruct (wf_body_attach f v ins outs ws lt) as (_ & ? & _); [done| |done].
  unfold c_body, c_txins, c_txouts. cbn [wf c_pair c_dep fst snd].
  rewrite !wf_varvec by reflexivity. unfold len. split_and!; try done; lia.
Qed.

Lemma dspec_BtcDecode p e : dspec p (BtcDecode e) (p_tx e) (fun t t' _ => t = t').
Proof.
  apply (dspec_parser_eq _ _ _ _ _ (p_tx_flatten e)). unfold BtcDecode, readEnd, p_tx_flat.
  eapply dspec_bind; [apply (dspec_wf _ _ c_int32), dspec_lift, implements_int32|].
  intros version v p' ((-> & <- & _) & [Hv _]). apply dspec_modify.
  eapply dspec_bind; [eapply dspec_lift, implements_count|].
  intros fc [f n] p' (-> & Hfc & _ & [r Hr]).
  destruct (p_count e r) as [r1 r2] eqn:Ec. cbn in Hr. subst r1.
  apply p_count_sound in Ec as (_ & _ & Hn & Hfe & _). inv Hfc. cbn [fst snd].
  unfold at_most at 1. destruct (maxTxInPerMessage <? fc.2) eqn:Hmax; [apply dspec_fail|]. boolify.
  apply dspec_modify, dspec_modify. destruct p as [v0 ins0 outs0 lk0 tot0].
  unfold set_version, zero_total, set_ins. cbn [p_version p_ins p_outs p_lock p_total].
  eapply dspec_bind.
  { apply (dspec_wf _ _ (c_vec (Z.to_nat fc.2) c_txin)), dspec_orReturn, dspec_readTxIns. }
  intros [] ins p' ((pins & tot & -> & Hli & <- & Hwit & Hg) & Hwi).
  eapply dspec_bind; [apply dspec_orReturn, dspec_lift, reads_VarInt|].
  intros m m' p' (-> & <- & _).
  unfold at_most. destruct (maxTxOutPerMessage <? m) eqn:Hmax2; [apply dspec_returns_fail|]. boolify.
  apply dspec_modify. unfold set_outs. cbn [p_version p_ins p_outs p_lock p_total].
  eapply dspec_bind.
  { apply (dspec_wf _ _ (c_vec (Z.to_nat m) c_txout)), dspec_orReturn, dspec_readTxOuts, Hg. }
  intros [] outs p' ((pouts & tot' & -> & Hlo & <- & Hg') & Hwo). apply dspec_get. cbn [p_ins].
  assert (Hf : negb (bool_decide (fc.1 = x00)) && bool_decide (e = WitnessEncoding) =
               negb (bool_decide (fc.1 = x00))).
  { destruct (negb _); [|done]. now rewrite bool_decide_true by auto. }
  rewrite Hf. eapply dspec_bind.
  { apply (dspec_wf _ _ (c_witnesses _ _)), dspec_witnesses; [apply List.length_map|done..]. }
  intros [] ws p' ((pins' & tot'' & -> & Hws & Hg'') & Hwws).
  eapply dspec_bind; [apply dspec_orReturn, (dspec_wf _ _ (c_uint 4)), dspec_lift, reads_Uint32|].
  intros lt lt' p' ((-> & <- & _) & Hlt). apply dspec_modify.
  unfold set_lock. cbn [p_version p_ins p_outs p_lock p_total].
  rewrite <- Hws in *. apply dspec_contiguous; [done| |done]. rewrite Hws.
  by apply (parsed_wf _ _ _ _ _ _ _ _ Hv Hmax Hmax2 Hwi Hwo Hwws Hlt).
Qed.

(** BtcDecode on any receiver implements the parser: in particular it never
panics, and neither the receiver's earlier contents nor the bytes left in the
pooled buffers can be told from the result. *)
Lemma reads_BtcDecode p e : reads (decode_into p e) (p_tx e).
Proof.
  intros w Hw. pose proof (dspec_BtcDecode p e w Hw) as H. unfold decode_into.
  destruct (BtcDecode e (w, p)) as [r [w' p']], (p_tx e (w_rd w)) as [r' r1].
  cbn in *. destruct H as (-> & Hb & Hs & HQ).
  split_and!; [|done|done]. destruct r, r'; cbn; now subst.
Qed.
