(* ===== verification/WireMsgTxProps.v ===== *)
(** * Transactions: round trip, canonicity, totality

The properties of the pair BtcEncode / BtcDecode, from the refinements of
WireMsgTxEncode (the encoder writes the format) and WireMsgTxDecode (the
decoder implements the parser). *)

From Stdlib Require Import ZArith Lia List.
From S2P Require Import Prelude WireFormat TxFormat WireCommon WireMsgTx WireMsgTxEncode WireMsgTxDecode.

(** What is left of a transaction after a trip through an encoding. *)
Definition sent (e : MessageEncoding) (t : tx) : tx :=
  match e with BaseEncoding => strip_witness t | WitnessEncoding => t end.

Lemma HasWitness_strip (t : tx) : HasWitness (strip_witness t) = false.
Proof. apply HasWitness_false, Forall_map_iff, Forall_forall. now intros []. Qed.

Lemma tx_wf_strip t : tx_wf t -> tx_wf (strip_witness t).
Proof.
  intros [Hv Hn Hi Hw Ho Hos Hl]. constructor; cbn [strip_witness Version TxIns TxOuts LockTime]; try done.
  - now rewrite len_map.
  - apply Forall_map_iff. apply (Forall_impl _ _ _ Hi). intros ti []. now constructor.
  - apply Forall_map_iff, Forall_forall. intros ti _. split; [done|constructor].
Qed.

Lemma strip_bytes t : tx_bytes_flag false (strip_witness t) = tx_bytes_flag false t.
Proof.
  unfold tx_bytes_flag, tx_parts. cbn [strip_witness Version TxIns TxOuts LockTime].
  unfold c_body. cbn [enc c_pair c_dep fst snd c_witnesses c_const]. now rewrite !map_map.
Qed.

(** The parser reads back what the encoder writes. *)
Lemma p_tx_bytes e t rest w : tx_wf t -> (e = WitnessEncoding -> TxIns t <> []) ->
  p_tx e (Reader (tx_bytes e t ++ rest) w) = (Ok (sent e t), Reader rest w).
Proof.
  intros Ht Hne. unfold tx_bytes, doWitness. destruct e; cbn [sent].
  - rewrite bool_decide_false by done. cbn [andb]. rewrite <- strip_bytes.
    apply p_tx_flag; [now apply tx_wf_strip|intros _; apply HasWitness_strip|done|done].
  - rewrite bool_decide_true by done. cbn [andb].
    apply p_tx_flag; [done|done|done|]. auto.
Qed.

(** C1: BtcDecode inverts BtcEncode.  A transaction within the protocol limits,
encoded and followed by anything, decodes -- on any receiver and whatever the
pooled buffers hold -- to itself under WitnessEncoding (given an input) and to
itself without witnesses under BaseEncoding, leaving the reader just after it. *)
Theorem BtcEncode_BtcDecode e t p w w' rest err :
  tx_wf t -> (e = WitnessEncoding -> TxIns t <> []) ->
  bufs_ok w -> bufs_ok w' -> w_room w = None ->
  (BtcEncode e t w).1 = Ok tt /\
  let r := decode_into p e (reading (written (BtcEncode e t) w ++ rest) err w') in
  r.1 = Ok (sent e t) /\ w_rd r.2 = Reader rest err.
Proof.
  intros Ht Hne Hw Hw' Hr.
  destruct (writes_unlimited _ _ w (writes_BtcEncode e t (tx_wf_sized t Ht)) Hw Hr) as (H1 & H2 & _).
  split; [done|]. cbn zeta. rewrite H2.
  apply (reads_run _ _ w' _ _ _ _ (reads_BtcDecode p e) Hw'). now apply p_tx_bytes.
Qed.

(** A receiver that already holds a transaction, and a pool with a used buffer. *)
Definition used_pmsg : pmsg :=
  PMsg 7 [PTxIn zero_outpoint (Some (Slice (Buffer 3 (replicate 512 xee)) 5)) [] 9] [] 1 12.
Definition used_world : world :=
  World (Reader [] EOF) [] None [replicate 8 xdd] [Buffer 0 (replicate 512 xcc)] 4.

Example BtcEncode_BtcDecode_witness :
  let r := decode_into used_pmsg WitnessEncoding
    (reading (written (BtcEncode WitnessEncoding sample_tx) used_world ++ [xff]) EOF used_world) in
  r.1 = Ok sample_tx /\ w_rd r.2 = Reader [xff] EOF.
Proof.
  assert (Ht : tx_wf sample_tx) by decide_now.
  assert (Hw : bufs_ok used_world) by decide_now.
  apply (BtcEncode_BtcDecode WitnessEncoding sample_tx used_pmsg used_world used_world [xff] EOF);
    [exact Ht|discriminate|exact Hw|exact Hw|reflexivity].
Defined.

(** C2: BtcDecode accepts only well-formed encodings.  If it returns a
transaction, that transaction is within every limit of the protocol, and the
bytes consumed are those BtcEncode writes for it, with one exception: under
WitnessEncoding a marker and flag in front of a transaction that then has no
witness at all. *)
Theorem BtcDecode_canonical e t p w :
  bufs_ok w -> (decode_into p e w).1 = Ok t ->
  tx_wf t /\
  exists consumed, r_data (w_rd w) = consumed ++ r_data (w_rd (decode_into p e w).2) /\
    (consumed = tx_bytes e t \/
     e = WitnessEncoding /\ HasWitness t = false /\ consumed = tx_bytes_flag true t) /\
    writes (BtcEncode e t) (tx_bytes e t).
Proof.
  intros Hw H. apply (reads_Ok _ _ _ _ (reads_BtcDecode p e) Hw) in H.
  apply p_tx_sound in H as (f & Ht & Hf & He & _ & Hd & _).
  split; [done|]. exists (tx_bytes_flag f t). split_and!; [done| |apply writes_BtcEncode, tx_wf_sized, Ht].
  unfold tx_bytes, doWitness. destruct f.
  - rewrite (He eq_refl), bool_decide_true by done. cbn [andb].
    destruct (HasWitness t) eqn:E; [now left|right]. auto.
  - left. rewrite (Hf eq_refl). now rewrite andb_false_r.
Qed.

(** The superfluous marker: one transaction, two accepted encodings. *)
Definition plain_tx : tx := MkMsgTx 1 [MkTxIn (MkOutPoint (replicate 32 xab) 0) [] [] 0] [] 0.

Example BtcDecode_canonical_witness :
  let w := reading (tx_bytes_flag true plain_tx) EOF used_world in
  (decode_into zero_pmsg WitnessEncoding w).1 = Ok plain_tx /\ tx_wf plain_tx /\
  tx_bytes_flag true plain_tx <> tx_bytes WitnessEncoding plain_tx.
Proof.
  intros w.
  assert (Hw : bufs_ok w) by decide_now.
  assert (H : (decode_into zero_pmsg WitnessEncoding w).1 = Ok plain_tx) by (vm_compute; reflexivity).
  destruct (BtcDecode_canonical WitnessEncoding plain_tx zero_pmsg w Hw H) as [Ht _].
  split; [exact H|split; [exact Ht|decide_now]].
Defined.

(** ** Totality: a decoder without panics *)

(** A parser that keeps the reader's final error and fails with [Panic] only if
that is the reader's own error. *)
Definition tame {A} (q : parser A) : Prop := forall r,
  r_end (q r).2 = r_end r /\ forall e, (q r).1 = Err e -> e = Panic -> r_end r = Panic.

Create HintDb tame.

Lemma tame_ret {A} (a : A) : tame (mret a).
Proof. done. Qed.
Lemma tame_message {A} f d : tame (fail (messageError f d) : parser A).
Proof. intros r. cbn. split; [done|]. now intros e [= <-]. Qed.
Lemma tame_take n : tame (p_take n).
Proof.
  intros r. unfold p_take. case_decide; cbn; [done|]. split; [done|].
  intros e [= <-]. unfold short_err. destruct (r_end r); try done. now case_decide.
Qed.
Lemma tame_bind {A B} (q : parser A) (k : A -> parser B) :
  tame q -> (forall a, tame (k a)) -> tame (q ≫= k).
Proof.
  intros Hq Hk r. unfold mbind, stm_bind. destruct (Hq r) as [H1 H2].
  destruct (q r) as [[a|e] r1]; cbn in *; [|split; [done|naive_solver]].
  destruct (Hk a r1) as [H3 H4]. rewrite H1 in *. done.
Qed.
#[export] Hint Resolve tame_ret tame_message tame_take tame_bind : tame.

Lemma tame_repeat {A} n (q : parser A) : tame q -> tame (repeatM n q).
Proof. intros Hq. induction n; cbn; eauto with tame. Qed.
Lemma tame_uint n : tame (dec (c_uint n)).
Proof. cbn. auto with tame. Qed.
#[export] Hint Resolve tame_repeat tame_uint : tame.

Lemma tame_varint : tame (dec c_varint).
Proof.
  cbn. unfold p_varint, p_varint_tail, nonCanonical. apply tame_bind; [auto with tame|]. intros d.
  repeat case_match; auto with tame; (apply tame_bind; [auto with tame|]; intros; case_match; auto with tame).
Qed.
#[export] Hint Resolve tame_varint : tame.

(** A counted codec whose count check reports message errors. *)
Lemma tame_counted {A} max func what count (body : Z -> codec A) :
  (forall n, tame (dec (body n))) ->
  tame (dec (c_counted c_varint (at_most max (fun n => messageError func (what n))) count body)).
Proof.
  intros Hb. cbn. apply tame_bind; [auto with tame|]. intros n. unfold at_most. destruct (max <? n); auto with tame.
Qed.

Lemma tame_script name max : tame (dec (c_script name max)).
Proof. apply (tame_counted _ "readScript"). cbn. auto with tame. Qed.
#[export] Hint Resolve tame_script : tame.
Lemma tame_txin : tame (dec c_txin).
Proof. cbn -[c_uint c_script]. eauto 10 with tame. Qed.
Lemma tame_txout : tame (dec c_txout).
Proof. cbn -[c_uint c_script]. eauto 10 with tame. Qed.
#[export] Hint Resolve tame_txin tame_txout : tame.
Lemma tame_txouts : tame (dec c_txouts).
Proof. apply (tame_counted _ "MsgTx.BtcDecode"). cbn -[c_txout]. auto with tame. Qed.
Lemma tame_witness : tame (dec c_witness).
Proof. apply (tame_counted _ "MsgTx.BtcDecode"). cbn -[c_script]. auto with tame. Qed.
#[export] Hint Resolve tame_txouts tame_witness : tame.
Lemma tame_witnesses f n : tame (dec (c_witnesses f n)).
Proof. destruct f; cbn -[c_witness]; auto with tame. Qed.
Lemma tame_count e : tame (p_count e).
Proof.
  unfold p_count, badFlag. apply tame_bind; [auto with tame|]. intros n. case_match; [|auto with tame].
  apply tame_bind; [auto with tame|]. intros fl. case_match; eauto with tame.
Qed.
#[export] Hint Resolve tame_witnesses tame_count : tame.

Lemma tame_tx e : tame (p_tx e).
Proof.
  unfold p_tx, p_after_count, at_most. apply tame_bind; [cbn -[c_uint]; eauto with tame|]. intros v.
  apply tame_bind; [auto with tame|]. intros [f n]. apply tame_bind.
  - destruct (_ <? _); [unfold tooMany; auto with tame|]. eauto 10 with tame.
  - intros [[[? ?] ?] ?]. auto with tame.
Qed.

(** C3: the decoder is total and its plumbing is invisible.  On any input it
returns a transaction or an error and never panics (no slice or index of it
leaves a buffer), and what it returns and consumes does not depend on the
receiver's earlier contents, on the stale bytes in the pooled buffers, or on how
many buffers are idle; it never touches the writer. *)
Theorem BtcDecode_total e p p' w w' :
  bufs_ok w -> bufs_ok w' -> w_rd w = w_rd w' -> r_end (w_rd w) <> Panic ->
  (decode_into p e w).1 <> Err Panic /\
  (decode_into p e w).1 = (decode_into p' e w').1 /\
  w_rd (decode_into p e w).2 = w_rd (decode_into p' e w').2 /\
  same_writer w (decode_into p e w).2 /\ bufs_ok (decode_into p e w).2.
Proof.
  intros Hw Hw' Hrd He. destruct (reads_BtcDecode p e w Hw) as (H1 & Hb & Ho).
  destruct (reads_BtcDecode p' e w' Hw') as (H2 & _). rewrite <- Hrd, H1 in H2.
  assert (Hid : forall r : result werr tx, res_map (fun a => a) r = r) by now intros [].
  rewrite !Hid in *. injection H2 as Hres Hend. rewrite <- Hres, <- Hend. split_and!; try done.
  intros Hp. destruct (tame_tx e (w_rd w)) as [_ Ht]. rewrite H1 in Ht. cbn in Ht.
  apply He. apply (Ht Panic); [exact Hp|done].
Qed.

Example BtcDecode_total_witness :
  let w := World (Reader [x01; x00; x00; x00; x01; xab] EOF) [] None [] [] 0 in
  let w' := reading [x01; x00; x00; x00; x01; xab] EOF used_world in
  (decode_into zero_pmsg BaseEncoding w).1 = (decode_into used_pmsg BaseEncoding w').1 /\
  (decode_into used_pmsg BaseEncoding w').1 = Err ErrUnexpectedEOF.
Proof.
  intros w w'.
  assert (Hw : bufs_ok w) by decide_now.
  assert (Hw' : bufs_ok w') by decide_now.
  assert (He : r_end (w_rd w) <> Panic) by discriminate.
  destruct (BtcDecode_total BaseEncoding zero_pmsg used_pmsg w w' Hw Hw' eq_refl He) as (_ & H & _).
  split; [exact H|vm_compute; reflexivity].
Defined.

(** ** Transactions without inputs *)

Lemma varint_first_byte n : in_u64 n -> n <> 1 -> byte_of (varint_disc n) <> x01.
Proof.
  intros Hn H1 E. apply (f_equal byte_val) in E. rewrite byte_val_of in E.
  change (byte_val x01) with 1 in E. revert E.
  unfold varint_disc. unfold in_u64 in Hn. repeat case_cmp; try done.
  rewrite Z.mod_small by lia. congruence.
Qed.

Lemma p_count_badflag b rest err : b <> x01 ->
  p_count WitnessEncoding (Reader (varint_bytes (len (@nil tx_in)) ++ b :: rest) err) =
  (Err (badFlag b), Reader rest err).
Proof.
  intros Hb. unfold p_count. rewrite (dec_enc_bind c_varint _ 0) by (cbn; words).
  cbn [Z.eqb TxFlagMarker andb]. rewrite bool_decide_true by done.
  rewrite (dec_enc_bind (c_bytes 1) _ [b] rest) by done.
  rewrite decide_False; [done|]. now intros [= ->].
Qed.

(** Serialize can emit what Deserialize refuses.  A transaction without
inputs, and with a number of outputs other than one, serialises without error,
but its input count is taken for the witness marker and the output count for the
flag: reading it back fails on the flag byte. *)
Theorem Serialize_no_inputs t w w' err :
  tx_wf t -> TxIns t = [] -> length (TxOuts t) <> 1%nat ->
  bufs_ok w -> bufs_ok w' -> w_room w = None ->
  (Serialize t w).1 = Ok tt /\
  exists b, (Deserialize (reading (written (Serialize t) w) err w')).1 = Err (badFlag b).
Proof.
  intros Ht Hi Ho Hw Hw' Hr.
  destruct (writes_unlimited _ _ w (writes_BtcEncode WitnessEncoding t (tx_wf_sized t Ht)) Hw Hr) as (H1 & H2 & _).
  split; [done|]. unfold Serialize. rewrite H2.
  assert (Hn : in_u64 (len (TxOuts t))).
  { destruct Ht as [_ _ _ _ Hno _ _]. pose proof (len_nonneg (TxOuts t)).
    assert (maxTxOutPerMessage < 2 ^ 64) by reflexivity. words. }
  exists (byte_of (varint_disc (len (TxOuts t)))).
  set (bs := tx_bytes WitnessEncoding t).
  destruct (reads_BtcDecode zero_pmsg WitnessEncoding (reading bs err w')) as (H & _); [done|].
  unfold Deserialize. cbn [w_rd reading set_rd] in H.
  assert (Hp : exists r, p_tx WitnessEncoding (Reader bs err) =
    (Err (badFlag (byte_of (varint_disc (len (TxOuts t))))), r)).
  { eexists. subst bs. unfold tx_bytes, doWitness, tx_bytes_flag, p_tx, HasWitness. rewrite Hi.
    cbn [existsb]. rewrite andb_false_r. cbn [app].
    rewrite (dec_enc_bind c_int32 _ (Version t)) by (split; [apply Ht|apply u32_range]).
    rewrite enc_body, Hi. unfold body_tail, c_txouts.
    cbn [enc c_vec map concat app c_varvec c_counted c_varint]. rewrite Hi.
    unfold mbind, stm_bind. cbn [map concat app].
    unfold varint_bytes at 2. cbn [app]. rewrite p_count_badflag; [reflexivity|].
    apply varint_first_byte; [done|]. unfold len. lia. }
  destruct Hp as [r Hp]. rewrite Hp in H.
  destruct (decode_into zero_pmsg WitnessEncoding (reading bs err w')) as [[]]; cbn in *; congruence.
Qed.

Example Serialize_no_inputs_witness :
  (Serialize (MkMsgTx 1 [] [] 0) used_world).1 = Ok tt /\
  (Deserialize (reading (written (Serialize (MkMsgTx 1 [] [] 0)) used_world) EOF used_world)).1 =
    Err (badFlag x00).
Proof.
  assert (Ht : tx_wf (MkMsgTx 1 [] [] 0)) by decide_now.
  assert (Hw : bufs_ok used_world) by decide_now.
  destruct (Serialize_no_inputs (MkMsgTx 1 [] [] 0) used_world used_world EOF Ht eq_refl
    ltac:(discriminate) Hw Hw eq_refl) as [H _].
  split; [exact H|vm_compute; reflexivity].
Defined.
