(* ===== verification/WireScriptPool.v ===== *)
(** * Ownership of the script buffers

scriptFreeList hands out buffers that the decoder must hand back exactly once:
a buffer that is handed back twice would be borrowed by two transactions at
once, a buffer that is not handed back is lost to the pool.  The judgement [tr]
follows which slices the decoder owns along BtcDecode, on every return path. *)

From Stdlib Require Import ZArith Lia List.
From S2P Require Import Prelude WireFormat TxFormat WireCommon WireMsgTx WireMsgTxEncode WireMsgTxDecode.
From S2P Require Import WireMsgTxProps.

#[local] Opaque freeListMaxScriptSize freeListMaxItems.

Definition buffer_ids (l : list buffer) : list nat := map buf_id l.
Definition sl_ids (l : list slice) : list nat := map (fun s => buf_id (sl_buf s)) l.

(** The capacity the pool takes back. *)
Definition pooled (s : slice) : bool := bool_decide (length (buf_mem (sl_buf s)) = freeListMaxScriptSize).

(** The pool is sound while the slices [l] are out: no buffer is in two hands,
identities to come are fresh, and at least [k] buffers of the pool's capacity
exist. *)
Record owned (k : nat) (w : world) (l : list slice) : Prop := {
  own_nodup : NoDup (buffer_ids (w_scripts w) ++ sl_ids l);
  own_fresh : Forall (fun i => i < w_next w)%nat (buffer_ids (w_scripts w) ++ sl_ids l);
  own_cap : Forall (fun b => length (buf_mem b) = freeListMaxScriptSize) (w_scripts w);
  own_max : (length (w_scripts w) <= freeListMaxItems)%nat;
  own_count : (k <= length (w_scripts w) + length (List.filter pooled l))%nat;
  own_k : (k <= freeListMaxItems)%nat
}.

Lemma filter_perm {A} (f : A -> bool) l l' : l ≡ₚ l' -> length (List.filter f l) = length (List.filter f l').
Proof. induction 1; cbn; repeat case_match; cbn; lia. Qed.

Lemma owned_perm k w l l' : l ≡ₚ l' -> owned k w l -> owned k w l'.
Proof.
  intros Hp [? ? ? ? ? ?]. assert (H : sl_ids l ≡ₚ sl_ids l') by now apply Permutation_map.
  constructor; try done; [now rewrite <- H|now rewrite <- H|]. now rewrite <- (filter_perm _ _ _ Hp).
Qed.

(** Calls that leave the script pool alone. *)
Definition quiet {A} (m : IO A) : Prop := forall w,
  w_scripts (m w).2 = w_scripts w /\ w_next (m w).2 = w_next w.

Create HintDb quiet.

Lemma quiet_ret {A} (a : A) : quiet (mret a).
Proof. done. Qed.
Lemma quiet_fail {A} e : quiet (fail e : IO A).
Proof. done. Qed.
Lemma quiet_bind {A B} (m : IO A) (k : A -> IO B) : quiet m -> (forall a, quiet (k a)) -> quiet (m ≫= k).
Proof.
  intros Hm Hk w. unfold mbind, stm_bind. destruct (Hm w) as [H1 H2].
  destruct (m w) as [[a|e] w1]; cbn in *; [|done].
  destruct (Hk a w1). split; congruence.
Qed.
Lemma quiet_with_ReadFull {A} n buf (k : option werr -> bytes -> IO A) :
  (forall e b, quiet (k e b)) -> quiet (with_ReadFull n buf k).
Proof.
  intros Hk w. unfold with_ReadFull, io_ReadFull. case_decide as Hd; cbv zeta;
    match goal with |- context [k ?e ?b ?w'] => exact (Hk e b w') end.
Qed.
Lemma quiet_Borrow : quiet bin_Borrow.
Proof. intros w. unfold bin_Borrow. now destruct (w_bin w). Qed.
Lemma quiet_Return b : quiet (bin_Return b).
Proof. intros w. unfold bin_Return. now case_decide. Qed.
#[export] Hint Resolve quiet_ret quiet_fail quiet_bind quiet_with_ReadFull quiet_Borrow quiet_Return : quiet.

Lemma quiet_borrow_read n conv : quiet (borrow_read n conv).
Proof.
  apply quiet_bind; [auto with quiet|]. intros b. apply quiet_with_ReadFull. intros [e|] b'; eauto with quiet.
Qed.
Lemma quiet_Uint8 : quiet Uint8. Proof. apply quiet_borrow_read. Qed.
Lemma quiet_Uint16 o : quiet (Uint16 o). Proof. apply quiet_borrow_read. Qed.
Lemma quiet_Uint32 o : quiet (Uint32 o). Proof. apply quiet_borrow_read. Qed.
Lemma quiet_Uint64 o : quiet (Uint64 o). Proof. apply quiet_borrow_read. Qed.
Lemma quiet_make n : quiet (make_ReadFull n).
Proof. apply quiet_with_ReadFull. intros [e|] b; auto with quiet. Qed.
#[export] Hint Resolve quiet_Uint8 quiet_Uint16 quiet_Uint32 quiet_Uint64 quiet_make : quiet.
Lemma quiet_VarInt : quiet ReadVarInt.
Proof.
  apply quiet_bind; [auto with quiet|]. intros d.
  repeat case_match; auto with quiet; (apply quiet_bind; [auto with quiet|]; intros; cbv zeta; case_match; auto with quiet).
Qed.
Lemma quiet_outpoint : quiet readOutPoint.
Proof. unfold readOutPoint. eauto 10 with quiet. Qed.
Lemma quiet_Element k : quiet (readElement k).
Proof. destruct k; cbn [readElement]; auto with quiet. Qed.
#[export] Hint Resolve quiet_VarInt quiet_outpoint quiet_Element : quiet.
Lemma quiet_Count e : quiet (readCount e).
Proof.
  apply quiet_bind; [auto with quiet|]. intros n. destruct (_ && _); [|auto with quiet].
  apply quiet_bind; [auto with quiet|]. intros fl. destruct (decide _); eauto with quiet.
Qed.
#[export] Hint Resolve quiet_Count : quiet.

Lemma owned_quiet {A} (m : IO A) k w l : quiet m -> owned k w l -> owned k (m w).2 l.
Proof. intros Hq [? ? ? ? ? ?]. destruct (Hq w) as [E1 E2]. constructor; now rewrite ?E1, ?E2. Qed.

(** ** Borrow and Return *)

Lemma owned_alloc k w l n cap : owned k w l ->
  owned k (set_scripts (w_scripts w) (S (w_next w)) w)
    (Slice (Buffer (w_next w) (replicate cap x00)) n :: l).
Proof.
  intros [Hn Hf Hc Hm Hk Hkk]. constructor; cbn [w_scripts w_next set_scripts sl_ids map sl_buf buf_id]; try done.
  - rewrite <- Permutation_middle. constructor; [|done]. intros Hin.
    rewrite Forall_forall in Hf. specialize (Hf _ Hin). lia.
  - rewrite <- Permutation_middle. constructor; [lia|]. apply (Forall_impl _ _ _ Hf). intros; lia.
  - cbn [List.filter]. case_match; cbn; lia.
Qed.

Lemma owned_Borrow size k w l : owned k w l ->
  exists s w', script_Borrow size w = (Ok s, w') /\ owned k w' (s :: l) /\ slice_ok s.
Proof.
  intros Ho. unfold script_Borrow, slice_ok.
  destruct (Z.of_nat freeListMaxScriptSize <? size) eqn:Es; boolify.
  - eexists _, _. split; [reflexivity|]. split; [now apply owned_alloc|].
    cbn. now rewrite length_replicate.
  - unfold mbind, stm_bind. destruct (w_scripts w) as [|b pool] eqn:E.
    + eexists _, _. split; [reflexivity|]. split; [now apply owned_alloc|].
      cbn. rewrite length_replicate. lia.
    + eexists _, _. split; [reflexivity|]. destruct Ho as [Hn Hf Hc Hm Hk Hkk]. rewrite E in *.
      cbn in Hn, Hf. inv Hc. split; [|cbn; lia].
      constructor; cbn [w_scripts w_next set_scripts sl_ids map sl_buf buf_id]; try done.
      * now rewrite <- Permutation_middle.
      * now rewrite <- Permutation_middle.
      * cbn in Hm. lia.
      * cbn [List.filter length] in *. unfold pooled at 1. cbn [sl_buf].
        rewrite bool_decide_true by done. cbn [length]. lia.
Qed.

Lemma owned_Return s k w l : owned k w (s :: l) -> owned k (script_Return s w).2 l.
Proof.
  intros [Hn Hf Hc Hm Hk Hkk]. cbn in Hn, Hf. rewrite <- Permutation_middle in Hn, Hf.
  unfold script_Return. cbn [List.filter] in Hk.
  case_decide as Hcap; cbn [snd].
  - rewrite (bool_decide_false _ Hcap : pooled s = false) in Hk. inv Hn. inv Hf. now constructor.
  - rewrite (bool_decide_true _ Hcap : pooled s = true) in Hk. cbn [length] in Hk.
    case_decide as Hroom; cbn [snd].
    + constructor; cbn [w_scripts w_next set_scripts]; try done.
      * unfold buffer_ids. rewrite map_app. cbn. rewrite <- app_assoc. cbn.
        now rewrite <- Permutation_middle.
      * unfold buffer_ids. rewrite map_app. cbn. rewrite <- app_assoc. cbn.
        now rewrite <- Permutation_middle.
      * apply Forall_app. now repeat constructor.
      * rewrite length_app. cbn. lia.
      * rewrite length_app. cbn. lia.
    + inv Hn. inv Hf. constructor; try done. lia.
Qed.

Lemma Return_Ok s w : exists w', script_Return s w = (Ok tt, w').
Proof. unfold script_Return. repeat case_decide; eauto. Qed.

Lemma owned_Returns ss k w l : owned k w (ss ++ l) ->
  exists w', forM_ ss script_Return w = (Ok tt, w') /\ owned k w' l.
Proof.
  revert w. induction ss as [|s ss IH]; intros w Ho; cbn; [eauto|].
  apply owned_Return in Ho. unfold mbind, stm_bind.
  destruct (Return_Ok s w) as [w1 E]. rewrite E in *. now apply IH.
Qed.

(** A failed read gives its buffer back itself. *)
Lemma owned_readScript max name k w l : owned k w l ->
  match readScript max name w with
  | (Ok s, w') => owned k w' (s :: l)
  | (Err _, w') => owned k w' l
  end.
Proof.
  intros Ho. unfold readScript, mbind, stm_bind at 1.
  pose proof (owned_quiet ReadVarInt k w l quiet_VarInt Ho) as Ho1.
  destruct (ReadVarInt w) as [[count|e] w1]; cbn in Ho1; [|done].
  destruct (max <? count); [done|]. unfold stm_bind at 1.
  destruct (owned_Borrow count k w1 l Ho1) as (s & w2 & -> & Ho2 & Hs).
  assert (Hmem : forall mem w3, length mem = length (buf_mem (sl_buf s)) ->
    w_scripts w3 = w_scripts w2 -> w_next w3 = w_next w2 -> owned k w3 (set_mem mem s :: l)).
  { intros mem w3 Hl E1 E2. destruct Ho2. constructor; rewrite ?E1, ?E2; try done.
    assert (Hp : pooled (set_mem mem s) = pooled s) by (unfold pooled, set_mem; cbn; now rewrite Hl).
    cbn [List.filter]. rewrite Hp. cbn [List.filter] in own_count0. destruct (pooled s); exact own_count0. }
  unfold slice_ok in Hs. unfold with_ReadFull, io_ReadFull. case_decide as Hd; cbv zeta.
  - apply Hmem; [|done..]. rewrite length_app, length_take, length_drop. lia.
  - unfold stm_bind. set (mem := _ ++ drop _ (buf_mem (sl_buf s))). set (w3 := set_rd _ w2).
    assert (Ho3 : owned k w3 (set_mem mem s :: l)).
    { apply Hmem; [|done..]. unfold mem. rewrite length_app, length_drop. lia. }
    apply owned_Return in Ho3. destruct (Return_Ok (set_mem mem s) w3) as [w4 E]. now rewrite E in *.
Qed.

(** ** The judgement

[tr E p l m Q]: started on receiver [p] while the slices [l] are out, [m] ends
with slices out that [Q] describes, or fails with the slices [E] of the final
receiver out. *)
Definition tr {A} (k : nat) (E : pmsg -> list slice) (p : pmsg) (l : list slice) (m : D A)
    (Q : A -> pmsg -> list slice -> Prop) : Prop :=
  forall w, owned k w l ->
    match m (w, p) with
    | (Ok a, (w', p')) => exists l', owned k w' l' /\ Q a p' l'
    | (Err e, (w', p')) => e = Panic \/ owned k w' (E p')
    end.

Section rules.
Context (k : nat).

Lemma tr_bind {A B} E p l (m : D A) Q (f : A -> D B) Q' :
  tr k E p l m Q -> (forall a p' l', Q a p' l' -> tr k E p' l' (f a) Q') -> tr k E p l (m ≫= f) Q'.
Proof.
  intros Hm Hf w Ho. specialize (Hm w Ho). unfold mbind, stm_bind.
  destruct (m (w, p)) as [[a|e] [w1 p1]]; [|done]. destruct Hm as (l' & Ho' & HQ).
  exact (Hf a p1 l' HQ w1 Ho').
Qed.

Lemma tr_weaken {A} E p l (m : D A) (Q Q' : A -> pmsg -> list slice -> Prop) :
  tr k E p l m Q -> (forall a p' l', Q a p' l' -> Q' a p' l') -> tr k E p l m Q'.
Proof.
  intros Hm HQ w Ho. specialize (Hm w Ho).
  destruct (m (w, p)) as [[a|e] [w1 p1]]; [|done]. destruct Hm as (l' & Ho' & H). eauto.
Qed.

Lemma tr_ret {A} E p l (a : A) (Q : A -> pmsg -> list slice -> Prop) :
  Q a p l -> tr k E p l (mret a) Q.
Proof. intros HQ w Ho. cbn. eauto. Qed.

Lemma tr_fail {A} (E : pmsg -> list slice) p l e (Q : A -> pmsg -> list slice -> Prop) :
  l ≡ₚ E p -> tr k E p l (fail e) Q.
Proof. intros Hl w Ho. cbn. right. by apply (owned_perm _ _ l). Qed.

Lemma tr_modify {A} E p l f (m : unit -> D A) Q :
  tr k E (f p) l (m tt) Q -> tr k E p l (modify f ≫= m) Q.
Proof. intros Hm w Ho. apply (Hm w Ho). Qed.

Lemma tr_modified E p l f (Q : unit -> pmsg -> list slice -> Prop) :
  Q tt (f p) l -> tr k E p l (modify f) Q.
Proof. intros HQ w Ho. cbn. eauto. Qed.

Lemma tr_get {A} E p l (m : pmsg -> D A) Q : tr k E p l (m p) Q -> tr k E p l (get ≫= m) Q.
Proof. intros Hm w Ho. apply (Hm w Ho). Qed.

Lemma tr_lift {A B} E p l (m : IO A) (f : A -> D B) Q :
  quiet m -> l ≡ₚ E p -> (forall a, tr k E p l (f a) Q) -> tr k E p l (lift m ≫= f) Q.
Proof.
  intros Hq Hl Hf w Ho. unfold mbind, stm_bind, lift. cbn [fst snd].
  pose proof (owned_quiet m k w l Hq Ho) as Ho1. destruct (m w) as [[a|e] w1]; cbn in Ho1.
  - exact (Hf a w1 Ho1).
  - right. by apply (owned_perm _ _ l).
Qed.

Lemma tr_lifted {A} E p l (m : IO A) : quiet m -> l ≡ₚ E p ->
  tr k E p l (lift m) (fun _ p' l' => p' = p /\ l' = l).
Proof.
  intros Hq Hl w Ho. unfold lift. cbn [fst snd].
  pose proof (owned_quiet m k w l Hq Ho) as Ho1. destruct (m w) as [[a|e] w1]; cbn in Ho1.
  - eauto.
  - right. by apply (owned_perm _ _ l).
Qed.

Lemma tr_readScript {B} E p l max name (f : slice -> D B) Q :
  l ≡ₚ E p -> (forall s, tr k E p (s :: l) (f s) Q) -> tr k E p l (lift (readScript max name) ≫= f) Q.
Proof.
  intros Hl Hf w Ho. unfold mbind, stm_bind, lift. cbn [fst snd].
  pose proof (owned_readScript max name k w l Ho) as Ho1.
  destruct (readScript max name w) as [[s|e] w1].
  - exact (Hf s w1 Ho1).
  - right. by apply (owned_perm _ _ l).
Qed.

Lemma tr_for E (I : nat -> pmsg -> list slice -> Prop) (f : nat -> D unit) n p l :
  (forall i p l, (i < n)%nat -> I i p l -> tr k E p l (f i) (fun _ => I (S i))) ->
  I O p l -> tr k E p l (forM_ (seq 0 n) f) (fun _ => I n).
Proof.
  intros Hf. enough (H : forall j i p l, (i + j)%nat = n -> I i p l ->
    tr k E p l (forM_ (seq i j) f) (fun _ => I n)) by (intros; by apply H).
  induction j as [|j IH]; intros i p' l' Hij HI; cbn.
  - apply tr_ret. now rewrite <- Hij, Nat.add_0_r.
  - eapply tr_bind; [apply Hf; [lia|done]|]. intros [] p2 l2 HI2. apply IH; [lia|done].
Qed.

(** On an error the slices of the receiver are handed back. *)
Lemma tr_orReturn {A} p l (m : D A) Q :
  tr k slices p l m Q -> tr k (fun _ => []) p l (orReturn m) Q.
Proof.
  intros Hm w Ho. specialize (Hm w Ho). unfold orReturn.
  destruct (m (w, p)) as [[a|e] [w1 p1]]; [done|].
  unfold returnScriptBuffers, mbind, stm_bind, get, lift. cbn [fst snd].
  destruct Hm as [->|Ho1].
  - destruct (forM_ (slices p1) script_Return w1) as [[[]|?] w2] eqn:Er; [now left|].
    exfalso. clear -Er. revert w1 Er. induction (slices p1) as [|s ss IH]; intros w1; cbn; [done|].
    unfold mbind, stm_bind. destruct (Return_Ok s w1) as [w3 ->]. apply IH.
  - destruct (owned_Returns (slices p1) k w1 []) as (w2 & -> & Ho2); [by rewrite app_nil_r|].
    right. exact Ho2.
Qed.

Lemma tr_returns_fail {A} p l e (Q : A -> pmsg -> list slice -> Prop) :
  l ≡ₚ slices p -> tr k (fun _ => []) p l (returnScriptBuffers ;; fail e) Q.
Proof.
  intros Hl w Ho. unfold returnScriptBuffers, mbind, stm_bind, get, lift. cbn [fst snd].
  destruct (owned_Returns (slices p) k w []) as (w2 & -> & Ho2); [|by right].
  rewrite app_nil_r. by apply (owned_perm _ _ l).
Qed.

End rules.

(** ** BtcDecode under the judgement *)

(** After the input loop, and the output loop, of a fresh receiver. *)
Definition own_ins (i : nat) (p : pmsg) (l : list slice) : Prop :=
  length (p_ins p) = i /\ Forall (fun t => pi_wit t = []) (p_ins p) /\ p_outs p = [] /\ l ≡ₚ slices p.
Definition own_outs (ins : list ptxin) (i : nat) (p : pmsg) (l : list slice) : Prop :=
  length (p_outs p) = i /\ p_ins p = ins /\ l ≡ₚ slices p.
(** In the witness loop: the inputs from [i] on have no witness yet. *)
Definition own_wits (n i : nat) (p : pmsg) (l : list slice) : Prop :=
  length (p_ins p) = n /\ Forall (fun t => pi_wit t = []) (drop i (p_ins p)) /\ l ≡ₚ slices p.

Lemma slices_set_script t s : pi_script t = None -> slices_in (set_script (Some s) t) = s :: slices_in t.
Proof. destruct t; cbn. now intros ->. Qed.

Section walk.
Context (k : nat).

Lemma tr_readTxIn i p l :
  own_ins i p l -> tr k slices (set_ins (p_ins p ++ [new_txin]) p) l (readTxIn i) (fun _ => own_ins (S i)).
Proof.
  destruct p as [v ins outs lk tot]. unfold own_ins, set_ins, slices. cbn [p_ins p_outs p_version p_lock p_total].
  intros (Hi & Hw & -> & Hl). cbn in Hl. rewrite app_nil_r in Hl.
  assert (Hsl : l ≡ₚ concat (map slices_in (ins ++ [new_txin])) ++ []).
  { now rewrite concat_map_last, !app_nil_r. }
  unfold readTxIn.
  apply tr_lift; [auto with quiet|done|]. intros op. apply tr_modify. rewrite upd_in_at by done.
  apply tr_readScript; [rewrite Hsl; unfold slices; cbn [p_ins p_outs]; by rewrite !concat_map_last|].
  intros s. apply tr_modify. rewrite upd_in_at by done.
  assert (Hsl2 : s :: l ≡ₚ concat (map slices_in (ins ++ [set_script (Some s) (set_prev op new_txin)])) ++ []).
  { rewrite Hsl, !concat_map_last, !app_nil_r. cbn. rewrite ?app_nil_r. apply Permutation_cons_append. }
  apply tr_lift; [auto with quiet|done|]. intros q. apply tr_modify. rewrite upd_in_at by done.
  apply tr_modified. cbn [add_total p_ins p_outs p_version p_lock p_total].
  rewrite length_app. cbn [length]. split_and!; [lia| |done|].
  - apply Forall_app. split; [done|]. by constructor.
  - rewrite Hsl2, !concat_map_last. done.
Qed.

Lemma tr_readTxIns v lk tot n :
  tr k slices (PMsg v [] [] lk tot) [] (readTxIns n) (fun _ => own_ins n).
Proof.
  apply tr_for; [|done]. intros i p l _ HI. apply tr_modify. now apply tr_readTxIn.
Qed.

Lemma tr_readTxOuts ins p l n : own_outs ins O p l -> tr k slices p l (readTxOuts n) (fun _ => own_outs ins n).
Proof.
  apply tr_for. intros i [v ins' outs lk tot] l' _ (Hi & Hins & Hl). cbn [p_ins] in Hins. subst ins'. apply tr_modify.
  unfold readTxOut, set_outs, slices in *. cbn [p_ins p_outs p_version p_lock p_total] in *.
  apply tr_lift; [auto with quiet| |].
  { rewrite Hl. cbn [p_ins p_outs]. rewrite concat_map_last. cbn. by rewrite app_nil_r. }
  intros x. apply tr_modify. rewrite upd_out_last by done.
  apply tr_readScript.
  { rewrite Hl. cbn [p_ins p_outs]. rewrite concat_map_last. cbn. by rewrite app_nil_r. }
  intros s. apply tr_modify. rewrite upd_out_last by done. apply tr_modified.
  unfold own_outs, slices, add_total. cbn [p_ins p_outs].
  rewrite length_app, concat_map_last. cbn [length]. split_and!; [lia|done|].
  rewrite app_assoc, Hl. apply Permutation_cons_append.
Qed.

Lemma tr_readWitness n i p l : (i < n)%nat -> own_wits n i p l ->
  tr k slices p l (readWitness i) (fun _ => own_wits n (S i)).
Proof.
  destruct p as [v ins outs lk tot]. intros Hi (Hn & Hw & Hl).
  cbn [p_ins] in *. unfold readWitness.
  apply tr_lift; [auto with quiet|done|]. intros c. destruct (_ <? c); [by apply tr_fail|].
  apply tr_modify. destruct (lookup_lt_is_Some_2 ins i) as [t Ht]; [lia|].
  rewrite (drop_S _ _ _ Ht) in Hw. apply Forall_cons in Hw as [Hwt Hw].
  rewrite <- (take_drop_middle _ _ _ Ht).
  assert (Hlt : length (take i ins) = i) by (rewrite length_take; lia).
  assert (Hset : set_wit [] t = t) by (destruct t; cbn in *; now subst).
  rewrite upd_in_at, Hset by done.
  eapply tr_weaken.
  - apply (tr_for k slices (fun _ p l => exists t' tot', p = PMsg v (take i ins ++ t' :: drop (S i) ins) outs lk tot' /\
      l ≡ₚ slices p)); cycle 1.
    { exists t, tot. split; [done|]. rewrite Hl. by rewrite (take_drop_middle _ _ _ Ht). }
    intros j p' l' _ (t' & tot' & -> & Hl').
    apply tr_readScript; [done|]. intros s. apply tr_modify. rewrite upd_in_at by done.
    apply tr_modified. eexists (push_wit (Some s) t'), _. split; [reflexivity|].
    rewrite Hl'. unfold slices. cbn [add_total p_ins p_outs p_version p_lock p_total].
    change (s :: all_slices (take i ins ++ t' :: drop (S i) ins) outs ≡ₚ
      all_slices (take i ins ++ push_wit (Some s) t' :: drop (S i) ins) outs).
    by rewrite !all_slices_middle, slices_push.
  - intros [] p' l' (t' & tot' & -> & Hl'). unfold own_wits. cbn [p_ins].
    rewrite length_app, Hlt. cbn [length]. rewrite length_drop. split_and!; [lia| |done].
    rewrite drop_app_ge, Hlt by lia. replace (S i - i)%nat with 1%nat by lia. done.
Qed.

Lemma tr_witnesses p l (f : bool) n : own_wits n O p l ->
  tr k (fun _ => []) p l
    (if f then orReturn (forM_ (seq 0 n) readWitness) else mret tt) (fun _ p l => l ≡ₚ slices p).
Proof.
  intros HI. destruct f; [|by apply tr_ret, HI].
  apply tr_orReturn. eapply tr_weaken; [apply (tr_for k slices (own_wits n))|]; [|done|].
  - intros. by apply tr_readWitness.
  - by intros [] p' l' (_ & _ & ?).
Qed.

(** *** The contiguous copy hands every slice back *)

Definition rt {A} (m : R A) (src : list slice) : Prop := forall w st l, owned k w (src ++ l) ->
  match m (w, st) with
  | (Ok _, (w', _)) => owned k w' l
  | (Err e, _) => e = Panic
  end.

Lemma rt_bind {A B} (m : R A) (f : A -> R B) s1 s2 :
  rt m s1 -> (forall a, rt (f a) s2) -> rt (m ≫= f) (s1 ++ s2).
Proof.
  intros Hm Hf w st l Ho. rewrite <- app_assoc in Ho. specialize (Hm w st _ Ho).
  unfold mbind, stm_bind. destruct (m (w, st)) as [[a|e] [w1 st1]]; [|done]. now apply Hf.
Qed.

Lemma rt_ret {A} (a : A) : rt (mret a) [].
Proof. by intros w st l Ho. Qed.

Lemma rt_relocate s : rt (relocate s) (omap id [s]).
Proof.
  intros w [mem off] l Ho. unfold relocate. case_decide; [|done].
  destruct s as [b|]; cbn in *; [now apply owned_Return|done].
Qed.

Lemma rt_mapM {A B} (f : A -> R B) (src : A -> list slice) l :
  (forall x, rt (f x) (src x)) -> rt (mapM f l) (concat (map src l)).
Proof.
  intros Hf. induction l as [|x l IH]; cbn [mapM map concat]; [apply rt_ret|].
  apply rt_bind; [done|]. intros b. rewrite <- (app_nil_r (concat _)).
  apply rt_bind; [done|]. intros bs. apply rt_ret.
Qed.

Lemma rt_relocate_in t : rt (relocate_in t) (slices_in t).
Proof.
  unfold relocate_in, slices_in. change (pi_script t :: pi_wit t) with ([pi_script t] ++ pi_wit t).
  rewrite omap_app. apply rt_bind; [apply rt_relocate|]. intros s.
  assert (H : omap id (pi_wit t) = concat (map (fun s => omap id [s]) (pi_wit t)) ++ []).
  { rewrite app_nil_r. induction (pi_wit t) as [|[x|] l IH]; cbn; [done|by rewrite IH|done]. }
  rewrite H. apply rt_bind; [apply rt_mapM, rt_relocate|]. intros ws. apply rt_ret.
Qed.

Lemma rt_relocate_out t : rt (relocate_out t) (slices_out t).
Proof.
  unfold relocate_out, slices_out. rewrite <- (app_nil_r (omap id [po_script t])).
  apply rt_bind; [apply rt_relocate|]. intros s. apply rt_ret.
Qed.

Lemma tr_contiguous p l : l ≡ₚ slices p ->
  tr k (fun _ => []) p l contiguous (fun _ _ l => l = []).
Proof.
  intros Hl w Ho. unfold contiguous.
  assert (Hr : rt (ins ← mapM relocate_in (p_ins p); outs ← mapM relocate_out (p_outs p); mret (ins, outs)) (slices p)).
  { unfold slices. apply rt_bind; [apply rt_mapM, rt_relocate_in|]. intros ins.
    rewrite <- (app_nil_r (concat (map slices_out _))).
    apply rt_bind; [apply rt_mapM, rt_relocate_out|]. intros outs. apply rt_ret. }
  specialize (Hr w (replicate (Z.to_nat (p_total p)) x00, O) []). rewrite app_nil_r in Hr.
  specialize (Hr (owned_perm _ _ _ _ Hl Ho)).
  destruct ((ins ← mapM relocate_in (p_ins p); _) _) as [[[ins outs]|e] [w' [mem off]]].
  - exists []. done.
  - now left.
Qed.

Lemma tr_BtcDecode e : tr k (fun _ => []) zero_pmsg [] (BtcDecode e) (fun _ _ l => l = []).
Proof.
  unfold BtcDecode, readEnd. apply tr_lift; [auto with quiet|done|]. intros version. apply tr_modify.
  apply tr_lift; [auto with quiet|done|]. intros fc.
  destruct (_ <? fc.2); [by apply tr_fail|]. apply tr_modify, tr_modify.
  eapply tr_bind; [apply tr_orReturn, tr_readTxIns|]. intros [] p l (Hlen & Hw & Ho & Hl).
  eapply tr_bind; [apply tr_orReturn, tr_lifted; [auto with quiet|done]|].
  intros count p' l' [-> ->]. destruct (_ <? count); [by apply tr_returns_fail|].
  apply tr_modify. eapply tr_bind.
  { apply tr_orReturn, (tr_readTxOuts (p_ins p)). split_and!; [done..|].
    rewrite Hl. unfold slices. now rewrite Ho. }
  intros [] p2 l2 (_ & Hp2 & Hl2). apply tr_get.
  eapply tr_bind; [apply tr_witnesses; unfold own_wits; rewrite Hp2; by split_and!|].
  intros [] p3 l3 Hl3. eapply tr_bind; [apply tr_orReturn, tr_lifted; [auto with quiet|done]|].
  intros lt p' l' [-> ->]. apply tr_modify, tr_contiguous. done.
Qed.

End walk.

(** ** The property *)

(** The pools at rest: sound free lists, within their bounds, and no script
buffer listed twice. *)
Definition pools_ok (w : world) : Prop :=
  bufs_ok w /\ (length (w_scripts w) <= freeListMaxItems)%nat /\
  NoDup (buffer_ids (w_scripts w)) /\ Forall (fun i => i < w_next w)%nat (buffer_ids (w_scripts w)).

#[export] Instance pools_ok_dec w : Decision (pools_ok w).
Proof. unfold pools_ok. apply _. Defined.

Lemma pools_owned w : pools_ok w -> owned (length (w_scripts w)) w [].
Proof.
  intros ((_ & _ & Hc) & Hm & Hn & Hf). constructor; cbn; rewrite ?app_nil_r; try done. lia.
Qed.

(** C4: no script buffer is lost or shared.  On every path through BtcDecode,
success or any error, a fresh receiver hands back what it borrowed: afterwards
no buffer is in the script pool twice, every pooled buffer has the pool's
capacity, the pool is within freeListMaxItems and holds no fewer buffers than
before. *)
Theorem BtcDecode_script_pool e w :
  pools_ok w -> r_end (w_rd w) <> Panic ->
  let w' := (decode_into zero_pmsg e w).2 in
  pools_ok w' /\ (length (w_scripts w) <= length (w_scripts w'))%nat.
Proof.
  intros Hp He w'. destruct (BtcDecode_total e zero_pmsg zero_pmsg w w) as (Hnp & _ & _ & _ & Hb);
    [apply Hp|apply Hp|done|done|].
  pose proof (tr_BtcDecode (length (w_scripts w)) e w (pools_owned w Hp)) as H.
  assert (Ho : owned (length (w_scripts w)) w' []).
  { unfold w', decode_into in *. destruct (BtcDecode e (w, zero_pmsg)) as [[t|err] [w1 p1]]; cbn in *.
    - now destruct H as (l & H & ->).
    - destruct H as [->|H]; [congruence|done]. }
  destruct Ho as [Hn Hf Hc Hm Hk _]. cbn in *. rewrite !app_nil_r in *.
  split; [|lia]. now split_and!.
Qed.

Example BtcDecode_script_pool_witness :
  let w := reading (tx_bytes WitnessEncoding sample_tx) EOF used_world in
  let w' := (decode_into zero_pmsg WitnessEncoding w).2 in
  (pools_ok w' /\ (1 <= length (w_scripts w'))%nat) /\
  buffer_ids (w_scripts w') = [0; 5; 6; 4]%nat.
Proof.
  intros w.
  assert (Hp : pools_ok w) by decide_now.
  assert (He : r_end (w_rd w) <> Panic) by discriminate.
  split; [exact (BtcDecode_script_pool WitnessEncoding w Hp He)|vm_compute; reflexivity].
Defined.
