(* ===== verification/Sha256.v ===== *)
(** * crypto/sha256

The hash function of Go's standard library that packages chainhash and main
call, executable: FIPS 180-4 on 32-bit words held in [Z].  The digests of known
messages are checked by evaluation at the end. *)

From Stdlib Require Import ZArith Lia List.
From S2P Require Import Prelude.

Definition rotr (n x : Z) : Z := Z.lor (Z.shiftr x n) (u32 (Z.shiftl x (32 - n))).

(** The constants: the first 32 bits of the fractional parts of the cube roots of
the first 64 primes, and of the square roots of the first eight. *)
Definition primes : list Z :=
  let is_prime (n : nat) := forallb (fun d => negb (n mod d =? 0)%nat) (seq 2 (n - 2)) in
  map Z.of_nat (List.filter is_prime (seq 2 310)).

(** The largest [r], of at most [bits] bits, with [f r <= x]. *)
Fixpoint root_of (bits : nat) (f : Z -> Z) (x r : Z) : Z :=
  match bits with
  | O => r
  | S bits' => let r' := r + 2 ^ Z.of_nat bits' in root_of bits' f x (if f r' <=? x then r' else r)
  end.

Definition round_constants : list Z :=
  Eval vm_compute in map (fun p => u32 (root_of 40 (fun r => r * r * r) (p * 2 ^ 96) 0)) primes.

Record state := State { sA : Z; sB : Z; sC : Z; sD : Z; sE : Z; sF : Z; sG : Z; sH : Z }.

Definition initial : state :=
  Eval vm_compute in
  let h i := u32 (root_of 40 (fun r => r * r) (nth i primes 0 * 2 ^ 64) 0) in
  State (h 0%nat) (h 1%nat) (h 2%nat) (h 3%nat) (h 4%nat) (h 5%nat) (h 6%nat) (h 7%nat).

(** The message schedule, latest word first. *)
Definition next_word (w : list Z) : Z :=
  let x15 := nth 14 w 0 in let x2 := nth 1 w 0 in
  let s0 := Z.lxor (Z.lxor (rotr 7 x15) (rotr 18 x15)) (Z.shiftr x15 3) in
  let s1 := Z.lxor (Z.lxor (rotr 17 x2) (rotr 19 x2)) (Z.shiftr x2 10) in
  u32 (s1 + nth 6 w 0 + s0 + nth 15 w 0).

Fixpoint schedule (n : nat) (w : list Z) : list Z :=
  match n with O => rev w | S n' => schedule n' (next_word w :: w) end.

Definition step (s : state) (kw : Z * Z) : state :=
  let e := sE s in let a := sA s in
  let s1 := Z.lxor (Z.lxor (rotr 6 e) (rotr 11 e)) (rotr 25 e) in
  let ch := Z.lxor (Z.land e (sF s)) (Z.land (Z.lxor e 0xffffffff) (sG s)) in
  let t1 := sH s + s1 + ch + kw.1 + kw.2 in
  let s0 := Z.lxor (Z.lxor (rotr 2 a) (rotr 13 a)) (rotr 22 a) in
  let maj := Z.lxor (Z.lxor (Z.land a (sB s)) (Z.land a (sC s))) (Z.land (sB s) (sC s)) in
  State (u32 (t1 + s0 + maj)) a (sB s) (sC s) (u32 (sD s + t1)) e (sF s) (sG s).

Fixpoint words_of (n : nat) (block : bytes) : list Z :=
  match n with O => [] | S n' => be_val (take 4 block) :: words_of n' (drop 4 block) end.

Definition compress (s : state) (block : bytes) : state :=
  let w := schedule 48 (rev (words_of 16 block)) in
  let t := fold_left step (combine round_constants w) s in
  State (u32 (sA s + sA t)) (u32 (sB s + sB t)) (u32 (sC s + sC t)) (u32 (sD s + sD t))
        (u32 (sE s + sE t)) (u32 (sF s + sF t)) (u32 (sG s + sG t)) (u32 (sH s + sH t)).

Fixpoint blocks (n : nat) (s : state) (b : bytes) : state :=
  match n with O => s | S n' => blocks n' (compress s (take 64 b)) (drop 64 b) end.

Definition padded (b : bytes) : bytes :=
  let zeros := Z.to_nat ((55 - len b) mod 64) in
  b ++ x80 :: replicate zeros x00 ++ be_bytes 8 (8 * len b).

Definition sha256 (b : bytes) : bytes :=
  let p := padded b in
  let s := blocks (length p / 64) initial p in
  concat (map (be_bytes 4) [sA s; sB s; sC s; sD s; sE s; sF s; sG s; sH s]).

Lemma length_sha256 b : length (sha256 b) = 32%nat.
Proof. unfold sha256. cbn [map concat]. rewrite !length_app, !length_be_bytes. done. Qed.

Example sha256_abc : be_val (sha256 [x61; x62; x63]) =
  0xba7816bf8f01cfea414140de5dae2223b00361a396177a9cb410ff61f20015ad.
Proof. vm_compute. reflexivity. Qed.

Example sha256_empty : be_val (sha256 []) =
  0xe3b0c44298fc1c149afbf4c8996fb92427ae41e4649b934ca495991b7852b855.
Proof. vm_compute. reflexivity. Qed.

Example sha256_two_blocks : be_val (sha256 (replicate 64 x61)) =
  0xffe054fe7ae0cb6dc65c3af9b61d5209f439851db43d0ba5997337df154668eb.
Proof. vm_compute. reflexivity. Qed.
