(* ===== verification/ChainHash.v ===== *)
(** * chaincfg/chainhash

Hashes and their display form: the byte-reversed hexadecimal string, padded
with zeros when it is short.  Strings are byte strings, as in Go; the part of
encoding/hex the package uses is written out. *)

From Stdlib Require Import ZArith Lia List.
From S2P Require Import Prelude Sha256.

Definition HashSize : Z := 32.
Definition MaxHashStringSize : Z := HashSize * 2.

Inductive herr :=
  | ErrHashStrSize
  | InvalidByteError (b : byte)     (** hex.InvalidByteError *)
  | HashPanic.                      (** a slice expression out of range *)

#[export] Instance herr_eq_dec : EqDecision herr.
Proof. solve_decision. Defined.

(** ** encoding/hex *)

Definition fromHexChar (c : byte) : option Z :=
  let v := byte_val c in
  if (0x30 <=? v) && (v <=? 0x39) then Some (v - 0x30)
  else if (0x61 <=? v) && (v <=? 0x66) then Some (v - 0x61 + 10)
  else if (0x41 <=? v) && (v <=? 0x46) then Some (v - 0x41 + 10)
  else None.

(** The lower-case digit of a value below sixteen. *)
Definition toHexChar (d : Z) : byte :=
  if d <? 10 then byte_of (0x30 + d) else byte_of (0x61 + (d - 10)).

(** hex.Decode on a source of even length. *)
Fixpoint hex_Decode (src : bytes) : result herr bytes :=
  match src with
  | p :: q :: rest =>
      match fromHexChar p, fromHexChar q with
      | None, _ => Err (InvalidByteError p)
      | _, None => Err (InvalidByteError q)
      | Some a, Some b =>
          match hex_Decode rest with
          | Ok bs => Ok (byte_of (Z.lor (Z.shiftl a 4) b) :: bs)
          | Err e => Err e
          end
      end
  | _ => Ok []
  end.

Definition hex_EncodeToString (b : bytes) : bytes :=
  concat (map (fun x => [toHexChar (Z.shiftr (byte_val x) 4); toHexChar (Z.land (byte_val x) 0x0f)]) b).

(** ** The package *)

(** [dst[i], dst[HashSize-1-i] = src[HashSize-1-i], src[i]] for i < HashSize/2. *)
Definition reverse_copy (src dst : bytes) : bytes :=
  fold_left (fun d i => <[(31 - i)%nat := nth i src x00]> (<[i := nth (31 - i) src x00]> d)) (seq 0 16) dst.

(** Decode into [dst]: the error and the new destination. *)
Definition Decode (dst : bytes) (src : bytes) : result herr unit * bytes :=
  if MaxHashStringSize <? len src then (Err ErrHashStrSize, dst)
  else
    let srcBytes := if len src mod 2 =? 0 then src else x30 :: src in
    let off := HashSize - len srcBytes / 2 in
    if off <? 0 then (Err HashPanic, dst)
    else match hex_Decode srcBytes with
         | Err err => (Err err, dst)
         | Ok bs => (Ok tt, reverse_copy (replicate (Z.to_nat off) x00 ++ bs) dst)
         end.

Definition NewHashFromStr (hash : bytes) : result herr bytes :=
  match Decode (replicate 32 x00) hash with
  | (Err err, _) => Err err
  | (Ok _, ret) => Ok ret
  end.

(** (hash Hash) String swaps the bytes of its copy of the hash in place. *)
Definition Hash_String (hash : bytes) : bytes :=
  hex_EncodeToString
    (fold_left (fun h i => <[(31 - i)%nat := nth i h x00]> (<[i := nth (31 - i) h x00]> h)) (seq 0 16) hash).

Definition DoubleHashH (b : bytes) : bytes := let first := sha256 b in sha256 first.
Definition DoubleHashB (b : bytes) : bytes := let first := sha256 b in sha256 first.

(** ** Reversal *)

Lemma length_S_inv {A} (l : list A) n : length l = S n -> exists x k, l = x :: k /\ length k = n.
Proof. destruct l as [|x k]; [discriminate|]. intros [= H]. eauto. Qed.

Ltac explode l H :=
  lazymatch type of H with
  | length _ = O => apply nil_length_inv in H; subst l
  | length _ = S _ =>
      let x := fresh "x" in let k := fresh "k" in let H' := fresh "H" in
      apply length_S_inv in H as (x & k & -> & H'); explode k H'
  end.

Lemma reverse_copy_rev src dst : length src = 32%nat -> length dst = 32%nat -> reverse_copy src dst = rev src.
Proof. intros Hs Hd. explode src Hs. explode dst Hd. reflexivity. Qed.

Lemma Hash_String_spec hash : length hash = 32%nat -> Hash_String hash = hex_EncodeToString (rev hash).
Proof. intros H. unfold Hash_String. f_equal. explode hash H. reflexivity. Qed.

(** ** Hexadecimal digits *)

Lemma fromHex_toHex d : 0 <= d < 16 -> fromHexChar (toHexChar d) = Some d.
Proof.
  intros Hd. assert (H : forall n, (n < 16)%nat -> fromHexChar (toHexChar (Z.of_nat n)) = Some (Z.of_nat n)).
  { intros n Hn. do 16 (destruct n as [|n]; [reflexivity|]). lia. }
  specialize (H (Z.to_nat d)). rewrite Z2Nat.id in H by lia. apply H. lia.
Qed.

Lemma fromHexChar_range c d : fromHexChar c = Some d -> 0 <= d < 16.
Proof.
  unfold fromHexChar. intros H. repeat case_match; simplify_eq; boolify; lia.
Qed.

Lemma nibbles v : 0 <= v < 256 ->
  0 <= Z.shiftr v 4 < 16 /\ 0 <= Z.land v 15 < 16 /\ Z.lor (Z.shiftl (Z.shiftr v 4) 4) (Z.land v 15) = v.
Proof.
  intros Hv. rewrite Z.shiftr_div_pow2 by lia.
  change 15 with (Z.ones 4). rewrite Z.land_ones by lia.
  split_and!; try (apply Z.div_pos; lia); try (apply Z.div_lt_upper_bound; lia); try (apply Z.mod_pos_bound; lia).
  rewrite <- Z.land_ones, <- Z.shiftr_div_pow2 by lia.
  apply Z.bits_inj'. intros i Hi. rewrite Z.lor_spec, Z.land_spec, Z.testbit_ones by lia.
  destruct (decide (i < 4)).
  - rewrite Z.shiftl_spec_low by lia. destruct (0 <=? i) eqn:?, (i <? 4) eqn:?; boolify; try lia. cbn.
    now rewrite andb_true_r.
  - rewrite Z.shiftl_spec_high, Z.shiftr_spec by lia. replace (i - 4 + 4) with i by lia.
    destruct (i <? 4) eqn:?; boolify; [lia|]. now rewrite !andb_false_r, orb_false_r.
Qed.

Lemma hex_roundtrip b : hex_Decode (hex_EncodeToString b) = Ok b.
Proof.
  induction b as [|x b IH]; [done|]. unfold hex_EncodeToString in *. cbn [map concat app hex_Decode].
  destruct (nibbles (byte_val x) (byte_val_range x)) as (H1 & H2 & H3).
  rewrite !fromHex_toHex, IH by done. now rewrite H3, byte_of_val.
Qed.

Lemma length_hex_Encode b : length (hex_EncodeToString b) = (2 * length b)%nat.
Proof. unfold hex_EncodeToString. induction b as [|x b IH]; [done|]. cbn in *. lia. Qed.

(** The digits of a source, when they all are digits. *)
Lemma hex_Decode_length n src bs : length src = (2 * n)%nat -> hex_Decode src = Ok bs -> length bs = n.
Proof.
  revert src bs. induction n as [|n IH]; intros src bs Hl H.
  - destruct src; [|discriminate]. cbn in H. now inv H.
  - destruct src as [|p [|q rest]]; cbn in Hl; try lia. cbn in H.
    destruct (fromHexChar p), (fromHexChar q); try discriminate.
    destruct (hex_Decode rest) as [bs'|] eqn:E; [|discriminate]. inv H. cbn. f_equal.
    apply (IH rest); [lia|done].
Qed.

(** The number a string of hexadecimal digits denotes. *)
Definition hex_number (src : bytes) : option Z :=
  fold_left (fun acc c => n ← acc; d ← fromHexChar c; Some (16 * n + d)) src (Some 0).

Lemma le_val_app a b : le_val (a ++ b) = le_val a + 256 ^ len a * le_val b.
Proof.
  induction a as [|x a IH]; [change (256 ^ len []) with 1; cbn [app le_val]; lia|]. cbn [app le_val]. rewrite IH. unfold len. cbn [length].
  rewrite pow256_S. ring.
Qed.

Lemma be_val_cons x b : be_val (x :: b) = byte_val x * 256 ^ len b + be_val b.
Proof.
  unfold be_val. cbn [rev]. rewrite le_val_app. unfold len. rewrite List.length_rev. cbn. lia.
Qed.

Lemma be_val_zeros k b : be_val (replicate k x00 ++ b) = be_val b.
Proof. induction k as [|k IH]; [done|]. cbn [replicate app]. rewrite be_val_cons, IH. cbn. lia. Qed.

Abbreviation hex_step := (fun (acc : option Z) c => n ← acc; d ← fromHexChar c; Some (16 * n + d)).

Lemma lor_nibbles a b : 0 <= a < 16 -> 0 <= b < 16 -> byte_val (byte_of (Z.lor (Z.shiftl a 4) b)) = 16 * a + b.
Proof.
  intros Ha Hb. rewrite byte_val_of.
  assert (H : forall n m, (n < 16)%nat -> (m < 16)%nat ->
    Z.lor (Z.shiftl (Z.of_nat n) 4) (Z.of_nat m) mod 256 = 16 * Z.of_nat n + Z.of_nat m).
  { intros n m Hn Hm. do 16 (destruct n as [|n]; [do 16 (destruct m as [|m]; [reflexivity|]); lia|]). lia. }
  specialize (H (Z.to_nat a) (Z.to_nat b) ltac:(lia) ltac:(lia)). now rewrite !Z2Nat.id in H by lia.
Qed.

(** hex.Decode on any source of even length: the number, or the leftmost
character that is no digit. *)
Lemma hex_Decode_spec n src acc : length src = (2 * n)%nat ->
  match hex_Decode src with
  | Ok bs => fold_left hex_step src (Some acc) = Some (acc * 256 ^ len bs + be_val bs)
  | Err (InvalidByteError b) =>
      exists pre post, src = pre ++ b :: post /\ Forall (fun c => fromHexChar c <> None) pre /\ fromHexChar b = None
  | Err _ => False
  end.
Proof.
  revert src acc. induction n as [|n IH]; intros src acc Hl.
  - destruct src; [|discriminate]. cbn [hex_Decode fold_left]. f_equal.
    change (256 ^ len []) with 1. change (be_val []) with 0. lia.
  - destruct src as [|p [|q rest]]; cbn in Hl; try lia. cbn [hex_Decode fold_left].
    destruct (fromHexChar p) as [a|] eqn:Ep; [|exists [], (q :: rest); done].
    destruct (fromHexChar q) as [b|] eqn:Eq.
    2: { exists [p], rest. split_and!; [done| |done]. repeat constructor. now rewrite Ep. }
    cbn [mbind option_bind].
    specialize (IH rest (16 * (16 * acc + a) + b) ltac:(lia)).
    destruct (hex_Decode rest) as [bs|[|c|]]; try done.
    + rewrite IH, be_val_cons. f_equal. unfold len. cbn [length]. rewrite pow256_S.
      rewrite lor_nibbles by (eapply fromHexChar_range; eassumption). ring.
    + destruct IH as (pre & post & -> & Hpre & Hc). exists (p :: q :: pre), post.
      split_and!; [done| |done]. repeat constructor; [now rewrite Ep|now rewrite Eq|done].
Qed.

(** ** Properties *)

(** NewHashFromStr is right on every string.  It accepts exactly the strings
of at most 64 hexadecimal digits, and the hash is the number they denote, little
endian and zero padded; a longer string is refused as too long; otherwise the
error names the leftmost character that is no digit.  No slice expression in it
can panic. *)
Theorem NewHashFromStr_spec src :
  match NewHashFromStr src with
  | Ok h => len src <= MaxHashStringSize /\ length h = 32%nat /\ hex_number src = Some (le_val h)
  | Err ErrHashStrSize => MaxHashStringSize < len src
  | Err (InvalidByteError b) => len src <= MaxHashStringSize /\
      exists pre post, src = pre ++ b :: post /\ Forall (fun c => fromHexChar c <> None) pre /\ fromHexChar b = None
  | Err HashPanic => False
  end.
Proof.
  unfold NewHashFromStr, Decode. destruct (MaxHashStringSize <? len src) eqn:Hl; boolify; [done|].
  set (s := if len src mod 2 =? 0 then src else x30 :: src).
  assert (Hs : exists n, length s = (2 * n)%nat /\ (n <= 32)%nat).
  { unfold s, len, MaxHashStringSize, HashSize in *. exists (Z.to_nat ((Z.of_nat (length src) + 1) / 2)).
    pose proof (Z.div_mod (Z.of_nat (length src) + 1) 2 ltac:(lia)).
    pose proof (Z.mod_pos_bound (Z.of_nat (length src) + 1) 2 ltac:(lia)).
    pose proof (Z.div_mod (Z.of_nat (length src)) 2 ltac:(lia)).
    pose proof (Z.mod_pos_bound (Z.of_nat (length src)) 2 ltac:(lia)).
    destruct (_ =? 0) eqn:E; boolify; cbn [length]; lia. }
  destruct Hs as (n & Hn & Hn32).
  assert (Hdiv : len s / 2 = Z.of_nat n).
  { unfold len. rewrite Hn, Nat2Z.inj_mul, Z.mul_comm, Z.div_mul; lia. }
  rewrite Hdiv. unfold HashSize.
  destruct (32 - Z.of_nat n <? 0) eqn:Hoff; boolify; [lia|].
  pose proof (hex_Decode_spec n s 0 Hn) as H.
  destruct (hex_Decode s) as [bs|e] eqn:E.
  - assert (Hb : length bs = n) by now apply (hex_Decode_length n s).
    rewrite reverse_copy_rev; [|rewrite length_app, length_replicate; lia|apply length_replicate].
    split_and!; [done|rewrite List.length_rev, length_app, length_replicate; lia|].
    change (le_val (rev ?x)) with (be_val x). rewrite be_val_zeros. unfold hex_number.
    rewrite Z.mul_0_l, Z.add_0_l in H. rewrite <- H. unfold s. now destruct (_ =? 0).
  - destruct e as [|c|]; [done| |done]. split; [done|].
    destruct H as (pre & post & Hsp & Hpre & Hc). unfold s in Hsp.
    destruct (_ =? 0); [eauto|]. destruct pre as [|x pre]; cbn in Hsp; injection Hsp as <- ->.
    + discriminate Hc.
    + inv Hpre. eauto.
Qed.

(** The display form is canonical and reads back: String shows a hash as 64
hexadecimal digits of its little-endian value, and NewHashFromStr inverts it. *)
Theorem Hash_String_roundtrip h :
  length h = 32%nat ->
  length (Hash_String h) = 64%nat /\ hex_number (Hash_String h) = Some (le_val h) /\ NewHashFromStr (Hash_String h) = Ok h.
Proof.
  intros Hh. rewrite Hash_String_spec by done. set (s := hex_EncodeToString (rev h)).
  assert (Hl : length s = 64%nat) by (unfold s; rewrite length_hex_Encode, List.length_rev; lia).
  assert (Hd : hex_Decode s = Ok (rev h)) by apply hex_roundtrip.
  split_and!; [done| |].
  - pose proof (hex_Decode_spec 32 s 0 Hl) as H. rewrite Hd in H. unfold be_val in H.
    rewrite rev_involutive in H. exact H.
  - clearbody s. unfold NewHashFromStr, Decode, len. rewrite Hl.
    change (MaxHashStringSize <? Z.of_nat 64) with false.
    change (Z.of_nat 64 mod 2 =? 0) with true. cbv iota zeta. rewrite Hl.
    change (HashSize - Z.of_nat 64 / 2) with 0. change (0 <? 0) with false. cbv iota.
    rewrite Hd.
    rewrite reverse_copy_rev; [change (replicate (Z.to_nat 0) x00 ++ rev h) with (rev h); now rewrite rev_involutive|by rewrite length_app, List.length_rev, Hh|apply length_replicate].
Qed.

Example Hash_String_roundtrip_witness :
  let h := x01 :: replicate 30 x00 ++ [xab] in
  Hash_String h = [x61; x62] ++ replicate 60 x30 ++ [x30; x31] /\ NewHashFromStr (Hash_String h) = Ok h.
Proof.
  intros h. assert (Hh : length h = 32%nat) by reflexivity.
  destruct (Hash_String_roundtrip h Hh) as (_ & _ & H). split; [vm_compute; reflexivity|exact H].
Defined.

(** A short and an odd string, and one with a bad digit. *)
Example NewHashFromStr_examples :
  NewHashFromStr [x31; x46; x32] = Ok (xf2 :: x01 :: replicate 30 x00) /\
  NewHashFromStr [x31; x78] = Err (InvalidByteError x78) /\
  NewHashFromStr (replicate 65 x30) = Err ErrHashStrSize.
Proof. vm_compute. done. Qed.

Lemma length_DoubleHashH b : length (DoubleHashH b) = 32%nat.
Proof. apply length_sha256. Qed.
