(* ===== verification/WireBlock.v ===== *)
(** * wire/blockheader.go and wire/msgblock.go

Block headers: their wire form through readElements and writeElements, and the
block hash. *)

From Stdlib Require Import ZArith Lia List.
From S2P Require Import Prelude WireFormat TxFormat WireCommon WireMsgTx WireMsgTxEncode Sha256 ChainHash.

Definition MaxBlockHeaderPayload : Z := 16 + (HashSize * 2).

Record BlockHeader := MkBlockHeader {
  BVersion : Z;
  PrevBlock : bytes;
  MerkleRoot : bytes;
  Timestamp : gotime;
  Bits : Z;
  Nonce : Z
}.

Record MsgBlock := MkMsgBlock { Header : BlockHeader; Transactions : list tx }.

(** The types of the six fields, on writing and on reading. *)
Definition header_out : list kind := [KInt32; KHash; KHash; KUint32; KUint32; KUint32].
Definition header_in : list kind := [KInt32; KHash; KHash; KUint32Time; KUint32; KUint32].

Definition writeBlockHeader (bh : BlockHeader) : IO unit :=
  let sec := u32 (unix_sec (Timestamp bh)) in
  writeElements header_out
    (BVersion bh, (PrevBlock bh, (MerkleRoot bh, (sec, (Bits bh, (Nonce bh, tt)))))).

Definition readBlockHeader : IO BlockHeader :=
  es ← readElements header_in;
  let '(v, (p, (m, (t, (b, (n, _)))))) := es in
  mret (MkBlockHeader v p m t b n).

(** (h *BlockHeader) Deserialize. *)
Definition Deserialize_header : IO BlockHeader := readBlockHeader.

(** (h *BlockHeader) BlockHash, with the free list of [w]: the header goes to a
fresh bytes.Buffer, which never refuses a write. *)
Definition BlockHash (h : BlockHeader) (w : world) : bytes :=
  DoubleHashH (w_out (writeBlockHeader h (set_writer [] None w)).2).

(** (msg *MsgBlock) BlockHash. *)
Definition MsgBlock_BlockHash (msg : MsgBlock) (w : world) : bytes := BlockHash (Header msg) w.

(** ** Format *)

Definition header_bytes (h : BlockHeader) : bytes :=
  le_bytes 4 (u32 (BVersion h)) ++ PrevBlock h ++ MerkleRoot h ++
  le_bytes 4 (u32 (unix_sec (Timestamp h))) ++ le_bytes 4 (Bits h) ++ le_bytes 4 (Nonce h).

Record header_wf (h : BlockHeader) : Prop := {
  hwf_version : in_i32 (BVersion h);
  hwf_prev : length (PrevBlock h) = 32%nat;
  hwf_root : length (MerkleRoot h) = 32%nat;
  hwf_bits : in_u32 (Bits h);
  hwf_nonce : in_u32 (Nonce h)
}.

#[export] Instance header_wf_dec h : Decision (header_wf h).
Proof.
  refine (cast_if (decide (in_i32 (BVersion h) /\ length (PrevBlock h) = 32%nat /\
    length (MerkleRoot h) = 32%nat /\ in_u32 (Bits h) /\ in_u32 (Nonce h)))).
  - destruct_and!. now constructor.
  - intros []. tauto.
Defined.

Lemma writes_header h : writes (writeBlockHeader h) (header_bytes h).
Proof.
  apply (writes_Elements header_out). reflexivity.
Qed.

(** The header a reader gets: the time as an unsigned count of seconds. *)
Definition received (h : BlockHeader) : BlockHeader :=
  MkBlockHeader (BVersion h) (PrevBlock h) (MerkleRoot h)
    (Time (u32 (unix_sec (Timestamp h))) 0) (Bits h) (Nonce h).

Lemma p_uint32_time s rest e : in_u32 s ->
  p_elem KUint32Time (Reader (le_bytes 4 s ++ rest) e) = (Ok (Time s 0), Reader rest e).
Proof.
  intros Hs. cbn [p_elem]. rewrite (dec_enc_bind (c_uint 4) _ s rest e) by done. unfold mret, stm_ret.
  do 3 f_equal. unfold i64. unfold in_u32 in Hs. rewrite Z.mod_small; lia.
Qed.

Lemma p_header h rest e : header_wf h ->
  p_elems header_in (Reader (header_bytes h ++ rest) e) =
  (Ok (BVersion h, (PrevBlock h, (MerkleRoot h, (Timestamp (received h), (Bits h, (Nonce h, tt)))))),
   Reader rest e).
Proof.
  intros [Hv Hp Hr Hb Hn]. unfold header_bytes. rewrite <- !app_assoc.
  unfold header_in. cbn [p_elems]. unfold mbind, stm_bind.
  rewrite (p_elem_bytes KInt32 _ _ _ _ Hv eq_refl), (p_elem_bytes KHash _ _ _ _ Hp eq_refl),
    (p_elem_bytes KHash _ _ _ _ Hr eq_refl), p_uint32_time by apply u32_range.
  now rewrite (p_elem_bytes KUint32 _ _ _ _ Hb eq_refl), (p_elem_bytes KUint32 _ _ _ _ Hn eq_refl).
Qed.

Lemma reads_header : reads readBlockHeader
  (es ← p_elems header_in; let '(v, (p, (m, (t, (b, (n, _)))))) := es in mret (MkBlockHeader v p m t b n)).
Proof.
  unfold readBlockHeader. eapply (implements_bind (fun a => a)); [apply (reads_Elements header_in)|].
  intros (v & p & m & t & b & n & u). now apply implements_ret.
Qed.

(** A block header survives the wire except for the range of its time.
What writeBlockHeader emits is MaxBlockHeaderPayload bytes, and
readBlockHeader returns the same header with the timestamp reduced to whole
seconds modulo 2^32, so exactly for times from 1970 to 2106. *)
Theorem BlockHeader_roundtrip h w w' rest e :
  header_wf h -> bufs_ok w -> bufs_ok w' -> w_room w = None ->
  (writeBlockHeader h w).1 = Ok tt /\ len (written (writeBlockHeader h) w) = MaxBlockHeaderPayload /\
  let r := readBlockHeader (reading (written (writeBlockHeader h) w ++ rest) e w') in
  r.1 = Ok (received h) /\ w_rd r.2 = Reader rest e /\
  (received h = h <-> in_u32 (unix_sec (Timestamp h)) /\ nsec (Timestamp h) = 0).
Proof.
  intros Hh Hw Hw' Hr.
  destruct (writes_unlimited _ _ w (writes_header h) Hw Hr) as (H1 & H2 & _).
  split; [done|]. rewrite H2. split.
  { destruct Hh. unfold header_bytes. rewrite !len_app, !len_le_bytes. unfold len.
    rewrite hwf_prev0, hwf_root0. done. }
  cbn zeta. destruct (reads_run _ _ w' (received h) (header_bytes h) rest e reads_header Hw') as [H3 H4].
  { unfold mbind, stm_bind. rewrite p_header by done. now destruct h. }
  split_and!; [done..|]. destruct h as [v p m [s n] b k]. unfold received. cbn. split.
  - intros [= <- <-]. split; [apply u32_range|done].
  - intros [Hs ->]. now rewrite u32_small.
Qed.

Definition sample_header (sec : Z) : BlockHeader :=
  MkBlockHeader 1 (replicate 32 x11) (replicate 32 x22) (Time sec 7) 0x1d00ffff 99.

Example BlockHeader_roundtrip_witness :
  let w := World (Reader [] EOF) [] None [] [] 0 in
  (readBlockHeader (reading (written (writeBlockHeader (sample_header (2 ^ 32 + 5))) w ++ []) EOF w)).1 =
    Ok (MkBlockHeader 1 (replicate 32 x11) (replicate 32 x22) (Time 5 0) 0x1d00ffff 99).
Proof.
  intros w.
  assert (Hh : header_wf (sample_header (2 ^ 32 + 5))) by decide_now.
  assert (Hw : bufs_ok w) by decide_now.
  destruct (BlockHeader_roundtrip _ w w [] EOF Hh Hw Hw eq_refl) as (_ & _ & H & _). exact H.
Defined.

(** The hash of a header is that of its eighty bytes, whatever the free list holds. *)
Lemma BlockHash_spec h w : bufs_ok w -> BlockHash h w = DoubleHashH (header_bytes h).
Proof.
  intros Hw. unfold BlockHash. f_equal.
  destruct (writes_header h (set_writer [] None w)) as (H & _); [done|].
  change (w_room (set_writer [] None w)) with (@None nat) in H. cbn [put] in H.
  destruct H as (_ & -> & _). done.
Qed.
