(* ===== verification/Genesis.v ===== *)
(** * chaincfg/genesis.go

The genesis blocks and their hash constants.  The constants are checked against
the code that computes them: BlockHash of each header, and the double SHA-256 of
the encoded coinbase. *)

From Stdlib Require Import ZArith Lia List.
From S2P Require Import Prelude WireFormat TxFormat WireCommon WireMsgTx WireMsgTxEncode Sha256 ChainHash.
From S2P Require Import WireBlock.

Definition zero_hash : bytes := replicate 32 x00.

(** genesisCoinbaseTx: "The Times 03/Jan/2009 Chancellor on brink of second
bailout for banks". *)
Definition genesisCoinbaseTx : tx :=
  MkMsgTx 1
    [MkTxIn (MkOutPoint zero_hash 0xffffffff)
       [x04; xff; xff; x00; x1d; x01; x04; x45; x54; x68; x65; x20; x54; x69; x6d; x65;
        x73; x20; x30; x33; x2f; x4a; x61; x6e; x2f; x32; x30; x30; x39; x20; x43; x68;
        x61; x6e; x63; x65; x6c; x6c; x6f; x72; x20; x6f; x6e; x20; x62; x72; x69; x6e;
        x6b; x20; x6f; x66; x20; x73; x65; x63; x6f; x6e; x64; x20; x62; x61; x69; x6c;
        x6f; x75; x74; x20; x66; x6f; x72; x20; x62; x61; x6e; x6b; x73]
       [] 0xffffffff]
    [MkTxOut 0x12a05f200
       [x41; x04; x67; x8a; xfd; xb0; xfe; x55; x48; x27; x19; x67; xf1; xa6; x71; x30;
        xb7; x10; x5c; xd6; xa8; x28; xe0; x39; x09; xa6; x79; x62; xe0; xea; x1f; x61;
        xde; xb6; x49; xf6; xbc; x3f; x4c; xef; x38; xc4; xf3; x55; x04; xe5; x1e; xc1;
        x12; xde; x5c; x38; x4d; xf7; xba; x0b; x8d; x57; x8a; x4c; x70; x2b; x6b; xf1;
        x1d; x5f; xac]]
    0.

Definition genesisHash : bytes :=
  [x6f; xe2; x8c; x0a; xb6; xf1; xb3; x72; xc1; xa6; xa2; x46; xae; x63; xf7; x4f;
   x93; x1e; x83; x65; xe1; x5a; x08; x9c; x68; xd6; x19; x00; x00; x00; x00; x00].

Definition genesisMerkleRoot : bytes :=
  [x3b; xa3; xed; xfd; x7a; x7b; x12; xb2; x7a; xc7; x2c; x3e; x67; x76; x8f; x61;
   x7f; xc8; x1b; xc3; x88; x8a; x51; x32; x3a; x9f; xb8; xaa; x4b; x1e; x5e; x4a].

Definition genesisBlock : MsgBlock :=
  MkMsgBlock (MkBlockHeader 1 zero_hash genesisMerkleRoot (Time 0x495fab29 0) 0x1d00ffff 0x7c2bac1d) [genesisCoinbaseTx].

Definition regTestGenesisHash : bytes :=
  [x06; x22; x6e; x46; x11; x1a; x0b; x59; xca; xaf; x12; x60; x43; xeb; x5b; xbf;
   x28; xc3; x4f; x3a; x5e; x33; x2a; x1f; xc7; xb2; xb7; x3c; xf1; x88; x91; x0f].

Definition regTestGenesisMerkleRoot : bytes := genesisMerkleRoot.

Definition regTestGenesisBlock : MsgBlock :=
  MkMsgBlock (MkBlockHeader 1 zero_hash regTestGenesisMerkleRoot (Time 1296688602 0) 0x207fffff 2) [genesisCoinbaseTx].

Definition testNet3GenesisHash : bytes :=
  [x43; x49; x7f; xd7; xf8; x26; x95; x71; x08; xf4; xa3; x0f; xd9; xce; xc3; xae;
   xba; x79; x97; x20; x84; xe9; x0e; xad; x01; xea; x33; x09; x00; x00; x00; x00].

Definition testNet3GenesisMerkleRoot : bytes := genesisMerkleRoot.

Definition testNet3GenesisBlock : MsgBlock :=
  MkMsgBlock (MkBlockHeader 1 zero_hash testNet3GenesisMerkleRoot (Time 1296688602 0) 0x1d00ffff 0x18aea41a) [genesisCoinbaseTx].

Definition simNetGenesisHash : bytes :=
  [xf6; x7a; xd7; x69; x5d; x9b; x66; x2a; x72; xff; x3d; x8e; xdb; xbb; x2d; xe0;
   xbf; xa6; x7b; x13; x97; x4b; xb9; x91; x0d; x11; x6d; x5c; xbd; x86; x3e; x68].

Definition simNetGenesisMerkleRoot : bytes := genesisMerkleRoot.

Definition simNetGenesisBlock : MsgBlock :=
  MkMsgBlock (MkBlockHeader 1 zero_hash simNetGenesisMerkleRoot (Time 1401292357 0) 0x207fffff 2) [genesisCoinbaseTx].

Definition sigNetGenesisHash : bytes :=
  [xf6; x1e; xee; x3b; x63; xa3; x80; xa4; x77; xa0; x63; xaf; x32; xb2; xbb; xc9;
   x7c; x9f; xf9; xf0; x1f; x2c; x42; x25; xe9; x73; x98; x81; x08; x00; x00; x00].

Definition sigNetGenesisMerkleRoot : bytes := genesisMerkleRoot.

Definition sigNetGenesisBlock : MsgBlock :=
  MkMsgBlock (MkBlockHeader 1 zero_hash sigNetGenesisMerkleRoot (Time 1598918400 0) 0x1e0377ae 52613770) [genesisCoinbaseTx].

(** ** The constants agree with the code *)

(** Every network: name, genesis block, genesis hash. *)
Definition genesis_blocks : list (string * MsgBlock * bytes) :=
  [("main"%string, genesisBlock, genesisHash);
   ("regtest"%string, regTestGenesisBlock, regTestGenesisHash);
   ("testnet3"%string, testNet3GenesisBlock, testNet3GenesisHash);
   ("simnet"%string, simNetGenesisBlock, simNetGenesisHash);
   ("signet"%string, sigNetGenesisBlock, sigNetGenesisHash)].

(** The proof-of-work target a compact [bits] field stands for. *)
Definition compact_target (bits : Z) : Z :=
  Z.shiftl (Z.land bits 0x007fffff) (8 * (Z.shiftr bits 24 - 3)).

(** A block with one transaction: its hash, its Merkle root, its proof of work
and the height-independent coinbase conditions. *)
Definition genesis_ok (w : world) (b : MsgBlock) (h : bytes) : Prop :=
  MsgBlock_BlockHash b w = h /\
  (exists cb, Transactions b = [cb] /\
     DoubleHashH (written (BtcEncode BaseEncoding cb) (set_writer [] None w)) = MerkleRoot (Header b) /\
     map PreviousOutPoint (TxIns cb) = [MkOutPoint zero_hash 0xffffffff]) /\
  PrevBlock (Header b) = zero_hash /\
  le_val h <= compact_target (Bits (Header b)).

Lemma genesis_headers : Forall (fun p => DoubleHashH (header_bytes (Header p.1.2)) = p.2) genesis_blocks.
Proof. decide_now. Qed.

Lemma genesis_coinbase : DoubleHashH (tx_bytes BaseEncoding genesisCoinbaseTx) = genesisMerkleRoot.
Proof. vm_compute. reflexivity. Qed.

Lemma genesis_targets : Forall (fun p => le_val p.2 <= compact_target (Bits (Header p.1.2))) genesis_blocks.
Proof. decide_now. Qed.

Lemma genesis_shape : Forall (fun p => Transactions p.1.2 = [genesisCoinbaseTx] /\
  MerkleRoot (Header p.1.2) = genesisMerkleRoot /\ PrevBlock (Header p.1.2) = zero_hash) genesis_blocks.
Proof. repeat constructor. Qed.

(** The genesis data of every network is consistent.  Whatever the free list
holds, BlockHash of the genesis header is the genesis hash constant; the Merkle
root is the double SHA-256 of the encoded coinbase, which spends the null
outpoint; there is no previous block; and the hash meets the header's own
proof-of-work target. *)
Theorem genesis_consistent w :
  bufs_ok w -> Forall (fun p => genesis_ok w p.1.2 p.2) genesis_blocks.
Proof.
  intros Hw. pose proof genesis_headers as H1. pose proof genesis_targets as H2.
  pose proof genesis_shape as H3. rewrite Forall_forall in *. intros p Hp.
  destruct (H3 p Hp) as (Ht & Hm & Hprev). unfold genesis_ok, MsgBlock_BlockHash.
  split_and!; [rewrite BlockHash_spec by done; now apply H1| |done|now apply H2].
  exists genesisCoinbaseTx. split_and!; [done| |done]. rewrite Hm, <- genesis_coinbase. f_equal.
  assert (Hwf : tx_wf genesisCoinbaseTx) by decide_now.
  now destruct (writes_unlimited _ _ (set_writer [] None w)
    (writes_BtcEncode BaseEncoding genesisCoinbaseTx (tx_wf_sized _ Hwf)) Hw eq_refl) as (_ & -> & _).
Qed.

Example genesis_consistent_witness :
  let w := World (Reader [] EOF) [] None [replicate 8 xaa] [] 0 in
  MsgBlock_BlockHash genesisBlock w = genesisHash.
Proof.
  intros w.
  assert (Hw : bufs_ok w) by decide_now.
  pose proof (genesis_consistent w Hw) as H. inversion H as [|? ? [Hmain _] _]. exact Hmain.
Defined.
