(* ===== verification/ChainParams.v ===== *)
(** * chaincfg/params.go, chaincfg/deployment_time_frame.go and params.go

The network parameters as data, the rule-change deployments with their clocks,
and the checks that make the parameters usable: no hard-coded hash panics at
initialisation, checkpoints ascend, thresholds fit their windows, deployments
do not share a version bit. *)

From Stdlib Require Import ZArith Lia List.
From Stdlib Require Import Strings.String.
From S2P Require Import Prelude WireFormat TxFormat WireCommon WireMsgTx WireMsgTxEncode Sha256 ChainHash.
From S2P Require Import WireBlock Genesis.

#[local] Open Scope list_scope.

(** A Go string literal. *)
Definition str (s : string) : bytes := String.list_byte_of_string s.

(** ** wire/protocol.go *)

Definition MainNet : Z := 0xd9b4bef9.
Definition TestNet : Z := 0xdab5bffa.
Definition TestNet3 : Z := 0x0709110b.
Definition SimNet : Z := 0x12141c16.

(** ** Deployment times (deployment_time_frame.go) *)

(** [time.Time{}]: the first of January of year 1, and its IsZero. *)
Definition zero_time : gotime := Time (-62135596800) 0.
Definition IsZero (t : gotime) : bool := (unix_sec t =? -62135596800) && (nsec t =? 0).

Definition After (t u : gotime) : bool :=
  (unix_sec u <? unix_sec t) || ((unix_sec t =? unix_sec u) && (nsec u <? nsec t)).
Definition Equal (t u : gotime) : bool := (unix_sec t =? unix_sec u) && (nsec t =? nsec u).

Inductive cferr := ErrNoBlockClock | ErrClock (msg : string).

(** The interface BlockClock: PastMedianTime. *)
Definition BlockClock : Type := BlockHeader -> result cferr gotime.

Record MedianTimeDeploymentStarter := MkStarter {
  starter_clock : option BlockClock; startTime : gotime }.
Record MedianTimeDeploymentEnder := MkEnder {
  ender_clock : option BlockClock; endTime : gotime }.

Definition NewMedianTimeDeploymentStarter (t : gotime) : MedianTimeDeploymentStarter := MkStarter None t.
Definition NewMedianTimeDeploymentEnder (t : gotime) : MedianTimeDeploymentEnder := MkEnder None t.

Definition SynchronizeClock_starter (clock : BlockClock) (m : MedianTimeDeploymentStarter) :=
  MkStarter (Some clock) (startTime m).
Definition SynchronizeClock_ender (clock : BlockClock) (m : MedianTimeDeploymentEnder) :=
  MkEnder (Some clock) (endTime m).

Definition HasStarted (m : MedianTimeDeploymentStarter) (blkHeader : BlockHeader) : result cferr bool :=
  match starter_clock m with
  | None => Err ErrNoBlockClock
  | Some clock =>
      if IsZero (startTime m) then Ok true
      else match clock blkHeader with
           | Err err => Err err
           | Ok medianTime => Ok (After medianTime (startTime m) || Equal medianTime (startTime m))
           end
  end.

Definition HasEnded (m : MedianTimeDeploymentEnder) (blkHeader : BlockHeader) : result cferr bool :=
  match ender_clock m with
  | None => Err ErrNoBlockClock
  | Some clock =>
      if IsZero (endTime m) then Ok false
      else match clock blkHeader with
           | Err err => Err err
           | Ok medianTime => Ok (After medianTime (endTime m) || Equal medianTime (endTime m))
           end
  end.

Definition StartTime (m : MedianTimeDeploymentStarter) : gotime := startTime m.
Definition EndTime (m : MedianTimeDeploymentEnder) : gotime := endTime m.

(** ** Network parameters *)

Definition DeploymentTestDummy : nat := 0.
Definition DeploymentTestDummyMinActivation : nat := 1.
Definition DeploymentCSV : nat := 2.
Definition DeploymentSegwit : nat := 3.
Definition DefinedDeployments : nat := 4.

Record DNSSeed := MkSeed { Host : string; HasFiltering : bool }.
Record Checkpoint := MkCheckpoint { CHeight : Z; CHash : bytes }.

Record ConsensusDeployment := MkDeployment {
  BitNumber : Z;
  MinActivationHeight : Z;
  CustomActivationThreshold : Z;
  DeploymentStarter : option MedianTimeDeploymentStarter;  (** interfaces, nil by default *)
  DeploymentEnder : option MedianTimeDeploymentEnder
}.

Record Params := MkParams {
  Name : string;
  Net : Z;
  DefaultPort : string;
  DNSSeeds : list DNSSeed;
  GenesisBlock : option MsgBlock;     (** a pointer *)
  GenesisHash : option bytes;         (** a pointer *)
  PowLimit : Z;
  PowLimitBits : Z;
  BIP0034Height : Z;
  BIP0065Height : Z;
  BIP0066Height : Z;
  CoinbaseMaturity : Z;
  SubsidyReductionInterval : Z;
  TargetTimespan : Z;                 (** seconds *)
  TargetTimePerBlock : Z;             (** seconds *)
  RetargetAdjustmentFactor : Z;
  ReduceMinDifficulty : bool;
  MinDiffReductionTime : Z;           (** seconds *)
  GenerateSupported : bool;
  Checkpoints : list Checkpoint;
  RuleChangeActivationThreshold : Z;
  MinerConfirmationWindow : Z;
  Deployments : list ConsensusDeployment;
  RelayNonStdTxs : bool;
  Bech32HRPSegwit : string;
  PubKeyHashAddrID : Z;
  ScriptHashAddrID : Z;
  PrivateKeyID : Z;
  WitnessPubKeyHashAddrID : Z;
  WitnessScriptHashAddrID : Z;
  HDPrivateKeyID : bytes;
  HDPublicKeyID : bytes;
  HDCoinType : Z
}.

Definition mainPowLimit : Z := 2 ^ 224 - 1.
Definition regressionPowLimit : Z := 2 ^ 255 - 1.
Definition testNet3PowLimit : Z := 2 ^ 224 - 1.
Definition simNetPowLimit : Z := 2 ^ 255 - 1.
Definition sigNetPowLimit : Z := Z.shiftl 0x0377ae 216.

Definition hour : Z := 3600.
Definition minute : Z := 60.

(** newHashFromStr: [None] is the panic. *)
Definition newHashFromStr (hexStr : bytes) : option bytes :=
  match NewHashFromStr hexStr with Ok hash => Some hash | Err _ => None end.

Definition deployment (bit height threshold : Z) (start end_ : gotime) : ConsensusDeployment :=
  MkDeployment bit height threshold
    (Some (NewMedianTimeDeploymentStarter start)) (Some (NewMedianTimeDeploymentEnder end_)).

(** MainNetParams and RegressionNetParams are zero values. *)
Definition no_deployment : ConsensusDeployment := MkDeployment 0 0 0 None None.
Definition zero_Params : Params :=
  MkParams "" 0 "" [] None None 0 0 0 0 0 0 0 0 0 0 false 0 false [] 0 0
    (replicate DefinedDeployments no_deployment) false "" 0 0 0 0 0 (replicate 4 x00) (replicate 4 x00) 0.
Definition MainNetParams : Params := zero_Params.
Definition RegressionNetParams : Params := zero_Params.

Definition testNet3Checkpoints : list (Z * bytes) :=
  [(546, str "000000002a936ca763904c3c35fce2f3556c559c0214345d31b1bcebf76acb70");
   (100000, str "00000000009e2958c15ff9290d571bf9459e93b19765c6801ddeccadbb160a1e");
   (200000, str "0000000000287bffd321963ef05feab753ebe274e1d78b2fd4e2bfe9ad3aa6f2");
   (300001, str "0000000000004829474748f3d1bc8fcf893c88be255e6d7f571c548aff57abf4");
   (400002, str "0000000005e2c73b8ecb82ae2dbc2e8274614ebad7172b53528aba7501f5a089");
   (500011, str "00000000000929f63977fbac92ff570a9bd9e7715401ee96f2848f7b07750b02");
   (600002, str "000000000001f471389afd6ee94dcace5ccc44adc18e8bff402443f034b07240");
   (700000, str "000000000000406178b12a4dea3b27e13b3c4fe4510994fd667d7c1e6a3f4dc1");
   (800010, str "000000000017ed35296433190b6829db01e657d80631d43f5983fa403bfdb4c1");
   (900000, str "0000000000356f8d8924556e765b7a94aaebc6b5c8685dcfa2b1ee8b41acd89b");
   (1000007, str "00000000001ccb893d8a1f25b70ad173ce955e5f50124261bbbc50379a612ddf");
   (1100007, str "00000000000abc7b2cd18768ab3dee20857326a818d1946ed6796f42d66dd1e8");
   (1200007, str "00000000000004f2dc41845771909db57e04191714ed8c963f7e56713a7b6cea");
   (1300007, str "0000000072eab69d54df75107c052b26b0395b44f77578184293bf1bb1dbd9fa")].

Definition checkpoint (p : Z * bytes) : option Checkpoint :=
  h ← newHashFromStr p.2; Some (MkCheckpoint p.1 h).

(** TestNet3Params; [None] when initialising it panics. *)
Definition TestNet3Params : option Params :=
  checkpoints ← mapM checkpoint testNet3Checkpoints;
  Some {|
    Name := "testnet3";
    Net := TestNet3;
    DefaultPort := "18333";
    DNSSeeds := [MkSeed "testnet-seed.bitcoin.jonasschnelli.ch" true;
                 MkSeed "testnet-seed.bitcoin.schildbach.de" false;
                 MkSeed "seed.tbtc.petertodd.org" true;
                 MkSeed "testnet-seed.bluematt.me" false];
    GenesisBlock := Some testNet3GenesisBlock;
    GenesisHash := Some testNet3GenesisHash;
    PowLimit := testNet3PowLimit;
    PowLimitBits := 0x1d00ffff;
    BIP0034Height := 21111;
    BIP0065Height := 581885;
    BIP0066Height := 330776;
    CoinbaseMaturity := 100;
    SubsidyReductionInterval := 210000;
    TargetTimespan := hour * 24 * 14;
    TargetTimePerBlock := minute * 10;
    RetargetAdjustmentFactor := 4;
    ReduceMinDifficulty := true;
    MinDiffReductionTime := minute * 20;
    GenerateSupported := false;
    Checkpoints := checkpoints;
    RuleChangeActivationThreshold := 1512;
    MinerConfirmationWindow := 2016;
    Deployments :=
      [deployment 28 0 0 (Time 1199145601 0) (Time 1230767999 0);
       deployment 22 100000 1815 zero_time zero_time;
       deployment 0 0 0 (Time 1456790400 0) (Time 1493596800 0);
       deployment 1 0 0 (Time 1462060800 0) (Time 1493596800 0)];
    RelayNonStdTxs := true;
    Bech32HRPSegwit := "tb";
    PubKeyHashAddrID := 0x6f;
    ScriptHashAddrID := 0xc4;
    WitnessPubKeyHashAddrID := 0x03;
    WitnessScriptHashAddrID := 0x28;
    PrivateKeyID := 0xef;
    HDPrivateKeyID := [x04; x35; x83; x94];
    HDPublicKeyID := [x04; x35; x87; xcf];
    HDCoinType := 1
  |}.

Definition SimNetParams : Params := {|
    Name := "simnet";
    Net := SimNet;
    DefaultPort := "18555";
    DNSSeeds := [];
    GenesisBlock := Some simNetGenesisBlock;
    GenesisHash := Some simNetGenesisHash;
    PowLimit := simNetPowLimit;
    PowLimitBits := 0x207fffff;
    BIP0034Height := 0;
    BIP0065Height := 0;
    BIP0066Height := 0;
    CoinbaseMaturity := 100;
    SubsidyReductionInterval := 210000;
    TargetTimespan := hour * 24 * 14;
    TargetTimePerBlock := minute * 10;
    RetargetAdjustmentFactor := 4;
    ReduceMinDifficulty := true;
    MinDiffReductionTime := minute * 20;
    GenerateSupported := true;
    Checkpoints := [];
    RuleChangeActivationThreshold := 75;
    MinerConfirmationWindow := 100;
    Deployments :=
      [deployment 28 0 0 zero_time zero_time;
       deployment 22 600 50 zero_time zero_time;
       deployment 0 0 0 zero_time zero_time;
       deployment 1 0 0 zero_time zero_time];
    RelayNonStdTxs := true;
    Bech32HRPSegwit := "sb";
    PubKeyHashAddrID := 0x3f;
    ScriptHashAddrID := 0x7b;
    PrivateKeyID := 0x64;
    WitnessPubKeyHashAddrID := 0x19;
    WitnessScriptHashAddrID := 0x28;
    HDPrivateKeyID := [x04; x20; xb9; x00];
    HDPublicKeyID := [x04; x20; xbd; x3a];
    HDCoinType := 115
  |}.

Definition DefaultSignetChallenge : bytes :=
  match hex_Decode (str (
    "512103ad5e0edad18cb1f0fc0d28a3d4f1f3e445640337489abb10404f2d" +:+
    "1e086be430210359ef5021964fe22d6f8e05b2463c9540ce9688" +:+
    "3fe3b278760f048f5189f2e6c452ae")) with
  | Ok b => b | Err _ => [] end.

Definition DefaultSignetDNSSeeds : list DNSSeed :=
  [MkSeed "178.128.221.177" false; MkSeed "2a01:7c8:d005:390::5" false;
   MkSeed "v7ajjeirttkbnt32wpy3c6w3emwnfr3fkla7hpxcfokr3ysd3kqtzmqd.onion:38333" false].

Definition CustomSignetParams (challenge : bytes) (dnsSeeds : list DNSSeed) : Params :=
  let challengeLength := byte_of (len challenge) in
  let hashDouble := DoubleHashB ([challengeLength] ++ challenge) in
  let net := le_val (take 4 hashDouble) in
  {|
    Name := "signet";
    Net := net;
    DefaultPort := "38333";
    DNSSeeds := dnsSeeds;
    GenesisBlock := Some sigNetGenesisBlock;
    GenesisHash := Some sigNetGenesisHash;
    PowLimit := sigNetPowLimit;
    PowLimitBits := 0x1e0377ae;
    BIP0034Height := 1;
    BIP0065Height := 1;
    BIP0066Height := 1;
    CoinbaseMaturity := 100;
    SubsidyReductionInterval := 210000;
    TargetTimespan := hour * 24 * 14;
    TargetTimePerBlock := minute * 10;
    RetargetAdjustmentFactor := 4;
    ReduceMinDifficulty := false;
    MinDiffReductionTime := minute * 20;
    GenerateSupported := false;
    Checkpoints := [];
    RuleChangeActivationThreshold := 1916;
    MinerConfirmationWindow := 2016;
    Deployments :=
      [deployment 28 0 0 (Time 1199145601 0) (Time 1230767999 0);
       deployment 22 100000 1815 zero_time zero_time;
       deployment 29 0 0 zero_time zero_time;
       deployment 29 0 0 zero_time zero_time];
    RelayNonStdTxs := false;
    Bech32HRPSegwit := "tb";
    PubKeyHashAddrID := 0x6f;
    ScriptHashAddrID := 0xc4;
    WitnessPubKeyHashAddrID := 0x03;
    WitnessScriptHashAddrID := 0x28;
    PrivateKeyID := 0xef;
    HDPrivateKeyID := [x04; x35; x83; x94];
    HDPublicKeyID := [x04; x35; x87; xcf];
    HDCoinType := 1
  |}.

Definition SigNetParams : Params := CustomSignetParams DefaultSignetChallenge DefaultSignetDNSSeeds.

(** The registry behind IsBech32SegwitPrefix: nothing in the program adds to it. *)
Definition bech32SegwitPrefixes : gset string := ∅.

Definition lower_ascii (c : Ascii.ascii) : Ascii.ascii :=
  let n := Ascii.nat_of_ascii c in
  if (65 <=? n)%nat && (n <=? 90)%nat then Ascii.ascii_of_nat (n + 32) else c.
(** strings.ToLower on ASCII text. *)
Fixpoint ToLower (s : string) : string :=
  match s with
  | EmptyString => EmptyString
  | String c s' => String (lower_ascii c) (ToLower s')
  end.

Definition IsBech32SegwitPrefix (prefix : string) : bool :=
  bool_decide (ToLower prefix ∈ bech32SegwitPrefixes).

(** ** params.go of package main *)

Record params := MkNetParams { chain : Params; rpcPort : string }.

Definition mainNetParams : params := MkNetParams MainNetParams "8334".
Definition regressionNetParams : params := MkNetParams RegressionNetParams "18334".
Definition testNet3Params : option params := p ← TestNet3Params; Some (MkNetParams p "18334").
Definition simNetParams : params := MkNetParams SimNetParams "18556".
Definition sigNetParams : params := MkNetParams SigNetParams "38332".

(** activeNetParams as initialised. *)
Definition activeNetParams : params := mainNetParams.

Definition netName (chainParams : params) : string :=
  if Net (chain chainParams) =? TestNet3 then "testnet" else Name (chain chainParams).

(** ** Properties *)

Fixpoint ascending (l : list Z) : bool :=
  match l with
  | x :: (y :: _) as k => (x <? y) && ascending k
  | _ => true
  end.

(** What the rest of a node relies on in the parameters of a network. *)
Record params_ok (p : Params) : Prop := {
  ok_genesis : exists b h, GenesisBlock p = Some b /\ GenesisHash p = Some h /\
    DoubleHashH (header_bytes (Header b)) = h /\ Bits (Header b) = PowLimitBits p;
  ok_pow : compact_target (PowLimitBits p) <= PowLimit p;
  ok_retarget : TargetTimespan p mod TargetTimePerBlock p = 0 /\
    MinDiffReductionTime p = 2 * TargetTimePerBlock p;
  ok_threshold : 0 < RuleChangeActivationThreshold p <= MinerConfirmationWindow p;
  ok_deployments : length (Deployments p) = DefinedDeployments /\
    Forall (fun d => CustomActivationThreshold d <= MinerConfirmationWindow p /\
      DeploymentStarter d <> None /\ DeploymentEnder d <> None) (Deployments p);
  ok_checkpoints : ascending (map CHeight (Checkpoints p)) = true /\
    Forall (fun c => length (CHash c) = 32%nat) (Checkpoints p);
  ok_hd : length (HDPrivateKeyID p) = 4%nat /\ length (HDPublicKeyID p) = 4%nat /\
    HDPrivateKeyID p <> HDPublicKeyID p
}.

Definition started_and_ended (d : ConsensusDeployment) : bool :=
  match DeploymentStarter d, DeploymentEnder d with Some _, Some _ => true | _, _ => false end.

(** The decidable content of [params_ok], for evaluation. *)
Definition params_okb (p : Params) : bool :=
  match GenesisBlock p, GenesisHash p with
  | Some b, Some h => bool_decide (DoubleHashH (header_bytes (Header b)) = h) && (Bits (Header b) =? PowLimitBits p)
  | _, _ => false
  end && (compact_target (PowLimitBits p) <=? PowLimit p) &&
  (TargetTimespan p mod TargetTimePerBlock p =? 0) && (MinDiffReductionTime p =? 2 * TargetTimePerBlock p) &&
  (0 <? RuleChangeActivationThreshold p) && (RuleChangeActivationThreshold p <=? MinerConfirmationWindow p) &&
  (length (Deployments p) =? DefinedDeployments)%nat &&
  forallb (fun d => (CustomActivationThreshold d <=? MinerConfirmationWindow p) && started_and_ended d) (Deployments p) &&
  ascending (map CHeight (Checkpoints p)) && forallb (fun c => (length (CHash c) =? 32)%nat) (Checkpoints p) &&
  (length (HDPrivateKeyID p) =? 4)%nat && (length (HDPublicKeyID p) =? 4)%nat &&
  bool_decide (HDPrivateKeyID p <> HDPublicKeyID p).

Lemma params_okb_ok p : params_okb p = true -> params_ok p.
Proof.
  unfold params_okb. rewrite !andb_true_iff, !Z.leb_le, !Z.eqb_eq, !Z.ltb_lt, !Nat.eqb_eq, !forallb_forall.
  intros H. destruct_and! H. constructor; try done.
  - destruct (GenesisBlock p) as [b|], (GenesisHash p) as [h|]; try done. boolify.
    exists b, h. split_and!; try done. now eapply bool_decide_eq_true_1.
  - split; [done|]. apply Forall_forall. intros d Hd%list_elem_of_In.
    match goal with H : forall x, In x (Deployments p) -> _ |- _ => specialize (H d Hd) end.
    boolify. unfold started_and_ended in *. destruct (DeploymentStarter d), (DeploymentEnder d); done.
  - split; [done|]. apply Forall_forall. intros c Hc%list_elem_of_In.
    now apply Nat.eqb_eq; auto.
  - split_and!; try done. now eapply bool_decide_eq_true_1.
Qed.

Lemma testNet3_ok : exists p, TestNet3Params = Some p /\ params_ok p /\ Net p = TestNet3 /\
  length (Checkpoints p) = 14%nat.
Proof.
  assert (H : match TestNet3Params with
              | Some p => params_okb p && (Net p =? TestNet3) && (length (Checkpoints p) =? 14)%nat
              | None => false end = true) by (vm_compute; reflexivity).
  destruct TestNet3Params as [p|]; [|discriminate].
  rewrite !andb_true_iff, Z.eqb_eq, Nat.eqb_eq in H. destruct_and! H.
  exists p. split_and!; try done. now apply params_okb_ok.
Qed.

(** The parameters of the three networks that have any are usable.
Initialising them does not panic on a hard-coded checkpoint hash; genesis hash
and limits match the genesis block; checkpoints ascend; activation thresholds,
custom ones included, fit the confirmation window; every deployment has a
starter and an ender; the signet magic derived from the default challenge is
0x40cf030a; the three magics differ. *)
Theorem networks_ok :
  exists test, TestNet3Params = Some test /\
    Forall params_ok [test; SimNetParams; SigNetParams] /\
    map Net [test; SimNetParams; SigNetParams] = [TestNet3; SimNet; 0x40cf030a] /\
    NoDup (map Net [test; SimNetParams; SigNetParams]).
Proof.
  destruct testNet3_ok as (p & Hp & Hok & Hn & _). exists p.
  assert (Hm : map Net [p; SimNetParams; SigNetParams] = [TestNet3; SimNet; 0x40cf030a]).
  { cbn [map]. rewrite Hn. vm_compute. reflexivity. }
  split; [done|]. split; [|split; [done|rewrite Hm; decide_now]].
  rewrite !Forall_cons. split_and!; [exact Hok| | |apply Forall_nil_2];
    apply params_okb_ok; vm_compute; reflexivity.
Qed.

(** A deployment under a clock, as the header's past median time sees it. *)
Definition reached (t u : gotime) : Prop :=
  unix_sec u < unix_sec t \/ (unix_sec t = unix_sec u /\ nsec u <= nsec t).

Lemma reached_spec t u : After t u || Equal t u = true <-> reached t u.
Proof.
  unfold After, Equal, reached. rewrite !orb_true_iff, !andb_true_iff, !Z.ltb_lt, !Z.eqb_eq. lia.
Qed.

Lemma reached_trans t u v : reached t u -> reached u v -> reached t v.
Proof. unfold reached. lia. Qed.

(** Deployments start and end inclusively at their median times.  Before a
clock is synchronised both queries fail; with a clock, a zero start has always
started, a zero end never ends, the clock's error is passed on, and otherwise
the answer is whether the past median time has reached the limit.  So a
deployment whose end is not before its start is started whenever it has ended. *)
Theorem deployment_window start end_ clock h :
  let s := NewMedianTimeDeploymentStarter start in
  let e := NewMedianTimeDeploymentEnder end_ in
  let s' := SynchronizeClock_starter clock s in
  let e' := SynchronizeClock_ender clock e in
  HasStarted s h = Err ErrNoBlockClock /\ HasEnded e h = Err ErrNoBlockClock /\
  (IsZero start = true -> HasStarted s' h = Ok true) /\
  (IsZero end_ = true -> HasEnded e' h = Ok false) /\
  (forall t, clock h = Ok t -> IsZero start = false -> IsZero end_ = false ->
     (HasStarted s' h = Ok true <-> reached t start) /\ (HasEnded e' h = Ok true <-> reached t end_)) /\
  (forall err, clock h = Err err -> IsZero start = false -> IsZero end_ = false ->
     HasStarted s' h = Err err /\ HasEnded e' h = Err err) /\
  (reached end_ start -> HasEnded e' h = Ok true -> HasStarted s' h = Ok true).
Proof.
  cbn zeta. unfold HasStarted, HasEnded. cbn [starter_clock ender_clock startTime endTime
    NewMedianTimeDeploymentStarter NewMedianTimeDeploymentEnder SynchronizeClock_starter SynchronizeClock_ender].
  split_and!; [done|done|now intros ->|now intros ->| | |].
  - intros t -> -> ->. rewrite <- !reached_spec. split; split; congruence.
  - now intros err -> -> ->.
  - intros Hr. destruct (IsZero start); [done|]. destruct (IsZero end_); [done|].
    destruct (clock h) as [t|]; [|done]. intros [= H]. f_equal.
    apply reached_spec. apply reached_spec in H. now apply (reached_trans t end_).
Qed.

(** Signet votes on CSV and segwit with the same bit; the other networks keep
their bits apart. *)
Theorem signet_shared_bit :
  map BitNumber (Deployments SigNetParams) = [28; 22; 29; 29] /\
  NoDup (map BitNumber (Deployments SimNetParams)).
Proof. split; [reflexivity|decide_now]. Qed.

(** The documented definition of the confirmation window holds except on simnet. *)
Theorem confirmation_windows :
  (exists p, TestNet3Params = Some p /\ MinerConfirmationWindow p = TargetTimespan p / TargetTimePerBlock p) /\
  MinerConfirmationWindow SigNetParams = TargetTimespan SigNetParams / TargetTimePerBlock SigNetParams /\
  MinerConfirmationWindow SimNetParams <> TargetTimespan SimNetParams / TargetTimePerBlock SimNetParams.
Proof.
  split_and!; [|reflexivity|discriminate].
  destruct testNet3_ok as (p & Hp & _). exists p. split; [done|].
  revert Hp. unfold TestNet3Params. destruct (mapM _ _); [|done]. now intros [= <-].
Qed.

(** The default network has no parameters, and no prefix is ever recognised. *)
Theorem main_net_unset :
  GenesisBlock (chain activeNetParams) = None /\ DefaultPort (chain activeNetParams) = ""%string /\
  netName activeNetParams = ""%string /\ Net (chain activeNetParams) <> MainNet /\
  forall prefix, IsBech32SegwitPrefix prefix = false.
Proof. split_and!; [done..|]. intros prefix. now apply bool_decide_false. Qed.
