(* ===== verification/JsonTypes.v ===== *)
(** * JSON values and Go types

What package acbcjson uses of encoding/json and reflect: JSON documents, the
types and values of Go that occur in its commands, and the two conversions
json.Marshal and json.Unmarshal between them, at the level of documents (a
json.RawMessage is the document it holds).  A float64 is represented by the
literal encoding/json prints for it.  Two things that no registered command meets are
simpler than in encoding/json: a slice of bytes is an array, not a base64 string, and
names are compared up to the case of ASCII letters. *)

From Stdlib Require Import ZArith Lia List.
From Stdlib Require Import Strings.String Strings.Ascii.
From S2P Require Import Prelude WireFormat.

#[local] Open Scope list_scope.
#[local] Set Warnings "-register-all".

(** ** Documents *)

Inductive json : Type :=
  | JNull
  | JBool (b : bool)
  | JInt (z : Z)               (** a number written as an integer *)
  | JDec (lit : string)        (** any other number *)
  | JStr (s : string)
  | JArr (l : list json)
  | JObj (l : list (string * json)).

(** ** Types (package reflect) *)

Inductive gkind :=
  | KindBool | KindInt | KindInt8 | KindInt16 | KindInt32 | KindInt64
  | KindUint | KindUint8 | KindUint16 | KindUint32 | KindUint64
  | KindFloat32 | KindFloat64 | KindString | KindSlice | KindStruct | KindPtr
  | KindChan | KindComplex64 | KindComplex128 | KindFunc | KindInterface.

#[export] Instance gkind_eq_dec : EqDecision gkind.
Proof. solve_decision. Defined.

(** A struct field but for its type: its name, whether it is embedded or
unexported, its JSON name and option, and its jsonrpcdefault tag (the text and
the document it parses to, if it is JSON). *)
Record finfo := Field {
  fname : string;
  fanonymous : bool;
  funexported : bool;
  fjson : string;
  fomitempty : bool;
  fdefault : option (string * option json)
}.

Inductive gtype : Type :=
  | TBase (k : gkind)
  | TSlice (t : gtype)
  | TPtr (t : gtype)
  | TStruct (name : string) (fs : list (finfo * gtype)).

Definition Kind (t : gtype) : gkind :=
  match t with TBase k => k | TSlice _ => KindSlice | TPtr _ => KindPtr | TStruct _ _ => KindStruct end.

Definition kind_string (k : gkind) : string :=
  match k with
  | KindBool => "bool" | KindInt => "int" | KindInt8 => "int8" | KindInt16 => "int16"
  | KindInt32 => "int32" | KindInt64 => "int64" | KindUint => "uint" | KindUint8 => "uint8"
  | KindUint16 => "uint16" | KindUint32 => "uint32" | KindUint64 => "uint64"
  | KindFloat32 => "float32" | KindFloat64 => "float64" | KindString => "string"
  | KindSlice => "slice" | KindStruct => "struct" | KindPtr => "ptr" | KindChan => "chan"
  | KindComplex64 => "complex64" | KindComplex128 => "complex128" | KindFunc => "func"
  | KindInterface => "interface"
  end.

(** The name of a type, which identifies it: [reflect.Type] as a map key. *)
Fixpoint type_string (t : gtype) : string :=
  match t with
  | TBase k => kind_string k
  | TSlice t' => "[]" +:+ type_string t'
  | TPtr t' => "*" +:+ type_string t'
  | TStruct name _ => name
  end.

(** The bits of an integer kind, and whether it is signed. *)
Definition int_kind (k : gkind) : option (bool * Z) :=
  match k with
  | KindInt | KindInt64 => Some (true, 64) | KindInt8 => Some (true, 8)
  | KindInt16 => Some (true, 16) | KindInt32 => Some (true, 32)
  | KindUint | KindUint64 => Some (false, 64) | KindUint8 => Some (false, 8)
  | KindUint16 => Some (false, 16) | KindUint32 => Some (false, 32)
  | _ => None
  end.
Definition float_kind (k : gkind) : bool :=
  match k with KindFloat32 | KindFloat64 => true | _ => false end.

Definition int_fits (sb : bool * Z) (z : Z) : bool :=
  let '(signed, bits) := sb in
  if signed then (- 2 ^ (bits - 1) <=? z) && (z <? 2 ^ (bits - 1)) else (0 <=? z) && (z <? 2 ^ bits).

(** ** Values (package reflect) *)

Inductive gval : Type :=
  | VBool (b : bool)
  | VInt (z : Z)
  | VFloat (lit : json)                (** a [JInt] or [JDec] *)
  | VStr (s : string)
  | VSlice (l : option (list gval))    (** [None]: nil *)
  | VPtr (v : option gval)             (** [None]: nil *)
  | VStruct (fs : list gval)
  | VOther.                            (** chan, complex, func, interface: nil or zero *)

Fixpoint zero (t : gtype) : gval :=
  match t with
  | TBase k =>
      match int_kind k with
      | Some _ => VInt 0
      | None => if float_kind k then VFloat (JInt 0)
                else match k with KindBool => VBool false | KindString => VStr "" | _ => VOther end
      end
  | TSlice _ => VSlice None
  | TPtr _ => VPtr None
  | TStruct _ fs => VStruct (map (fun f => zero f.2) fs)
  end.

(** ** json.Marshal *)

(** The values omitempty leaves out. *)
Definition isEmptyValue (v : gval) : bool :=
  match v with
  | VBool b => negb b
  | VInt z => z =? 0
  | VFloat (JInt z) => z =? 0
  | VStr s => bool_decide (s = ""%string)
  | VSlice l => match l with Some (_ :: _) => false | _ => true end
  | VPtr p => match p with None => true | Some _ => false end
  | _ => false
  end.

(** The members of a struct. *)
Definition members_of (marshal : gtype -> gval -> json) :=
  fix fields (fs : list (finfo * gtype)) (vs : list gval) : list (string * json) :=
    match fs, vs with
    | (fi, t') :: fs', v' :: vs' =>
        if fomitempty fi && isEmptyValue v' then fields fs' vs'
        else (fjson fi, marshal t' v') :: fields fs' vs'
    | _, _ => []
    end.

Fixpoint Marshal (t : gtype) (v : gval) {struct t} : json :=
  match t, v with
  | TBase KindBool, VBool b => JBool b
  | TBase KindString, VStr s => JStr s
  | TBase _, VInt z => JInt z
  | TBase _, VFloat lit => lit
  | TSlice t', VSlice (Some l) => JArr (map (Marshal t') l)
  | TPtr t', VPtr (Some v') => Marshal t' v'
  | TStruct _ fs, VStruct vs => JObj (members_of Marshal fs vs)
  | _, _ => JNull
  end.

(** ** json.Unmarshal *)

(** json.UnmarshalTypeError with its Type and Value; any other error. *)
Inductive uerr := UnmarshalTypeError (type value : string) | OtherError (msg : string).

(** The Value text of a document that does not fit type [t]: a number is quoted
only where a number of another range was expected. *)
Definition value_string (t : gtype) (j : json) : string :=
  let numeric := match t with TBase k => match int_kind k with Some _ => true | None => float_kind k end | _ => false end in
  match j with
  | JNull => "null" | JBool _ => "bool" | JStr _ => "string" | JArr _ => "array" | JObj _ => "object"
  | JInt z => if numeric then "number " +:+ fmt_d z else "number"
  | JDec lit => if numeric then "number " +:+ lit else "number"
  end.

(** Member names are matched without regard to ASCII case. *)
Definition fold_ascii (c : ascii) : ascii :=
  let n := nat_of_ascii c in
  if (65 <=? n)%nat && (n <=? 90)%nat then ascii_of_nat (n + 32) else c.
Fixpoint ToLower (s : string) : string :=
  match s with EmptyString => EmptyString | String c s' => String (fold_ascii c) (ToLower s') end.
Definition EqualFold (a b : string) : bool := bool_decide (ToLower a = ToLower b).

Section unmarshal_parts.
Context (unmarshal : gval -> json -> result uerr gval).

(** The items of an array, each into a fresh element. *)
Fixpoint items_of (z : gval) (l : list json) : result uerr (list gval) :=
  match l with
  | [] => Ok []
  | x :: l' => v ← unmarshal z x; vs ← items_of z l'; mret (v :: vs)
  end.

(** Every member that names the field is stored into it, in order. *)
Fixpoint assign_of (name : string) (ms : list (string * json)) (v : gval) : result uerr gval :=
  match ms with
  | [] => mret v
  | (n, x) :: ms' => if EqualFold n name then v' ← unmarshal v x; assign_of name ms' v' else assign_of name ms' v
  end.
End unmarshal_parts.

Definition fields_of (unmarshal : gtype -> gval -> json -> result uerr gval) (ms : list (string * json)) :=
  fix fields (fs : list (finfo * gtype)) (vs : list gval) : result uerr (list gval) :=
    match fs, vs with
    | (fi, t') :: fs', v :: vs' =>
        v' ← assign_of (unmarshal t') (fjson fi) ms v; k ← fields fs' vs'; mret (v' :: k)
    | _, _ => mret []
    end.

(** Unmarshal the document into a variable of type [t] that holds [cur]. *)
Fixpoint Unmarshal (t : gtype) (cur : gval) (j : json) {struct t} : result uerr gval :=
  let mismatch := Err (UnmarshalTypeError (type_string t) (value_string t j)) in
  match j with
  | JNull => match t with TPtr _ => Ok (VPtr None) | TSlice _ => Ok (VSlice None) | _ => Ok cur end
  | _ =>
      match t with
      | TBase k =>
          match j with
          | JBool b => if decide (k = KindBool) then Ok (VBool b) else mismatch
          | JStr s => if decide (k = KindString) then Ok (VStr s) else mismatch
          | JInt z =>
              match int_kind k with
              | Some sb => if int_fits sb z then Ok (VInt z) else mismatch
              | None => if float_kind k then Ok (VFloat (JInt z)) else mismatch
              end
          | JDec lit => if float_kind k then Ok (VFloat (JDec lit)) else mismatch
          | _ => mismatch
          end
      | TPtr t' =>
          let inner := match cur with VPtr (Some v) => v | _ => zero t' end in
          v ← Unmarshal t' inner j; mret (VPtr (Some v))
      | TSlice t' =>
          match j with
          | JArr l => vs ← items_of (Unmarshal t') (zero t') l; mret (VSlice (Some vs))
          | _ => mismatch
          end
      | TStruct _ fs =>
          match j, cur with
          | JObj ms, VStruct vs => k ← fields_of Unmarshal ms fs vs; mret (VStruct k)
          | _, _ => mismatch
          end
      end
  end.

(** ** Well-typed values

The values for which Unmarshal inverts Marshal: integers in range, no pointer to
something that marshals to null, no non-nil empty slice under omitempty, and
distinct member names. *)

Definition typed_fields (typed : gtype -> gval -> bool) :=
  fix fields (fs : list (finfo * gtype)) (vs : list gval) : bool :=
    match fs, vs with
    | [], [] => true
    | (fi, t) :: fs', v :: vs' =>
        typed t v && fields fs' vs' &&
        (if fomitempty fi then match v with VSlice (Some []) => false | _ => true end else true)
    | _, _ => false
    end.

Definition names_distinct (fs : list (finfo * gtype)) : bool :=
  bool_decide (NoDup (map (fun f => ToLower (fjson f.1)) fs)).

Fixpoint typed (t : gtype) (v : gval) {struct t} : bool :=
  match t, v with
  | TBase k, VBool _ => bool_decide (k = KindBool)
  | TBase k, VStr _ => bool_decide (k = KindString)
  | TBase k, VInt z => match int_kind k with Some sb => int_fits sb z | None => false end
  | TBase k, VFloat lit => float_kind k && match lit with JInt _ | JDec _ => true | _ => false end
  | TSlice t', VSlice None => true
  | TSlice t', VSlice (Some l) => forallb (typed t') l
  | TPtr _, VPtr None => true
  | TPtr t', VPtr (Some v') => typed t' v' && match t' with TBase _ | TStruct _ _ => true | _ => false end
  | TStruct _ fs, VStruct vs => names_distinct fs && typed_fields typed fs vs
  | _, _ => false
  end.

Lemma gtype_rect' (P : gtype -> Prop) :
  (forall k, P (TBase k)) -> (forall t, P t -> P (TSlice t)) -> (forall t, P t -> P (TPtr t)) ->
  (forall n fs, Forall (fun f => P f.2) fs -> P (TStruct n fs)) -> forall t, P t.
Proof.
  intros Hb Hs Hp Hst. fix IH 1. intros [k|t|t|n fs]; [apply Hb|apply Hs, IH|apply Hp, IH|].
  apply Hst. induction fs as [|[fi t] fs IHfs]; constructor; [apply IH|exact IHfs].
Qed.

Lemma EqualFold_spec a b : EqualFold a b = bool_decide (ToLower a = ToLower b).
Proof. done. Qed.

Lemma assign_filter um name ms v :
  assign_of um name ms v = assign_of um name (List.filter (fun m => EqualFold m.1 name) ms) v.
Proof.
  revert v. induction ms as [|[n x] ms IH]; intros v; [done|]. cbn. destruct (EqualFold n name) eqn:E; [|apply IH].
  cbn. rewrite E. unfold mbind, result_bind. destruct (um v x); auto.
Qed.

(** The members of a struct that name one of its fields. *)
Lemma members_not_named name fs vs :
  ToLower name ∉ map (fun f : finfo * gtype => ToLower (fjson f.1)) fs ->
  List.filter (fun m => EqualFold m.1 name) (members_of Marshal fs vs) = [].
Proof.
  revert vs. induction fs as [|[fi t] fs IH]; intros vs Hn; [done|]. destruct vs as [|v vs]; [done|].
  cbn in Hn. rewrite not_elem_of_cons in Hn. destruct Hn as [Hne Hn]. cbn.
  destruct (_ && _); [auto|]. cbn. rewrite EqualFold_spec, bool_decide_false by congruence. auto.
Qed.

Lemma omitted_zero t v : typed t v = true -> isEmptyValue v = true ->
  (match v with VSlice (Some []) => false | _ => true end) = true -> v = zero t.
Proof.
  destruct t as [k|t|t|n fs], v as [b|z|lit|s|[[|x l]|]|[v|]|vs|]; cbn; try done.
  - intros Hk%bool_decide_eq_true Hb _. subst. now destruct b.
  - destruct k; cbn; try done; intros; boolify; now subst.
  - destruct k, lit; cbn; try done; intros; boolify; now subst.
  - intros Hk%bool_decide_eq_true Hs%bool_decide_eq_true _. now subst.
Qed.

Lemma Marshal_null t v : typed t v = true -> Marshal t v = JNull -> (exists t', t = TPtr t' /\ v = VPtr None) \/ (exists t', t = TSlice t' /\ v = VSlice None).
Proof.
  destruct t as [k|t|t|n fs], v as [b|z|lit|s|[l|]|[v|]|vs|]; cbn; try done; eauto.
  - intros Hk%bool_decide_eq_true. now subst.
  - now destruct k.
  - destruct k, lit; done.
  - intros Hk%bool_decide_eq_true. now subst.
  - rewrite andb_true_iff. intros [Hv Ht]. destruct t; try done.
    + destruct v; try done; destruct k; try done. cbn. destruct lit; done. cbn in *. destruct lit; done.
    + destruct v; done.
Qed.

(** A document that is not null goes to the type's own case. *)
Lemma Unmarshal_ptr t v j : j <> JNull -> Unmarshal t (zero t) j = Ok v ->
  Unmarshal (TPtr t) (VPtr None) j = Ok (VPtr (Some v)).
Proof. intros Hj H. cbn. destruct j; cbn in *; (congruence || now rewrite H). Qed.

Lemma Unmarshal_Marshal t v : typed t v = true -> Unmarshal t (zero t) (Marshal t v) = Ok v.
Proof.
  revert v. induction t as [k|t IH|t IH|n fs IH] using gtype_rect'; intros v Hv.
  - destruct v as [b|z|lit|s|l|p|vs|]; try discriminate Hv; cbn in Hv.
    + apply bool_decide_eq_true in Hv. now subst.
    + destruct (int_kind k) as [sb|] eqn:E; [|discriminate].
      replace (Marshal (TBase k) (VInt z)) with (JInt z) by now destruct k. cbn. now rewrite E, Hv.
    + replace (Marshal (TBase k) (VFloat lit)) with lit by now destruct k.
      apply andb_true_iff in Hv as [Hk Hl]. assert (int_kind k = None) by now destruct k.
      destruct lit; try discriminate Hl; cbn; rewrite ?H, Hk; done.
    + apply bool_decide_eq_true in Hv. now subst.
  - destruct v as [b|z|lit|s|[l|]|p|vs|]; try discriminate Hv; [|done].
    cbn in Hv |- *.
    enough (H : items_of (Unmarshal t) (zero t) (map (Marshal t) l) = Ok l) by now rewrite H.
    induction l as [|x l IHl]; [done|]. cbn in Hv |- *. apply andb_true_iff in Hv as [Hx Hl].
    rewrite IH by done. cbn. now rewrite IHl.
  - destruct v as [b|z|lit|s|l|[v|]|vs|]; try discriminate Hv; [|done].
    cbn in Hv. apply andb_true_iff in Hv as [Hv Ht]. apply Unmarshal_ptr; [|now apply IH].
    intros Hn. destruct (Marshal_null t v Hv Hn) as [(t' & E1 & _)|(t' & E1 & _)]; rewrite E1 in Ht; discriminate Ht.
  - destruct v as [b|z|lit|s|l|p|vs|]; try discriminate Hv. cbn in Hv |- *.
    apply andb_true_iff in Hv as [Hd Hv]. apply bool_decide_eq_true in Hd.
    enough (H : forall ms, (forall fi t, In (fi, t) fs ->
        List.filter (fun m => EqualFold m.1 (fjson fi)) ms =
        List.filter (fun m => EqualFold m.1 (fjson fi)) (members_of Marshal fs vs)) ->
      fields_of Unmarshal ms fs (map (fun f => zero f.2) fs) = Ok vs) by now rewrite H.
    revert vs Hv Hd. induction IH as [|[fi t] fs Ht _ IHfs]; intros vs Hv Hd ms Hms.
    { now destruct vs. }
    destruct vs as [|v vs]; [discriminate|]. cbn in Hv. rewrite !andb_true_iff in Hv.
    destruct Hv as [[Hv Hvs] Hom]. cbn in Hd. apply NoDup_cons in Hd as [Hni Hd].
    cbn. rewrite assign_filter, (Hms fi t) by now left. cbn.
    assert (Hassign : assign_of (Unmarshal t) (fjson fi)
      (List.filter (fun m => EqualFold m.1 (fjson fi))
        (if fomitempty fi && isEmptyValue v then members_of Marshal fs vs
         else (fjson fi, Marshal t v) :: members_of Marshal fs vs)) (zero t) = Ok v).
    { destruct (fomitempty fi && isEmptyValue v) eqn:E.
      - rewrite members_not_named by done. apply andb_true_iff in E as [Ef Ee]. rewrite Ef in Hom.
        cbn. now rewrite (omitted_zero t v).
      - cbn. rewrite EqualFold_spec, bool_decide_true by done. cbn.
        rewrite EqualFold_spec, bool_decide_true by done. cbn.
        rewrite members_not_named by done. cbn in Ht. now rewrite Ht. }
    rewrite Hassign. cbn. rewrite (IHfs vs Hvs Hd ms); [done|].
    intros fi' t' Hin. rewrite (Hms fi' t') by now right. cbn.
    destruct (_ && _); [done|]. cbn. rewrite EqualFold_spec, bool_decide_false; [done|].
    intros Heq. apply Hni. rewrite Heq. apply list_elem_of_In, in_map_iff. now exists (fi', t').
Qed.
