(* ===== verification/AcbcJson.v ===== *)
(** * acbcjson

The statically typed command infrastructure of the RPC protocol: the registry of
commands and its validation (register.go), commands to requests and back with
positional, optional and defaulted parameters (cmdparse.go, cmdinfo.go), and
requests and responses (jsonrpc.go). *)

From Stdlib Require Import ZArith Lia List.
From Stdlib Require Import Strings.String Strings.Ascii.
From S2P Require Import Prelude WireFormat JsonTypes.

#[local] Open Scope list_scope.
#[local] Set Warnings "-register-all".

(** ** error.go *)

Inductive ErrorCode :=
  | ErrDuplicateMethod | ErrInvalidUsageFlags | ErrInvalidType | ErrEmbeddedType
  | ErrUnexportedField | ErrUnsupportedFieldType | ErrNonOptionalField | ErrNonOptionalDefault
  | ErrMismatchedDefault | ErrUnregisteredMethod | ErrMissingDescription | ErrNumParams.

#[export] Instance ErrorCode_eq_dec : EqDecision ErrorCode.
Proof. solve_decision. Defined.

(** (e ErrorCode) String. *)
Definition ErrorCode_String (e : ErrorCode) : string :=
  match e with
  | ErrDuplicateMethod => "ErrDuplicateMethod"
  | ErrInvalidUsageFlags => "ErrInvalidUsageFlags"
  | ErrInvalidType => "ErrInvalidType"
  | ErrEmbeddedType => "ErrEmbeddedType"
  | ErrUnexportedField => "ErrUnexportedField"
  | ErrUnsupportedFieldType => "ErrUnsupportedFieldType"
  | ErrNonOptionalField => "ErrNonOptionalField"
  | ErrNonOptionalDefault => "ErrNonOptionalDefault"
  | ErrMismatchedDefault => "ErrMismatchedDefault"
  | ErrUnregisteredMethod => "ErrUnregisteredMethod"
  | ErrMissingDescription => "ErrMissingDescription"
  | ErrNumParams => "ErrNumParams"
  end.

(** Error values of the package; [JPanic] is a run-time panic. *)
Inductive jerr := Error (code : ErrorCode) (description : string) | JPanic.
Definition makeError (c : ErrorCode) (desc : string) : jerr := Error c desc.

(** (e Error) Error. *)
Definition Error_Error (e : jerr) : string := match e with Error _ d => d | JPanic => "" end.

(** fmt's [%q] on plain text. *)
Definition quote_char : string := String (ascii_of_nat 34) EmptyString.
Definition fmt_q (s : string) : string := (quote_char +:+ s +:+ quote_char)%string.

(** ** jsonrpc.go *)

(** RPCVersion is a string type. *)
Definition RpcVersion1 : string := "1.0".
Definition RpcVersion2 : string := "2.0".
Definition validRpcVersions : list string := [RpcVersion1; RpcVersion2].

Definition IsValid (r : string) : bool := existsb (fun version => bool_decide (version = r)) validRpcVersions.

Record RPCError := MkRPCError { Code : Z; Message : string }.
#[export] Instance RPCError_eq_dec : EqDecision RPCError.
Proof. solve_decision. Defined.

(** (e RPCError) Error. *)
Definition RPCError_Error (e : RPCError) : string := (fmt_d (Code e) +:+ ": " +:+ Message e)%string.

(** An id as decoded from JSON: numbers are float64. *)
Definition IsValidIDType (id : json) : bool :=
  match id with JInt _ | JDec _ | JStr _ | JNull => true | _ => false end.

Definition id_type (id : json) : string :=
  match id with
  | JBool _ => "bool" | JArr _ => "[]interface {}" | JObj _ => "map[string]interface {}"
  | JStr _ => "string" | JNull => "<nil>" | _ => "float64"
  end.

Record Request := MkRequest { Jsonrpc : string; Method : string; Params : option (list json); ID : json }.
(** ID is a pointer; [None] is nil. *)
Record Response := MkResponse { RJsonrpc : string; Result : json; RError : option RPCError; RID : option json }.

Definition badVersion (v : string) : jerr :=
  makeError ErrInvalidType ("rpcversion '" +:+ v +:+ "' is invalid").
Definition badID (id : json) : jerr :=
  makeError ErrInvalidType ("the id of type '" +:+ id_type id +:+ "' is invalid").

(** NewRequest on parameters with their dynamic types. *)
Definition NewRequest (rpcVersion : string) (id : json) (method : string)
    (params : list (gtype * gval)) : result jerr Request :=
  if negb (IsValid rpcVersion) then Err (badVersion rpcVersion)
  else if negb (IsValidIDType id) then Err (badID id)
  else
    let rawParams := map (fun p => Marshal p.1 p.2) params in
    Ok (MkRequest rpcVersion method (Some rawParams) id).

Definition NewRPCError (code : Z) (message : string) : RPCError := MkRPCError code message.

Definition NewResponse (rpcVersion : string) (id : json) (marshalledResult : json)
    (rpcErr : option RPCError) : result jerr Response :=
  if negb (IsValid rpcVersion) then Err (badVersion rpcVersion)
  else if negb (IsValidIDType id) then Err (badID id)
  else Ok (MkResponse rpcVersion marshalledResult rpcErr (Some id)).

(** json.Marshal of an RPCError (both members omitempty) and of a Response. *)
Definition error_json (e : RPCError) : json :=
  JObj ((if Code e =? 0 then [] else [("code"%string, JInt (Code e))]) ++
        (if decide (Message e = ""%string) then [] else [("message"%string, JStr (Message e))])).
Definition response_json (r : Response) : json :=
  JObj [("jsonrpc"%string, JStr (RJsonrpc r)); ("result"%string, Result r);
        ("error"%string, match RError r with Some e => error_json e | None => JNull end);
        ("id"%string, match RID r with Some id => id | None => JNull end)].

(** MarshalResponse; the result is given as the document it marshals to. *)
Definition MarshalResponse (rpcVersion : string) (id : json) (res : json)
    (rpcErr : option RPCError) : result jerr json :=
  if negb (IsValid rpcVersion) then Err (badVersion rpcVersion)
  else r ← NewResponse rpcVersion id res rpcErr; mret (response_json r).

(** ** jsonrpcerr.go *)

Definition ErrRPCOutOfRange : Z := -1.
Definition ErrRPCInvalidRequest : RPCError := MkRPCError (-32600) "Invalid request".
Definition ErrRPCMethodNotFound : RPCError := MkRPCError (-32601) "Method not found".
Definition ErrRPCInvalidParams : RPCError := MkRPCError (-32602) "Invalid parameters".
Definition ErrRPCInternal : RPCError := MkRPCError (-32603) "Internal error".
Definition ErrRPCParse : RPCError := MkRPCError (-32700) "Parse error".
Definition ErrRPCNoWallet : Z := -1.
Definition ErrRPCUnimplemented : Z := -1.

(** ** register.go *)

Definition UFWalletOnly : Z := 1.
Definition UFWebsocketOnly : Z := 2.
Definition UFNotification : Z := 4.
Definition highestUsageFlagBit : Z := 8.

Record methodInfo := MkInfo {
  maxParams : nat; numReqParams : nat; numOptParams : nat;
  defaults : gmap nat gval; flags : Z; usage : string }.
(** The zero value a map lookup gives for an absent key. *)
Definition zeroInfo : methodInfo := MkInfo 0 0 0 ∅ 0 "".

(** The three maps behind registerLock. *)
Record registry := MkRegistry {
  methodToConcreteType : gmap string gtype;
  methodToInfo : gmap string methodInfo;
  concreteTypeToMethod : gmap string string  (** keyed by [type_string] *)
}.
Definition empty_registry : registry := MkRegistry ∅ ∅ ∅.

Fixpoint baseKindString (rt : gtype) : string :=
  match rt with TPtr t => "*" +:+ baseKindString t | t => kind_string (Kind t) end.

Definition isAcceptableKind (kind : gkind) : bool :=
  match kind with
  | KindChan | KindComplex64 | KindComplex128 | KindFunc | KindPtr | KindInterface => false
  | _ => true
  end.

Definition isPtr (t : gtype) : bool := match t with TPtr _ => true | _ => false end.
Definition Elem (t : gtype) : gtype := match t with TPtr t' | TSlice t' => t' | _ => t end.

(** One iteration of RegisterCmd's loop over the fields, then the rest. *)
Fixpoint register_fields (i : nat) (fs : list (finfo * gtype)) (numOptFields : nat)
    (defaults : gmap nat gval) : result jerr (nat * gmap nat gval) :=
  match fs with
  | [] => Ok (numOptFields, defaults)
  | (fi, t) :: fs' =>
      if fanonymous fi then
        Err (makeError ErrEmbeddedType ("embedded fields are not supported (field name: " +:+ fmt_q (fname fi) +:+ ")"))
      else if funexported fi then
        Err (makeError ErrUnexportedField ("unexported fields are not supported (field name: " +:+ fmt_q (fname fi) +:+ ")"))
      else
        let isOptional := isPtr t in
        let kind := if isOptional then Kind (Elem t) else Kind t in
        if negb (isAcceptableKind kind) then
          Err (makeError ErrUnsupportedFieldType ("unsupported field type '" +:+ type_string t +:+ " (" +:+
            baseKindString t +:+ ")' (field name " +:+ fmt_q (fname fi) +:+ ")"))
        else if negb isOptional && (0 <? numOptFields)%nat then
          Err (makeError ErrNonOptionalField ("all fields after the first optional field must also be optional (field name "
            +:+ fmt_q (fname fi) +:+ ")"))
        else
          let numOptFields := if isOptional then S numOptFields else numOptFields in
          match fdefault fi with
          | None => register_fields (S i) fs' numOptFields defaults
          | Some (tag, doc) =>
              if negb isOptional then
                Err (makeError ErrNonOptionalDefault ("required fields must not have a default specified (field name "
                  +:+ fmt_q (fname fi) +:+ ")"))
              else
                match (match doc with Some d => Unmarshal (Elem t) (zero (Elem t)) d | None => Err (OtherError tag) end) with
                | Err _ => Err (makeError ErrMismatchedDefault ("default value of " +:+ fmt_q tag +:+
                    " is the wrong type (field name " +:+ fmt_q (fname fi) +:+ ")"))
                | Ok v => register_fields (S i) fs' numOptFields (<[i := VPtr (Some v)]> defaults)
                end
          end
  end.

(** RegisterCmd: the error (if any) and the new registry.  [cmd] is the dynamic
type of the argument, [None] a nil interface. *)
Definition RegisterCmd (method : string) (cmd : option gtype) (flags : Z) (reg : registry) :
    result jerr unit * registry :=
  match methodToConcreteType reg !! method with
  | Some _ => (Err (makeError ErrDuplicateMethod ("method " +:+ fmt_q method +:+ " is already registered")), reg)
  | None =>
      if negb (Z.land (Z.lxor (highestUsageFlagBit - 1) 0xffffffff) flags =? 0) then
        (Err (makeError ErrInvalidUsageFlags ("invalid usage flags specified for method " +:+ method +:+ ": "
          +:+ fmt_d flags)), reg)
      else
        match cmd with
        | None => (Err JPanic, reg)
        | Some (TPtr (TStruct name fs) as rtp) =>
            match register_fields 0 fs 0 ∅ with
            | Err e => (Err e, reg)
            | Ok (numOptFields, defaults) =>
                let numFields := length fs in
                (Ok tt, MkRegistry (<[method := rtp]> (methodToConcreteType reg))
                  (<[method := MkInfo numFields (numFields - numOptFields) numOptFields defaults flags ""]> (methodToInfo reg))
                  (<[type_string rtp := method]> (concreteTypeToMethod reg)))
            end
        | Some (TPtr rt as rtp) =>
            (Err (makeError ErrInvalidType ("type must be *struct not '" +:+ type_string rtp +:+ " (*" +:+
              kind_string (Kind rt) +:+ ")'")), reg)
        | Some rtp =>
            (Err (makeError ErrInvalidType ("type must be *struct not '" +:+ type_string rtp +:+ " (" +:+
              kind_string (Kind rtp) +:+ ")'")), reg)
        end
  end.

(** MustRegisterCmd: [None] is the panic. *)
Definition MustRegisterCmd (method : string) (cmd : option gtype) (flags : Z) (reg : registry) : option registry :=
  match RegisterCmd method cmd flags reg with (Ok _, reg') => Some reg' | (Err _, _) => None end.

(** ** cmdinfo.go and cmdparse.go *)

(** An interface{} that holds a command: its dynamic type and its value. *)
Definition command : Type := option (gtype * gval).

Definition lookup_method (reg : registry) (cmd : command) : option string :=
  match cmd with Some (rt, _) => concreteTypeToMethod reg !! type_string rt | None => None end.

Definition notRegistered (method : string) : jerr :=
  makeError ErrUnregisteredMethod (fmt_q method +:+ " is not registered").

Definition CmdMethod (reg : registry) (cmd : command) : result jerr string :=
  match lookup_method reg cmd with
  | None => Err (notRegistered "")
  | Some method => Ok method
  end.

Definition is_nil_ptr (p : gtype * gval) : bool := isPtr p.1 && match p.2 with VPtr None => true | _ => false end.

(** The loop of makeParams: [lastParam + 1] after the fields from [i] on. *)
Fixpoint last_param (i : nat) (ps : list (gtype * gval)) (last : nat) : nat :=
  match ps with
  | [] => last
  | p :: ps' => last_param (S i) ps' (if is_nil_ptr p then last else S i)
  end.

Definition makeParams (fs : list (finfo * gtype)) (vs : list gval) : list (gtype * gval) :=
  let params := combine (map snd fs) vs in
  take (last_param 0 params 0) params.

Definition request_json (r : Request) : json :=
  JObj [("jsonrpc"%string, JStr (Jsonrpc r)); ("method"%string, JStr (Method r));
        ("params"%string, match Params r with Some ps => JArr ps | None => JNull end); ("id"%string, ID r)].

(** MarshalCmd up to the request it marshals. *)
Definition MarshalCmd_request (reg : registry) (rpcVersion : string) (id : json) (cmd : command) : result jerr Request :=
  match lookup_method reg cmd, cmd with
  | Some method, Some (TPtr (TStruct _ fs), VPtr (Some (VStruct vs))) =>
      NewRequest rpcVersion id method (makeParams fs vs)
  | Some _, Some (_, VPtr None) => Err (makeError ErrInvalidType "the specified command is nil")
  | Some _, _ => Err JPanic
  | None, _ => Err (notRegistered "")
  end.

Definition MarshalCmd (reg : registry) (rpcVersion : string) (id : json) (cmd : command) : result jerr json :=
  r ← MarshalCmd_request reg rpcVersion id cmd; mret (request_json r).

Definition checkNumParams (numParams : nat) (info : methodInfo) : result jerr unit :=
  if (numParams <? numReqParams info)%nat || (maxParams info <? numParams)%nat then
    if (numReqParams info =? maxParams info)%nat then
      Err (makeError ErrNumParams ("wrong number of params (expected " +:+ fmt_d (Z.of_nat (numReqParams info)) +:+
        ", received " +:+ fmt_d (Z.of_nat numParams) +:+ ")"))
    else
      Err (makeError ErrNumParams ("wrong number of params (expected between " +:+ fmt_d (Z.of_nat (numReqParams info)) +:+
        " and " +:+ fmt_d (Z.of_nat (maxParams info)) +:+ ", received " +:+ fmt_d (Z.of_nat numParams) +:+ ")"))
  else Ok tt.

(** populateDefaults on the field values: Set panics out of range. *)
Definition populateDefaults (numParams : nat) (info : methodInfo) (vs : list gval) : list gval :=
  fold_left (fun vs i => match defaults info !! i with Some d => <[i := d]> vs | None => vs end)
    (seq numParams (maxParams info - numParams)) vs.

(** The error for the [i]-th parameter, of the field named [name]. *)
Definition param_error (i : nat) (name : string) (err : uerr) : jerr :=
  match err with
  | UnmarshalTypeError ty val =>
      makeError ErrInvalidType ("parameter #" +:+ fmt_d (Z.of_nat i + 1) +:+ " '" +:+ ToLower name +:+
        "' must be type " +:+ ty +:+ " (got " +:+ val +:+ ")")
  | OtherError msg =>
      makeError ErrInvalidType ("parameter #" +:+ fmt_d (Z.of_nat i + 1) +:+ " '" +:+ ToLower name +:+
        "' failed to unmarshal: " +:+ msg)
  end.

(** The loop that unmarshals the parameters from the [i]-th on; a field index
out of range panics. *)
Fixpoint unmarshal_params (i : nat) (params : list json) (fs : list (finfo * gtype)) (vs : list gval) :
    result jerr (list gval) :=
  match params with
  | [] => Ok vs
  | p :: params' =>
      match fs !! i, vs !! i with
      | Some (fi, t), Some cur =>
          match Unmarshal t cur p with
          | Err e => Err (param_error i (fname fi) e)
          | Ok v => unmarshal_params (S i) params' fs (<[i := v]> vs)
          end
      | _, _ => Err JPanic
      end
  end.

Definition request_params (r : Request) : list json := match Params r with Some ps => ps | None => [] end.

Definition UnmarshalCmd (reg : registry) (r : Request) : result jerr (gtype * gval) :=
  match methodToConcreteType reg !! Method r with
  | None => Err (notRegistered (Method r))
  | Some rtp =>
      let info := match methodToInfo reg !! Method r with Some i => i | None => zeroInfo end in
      match Elem rtp with
      | TStruct name fs =>
          let numParams := length (request_params r) in
          match checkNumParams numParams info with
          | Err e => Err e
          | Ok _ =>
              match unmarshal_params 0 (request_params r) fs (map (fun f => zero f.2) fs) with
              | Err e => Err e
              | Ok vs =>
                  let vs := if (numParams <? maxParams info)%nat then populateDefaults numParams info vs else vs in
                  Ok (rtp, VPtr (Some (VStruct vs)))
              end
          end
      | _ => Err JPanic
      end
  end.
