(* ===== verification/AcbcJsonProps.v ===== *)
(** * acbcjson: the registry invariant, unmarshalling and the round trip *)

From Stdlib Require Import ZArith Lia List.
From Stdlib Require Import Strings.String Strings.Ascii.
From S2P Require Import Prelude WireFormat JsonTypes AcbcJson.

#[local] Open Scope list_scope.
#[local] Set Warnings "-register-all".

(** ** The registry invariant *)

(** Required fields come first, optional (pointer) fields after them. *)
Definition positional (k : nat) (fs : list (finfo * gtype)) : Prop :=
  Forall (fun f => isPtr f.2 = false) (take k fs) /\ Forall (fun f => isPtr f.2 = true) (drop k fs).

Definition default_ok (fs : list (finfo * gtype)) (i : nat) (d : gval) : Prop :=
  exists fi t v, fs !! i = Some (fi, TPtr t) /\ d = VPtr (Some v).

(** A registered command: a pointer to a struct and the counts of its fields. *)
Record entry_ok (rtp : gtype) (info : methodInfo) (name : string) (fs : list (finfo * gtype)) : Prop := {
  ent_type : rtp = TPtr (TStruct name fs);
  ent_max : maxParams info = length fs;
  ent_count : (numReqParams info + numOptParams info = maxParams info)%nat;
  ent_positional : positional (numReqParams info) fs;
  ent_defaults i d : defaults info !! i = Some d -> default_ok fs i d
}.

Record reg_ok (reg : registry) : Prop := {
  reg_entries m rtp : methodToConcreteType reg !! m = Some rtp ->
    exists info name fs, methodToInfo reg !! m = Some info /\ entry_ok rtp info name fs;
  reg_types ts m : concreteTypeToMethod reg !! ts = Some m ->
    exists rtp, methodToConcreteType reg !! m = Some rtp /\ type_string rtp = ts
}.

Lemma empty_reg_ok : reg_ok empty_registry.
Proof. constructor; cbn; intros ? ?; now rewrite lookup_empty. Qed.

Lemma register_fields_ok fs : forall i n d n' d', register_fields i fs n d = Ok (n', d') ->
  exists k, (k <= length fs)%nat /\ n' = (n + (length fs - k))%nat /\ ((0 < n)%nat -> k = O) /\ positional k fs /\
    forall j x, d' !! j = Some x -> d !! j = Some x \/ ((i <= j)%nat /\ default_ok fs (j - i) x).
Proof.
  induction fs as [|[fi t] fs IH]; intros i n d n' d' H; cbn [register_fields] in H.
  { inv H. exists O. split; [done|]. split; [cbn; lia|]. split; [done|]. split; [split; constructor|auto]. }
  destruct (fanonymous fi); [discriminate|]. destruct (funexported fi); [discriminate|].
  destruct (negb (isAcceptableKind _)); [discriminate|].
  destruct (negb (isPtr t) && (0 <? n)%nat) eqn:Eord; [discriminate|].
  set (n1 := if isPtr t then S n else n) in H.
  assert (Hstep : exists d1, register_fields (S i) fs n1 d1 = Ok (n', d') /\
    forall j x, d1 !! j = Some x -> d !! j = Some x \/ (j = i /\ isPtr t = true /\ exists v, x = VPtr (Some v))).
  { destruct (fdefault fi) as [[tag doc]|]; [|exists d; auto].
    destruct (isPtr t) eqn:Ep; [|discriminate H]. cbn [negb] in H.
    destruct (match doc with Some _ => _ | None => _ end) as [v|]; [|discriminate].
    eexists. split; [exact H|]. intros j x [[<- <-]|[_ ?]]%lookup_insert_Some; [right; eauto|auto]. }
  destruct Hstep as (d1 & H1 & Hd1). destruct (IH _ _ _ _ _ H1) as (k & Hk & Hn & H0 & [Hr Ho] & Hd).
  exists (if isPtr t then O else S k). split_and!.
  - cbn. destruct (isPtr t); lia.
  - unfold n1 in Hn, H0. destruct (isPtr t); cbn [length]; [rewrite H0 in Hn by lia|]; lia.
  - destruct (isPtr t); [done|]. cbn in Eord. destruct n; [lia|discriminate].
  - destruct (isPtr t) eqn:Ep.
    + split; cbn; [constructor|]. constructor; [done|]. rewrite H0 in Ho by (unfold n1; lia). exact Ho.
    + split; cbn; [constructor; done|done].
  - intros j x Hx. destruct (Hd j x Hx) as [Hj|(Hj & fi' & t' & v & Hf & ->)].
    + destruct (Hd1 j x Hj) as [?|(-> & Ep & v & ->)]; [auto|]. right. split; [lia|].
      destruct t as [| |t0|]; try discriminate Ep. exists fi, t0, v. now rewrite Nat.sub_diag.
    + right. split; [lia|]. exists fi', t', v. split; [|done].
      replace (j - i)%nat with (S (j - S i)) by lia. exact Hf.
Qed.

(** A field that a command may have. *)
Definition field_ok (f : finfo * gtype) : Prop :=
  let '(fi, t) := f in
  fanonymous fi = false /\ funexported fi = false /\ isAcceptableKind (Kind (if isPtr t then Elem t else t)) = true /\
  match fdefault fi with
  | None => True
  | Some (_, doc) => isPtr t = true /\ exists d v, doc = Some d /\ Unmarshal (Elem t) (zero (Elem t)) d = Ok v
  end.

(** The loop accepts exactly the fields of the rules. *)
Lemma register_fields_complete fs : forall i n d,
  is_ok (register_fields i fs n d) = true <->
  Forall field_ok fs /\ exists k, (k <= length fs)%nat /\ ((0 < n)%nat -> k = O) /\ positional k fs.
Proof.
  induction fs as [|[fi t] fs IH]; intros i n d; cbn [register_fields].
  { split; [|done]. intros _. split; [constructor|]. exists O. now repeat split; [| |constructor..]. }
  rewrite Forall_cons. cbn [field_ok].
  destruct (fanonymous fi); [split; [discriminate|intros [[(? & _) _] _]; discriminate]|].
  destruct (funexported fi); [split; [discriminate|intros [[(_ & ? & _) _] _]; discriminate]|].
  replace (if isPtr t then Kind (Elem t) else Kind t) with (Kind (if isPtr t then Elem t else t)) by now destruct (isPtr t).
  destruct (isAcceptableKind _); cbn [negb]; [|split; [discriminate|intros [[(_ & _ & ? & _) _] _]; discriminate]].
  destruct (negb (isPtr t) && (0 <? n)%nat) eqn:Eord.
  { split; [discriminate|]. apply andb_true_iff in Eord as [E1 E2%Nat.ltb_lt]. intros [_ (k & _ & H0 & [_ Ho])].
    rewrite (H0 E2) in Ho. apply Forall_cons in Ho as [Ho _]. cbn in Ho. now rewrite Ho in E1. }
  assert (HP : (exists k, (k <= length fs)%nat /\ ((0 < (if isPtr t then S n else n))%nat -> k = O) /\ positional k fs) <->
      exists k, (k <= length ((fi, t) :: fs))%nat /\ ((0 < n)%nat -> k = O) /\ positional k ((fi, t) :: fs)).
  { destruct (isPtr t) eqn:Ep; cbn [negb andb] in Eord.
    - split; intros (k & Hk & H0 & [Hr Ho]).
      + rewrite H0 in Ho by lia. exists O. split_and!; [lia|done|]. split; [constructor|]. now constructor.
      + destruct k as [|k]; [|apply Forall_cons in Hr as [Hr _]; cbn in Hr; congruence].
        exists O. split_and!; [lia|done|]. apply Forall_cons in Ho as [_ Ho]. now split; [constructor|].
    - apply Nat.ltb_ge in Eord. split; intros (k & Hk & H0 & [Hr Ho]).
      + exists (S k). split_and!; [cbn; lia|lia|]. split; [now constructor|exact Ho].
      + destruct k as [|k]; [apply Forall_cons in Ho as [Ho _]; cbn in Ho; congruence|].
        exists k. split_and!; [cbn in Hk; lia|lia|]. apply Forall_cons in Hr as [_ Hr]. now split. }
  destruct (fdefault fi) as [[tag doc]|]; [|rewrite IH, HP; tauto].
  destruct (isPtr t) eqn:Ep; cbn [negb]; [|split; [discriminate|intros [[(_ & _ & _ & ? & _) _] _]; discriminate]].
  destruct doc as [doc|]; [|split; [discriminate|intros [[(_ & _ & _ & _ & d' & v & ? & _) _] _]; discriminate]].
  destruct (Unmarshal (Elem t) (zero (Elem t)) doc) as [v|e] eqn:Ev.
  - rewrite IH, HP. split; [|tauto]. intros [H1 H2]. split_and!; try done. now exists doc, v.
  - split; [discriminate|]. intros [[(_ & _ & _ & _ & d' & v & [= <-] & ?) _] _]. congruence.
Qed.

Lemma RegisterCmd_reg_ok method cmd flags reg : reg_ok reg -> reg_ok (RegisterCmd method cmd flags reg).2.
Proof.
  intros Hreg. unfold RegisterCmd. destruct (methodToConcreteType reg !! method) eqn:Em; [done|].
  destruct (negb _); [done|]. destruct cmd as [[k|t|[k|t|t|name fs]|n fs]|]; try done.
  destruct (register_fields 0 fs 0 ∅) as [[opt defs]|e] eqn:Ef; [|done].
  apply register_fields_ok in Ef as (k & Hk & -> & _ & Hpos & Hd).
  constructor; cbn.
  - intros m rtp [[<- <-]|[Hm H]]%lookup_insert_Some.
    + eexists _, name, fs. rewrite lookup_insert_eq. split; [reflexivity|]. constructor; cbn; try done; [lia| |].
      * replace (length fs - (length fs - k))%nat with k by lia. done.
      * intros i d Hi. destruct (Hd i d Hi) as [H0|[_ H0]]; [now rewrite lookup_empty in H0|].
        now rewrite Nat.sub_0_r in H0.
    + destruct (reg_entries _ Hreg m rtp H) as (info & n & f & Hi & He). exists info, n, f.
      now rewrite lookup_insert_ne by congruence.
  - intros ts m [[<- <-]|[Hts H]]%lookup_insert_Some.
    + eexists. rewrite lookup_insert_eq. split; reflexivity.
    + destruct (reg_types _ Hreg ts m H) as (rtp & Hr & Hs). exists rtp.
      rewrite lookup_insert_ne; [done|]. congruence.
Qed.

(** C35: the registry stays sound.  RegisterCmd accepts a command exactly when its method
is new, its flags are known, and its type is a pointer to a struct whose fields follow the
rules: exported, not embedded, of a kind that can be encoded, required before optional
ones, and with a default only where it is optional, which unmarshals into its type.  Any
other call leaves the registry unchanged.  Whatever it is given, the registry it leaves
satisfies the invariant (every method names a pointer to a struct whose required fields
precede its optional ones, with matching counts, and defaults only on optional fields);
success adds the method with its type, its flags and its counts, lets the type marshal
under it, even where it did under another method before, and changes nothing else of the
three maps: no other method and no other type. *)
Theorem RegisterCmd_invariant method cmd flags reg :
  reg_ok reg ->
  let r := RegisterCmd method cmd flags reg in
  reg_ok r.2 /\
  (is_ok r.1 = true <->
     methodToConcreteType reg !! method = None /\ Z.land (Z.lxor (highestUsageFlagBit - 1) 0xffffffff) flags = 0 /\
     exists name fs k, cmd = Some (TPtr (TStruct name fs)) /\ Forall field_ok fs /\ (k <= length fs)%nat /\ positional k fs) /\
  match r.1 with
  | Err _ => r.2 = reg
  | Ok _ => exists rtp info, cmd = Some rtp /\ AcbcJson.flags info = flags /\
      methodToConcreteType r.2 = <[method := rtp]> (methodToConcreteType reg) /\
      methodToInfo r.2 = <[method := info]> (methodToInfo reg) /\
      concreteTypeToMethod r.2 = <[type_string rtp := method]> (concreteTypeToMethod reg) /\
      lookup_method r.2 (Some (rtp, zero rtp)) = Some method
  end.
Proof.
  intros Hreg. split; [now apply RegisterCmd_reg_ok|].
  unfold RegisterCmd. destruct (methodToConcreteType reg !! method) eqn:Em; [split; [split; [discriminate|intros [? _]; discriminate]|done]|].
  destruct (Z.eqb_spec (Z.land (Z.lxor (highestUsageFlagBit - 1) 0xffffffff) flags) 0) as [Hf|Hf]; cbn [negb];
    [|split; [split; [discriminate|intros (_ & ? & _); done]|done]].
  destruct cmd as [[k|t|[k|t|t|name fs]|n fs]|];
    try (split; [split; [discriminate|intros (_ & _ & ? & ? & ? & ? & _); discriminate]|done]).
  pose proof (register_fields_complete fs 0 0 ∅) as HC.
  destruct (register_fields 0 fs 0 ∅) as [[opt defs]|e] eqn:Ef; cbn [fst snd is_ok] in *.
  - split.
    + split; [|done]. intros _. destruct (proj1 HC eq_refl) as (HF & k & Hk & _ & Hp). split_and!; [done..|]. now exists name, fs, k.
    + eexists _, _. split_and!; try done; [reflexivity|]. cbn. by rewrite lookup_insert_eq.
  - split; [|done]. split; [discriminate|]. intros (_ & _ & name' & fs' & k & [= <- <-] & HF & Hk & Hp).
    apply HC. split; [done|]. exists k. split_and!; [done|lia|done].
Qed.

(** A command with a required, an optional and a defaulted field. *)
Definition sample_fields : list (finfo * gtype) :=
  [(Field "Index" false false "Index" false None, TBase KindInt64);
   (Field "Name" false false "Name" false None, TPtr (TBase KindString));
   (Field "Verbose" false false "Verbose" false (Some ("true"%string, Some (JBool true))), TPtr (TBase KindBool))].
Definition sample_registry : registry :=
  (RegisterCmd "sample" (Some (TPtr (TStruct "Sample" sample_fields))) 0 empty_registry).2.

Example RegisterCmd_invariant_witness :
  reg_ok (RegisterCmd "sample" (Some (TPtr (TStruct "Sample" sample_fields))) 0 empty_registry).2 /\
  (RegisterCmd "sample" (Some (TPtr (TStruct "Sample" sample_fields))) 0 empty_registry).1 = Ok tt.
Proof.
  split; [|vm_compute; reflexivity].
  exact (proj1 (RegisterCmd_invariant "sample" (Some (TPtr (TStruct "Sample" sample_fields))) 0 empty_registry empty_reg_ok)).
Defined.

Lemma sample_reg_ok : reg_ok sample_registry.
Proof. apply RegisterCmd_reg_ok, empty_reg_ok. Qed.

(** ** Unmarshalling *)

Lemma unmarshal_params_spec params : forall i fs vs, (i + length params <= length fs)%nat -> length vs = length fs ->
  match unmarshal_params i params fs vs with
  | Ok vs' => length vs' = length vs /\
      (forall j, (j < i \/ i + length params <= j)%nat -> vs' !! j = vs !! j) /\
      (forall j p fi t cur, params !! j = Some p -> fs !! (i + j)%nat = Some (fi, t) -> vs !! (i + j)%nat = Some cur ->
         exists v, Unmarshal t cur p = Ok v /\ vs' !! (i + j)%nat = Some v)
  | Err e => exists j p fi t cur err, params !! j = Some p /\
      fs !! (i + j)%nat = Some (fi, t) /\ vs !! (i + j)%nat = Some cur /\ Unmarshal t cur p = Err err /\
      e = param_error (i + j) (fname fi) err /\
      forall j' p' fi' t' cur', (j' < j)%nat -> params !! j' = Some p' -> fs !! (i + j')%nat = Some (fi', t') ->
        vs !! (i + j')%nat = Some cur' -> exists v, Unmarshal t' cur' p' = Ok v
  end.
Proof.
  induction params as [|p params IH]; intros i fs vs Hlen Hvs; cbn [unmarshal_params].
  { split_and!; [done|done|]. intros j q fi t cur Hq. now rewrite lookup_nil in Hq. }
  cbn [length] in Hlen.
  destruct (lookup_lt_is_Some_2 fs i ltac:(lia)) as [[fi t] Hf].
  destruct (lookup_lt_is_Some_2 vs i ltac:(lia)) as [cur Hc]. rewrite Hf, Hc.
  destruct (Unmarshal t cur p) as [v|e] eqn:Ev.
  - specialize (IH (S i) fs (<[i := v]> vs) ltac:(lia) ltac:(by rewrite length_insert)).
    destruct (unmarshal_params (S i) params fs _) as [vs'|e].
    + destruct IH as (Hl & Hout & Hin). rewrite length_insert in Hl. split_and!; [done| |].
      * intros j Hj. rewrite Hout by (cbn [length] in Hj; lia). apply list_lookup_insert_ne. cbn [length] in Hj. lia.
      * intros [|j] q fi' t' cur' Hq Hf' Hc'; cbn in Hq.
        -- rewrite Nat.add_0_r in *. simplify_eq.
           exists v. split; [done|]. rewrite Hout by lia. apply list_lookup_insert_eq. apply lookup_lt_Some in Hc. done.
        -- rewrite Nat.add_succ_r in *. apply (Hin j q fi' t' cur' Hq Hf').
           rewrite list_lookup_insert_ne by lia. done.
    + destruct IH as (j & q & fi' & t' & cur' & err & Hq & Hf' & Hc' & He & -> & Hbefore).
      exists (S j), q, fi', t', cur', err. rewrite Nat.add_succ_r. split_and!; try done.
      * rewrite list_lookup_insert_ne in Hc' by lia. done.
      * intros [|j'] p' f'' t'' cur'' Hj Hq' Hf'' Hc''; cbn in Hq'; rewrite ?Nat.add_0_r, ?Nat.add_succ_r in *; [simplify_eq; eauto|].
        apply (Hbefore j' p' f'' t'' cur''); [lia|done|done|]. rewrite list_lookup_insert_ne by lia. done.
  - exists O, p, fi, t, cur, e. rewrite Nat.add_0_r. split_and!; try done. intros. lia.
Qed.

Lemma populateDefaults_lookup n info vs i : (maxParams info <= length vs)%nat ->
  populateDefaults n info vs !! i =
    match defaults info !! i with
    | Some d => if decide (n <= i < maxParams info)%nat then Some d else vs !! i
    | None => vs !! i
    end /\ length (populateDefaults n info vs) = length vs.
Proof.
  intros Hmax. unfold populateDefaults.
  assert (H : forall k m vs, (m + k <= length vs)%nat ->
    let r := fold_left (fun vs i => match defaults info !! i with Some d => <[i := d]> vs | None => vs end) (seq m k) vs in
    r !! i = match defaults info !! i with
             | Some d => if decide (m <= i < m + k)%nat then Some d else vs !! i | None => vs !! i end /\
    length r = length vs).
  { induction k as [|k IH]; intros m vs0 Hm; cbn.
    - split; [|done]. destruct (defaults info !! i); [|done]. rewrite decide_False by lia. done.
    - set (vs1 := match defaults info !! m with Some d => <[m := d]> vs0 | None => vs0 end).
      assert (Hl : length vs1 = length vs0) by (unfold vs1; destruct (_ !! m); [apply length_insert|done]).
      destruct (IH (S m) vs1 ltac:(lia)) as [-> ->]. split; [|done].
      destruct (defaults info !! i) as [d|] eqn:Ed.
      + destruct (decide (i = m)) as [->|Hne].
        * rewrite decide_False by lia. rewrite decide_True by lia. unfold vs1. rewrite Ed.
          apply list_lookup_insert_eq. lia.
        * unfold vs1. repeat case_decide; try lia; try done.
          destruct (_ !! m); [apply list_lookup_insert_ne; lia|done].
      + unfold vs1. destruct (defaults info !! m) as [d|] eqn:Em; [|done].
        apply list_lookup_insert_ne. intros ->. congruence. }
  destruct (decide (n <= maxParams info)%nat).
  - destruct (H (maxParams info - n)%nat n vs ltac:(lia)) as [-> ->].
    split; [|done]. replace (n + (maxParams info - n))%nat with (maxParams info) by lia. done.
  - replace (maxParams info - n)%nat with O by lia. cbn. split; [|done].
    destruct (_ !! i); [|done]. rewrite decide_False by lia. done.
Qed.

Lemma checkNumParams_ok n info : checkNumParams n info = Ok tt <-> (numReqParams info <= n <= maxParams info)%nat.
Proof.
  unfold checkNumParams. destruct (n <? numReqParams info)%nat eqn:E1, (maxParams info <? n)%nat eqn:E2;
    rewrite ?Nat.ltb_lt, ?Nat.ltb_ge in *; cbn; repeat case_match; split; intros; try done; lia.
Qed.

Lemma zeros_lookup (fs : list (finfo * gtype)) i fi t : fs !! i = Some (fi, t) ->
  map (fun f => zero f.2) fs !! i = Some (zero t).
Proof. intros H. change (map ?f fs) with (f <$> fs). now rewrite list_lookup_fmap, H. Qed.

(** On a sound registry UnmarshalCmd does not panic. *)
Lemma UnmarshalCmd_no_panic reg r : reg_ok reg -> UnmarshalCmd reg r <> Err JPanic.
Proof.
  intros Hreg. unfold UnmarshalCmd. destruct (methodToConcreteType reg !! Method r) as [rtp|] eqn:Em; [|done].
  destruct (reg_entries _ Hreg _ _ Em) as (info & name & fs & -> & [-> Hmax Hcnt Hpos Hdef]). cbn [Elem].
  destruct (checkNumParams _ info) as [[]|e] eqn:Ec.
  - apply checkNumParams_ok in Ec.
    pose proof (unmarshal_params_spec (request_params r) 0 fs (map (fun f => zero f.2) fs) ltac:(lia)
      ltac:(apply List.length_map)) as H.
    destruct (unmarshal_params _ _ _ _) as [|e]; [done|]. destruct H as (j & p & fi & t & cur & [] & _ & _ & _ & _ & -> & _); done.
  - unfold checkNumParams in Ec. repeat case_match; by simplify_eq.
Qed.

(** C36: UnmarshalCmd is total and positional.  On a sound registry it never panics, and
which result there is depends on the request alone: a method that is not registered is
ErrUnregisteredMethod; a number of parameters that the type does not allow is
ErrNumParams; a parameter that json.Unmarshal refuses for the type of its own field is
ErrInvalidType, with the text of the first such parameter, its number and the name of its
field; and otherwise the result is the registered type with parameter [i] unmarshalled
into field [i] and every field beyond the parameters holding its default, or nil without
one. *)
Theorem UnmarshalCmd_spec reg r :
  reg_ok reg ->
  match methodToConcreteType reg !! Method r with
  | None => UnmarshalCmd reg r = Err (notRegistered (Method r))
  | Some rtp => exists info name fs,
      methodToInfo reg !! Method r = Some info /\ rtp = TPtr (TStruct name fs) /\ maxParams info = length fs /\
      match UnmarshalCmd reg r with
      | Err e =>
          (exists d, e = Error ErrNumParams d) /\ ~ (numReqParams info <= length (request_params r) <= maxParams info)%nat \/
          (numReqParams info <= length (request_params r) <= maxParams info)%nat /\
          exists i p fi t err, request_params r !! i = Some p /\ fs !! i = Some (fi, t) /\ Unmarshal t (zero t) p = Err err /\
            e = param_error i (fname fi) err /\
            forall j p' fi' t', (j < i)%nat -> request_params r !! j = Some p' -> fs !! j = Some (fi', t') ->
              exists x, Unmarshal t' (zero t') p' = Ok x
      | Ok (ty, v) => exists vs,
          (numReqParams info <= length (request_params r) <= maxParams info)%nat /\
          ty = rtp /\ v = VPtr (Some (VStruct vs)) /\ length vs = length fs /\
          (forall i fi t p, fs !! i = Some (fi, t) -> request_params r !! i = Some p ->
             exists x, Unmarshal t (zero t) p = Ok x /\ vs !! i = Some x) /\
          (forall i fi t, fs !! i = Some (fi, t) -> (length (request_params r) <= i)%nat ->
             isPtr t = true /\ vs !! i = Some (default (VPtr None) (defaults info !! i)))
      end
  end.
Proof.
  intros Hreg. unfold UnmarshalCmd. destruct (methodToConcreteType reg !! Method r) as [rtp|] eqn:Em; [|done].
  destruct (reg_entries _ Hreg _ _ Em) as (info & name & fs & Hinfo & [Ht Hmax Hcnt [Hreq Hopt] Hdef]).
  exists info, name, fs. rewrite Hinfo, Ht. split_and!; [done..|]. cbn [Elem]. set (ps := request_params r).
  destruct (checkNumParams (length ps) info) as [[]|e] eqn:Ec.
  2: { left. split.
       - unfold checkNumParams in Ec. repeat case_match; simplify_eq; eexists; reflexivity.
       - intros H. apply checkNumParams_ok in H. congruence. }
  apply checkNumParams_ok in Ec.
  set (zs := map (fun f => zero f.2) fs).
  assert (Hzl : length zs = length fs) by apply List.length_map.
  pose proof (unmarshal_params_spec ps 0 fs zs ltac:(lia) Hzl) as H.
  destruct (unmarshal_params 0 ps fs zs) as [vs|e].
  2: { destruct H as (j & p & fi & t & cur & err & Hp & Hf & Hcur & He & -> & Hb). right. split; [done|].
       pose proof (zeros_lookup fs _ _ _ Hf) as Hz. fold zs in Hz. assert (cur = zero t) as -> by congruence.
       exists j, p, fi, t, err. split_and!; try done. intros j' p' fi' t' Hj Hp' Hf'.
       exact (Hb j' p' fi' t' (zero t') Hj Hp' Hf' (zeros_lookup fs _ _ _ Hf')). }
  destruct H as (Hl & Hout & Hin).
  exists (if (length ps <? maxParams info)%nat then populateDefaults (length ps) info vs else vs).
  assert (Hlook : forall i, (if (length ps <? maxParams info)%nat then populateDefaults (length ps) info vs else vs) !! i =
    match defaults info !! i with
    | Some d => if decide (length ps <= i < maxParams info)%nat then Some d else vs !! i
    | None => vs !! i end).
  { intros i. destruct (length ps <? maxParams info)%nat eqn:E.
    - apply populateDefaults_lookup. lia.
    - apply Nat.ltb_ge in E. destruct (defaults info !! i); [|done]. rewrite decide_False by lia. done. }
  split_and!; try done; try (apply Ec).
  - destruct (_ <? _)%nat; [|lia]. destruct (populateDefaults_lookup (length ps) info vs 0 ltac:(lia)) as [_ ->]. lia.
  - intros i fi t p Hf Hp. destruct (Hin i p fi t (zero t) Hp Hf (zeros_lookup fs i fi t Hf)) as (x & Hx & Hv).
    exists x. split; [done|]. rewrite Hlook. apply lookup_lt_Some in Hp.
    destruct (defaults info !! i); [|done]. rewrite decide_False by lia. done.
  - intros i fi t Hf Hi.
    assert (Hptr : isPtr t = true).
    { rewrite Forall_forall in Hopt. apply (Hopt (fi, t)).
      apply list_elem_of_lookup. exists (i - numReqParams info)%nat. rewrite lookup_drop.
      replace (numReqParams info + (i - numReqParams info))%nat with i by lia. done. }
    split; [done|]. rewrite Hlook, Hout by lia. unfold zs. rewrite (zeros_lookup fs i fi t Hf).
    pose proof (lookup_lt_Some _ _ _ Hf). destruct t; try discriminate Hptr.
    destruct (defaults info !! i); [|done]. rewrite decide_True by lia. done.
Qed.

(** ** Commands to requests and back *)

Lemma last_param_spec ps : forall i last, (last <= i)%nat ->
  let n := last_param i ps last in
  (last <= n <= i + length ps)%nat /\
  (forall j p, ps !! j = Some p -> is_nil_ptr p = false -> (i + j < n)%nat) /\
  (forall j p, ps !! j = Some p -> (n <= i + j)%nat -> is_nil_ptr p = true).
Proof.
  induction ps as [|p ps IH]; intros i last Hl; cbn.
  - split_and!; [lia|lia|intros j q Hq; now rewrite lookup_nil in Hq..].
  - destruct (IH (S i) (if is_nil_ptr p then last else S i)) as (Hb & H1 & H2); [destruct (is_nil_ptr p); lia|].
    split_and!; [destruct (is_nil_ptr p); lia|destruct (is_nil_ptr p); lia| |].
    + intros [|j] q Hq Hn; cbn in Hq; [inv Hq; rewrite Hn in *; lia|].
      specialize (H1 j q Hq Hn). lia.
    + intros [|j] q Hq Hn; cbn in Hq; [inv Hq; destruct (is_nil_ptr q); [done|lia]|].
      apply (H2 j q Hq). lia.
Qed.

Lemma unmarshal_marshalled fs vs n : forall i zs,
  length vs = length fs -> length zs = length fs -> (i <= n <= length fs)%nat ->
  (forall j fi t v, fs !! j = Some (fi, t) -> vs !! j = Some v -> typed t v = true) ->
  (forall j fi t, fs !! j = Some (fi, t) -> (i <= j)%nat -> zs !! j = Some (zero t)) ->
  (forall j v, vs !! j = Some v -> (j < i \/ n <= j)%nat -> zs !! j = Some v) ->
  unmarshal_params i (map (fun p => Marshal p.1 p.2) (drop i (take n (combine (map snd fs) vs)))) fs zs = Ok vs.
Proof.
  intros i. remember (n - i)%nat as k eqn:Hk. revert i Hk.
  induction k as [|k IH]; intros i Hk zs Hvs Hzs Hi Hty Hz Hout.
  - rewrite drop_ge; [|rewrite length_take; lia]. cbn. f_equal. apply list_eq_same_length with (length fs); [done|done|].
    intros j x y Hj Hx Hy. rewrite (Hout j y Hy) in Hx by lia. now inv Hx.
  - destruct (lookup_lt_is_Some_2 fs i ltac:(lia)) as [[fi t] Hf].
    destruct (lookup_lt_is_Some_2 vs i ltac:(lia)) as [v Hv].
    assert (Hc : take n (combine (map snd fs) vs) !! i = Some (t, v)).
    { rewrite lookup_take_lt by lia. clear -Hf Hv. revert i vs Hf Hv.
      induction fs as [|[f0 t0] fs IH]; intros [|i] [|v0 vs] Hf Hv; cbn in *; try done; [congruence|now apply IH]. }
    rewrite (drop_S _ _ _ Hc). cbn. rewrite Hf, (Hz i fi t Hf) by lia.
    rewrite Unmarshal_Marshal by (eapply Hty; eauto). apply IH; [lia|done|by rewrite length_insert|lia|done| |].
    + intros j fi' t' Hf' Hj. rewrite list_lookup_insert_ne by lia. apply (Hz j fi'); [done|lia].
    + intros j x Hx Hj. destruct (decide (j = i)) as [->|Hne].
      * rewrite Hv in Hx. inv Hx. apply list_lookup_insert_eq. lia.
      * rewrite list_lookup_insert_ne by lia. apply Hout; [done|lia].
Qed.

(** The fields of a command value, each of its type. *)
Definition fields_typed (fs : list (finfo * gtype)) (vs : list gval) : Prop :=
  length vs = length fs /\
  forall i fi t v, fs !! i = Some (fi, t) -> vs !! i = Some v -> typed t v = true.

Lemma combine_lookup fs : forall vs i (fi : finfo) (t : gtype) (v : gval), fs !! i = Some (fi, t) -> vs !! i = Some v ->
  combine (map snd fs) vs !! i = Some (t, v).
Proof.
  induction fs as [|[f0 t0] fs IH]; intros [|v0 vs] [|i] fi t v Hf Hv; cbn in *; try done; [congruence|eauto].
Qed.

(** What makeParams keeps: all required parameters, and nothing but nils after. *)
Lemma makeParams_spec fs vs k : fields_typed fs vs -> positional k fs -> (k <= length fs)%nat ->
  let n := length (makeParams fs vs) in
  makeParams fs vs = take n (combine (map snd fs) vs) /\ (k <= n <= length fs)%nat /\
  (forall j v, vs !! j = Some v -> (n <= j)%nat -> exists fi t, fs !! j = Some (fi, TPtr t) /\ v = VPtr None).
Proof.
  intros [Hl Hty] [Hreq _] Hk. unfold makeParams. set (ps := combine (map snd fs) vs).
  assert (Hps : length ps = length fs) by (unfold ps; rewrite List.length_combine, List.length_map; lia).
  destruct (last_param_spec ps 0 0 ltac:(lia)) as (Hb & H1 & H2). set (m := last_param 0 ps 0) in *.
  cbn zeta. rewrite length_take. replace (m `min` length ps)%nat with m by lia. split_and!; [done| |lia|].
  - destruct (decide (k <= m)%nat) as [?|Hn]; [done|]. exfalso.
    destruct (lookup_lt_is_Some_2 fs m ltac:(lia)) as [[fi t] Hf].
    destruct (lookup_lt_is_Some_2 vs m ltac:(lia)) as [v Hv].
    assert (Hnp : isPtr t = false).
    { rewrite Forall_forall in Hreq. apply (Hreq (fi, t)). apply list_elem_of_lookup. exists m.
      rewrite lookup_take_lt by lia. done. }
    specialize (H1 m (t, v) (combine_lookup fs vs m fi t v Hf Hv)).
    unfold is_nil_ptr in H1. cbn in H1. rewrite Hnp in H1. specialize (H1 eq_refl). lia.
  - intros j v Hv Hj. pose proof (lookup_lt_Some _ _ _ Hv).
    destruct (lookup_lt_is_Some_2 fs j ltac:(lia)) as [[fi t] Hf].
    specialize (H2 j (t, v) (combine_lookup fs vs j fi t v Hf Hv) ltac:(lia)).
    unfold is_nil_ptr in H2. cbn in H2. apply andb_true_iff in H2 as [Hp Hn].
    destruct t as [| |t|]; try discriminate Hp. exists fi, t. split; [done|].
    destruct v as [| | | | |[]| |]; done.
Qed.

(** C37: commands survive the trip through JSON-RPC.  A registered command whose
fields are well typed marshals to a request of its method, with the version and
id given, carrying every required parameter; unmarshalling that request gives the
same type and the same fields, except that trailing nil optional fields come
back as the registered defaults, so exactly the same value without defaults. *)
Theorem MarshalCmd_roundtrip reg method info name fs vs version id :
  reg_ok reg ->
  methodToConcreteType reg !! method = Some (TPtr (TStruct name fs)) ->
  methodToInfo reg !! method = Some info ->
  concreteTypeToMethod reg !! type_string (TPtr (TStruct name fs)) = Some method ->
  fields_typed fs vs -> IsValid version = true -> IsValidIDType id = true ->
  let cmd := (TPtr (TStruct name fs), VPtr (Some (VStruct vs))) in
  exists r, MarshalCmd_request reg version id (Some cmd) = Ok r /\
    Method r = method /\ Jsonrpc r = version /\ ID r = id /\
    (numReqParams info <= length (request_params r) <= maxParams info)%nat /\
    UnmarshalCmd reg r = Ok (TPtr (TStruct name fs),
      VPtr (Some (VStruct (populateDefaults (length (request_params r)) info vs)))) /\
    (defaults info = ∅ -> UnmarshalCmd reg r = Ok cmd).
Proof.
  intros Hreg Hm Hi Hc Hty Hver Hid cmd.
  destruct (reg_entries _ Hreg _ _ Hm) as (info' & name' & fs' & Hi' & [Ht Hmax Hcnt Hpos Hdef]).
  rewrite Hi in Hi'. injection Hi' as <-. injection Ht as <- <-.
  destruct (makeParams_spec fs vs (numReqParams info) Hty Hpos ltac:(lia)) as (Hmk & Hn & Htail).
  set (n := length (makeParams fs vs)) in *.
  exists (MkRequest version method (Some (map (fun p => Marshal p.1 p.2) (makeParams fs vs))) id).
  assert (Hlen : length (map (fun p => Marshal p.1 p.2) (makeParams fs vs)) = n) by apply List.length_map.
  assert (Hun : unmarshal_params 0 (map (fun p => Marshal p.1 p.2) (makeParams fs vs)) fs
                  (map (fun f => zero f.2) fs) = Ok vs).
  { rewrite Hmk. destruct Hty as [Hl Hty].
    apply (unmarshal_marshalled fs vs n 0); [done|apply List.length_map|lia|done| |].
    - intros j fi t Hf _. now apply (zeros_lookup fs j fi).
    - intros j v Hv [?|Hj]; [lia|]. destruct (Htail j v Hv Hj) as (fi & t & Hf & ->).
      apply (zeros_lookup fs j fi (TPtr t) Hf). }
  assert (Hcmd : UnmarshalCmd reg (MkRequest version method (Some (map (fun p => Marshal p.1 p.2) (makeParams fs vs))) id) =
    Ok (TPtr (TStruct name fs), VPtr (Some (VStruct (populateDefaults n info vs))))).
  { unfold UnmarshalCmd, request_params. cbn [Method Params]. rewrite Hm, Hi. cbn [Elem]. rewrite Hlen.
    rewrite (proj2 (checkNumParams_ok n info)) by lia. rewrite Hun.
    destruct (n <? maxParams info)%nat eqn:E; [done|]. apply Nat.ltb_ge in E.
    unfold populateDefaults. replace (maxParams info - n)%nat with O by lia. done. }
  unfold request_params. cbn [Params]. rewrite Hlen. split_and!; try done; try lia.
  - unfold MarshalCmd_request, lookup_method, cmd. cbn [type_string] in *. rewrite Hc.
    unfold NewRequest. now rewrite Hver, Hid.
  - intros Hd. rewrite Hcmd. unfold cmd. do 4 f_equal. unfold populateDefaults. rewrite Hd.
    clear. generalize (seq n (maxParams info - n)). intros l. induction l as [|i l IH]; [done|].
    cbn. now rewrite lookup_empty.
Qed.

Example UnmarshalCmd_spec_witness :
  UnmarshalCmd sample_registry (MkRequest "1.0" "sample" (Some [JInt 7]) JNull) =
    Ok (TPtr (TStruct "Sample" sample_fields),
        VPtr (Some (VStruct [VInt 7; VPtr None; VPtr (Some (VBool true))]))) /\
  exists info, methodToInfo sample_registry !! "sample"%string = Some info /\
    (numReqParams info <= 1 <= maxParams info)%nat /\ maxParams info = 3%nat.
Proof.
  assert (E : UnmarshalCmd sample_registry (MkRequest "1.0" "sample" (Some [JInt 7]) JNull) =
    Ok (TPtr (TStruct "Sample" sample_fields), VPtr (Some (VStruct [VInt 7; VPtr None; VPtr (Some (VBool true))])))) by (vm_compute; reflexivity).
  split; [exact E|].
  pose proof (UnmarshalCmd_spec sample_registry (MkRequest "1.0" "sample" (Some [JInt 7]) JNull) sample_reg_ok) as H.
  rewrite E in H. destruct (methodToConcreteType sample_registry !! _) as [rtp|]; [|discriminate H].
  destruct H as (info & name & fs & HI & HT & HM & vs & HN & HY & _). exists info. split; [exact HI|]. split; [exact HN|].
  rewrite HT in HY. injection HY as _ HY. now rewrite HM, <- HY.
Defined.

Definition sample_values : list gval := [VInt 7; VPtr None; VPtr (Some (VBool false))].

Lemma fields_typed_dec fs vs : (length vs =? length fs)%nat &&
  forallb (fun p => typed p.1 p.2) (combine (map snd fs) vs) = true -> fields_typed fs vs.
Proof.
  rewrite andb_true_iff, Nat.eqb_eq, forallb_forall. intros [Hl H]. split; [done|].
  intros i fi t v Hf Hv. apply (H (t, v)), list_elem_of_In, list_elem_of_lookup. exists i.
  now apply (combine_lookup fs vs i fi).
Qed.

Example MarshalCmd_roundtrip_witness :
  exists r, MarshalCmd_request sample_registry "2.0" (JInt 1)
      (Some (TPtr (TStruct "Sample" sample_fields), VPtr (Some (VStruct sample_values)))) = Ok r /\
    Method r = "sample"%string /\ request_params r = [JInt 7; JNull; JBool false].
Proof.
  destruct (methodToInfo sample_registry !! "sample"%string) as [info|] eqn:Ei; [|discriminate Ei].
  destruct (MarshalCmd_roundtrip sample_registry "sample" info "Sample" sample_fields sample_values "2.0" (JInt 1)
    sample_reg_ok eq_refl Ei eq_refl (fields_typed_dec sample_fields sample_values eq_refl) eq_refl eq_refl) as (r & Hr & Hm & _).
  exists r. split; [exact Hr|]. split; [exact Hm|].
  vm_compute in Hr. injection Hr as <-. reflexivity.
Defined.

(** ** Responses *)

(** A marshalled response is well formed JSON-RPC.  MarshalResponse fails
exactly when the version is not 1.0 or 2.0 or the id is a boolean, an array or
an object; otherwise the document has exactly the members jsonrpc, result, error
and id, with the version and id given and a null error on success. *)
Theorem MarshalResponse_spec version id res err :
  match MarshalResponse version id res err with
  | Ok (JObj ms) =>
      (version = RpcVersion1 \/ version = RpcVersion2) /\ IsValidIDType id = true /\
      ms = [("jsonrpc"%string, JStr version); ("result"%string, res);
            ("error"%string, match err with Some e => error_json e | None => JNull end); ("id"%string, id)]
  | Ok _ => False
  | Err e => e = (if IsValid version then badID id else badVersion version) /\
      (~ (version = RpcVersion1 \/ version = RpcVersion2) \/
       match id with JBool _ | JArr _ | JObj _ => True | _ => False end)
  end.
Proof.
  assert (Hv : IsValid version = true <-> (version = RpcVersion1 \/ version = RpcVersion2)).
  { unfold IsValid. cbn. rewrite !orb_true_iff, !bool_decide_eq_true. intuition congruence. }
  unfold MarshalResponse, NewResponse. destruct (IsValid version) eqn:E; cbn.
  - destruct (IsValidIDType id) eqn:Ei; cbn; [split; [now apply Hv|done]|]. split; [done|]. right. now destruct id.
  - split; [done|]. left. intros H%Hv. discriminate.
Qed.
