(* ===== verification/AcbcJsonCmds.v ===== *)
(** * The commands of acbcjson

The command, notification and result types as data (reflect's view of the
structs), and the init functions that register them. *)

From Stdlib Require Import ZArith Lia List.
From Stdlib Require Import Strings.String Strings.Ascii.
From S2P Require Import Prelude WireFormat JsonTypes AcbcJson AcbcJsonProps.

#[local] Open Scope list_scope.
#[local] Open Scope string_scope.
#[local] Set Warnings "-register-all".

(** ** Types *)

(** *** chainsvrresults.go *)

Definition ScriptSig : gtype := TStruct "acbcjson.ScriptSig"
  [(Field "Asm" false false "asm" false None, (TBase KindString));
   (Field "Hex" false false "hex" false None, (TBase KindString))].

Definition Vin : gtype := TStruct "acbcjson.Vin"
  [(Field "Coinbase" false false "coinbase" false None, (TBase KindString));
   (Field "Txid" false false "txid" false None, (TBase KindString));
   (Field "Vout" false false "vout" false None, (TBase KindUint32));
   (Field "ScriptSig" false false "scriptSig" false None, (TPtr ScriptSig));
   (Field "Sequence" false false "sequence" false None, (TBase KindUint32));
   (Field "Witness" false false "txinwitness" false None, (TSlice (TBase KindString)))].

Definition ScriptPubKeyResult : gtype := TStruct "acbcjson.ScriptPubKeyResult"
  [(Field "Asm" false false "asm" false None, (TBase KindString));
   (Field "Hex" false false "hex" true None, (TBase KindString));
   (Field "ReqSigs" false false "reqSigs" true None, (TBase KindInt32));
   (Field "Type" false false "type" false None, (TBase KindString));
   (Field "Addresses" false false "addresses" true None, (TSlice (TBase KindString)))].

Definition Vout : gtype := TStruct "acbcjson.Vout"
  [(Field "Value" false false "value" false None, (TBase KindFloat64));
   (Field "N" false false "n" false None, (TBase KindUint32));
   (Field "ScriptPubKey" false false "scriptPubKey" false None, ScriptPubKeyResult)].

Definition TxRawResult : gtype := TStruct "acbcjson.TxRawResult"
  [(Field "Hex" false false "hex" false None, (TBase KindString));
   (Field "Txid" false false "txid" false None, (TBase KindString));
   (Field "Hash" false false "hash" true None, (TBase KindString));
   (Field "Size" false false "size" true None, (TBase KindInt32));
   (Field "Vsize" false false "vsize" true None, (TBase KindInt32));
   (Field "Weight" false false "weight" true None, (TBase KindInt32));
   (Field "Version" false false "version" false None, (TBase KindUint32));
   (Field "LockTime" false false "locktime" false None, (TBase KindUint32));
   (Field "Vin" false false "vin" false None, (TSlice Vin));
   (Field "Vout" false false "vout" false None, (TSlice Vout));
   (Field "BlockHash" false false "blockhash" true None, (TBase KindString));
   (Field "Confirmations" false false "confirmations" true None, (TBase KindUint64));
   (Field "Time" false false "time" true None, (TBase KindInt64));
   (Field "Blocktime" false false "blocktime" true None, (TBase KindInt64))].

(** *** walletsvrresults.go *)

Definition ListTransactionsResult : gtype := TStruct "acbcjson.ListTransactionsResult"
  [(Field "Abandoned" false false "abandoned" false None, (TBase KindBool));
   (Field "Account" false false "account" false None, (TBase KindString));
   (Field "Address" false false "address" true None, (TBase KindString));
   (Field "Amount" false false "amount" false None, (TBase KindFloat64));
   (Field "BIP125Replaceable" false false "bip125-replaceable" true None, (TBase KindString));
   (Field "BlockHash" false false "blockhash" true None, (TBase KindString));
   (Field "BlockHeight" false false "blockheight" true None, (TPtr (TBase KindInt32)));
   (Field "BlockIndex" false false "blockindex" true None, (TPtr (TBase KindInt64)));
   (Field "BlockTime" false false "blocktime" true None, (TBase KindInt64));
   (Field "Category" false false "category" false None, (TBase KindString));
   (Field "Confirmations" false false "confirmations" false None, (TBase KindInt64));
   (Field "Fee" false false "fee" true None, (TPtr (TBase KindFloat64)));
   (Field "Generated" false false "generated" true None, (TBase KindBool));
   (Field "InvolvesWatchOnly" false false "involveswatchonly" true None, (TBase KindBool));
   (Field "Label" false false "label" true None, (TPtr (TBase KindString)));
   (Field "Time" false false "time" false None, (TBase KindInt64));
   (Field "TimeReceived" false false "timereceived" false None, (TBase KindInt64));
   (Field "Trusted" false false "trusted" false None, (TBase KindBool));
   (Field "TxID" false false "txid" false None, (TBase KindString));
   (Field "Vout" false false "vout" false None, (TBase KindUint32));
   (Field "WalletConflicts" false false "walletconflicts" false None, (TSlice (TBase KindString)));
   (Field "Comment" false false "comment" true None, (TBase KindString));
   (Field "OtherAccount" false false "otheraccount" true None, (TBase KindString))].

(** *** chainsvrcmd.go *)

Definition GetBlockHashCmd : gtype := TStruct "acbcjson.GetBlockHashCmd"
  [(Field "Index" false false "Index" false None, (TBase KindInt64))].

Definition NewGetBlockHashCmd (index : Z) : gval := VPtr (Some (VStruct [VInt index])).

(** *** chainsvrwscmds.go *)

Definition OutPoint : gtype := TStruct "acbcjson.OutPoint"
  [(Field "Hash" false false "hash" false None, (TBase KindString));
   (Field "Index" false false "index" false None, (TBase KindUint32))].

Definition LoadTxFilterCmd : gtype := TStruct "acbcjson.LoadTxFilterCmd"
  [(Field "Reload" false false "Reload" false None, (TBase KindBool));
   (Field "Addresses" false false "Addresses" false None, (TSlice (TBase KindString)));
   (Field "OutPoints" false false "OutPoints" false None, (TSlice OutPoint))].

Definition AuthenticateCmd : gtype := TStruct "acbcjson.AuthenticateCmd"
  [(Field "Username" false false "Username" false None, (TBase KindString));
   (Field "Passphrase" false false "Passphrase" false None, (TBase KindString))].

Definition RescanCmd : gtype := TStruct "acbcjson.RescanCmd"
  [(Field "BeginBlock" false false "BeginBlock" false None, (TBase KindString));
   (Field "Addresses" false false "Addresses" false None, (TSlice (TBase KindString)));
   (Field "OutPoints" false false "OutPoints" false None, (TSlice OutPoint));
   (Field "EndBlock" false false "EndBlock" false None, (TPtr (TBase KindString)))].

Definition NotifyReceivedCmd : gtype := TStruct "acbcjson.NotifyReceivedCmd"
  [(Field "Addresses" false false "Addresses" false None, (TSlice (TBase KindString)))].

Definition NotifyNewTransactionsCmd : gtype := TStruct "acbcjson.NotifyNewTransactionsCmd"
  [(Field "Verbose" false false "Verbose" false (Some ("false", Some (JBool false))), (TPtr (TBase KindBool)))].

Definition NotifySpentCmd : gtype := TStruct "acbcjson.NotifySpentCmd"
  [(Field "OutPoints" false false "OutPoints" false None, (TSlice OutPoint))].

Definition NotifyBlocksCmd : gtype := TStruct "acbcjson.NotifyBlocksCmd"
  [].

Definition NewLoadTxFilterCmd (reload : bool) (addresses : option (list string)) (outPoints : option (list gval)) : gval := VPtr (Some (VStruct [VBool reload; VSlice (map VStr <$> addresses); VSlice outPoints])).

Definition NewRescanCmd (beginBlock : string) (addresses : option (list string)) (outPoints : option (list gval)) (endBlock : option string) : gval := VPtr (Some (VStruct [VStr beginBlock; VSlice (map VStr <$> addresses); VSlice outPoints; VPtr (VStr <$> endBlock)])).

Definition NewNotifyReceivedCmd (addresses : option (list string)) : gval := VPtr (Some (VStruct [VSlice (map VStr <$> addresses)])).

Definition NewNotifyNewTransactionsCmd (verbose : option bool) : gval := VPtr (Some (VStruct [VPtr (VBool <$> verbose)])).

Definition NewNotifySpentCmd (outPoints : option (list gval)) : gval := VPtr (Some (VStruct [VSlice outPoints])).

Definition NewNotifyBlocksCmd  : gval := VPtr (Some (VStruct [])).

(** *** chainsvrwsntfns.go *)

Definition BlockConnectedNtfn : gtype := TStruct "acbcjson.BlockConnectedNtfn"
  [(Field "Hash" false false "Hash" false None, (TBase KindString));
   (Field "Height" false false "Height" false None, (TBase KindInt32));
   (Field "Time" false false "Time" false None, (TBase KindInt64))].

Definition BlockDisconnectedNtfn : gtype := TStruct "acbcjson.BlockDisconnectedNtfn"
  [(Field "Hash" false false "Hash" false None, (TBase KindString));
   (Field "Height" false false "Height" false None, (TBase KindInt32));
   (Field "Time" false false "Time" false None, (TBase KindInt64))].

Definition FilteredBlockConnectedNtfn : gtype := TStruct "acbcjson.FilteredBlockConnectedNtfn"
  [(Field "Height" false false "Height" false None, (TBase KindInt32));
   (Field "Header" false false "Header" false None, (TBase KindString));
   (Field "SubscribedTxs" false false "SubscribedTxs" false None, (TSlice (TBase KindString)))].

Definition FilteredBlockDisconnectedNtfn : gtype := TStruct "acbcjson.FilteredBlockDisconnectedNtfn"
  [(Field "Height" false false "Height" false None, (TBase KindInt32));
   (Field "Header" false false "Header" false None, (TBase KindString))].

Definition BlockDetails : gtype := TStruct "acbcjson.BlockDetails"
  [(Field "Height" false false "height" false None, (TBase KindInt32));
   (Field "Hash" false false "hash" false None, (TBase KindString));
   (Field "Index" false false "index" false None, (TBase KindInt));
   (Field "Time" false false "time" false None, (TBase KindInt64))].

Definition RecvTxNtfn : gtype := TStruct "acbcjson.RecvTxNtfn"
  [(Field "HexTx" false false "HexTx" false None, (TBase KindString));
   (Field "Block" false false "Block" false None, (TPtr BlockDetails))].

Definition RedeemingTxNtfn : gtype := TStruct "acbcjson.RedeemingTxNtfn"
  [(Field "HexTx" false false "HexTx" false None, (TBase KindString));
   (Field "Block" false false "Block" false None, (TPtr BlockDetails))].

Definition RescanFinishedNtfn : gtype := TStruct "acbcjson.RescanFinishedNtfn"
  [(Field "Hash" false false "Hash" false None, (TBase KindString));
   (Field "Height" false false "Height" false None, (TBase KindInt32));
   (Field "Time" false false "Time" false None, (TBase KindInt64))].

Definition RescanProgressNtfn : gtype := TStruct "acbcjson.RescanProgressNtfn"
  [(Field "Hash" false false "Hash" false None, (TBase KindString));
   (Field "Height" false false "Height" false None, (TBase KindInt32));
   (Field "Time" false false "Time" false None, (TBase KindInt64))].

Definition TxAcceptedNtfn : gtype := TStruct "acbcjson.TxAcceptedNtfn"
  [(Field "TxID" false false "TxID" false None, (TBase KindString));
   (Field "Amount" false false "Amount" false None, (TBase KindFloat64))].

Definition TxAcceptedVerboseNtfn : gtype := TStruct "acbcjson.TxAcceptedVerboseNtfn"
  [(Field "RawTx" false false "RawTx" false None, TxRawResult)].

Definition RelevantTxAcceptedNtfn : gtype := TStruct "acbcjson.RelevantTxAcceptedNtfn"
  [(Field "Transaction" false false "transaction" false None, (TBase KindString))].

Definition NewBlockConnectedNtfn (hash : string) (height : Z) (time : Z) : gval := VPtr (Some (VStruct [VStr hash; VInt height; VInt time])).

Definition NewBlockDisconnectedNtfn (hash : string) (height : Z) (time : Z) : gval := VPtr (Some (VStruct [VStr hash; VInt height; VInt time])).

Definition NewFilteredBlockConnectedNtfn (height : Z) (header : string) (subscribedTxs : option (list string)) : gval := VPtr (Some (VStruct [VInt height; VStr header; VSlice (map VStr <$> subscribedTxs)])).

Definition NewFilteredBlockDisconnectedNtfn (height : Z) (header : string) : gval := VPtr (Some (VStruct [VInt height; VStr header])).

Definition NewRecvTxNtfn (hexTx : string) (block : option gval) : gval := VPtr (Some (VStruct [VStr hexTx; VPtr block])).

Definition NewRedeemingTxNtfn (hexTx : string) (block : option gval) : gval := VPtr (Some (VStruct [VStr hexTx; VPtr block])).

Definition NewRescanFinishedNtfn (hash : string) (height : Z) (time : Z) : gval := VPtr (Some (VStruct [VStr hash; VInt height; VInt time])).

Definition NewRescanProgressNtfn (hash : string) (height : Z) (time : Z) : gval := VPtr (Some (VStruct [VStr hash; VInt height; VInt time])).

Definition NewTxAcceptedNtfn (txHash : string) (amount : json) : gval := VPtr (Some (VStruct [VStr txHash; VFloat amount])).

Definition NewTxAcceptedVerboseNtfn (rawTx : gval) : gval := VPtr (Some (VStruct [rawTx])).

Definition NewRelevantTxAcceptedNtfn (txHex : string) : gval := VPtr (Some (VStruct [VStr txHex])).

(** *** walletsvrwsntfns.go *)

Definition AccountBalanceNtfn : gtype := TStruct "acbcjson.AccountBalanceNtfn"
  [(Field "Account" false false "Account" false None, (TBase KindString));
   (Field "Balance" false false "Balance" false None, (TBase KindFloat64));
   (Field "Confirmed" false false "Confirmed" false None, (TBase KindBool))].

Definition BtcdConnectedNtfn : gtype := TStruct "acbcjson.BtcdConnectedNtfn"
  [(Field "Connected" false false "Connected" false None, (TBase KindBool))].

Definition WalletLockStateNtfn : gtype := TStruct "acbcjson.WalletLockStateNtfn"
  [(Field "Locked" false false "Locked" false None, (TBase KindBool))].

Definition NewTxNtfn : gtype := TStruct "acbcjson.NewTxNtfn"
  [(Field "Account" false false "Account" false None, (TBase KindString));
   (Field "Details" false false "Details" false None, ListTransactionsResult)].

Definition NewAccountBalanceNtfn (account : string) (balance : json) (confirmed : bool) : gval := VPtr (Some (VStruct [VStr account; VFloat balance; VBool confirmed])).

Definition NewBtcdConnectedNtfn (connected : bool) : gval := VPtr (Some (VStruct [VBool connected])).

Definition NewWalletLockStateNtfn (locked : bool) : gval := VPtr (Some (VStruct [VBool locked])).

Definition NewNewTxNtfn (account : string) (details : gval) : gval := VPtr (Some (VStruct [VStr account; details])).

(** ** The init functions *)

Fixpoint MustRegisterAll (cmds : list (string * gtype)) (flags : Z) (reg : registry) : option registry :=
  match cmds with
  | [] => Some reg
  | (method, cmd) :: cmds' => reg' ← MustRegisterCmd method (Some (TPtr cmd)) flags reg; MustRegisterAll cmds' flags reg'
  end.

Definition chainsvrcmd_init (reg : registry) : option registry :=
  MustRegisterAll
    [("getblockhash", GetBlockHashCmd)]
    0 reg.

Definition chainsvrwsntfns_init (reg : registry) : option registry :=
  MustRegisterAll
    [("blockconnected", BlockConnectedNtfn);
     ("blockdisconnected", BlockDisconnectedNtfn);
     ("filteredblockconnected", FilteredBlockConnectedNtfn);
     ("filteredblockdisconnected", FilteredBlockDisconnectedNtfn);
     ("recvtx", RecvTxNtfn);
     ("redeemingtx", RedeemingTxNtfn);
     ("rescanfinished", RescanFinishedNtfn);
     ("rescanprogress", RescanProgressNtfn);
     ("txaccepted", TxAcceptedNtfn);
     ("txacceptedverbose", TxAcceptedVerboseNtfn);
     ("relevanttxaccepted", RelevantTxAcceptedNtfn)]
    (Z.lor UFWebsocketOnly UFNotification) reg.

Definition walletsvrwsntfns_init (reg : registry) : option registry :=
  MustRegisterAll
    [("accountbalance", AccountBalanceNtfn);
     ("btcdconnected", BtcdConnectedNtfn);
     ("walletlockstate", WalletLockStateNtfn);
     ("newtx", NewTxNtfn)]
    (Z.lor (Z.lor UFWalletOnly UFWebsocketOnly) UFNotification) reg.

(** The registry after package initialisation; [None] if it panics. *)
Definition init_registry : option registry :=
  reg ← chainsvrcmd_init empty_registry; reg ← chainsvrwsntfns_init reg; walletsvrwsntfns_init reg.

(** ** Properties *)

(** All methods, in the order they are registered. *)
Definition registered : list (string * gtype) :=
  [("getblockhash", GetBlockHashCmd); ("blockconnected", BlockConnectedNtfn);
   ("blockdisconnected", BlockDisconnectedNtfn); ("filteredblockconnected", FilteredBlockConnectedNtfn);
   ("filteredblockdisconnected", FilteredBlockDisconnectedNtfn); ("recvtx", RecvTxNtfn);
   ("redeemingtx", RedeemingTxNtfn); ("rescanfinished", RescanFinishedNtfn);
   ("rescanprogress", RescanProgressNtfn); ("txaccepted", TxAcceptedNtfn);
   ("txacceptedverbose", TxAcceptedVerboseNtfn); ("relevanttxaccepted", RelevantTxAcceptedNtfn);
   ("accountbalance", AccountBalanceNtfn); ("btcdconnected", BtcdConnectedNtfn);
   ("walletlockstate", WalletLockStateNtfn); ("newtx", NewTxNtfn)].

(** The commands of chainsvrwscmds.go. *)
Definition websocket_commands : list gtype :=
  [LoadTxFilterCmd; AuthenticateCmd; RescanCmd; NotifyReceivedCmd; NotifyNewTransactionsCmd;
   NotifySpentCmd; NotifyBlocksCmd].

Lemma MustRegister_ok m cmd fl reg reg' : reg_ok reg -> MustRegisterCmd m cmd fl reg = Some reg' -> reg_ok reg'.
Proof.
  intros Hreg. unfold MustRegisterCmd. pose proof (RegisterCmd_reg_ok m cmd fl reg Hreg) as H.
  destruct (RegisterCmd m cmd fl reg) as [[]]; [|done]. now intros [= <-].
Qed.

Lemma MustRegisterAll_ok cmds fl reg reg' : reg_ok reg -> MustRegisterAll cmds fl reg = Some reg' -> reg_ok reg'.
Proof.
  revert reg. induction cmds as [|[m cmd] cmds IH]; intros reg Hreg; cbn; [now intros [= <-]|].
  destruct (MustRegisterCmd m _ fl reg) as [r|] eqn:E; [|done]. cbn. apply IH, (MustRegister_ok _ _ _ _ _ Hreg E).
Qed.

Lemma init_reg_ok reg : init_registry = Some reg -> reg_ok reg.
Proof.
  unfold init_registry, chainsvrcmd_init. intros H.
  apply bind_Some in H as (r1 & E1 & H). apply bind_Some in H as (r2 & E2 & H).
  apply (MustRegisterAll_ok _ _ _ _ (MustRegisterAll_ok _ _ _ _ (MustRegisterAll_ok _ _ _ _ empty_reg_ok E1) E2) H).
Qed.

(** The registry the program runs with. *)
Definition the_registry : registry := from_option id empty_registry init_registry.

Lemma init_some : init_registry = Some the_registry.
Proof.
  assert (H : match init_registry with Some _ => true | None => false end = true) by (vm_compute; reflexivity).
  unfold the_registry. now destruct init_registry.
Qed.

(** Package initialisation never panics.  The init functions register sixteen
commands without an error, and afterwards each method leads to its own type and
back, no command has a default, and the registry invariant holds. *)
Theorem init_registers :
  init_registry = Some the_registry /\ reg_ok the_registry /\
  size (methodToConcreteType the_registry) = length registered /\
  Forall (fun p => methodToConcreteType the_registry !! p.1 = Some (TPtr p.2) /\
    CmdMethod the_registry (Some (TPtr p.2, zero (TPtr p.2))) = Ok p.1 /\
    (defaults <$> (methodToInfo the_registry !! p.1)) = Some ∅) registered.
Proof.
  split; [apply init_some|]. split; [apply init_reg_ok, init_some|].
  split; [vm_compute; reflexivity|].
  unfold registered. repeat (apply Forall_cons; split; [vm_compute; split_and!; reflexivity|]). apply Forall_nil_2.
Qed.

(** The websocket commands are not registered.  Every command type of
chainsvrwscmds.go, whatever its value, is refused by CmdMethod and MarshalCmd as
not registered, and no request can name one of their methods. *)
Theorem websocket_commands_unregistered t v version id :
  In t websocket_commands ->
  CmdMethod the_registry (Some (TPtr t, v)) = Err (notRegistered "") /\
  MarshalCmd the_registry version id (Some (TPtr t, v)) = Err (notRegistered "") /\
  Forall (fun m => forall params, UnmarshalCmd the_registry (MkRequest version m params id) = Err (notRegistered m))
    ["authenticate"; "loadtxfilter"; "notifyblocks"; "notifynewtransactions"; "notifyreceived"; "notifyspent"; "rescan"].
Proof.
  intros Ht. assert (Hl : lookup_method the_registry (Some (TPtr t, v)) = None).
  { unfold websocket_commands in Ht. cbn [In] in Ht. unfold lookup_method.
    destruct_or! Ht; subst; (vm_compute; reflexivity) || done. }
  unfold CmdMethod, MarshalCmd, MarshalCmd_request. rewrite Hl. split_and!; [done|done|].
  assert (Hm : Forall (fun m => methodToConcreteType the_registry !! m = None)
    ["authenticate"; "loadtxfilter"; "notifyblocks"; "notifynewtransactions"; "notifyreceived"; "notifyspent"; "rescan"]).
  { repeat (apply Forall_cons; split; [vm_compute; reflexivity|]). apply Forall_nil_2. }
  apply (Forall_impl _ _ _ Hm). intros m H params. unfold UnmarshalCmd. cbn [Method]. now rewrite H.
Qed.

Example websocket_commands_unregistered_witness :
  CmdMethod the_registry (Some (TPtr NotifyBlocksCmd, NewNotifyBlocksCmd)) = Err (notRegistered "").
Proof.
  apply (websocket_commands_unregistered NotifyBlocksCmd NewNotifyBlocksCmd "1.0" JNull).
  unfold websocket_commands. cbn. tauto.
Defined.
