(* ===== verification/RpcAuth.v ===== *)
(** * RPC authentication (rpcserver.go: newRPCServer, checkAuth)

HTTP Basic credentials are kept and compared as SHA-256 digests of the whole
Authorization header.  The same digests authenticate websocket clients. *)

From Stdlib Require Import ZArith Lia List.
From Stdlib Require Import Strings.String Strings.Byte.
From S2P Require Import Prelude WireFormat Sha256.

#[local] Open Scope list_scope.
#[local] Set Warnings "-register-all".

Definition to_bytes (s : string) : bytes := list_byte_of_string s.

(** ** base64.StdEncoding *)

Definition b64_alphabet : bytes :=
  to_bytes "ABCDEFGHIJKLMNOPQRSTUVWXYZabcdefghijklmnopqrstuvwxyz0123456789+/".

Definition b64_char (d : Z) : byte := nth (Z.to_nat (Z.land d 0x3f)) b64_alphabet x00.
Definition b64_pad : byte := "="%byte.

Definition b64_group (a b c : byte) : Z :=
  Z.lor (Z.lor (Z.shiftl (byte_val a) 16) (Z.shiftl (byte_val b) 8)) (byte_val c).

Fixpoint EncodeToString (src : bytes) : bytes :=
  match src with
  | [] => []
  | [a] => let v := b64_group a x00 x00 in
           [b64_char (Z.shiftr v 18); b64_char (Z.shiftr v 12); b64_pad; b64_pad]
  | [a; b] => let v := b64_group a b x00 in
           [b64_char (Z.shiftr v 18); b64_char (Z.shiftr v 12); b64_char (Z.shiftr v 6); b64_pad]
  | a :: b :: c :: rest =>
      let v := b64_group a b c in
      b64_char (Z.shiftr v 18) :: b64_char (Z.shiftr v 12) :: b64_char (Z.shiftr v 6) :: b64_char v ::
      EncodeToString rest
  end.

(** crypto/subtle: 1 iff the contents are equal. *)
Definition ConstantTimeCompare (x y : bytes) : Z :=
  if decide (length x = length y) then
    if fold_left (fun v p => Z.lor v (Z.lxor (byte_val p.1) (byte_val p.2))) (combine x y) 0 =? 0 then 1 else 0
  else 0.

(** ** newRPCServer *)

Record credentials := MkCredentials { RPCUser : string; RPCPass : string; RPCLimitUser : string; RPCLimitPass : string }.
#[export] Instance credentials_eq_dec : EqDecision credentials.
Proof. solve_decision. Defined.

(** The fields of rpcServer that checkAuth reads. *)
Record auth_state := MkAuth { authsha : bytes; limitauthsha : bytes }.

Definition zero_digest : bytes := replicate 32 x00.

Definition basic_auth (user pass : string) : bytes :=
  let login := (user +:+ ":" +:+ pass)%string in
  to_bytes "Basic " ++ EncodeToString (to_bytes login).

Definition digest_of (user pass : string) : bytes :=
  if negb (bool_decide (user = ""%string)) && negb (bool_decide (pass = ""%string))
  then sha256 (basic_auth user pass) else zero_digest.

Definition newRPCServer_auth (cfg : credentials) : auth_state :=
  MkAuth (digest_of (RPCUser cfg) (RPCPass cfg)) (digest_of (RPCLimitUser cfg) (RPCLimitPass cfg)).

(** ** checkAuth *)

(** [authhdr] are the values of the Authorization header; the result is
authenticated, administrator, error. *)
Definition checkAuth (s : auth_state) (authhdr : list bytes) (require : bool) : bool * bool * option string :=
  match authhdr with
  | [] => if require then (false, false, Some "auth failure"%string) else (false, false, None)
  | h :: _ =>
      let sha := sha256 h in
      let limitcmp := ConstantTimeCompare sha (limitauthsha s) in
      if limitcmp =? 1 then (true, false, None)
      else
        let cmp := ConstantTimeCompare sha (authsha s) in
        if cmp =? 1 then (true, true, None)
        else (false, false, Some "auth failure"%string)
  end.

(** The credential check of an authenticate command (rpcwebsocket.go): whether
the client is now authenticated and whether it is an administrator. *)
Definition check_credentials (s : auth_state) (username passphrase : string) : option bool :=
  let authSha := sha256 (basic_auth username passphrase) in
  let cmp := ConstantTimeCompare authSha (authsha s) in
  let limitcmp := ConstantTimeCompare authSha (limitauthsha s) in
  if negb (cmp =? 1) && negb (limitcmp =? 1) then None else Some (cmp =? 1).

(** ** Lemmas *)

Lemma lor_zero_iff a b : 0 <= a -> 0 <= b -> Z.lor a b = 0 <-> a = 0 /\ b = 0.
Proof. intros. apply Z.lor_eq_0_iff. Qed.

Lemma ConstantTimeCompare_eq x y : (ConstantTimeCompare x y =? 1) = bool_decide (x = y).
Proof.
  unfold ConstantTimeCompare. destruct (decide _) as [Hl|Hl].
  2: { symmetry. apply bool_decide_eq_false. intros ->. done. }
  assert (H : forall l k v, length l = length k -> 0 <= v ->
    (fold_left (fun v p => Z.lor v (Z.lxor (byte_val p.1) (byte_val p.2))) (combine l k) v = 0 <-> v = 0 /\ l = k)).
  { induction l as [|a l IH]; intros [|b k] v Hlen Hv; try discriminate Hlen; cbn [combine fold_left fst snd]; [tauto|].
    pose proof (byte_val_range a). pose proof (byte_val_range b).
    assert (0 <= Z.lxor (byte_val a) (byte_val b)) by (apply Z.lxor_nonneg; lia).
    rewrite IH by (cbn in Hlen; first [lia|apply Z.lor_nonneg; lia]). rewrite lor_zero_iff by lia.
    rewrite Z.lxor_eq_0_iff. split.
    - intros [[-> E%byte_val_inj] ->]. now subst.
    - intros [-> E]. now injection E as -> ->. }
  specialize (H x y 0 Hl ltac:(lia)).
  destruct (Z.eqb_spec (fold_left (fun v p => Z.lor v (Z.lxor (byte_val p.1) (byte_val p.2))) (combine x y) 0) 0) as [E|E];
    symmetry; [apply bool_decide_eq_true|apply bool_decide_eq_false]; tauto.
Qed.

Lemma b64_char_inj d e : b64_char d = b64_char e -> Z.land d 0x3f = Z.land e 0x3f.
Proof.
  assert (Hr : forall x, 0 <= Z.land x 0x3f < 64).
  { intros x. change 0x3f with (Z.ones 6). rewrite Z.land_ones by lia. apply Z.mod_pos_bound. lia. }
  unfold b64_char. pose proof (Hr d). pose proof (Hr e).
  assert (Hn : NoDup b64_alphabet) by decide_now.
  intros E. apply Z2Nat.inj; [lia|lia|].
  assert (Hlook : forall x, (x < 64)%nat -> b64_alphabet !! x = Some (nth x b64_alphabet x00)).
  { intros x Hx. destruct (lookup_lt_is_Some_2 b64_alphabet x) as [y Hy]; [exact Hx|].
    rewrite Hy. f_equal. symmetry. now apply nth_lookup_Some. }
  eapply (NoDup_lookup b64_alphabet); [exact Hn|apply Hlook; lia|]. rewrite E. apply Hlook. lia.
Qed.

Lemma b64_char_not_pad d : b64_char d <> b64_pad.
Proof.
  assert (H : 0 <= Z.land d 0x3f < 64).
  { change 0x3f with (Z.ones 6). rewrite Z.land_ones by lia. apply Z.mod_pos_bound. lia. }
  assert (Hn : Forall (fun c => c <> b64_pad) b64_alphabet) by decide_now.
  unfold b64_char. intros E. rewrite Forall_forall in Hn. apply (Hn b64_pad); [|done].
  rewrite <- E. apply list_elem_of_In, nth_In. change (length b64_alphabet) with 64%nat. lia.
Qed.

Lemma lor_shiftl_low a b n : 0 <= n -> 0 <= b < 2 ^ n -> Z.lor (Z.shiftl a n) b = a * 2 ^ n + b.
Proof.
  intros Hn Hb. rewrite <- Z.shiftl_mul_pow2 by lia. rewrite <- Z.add_lor_land.
  enough (Z.land (Z.shiftl a n) b = 0) by lia. apply Z.bits_inj_iff'. intros k Hk. rewrite Z.land_spec, Z.bits_0.
  destruct (Z.ltb_spec k n).
  - now rewrite Z.shiftl_spec_low by lia.
  - rewrite <- (Z.mod_small b (2 ^ n)) by lia. rewrite Z.mod_pow2_bits_high by lia. apply andb_false_r.
Qed.

Lemma b64_group_val a b c : b64_group a b c = (byte_val a * 256 + byte_val b) * 256 + byte_val c.
Proof.
  pose proof (byte_val_range b). pose proof (byte_val_range c). unfold b64_group.
  replace (Z.shiftl (byte_val a) 16) with (Z.shiftl (Z.shiftl (byte_val a) 8) 8) by (now rewrite Z.shiftl_shiftl by lia).
  rewrite <- Z.shiftl_lor. rewrite (lor_shiftl_low (byte_val a)) by lia. now rewrite lor_shiftl_low by lia.
Qed.

(** The 6-bit digits of a group determine its bytes. *)
Lemma b64_digits a b c a' b' c' (v := b64_group a b c) (v' := b64_group a' b' c') :
  b64_char (Z.shiftr v 18) = b64_char (Z.shiftr v' 18) ->
  b64_char (Z.shiftr v 12) = b64_char (Z.shiftr v' 12) ->
  (b64_char (Z.shiftr v 6) = b64_char (Z.shiftr v' 6) \/ (c = c' /\ b = x00 /\ b' = x00)) ->
  (b64_char v = b64_char v' \/ c = c') -> a = a' /\ b = b' /\ c = c'.
Proof.
  intros H1%b64_char_inj H2%b64_char_inj H3 H4.
  assert (H3' : Z.land (Z.shiftr v 6) 63 = Z.land (Z.shiftr v' 6) 63 \/ (c = c' /\ b = x00 /\ b' = x00))
    by (destruct H3 as [H3%b64_char_inj|?]; tauto).
  assert (H4' : Z.land v 63 = Z.land v' 63 \/ c = c') by (destruct H4 as [H4%b64_char_inj|?]; tauto).
  clear H3 H4. revert H1 H2 H3' H4'. subst v v'. rewrite !b64_group_val.
  pose proof (byte_val_range a). pose proof (byte_val_range b). pose proof (byte_val_range c).
  pose proof (byte_val_range a'). pose proof (byte_val_range b'). pose proof (byte_val_range c').
  change 0x3f with (Z.ones 6). rewrite !Z.land_ones, !Z.shiftr_div_pow2 by lia.
  change (2 ^ 18) with 262144. change (2 ^ 12) with 4096. change (2 ^ 6) with 64.
  intros E1 E2 E3 E4.
  enough (byte_val a = byte_val a' /\ byte_val b = byte_val b' /\ byte_val c = byte_val c') as (?&?&?)
    by auto using byte_val_inj.
  assert (E3' : (let w := (byte_val a * 256 + byte_val b) * 256 + byte_val c in
                 let w' := (byte_val a' * 256 + byte_val b') * 256 + byte_val c' in
                 (w / 64) mod 64 = (w' / 64) mod 64) \/ (byte_val c = byte_val c' /\ byte_val b = byte_val b'))
    by (destruct E3 as [?|(-> & -> & ->)]; auto).
  assert (E4' : ((byte_val a * 256 + byte_val b) * 256 + byte_val c) mod 64 =
                ((byte_val a' * 256 + byte_val b') * 256 + byte_val c') mod 64 \/ byte_val c = byte_val c')
    by (destruct E4 as [?| ->]; auto).
  clear E3 E4. cbn zeta in E3'. Z.div_mod_to_equations. lia.
Qed.

Lemma EncodeToString_inj x : forall y, EncodeToString x = EncodeToString y -> x = y.
Proof.
  induction x as [x IH] using (induction_ltof1 _ (@length byte)). unfold ltof in IH.
  intros y E. destruct x as [|a [|b [|c x]]], y as [|a' [|b' [|c' y]]]; cbn [EncodeToString] in E; try discriminate E; [done|..];
    injection E; intros; subst;
    try solve [exfalso; eapply b64_char_not_pad; eauto].
  all: repeat match goal with H : EncodeToString _ = _ |- _ => apply IH in H; [subst|cbn; lia] end.
  all: match goal with
       | H1 : b64_char (Z.shiftr ?v 18) = _, H2 : b64_char (Z.shiftr ?v 12) = _ |- _ =>
           destruct (b64_digits _ _ _ _ _ _ H1 H2) as (? & ? & ?); [solve [auto]|solve [auto]|subst; done]
       end.
Qed.

Lemma b64_no_newline x : x0a ∉ EncodeToString x.
Proof.
  assert (N : forall d, b64_char d <> x0a).
  { intros d. assert (H : 0 <= Z.land d 0x3f < 64) by (change 0x3f with (Z.ones 6); rewrite Z.land_ones by lia; apply Z.mod_pos_bound; lia).
    assert (Hn : Forall (fun c => c <> x0a) b64_alphabet) by (apply (bool_decide_eq_true_1 _); vm_compute; reflexivity).
    unfold b64_char. intros E. rewrite Forall_forall in Hn. apply (Hn x0a); [|done].
    rewrite <- E. apply list_elem_of_In, nth_In. change (length b64_alphabet) with 64%nat. lia. }
  assert (G : forall n x, (length x <= n)%nat -> x0a ∉ EncodeToString x); [|now apply (G (length x))].
  clear x. induction n as [|n IH]; intros [|a [|b [|c x]]] Hl; cbn [length] in Hl; try lia; cbn [EncodeToString].
  all: rewrite ?not_elem_of_cons; repeat match goal with |- _ /\ _ => split end; try apply not_elem_of_nil; try (intros E; now apply (N _ (eq_sym E))); try discriminate.
  apply IH. lia.
Qed.

Lemma to_bytes_inj s t : to_bytes s = to_bytes t -> s = t.
Proof.
  intros H. rewrite <- (string_of_list_byte_of_string s), <- (string_of_list_byte_of_string t).
  unfold to_bytes in H. now rewrite H.
Qed.

(** A header determines the login text "user:pass". *)
Lemma basic_auth_inj u p u' p' :
  basic_auth u p = basic_auth u' p' <-> (u +:+ ":" +:+ p = u' +:+ ":" +:+ p')%string.
Proof.
  unfold basic_auth. split; [|intros ->; done].
  intros H%app_inv_head%EncodeToString_inj%to_bytes_inj. exact H.
Qed.

Lemma checkAuth_header s h rest require :
  checkAuth s (h :: rest) require =
    if decide (sha256 h = limitauthsha s) then (true, false, None)
    else if decide (sha256 h = authsha s) then (true, true, None)
    else (false, false, Some "auth failure"%string).
Proof.
  unfold checkAuth. rewrite !ConstantTimeCompare_eq.
  repeat case_decide; repeat case_bool_decide; done.
Qed.

(** Credentials [user], [pass] are set and the login text is [login]. *)
Definition is_login (user pass login : string) : bool :=
  negb (bool_decide (user = ""%string)) && negb (bool_decide (pass = ""%string)) &&
  bool_decide ((user +:+ ":" +:+ pass)%string = login).

(** No SHA-256 collision between the header of [login] and what the server
stores: the digests of the configured credentials and the all-zero digest of
credentials that are not configured. *)
Definition no_collision (cfg : credentials) (u p : string) : Prop :=
  sha256 (basic_auth u p) <> zero_digest /\
  (sha256 (basic_auth u p) = sha256 (basic_auth (RPCUser cfg) (RPCPass cfg)) ->
     basic_auth u p = basic_auth (RPCUser cfg) (RPCPass cfg)) /\
  (sha256 (basic_auth u p) = sha256 (basic_auth (RPCLimitUser cfg) (RPCLimitPass cfg)) ->
     basic_auth u p = basic_auth (RPCLimitUser cfg) (RPCLimitPass cfg)).

Lemma digest_of_eq u p u' p' :
  sha256 (basic_auth u p) <> zero_digest ->
  (sha256 (basic_auth u p) = sha256 (basic_auth u' p') -> basic_auth u p = basic_auth u' p') ->
  bool_decide (sha256 (basic_auth u p) = digest_of u' p') = is_login u' p' (u +:+ ":" +:+ p)%string.
Proof.
  intros Hz Hc. unfold digest_of, is_login. destruct (_ && _); cbn [andb].
  - apply bool_decide_ext. split; [intros E%Hc%basic_auth_inj; done|intros E; f_equal; now apply basic_auth_inj].
  - now apply bool_decide_eq_false.
Qed.

(** Whom a login makes, by header and by authenticate command. *)
Lemma auth_by_login cfg u p :
  no_collision cfg u p ->
  let s := newRPCServer_auth cfg in
  let login := (u +:+ ":" +:+ p)%string in
  (forall rest require, checkAuth s (basic_auth u p :: rest) require =
    (if is_login (RPCLimitUser cfg) (RPCLimitPass cfg) login then (true, false, None)
     else if is_login (RPCUser cfg) (RPCPass cfg) login then (true, true, None)
     else (false, false, Some "auth failure"%string))) /\
  check_credentials s u p =
    (if is_login (RPCUser cfg) (RPCPass cfg) login then Some true
     else if is_login (RPCLimitUser cfg) (RPCLimitPass cfg) login then Some false else None).
Proof.
  intros (Hz & Ha & Hl) s login.
  assert (E1 := digest_of_eq _ _ _ _ Hz Ha). assert (E2 := digest_of_eq _ _ _ _ Hz Hl).
  split.
  - intros rest require. rewrite checkAuth_header. rewrite !decide_bool_decide. cbn [authsha limitauthsha s newRPCServer_auth].
    now rewrite E1, E2.
  - unfold check_credentials. rewrite !ConstantTimeCompare_eq. cbn [authsha limitauthsha s newRPCServer_auth].
    rewrite E1, E2. fold login. now destruct (is_login _ _ login), (is_login _ _ login).
Qed.

(** C7: who checkAuth lets in.  A request without an Authorization header fails
exactly when authentication is required and is otherwise unauthenticated; a
Basic header for user u and password p is the limited user exactly when u:p is
the configured limited login, else the administrator exactly when it is the
configured administrator login, and any other is an error; credentials that are
not configured admit nobody.  The code compares SHA-256 sums, so that this is as
far as the sums of these logins do not collide. *)
Theorem checkAuth_spec cfg u p rest require :
  no_collision cfg u p ->
  let s := newRPCServer_auth cfg in
  let login := (u +:+ ":" +:+ p)%string in
  checkAuth s [] require = (false, false, if require then Some "auth failure"%string else None) /\
  checkAuth s (basic_auth u p :: rest) require =
    (if is_login (RPCLimitUser cfg) (RPCLimitPass cfg) login then (true, false, None)
     else if is_login (RPCUser cfg) (RPCPass cfg) login then (true, true, None)
     else (false, false, Some "auth failure"%string)) /\
  check_credentials s u p =
    (if is_login (RPCUser cfg) (RPCPass cfg) login then Some true
     else if is_login (RPCLimitUser cfg) (RPCLimitPass cfg) login then Some false else None).
Proof.
  intros H s login. destruct (auth_by_login cfg u p H) as [H1 H2].
  split; [now destruct require|]. split; [apply H1|exact H2].
Qed.

Definition sample_credentials : credentials := MkCredentials "admin" "secret" "guest" "pw".

Lemma no_collision_dec cfg u p :
  bool_decide (sha256 (basic_auth u p) <> zero_digest) &&
  bool_decide (sha256 (basic_auth u p) <> sha256 (basic_auth (RPCUser cfg) (RPCPass cfg))) &&
  bool_decide (basic_auth u p = basic_auth (RPCLimitUser cfg) (RPCLimitPass cfg)) = true -> no_collision cfg u p.
Proof. rewrite !andb_true_iff, !bool_decide_eq_true. intros [[? ?] ?]. now split_and!. Qed.

Example checkAuth_spec_witness :
  no_collision sample_credentials "guest" "pw" /\
  checkAuth (newRPCServer_auth sample_credentials) [basic_auth "guest" "pw"] true = (true, false, None).
Proof.
  assert (H : no_collision sample_credentials "guest" "pw") by (apply no_collision_dec; vm_compute; reflexivity).
  split; [exact H|]. exact (proj1 (proj2 (checkAuth_spec sample_credentials "guest" "pw" [] true H))).
Defined.
