(* ===== verification/GoStrings.v ===== *)
(** * Strings, paths and network addresses of the Go standard library

What the configuration uses of packages strings, strconv, path/filepath (on
Unix), os and net, on the bytes of a string, with the lemmas its theorems need. *)

From Stdlib Require Import ZArith Lia List.
From Stdlib Require Import Strings.String Strings.Byte.
From stdpp Require Import pretty.
From S2P Require Import Prelude WireFormat.

#[local] Open Scope list_scope.
#[local] Set Warnings "-register-all".

Definition of_string (s : string) : bytes := list_byte_of_string s.
Definition to_string (b : bytes) : string := string_of_list_byte b.

Lemma to_of_string s : to_string (of_string s) = s.
Proof. apply string_of_list_byte_of_string. Qed.
Lemma of_to_string b : of_string (to_string b) = b.
Proof. apply list_byte_of_string_of_list_byte. Qed.

Lemma of_string_app s t : of_string (s +:+ t) = of_string s ++ of_string t.
Proof.
  unfold of_string, list_byte_of_string. rewrite <- map_app. f_equal.
  induction s as [|c s IH]; [done|]. change (list_ascii_of_string (String c (s +:+ t)) = c :: list_ascii_of_string s ++ list_ascii_of_string t).
  cbn [list_ascii_of_string]. f_equal. exact IH.
Qed.
Lemma of_string_inj s t : of_string s = of_string t -> s = t.
Proof. intros H. rewrite <- (to_of_string s), H. apply to_of_string. Qed.

(** The text before the first of a byte, and what follows it. *)
Lemma app_cons_inj (c : byte) s r s' r' : c ∉ s -> c ∉ s' -> s ++ c :: r = s' ++ c :: r' -> s = s' /\ r = r'.
Proof.
  revert s'. induction s as [|x s IH]; intros [|x' s'] H H' E; cbn in E.
  - injection E as ->. done.
  - injection E as <- _. set_solver.
  - injection E as -> _. set_solver.
  - injection E as <- E. destruct (IH s') as [-> ->]; set_solver.
Qed.

(** ** strings *)

Fixpoint IndexByte (s : bytes) (c : byte) : option nat :=
  match s with
  | [] => None
  | x :: s => if bool_decide (x = c) then Some O else S <$> IndexByte s c
  end.
Fixpoint LastIndexByte (s : bytes) (c : byte) : option nat :=
  match s with
  | [] => None
  | x :: s => match LastIndexByte s c with
              | Some i => Some (S i)
              | None => if bool_decide (x = c) then Some O else None
              end
  end.
Definition ContainsByte (s : bytes) (c : byte) : bool := bool_decide (c ∈ s).

Fixpoint HasPrefix (s prefix : bytes) : bool :=
  match prefix, s with
  | [], _ => true
  | p :: prefix, x :: s => bool_decide (x = p) && HasPrefix s prefix
  | _ :: _, [] => false
  end.
Fixpoint Contains (s substr : bytes) : bool :=
  HasPrefix s substr || match s with [] => false | _ :: s => Contains s substr end.
Definition HasSuffix (s suffix : bytes) : bool := HasPrefix (rev s) (rev suffix).
Definition ContainsAny (s chars : bytes) : bool := existsb (fun c => bool_decide (c ∈ chars)) s.

(** strings.Split by a one-byte separator. *)
Fixpoint SplitByte (s : bytes) (sep : byte) : list bytes :=
  match s with
  | [] => [[]]
  | x :: s =>
      if bool_decide (x = sep) then [] :: SplitByte s sep
      else match SplitByte s sep with f :: fs => (x :: f) :: fs | [] => [[x]] end
  end.

Lemma SplitByte_none s sep : sep ∉ s -> SplitByte s sep = [s].
Proof.
  induction s as [|x s IH]; intros H; [done|]. apply not_elem_of_cons in H as [Hx Hs]. cbn.
  rewrite bool_decide_eq_false_2 by congruence. now rewrite IH.
Qed.

Lemma SplitByte_app s sep rest : sep ∉ s -> SplitByte (s ++ sep :: rest) sep = s :: SplitByte rest sep.
Proof.
  induction s as [|x s IH]; intros H; cbn; [now rewrite bool_decide_eq_true_2|].
  apply not_elem_of_cons in H as [Hx Hs]. rewrite bool_decide_eq_false_2 by congruence. now rewrite IH.
Qed.

Lemma LastIndexByte_none s c : c ∉ s -> LastIndexByte s c = None.
Proof.
  induction s as [|x s IH]; intros H; [done|]. apply not_elem_of_cons in H as [Hx Hs]. cbn.
  rewrite IH by done. now rewrite bool_decide_eq_false_2 by congruence.
Qed.

Lemma LastIndexByte_app s c rest : c ∉ rest -> LastIndexByte (s ++ c :: rest) c = Some (length s).
Proof.
  intros Hr. induction s as [|x s IH]; cbn; [|now rewrite IH].
  rewrite LastIndexByte_none by done. now rewrite bool_decide_eq_true_2.
Qed.

Lemma IndexByte_none s c : c ∉ s -> IndexByte s c = None.
Proof.
  induction s as [|x s IH]; intros H; [done|]. apply not_elem_of_cons in H as [Hx Hs]. cbn.
  rewrite bool_decide_eq_false_2 by congruence. now rewrite IH.
Qed.

Lemma IndexByte_app s c rest : c ∉ s -> IndexByte (s ++ c :: rest) c = Some (length s).
Proof.
  induction s as [|x s IH]; intros H; cbn; [now rewrite bool_decide_eq_true_2|].
  apply not_elem_of_cons in H as [Hx Hs]. rewrite bool_decide_eq_false_2 by congruence. now rewrite IH.
Qed.

(** ** strconv *)

Fixpoint parse_digits (s : bytes) (acc : Z) : option Z :=
  match s with
  | [] => Some acc
  | c :: s => let v := byte_val c - 48 in if (0 <=? v) && (v <=? 9) then parse_digits s (10 * acc + v) else None
  end.

(** ParseInt(s, 10, bits): syntax and range errors are [None]. *)
Definition ParseInt (s : bytes) (bits : Z) : option Z :=
  let '(neg, d) := match s with
                   | "-"%byte :: d => (true, d) | "+"%byte :: d => (false, d) | d => (false, d)
                   end in
  match d with
  | [] => None
  | _ =>
      n ← parse_digits d 0;
      let z := if neg then - n else n in
      if (- 2 ^ (bits - 1) <=? z) && (z <? 2 ^ (bits - 1)) then Some z else None
  end.
Definition Atoi (s : bytes) : option Z := ParseInt s 64.

(** *** Decimals: what %d prints is read back *)

Definition is_dec (b : byte) : Prop := 48 <= byte_val b <= 57.

Lemma pretty_N_char_val d : (d < 10)%N -> byte_val (Ascii.byte_of_ascii (pretty_N_char d)) = 48 + Z.of_N d.
Proof.
  intros H. assert (In d (map N.of_nat (seq 0 10))) as Hd by (apply in_map_iff; exists (N.to_nat d); rewrite in_seq; lia).
  cbn in Hd. destruct_or! Hd; subst; vm_compute; done.
Qed.

Lemma pretty_N_go_dec k : forall x s, (x < 10 ^ N.of_nat k)%N -> Forall is_dec (of_string s) ->
  Forall is_dec (of_string (pretty_N_go x s)) /\
  parse_digits (of_string (pretty_N_go x s)) 0 = parse_digits (of_string s) (Z.of_N x).
Proof.
  induction k as [|k IH]; intros x s Hx Hs.
  - assert (x = 0)%N as -> by (cbn in Hx; lia). now rewrite pretty_N_go_0.
  - destruct (decide (x = 0)%N) as [->|Hne]; [now rewrite pretty_N_go_0|]. rewrite pretty_N_go_step by lia.
    assert (Hm : (x mod 10 < 10)%N) by (apply N.mod_lt; lia). assert (Hx' := N.div_mod x 10 ltac:(lia)).
    destruct (IH (x / 10)%N (String (pretty_N_char (x mod 10)) s)) as [H1 H2].
    + apply N.Div0.div_lt_upper_bound. rewrite Nat2N.inj_succ, N.pow_succ_r' in Hx. exact Hx.
    + change (Forall is_dec (Ascii.byte_of_ascii (pretty_N_char (x mod 10)) :: of_string s)).
      constructor; [|done]. unfold is_dec. rewrite pretty_N_char_val by done. generalize dependent (x mod 10)%N. intros; lia.
    + split; [exact H1|]. rewrite H2.
      change (of_string (String (pretty_N_char (x mod 10)) s)) with (Ascii.byte_of_ascii (pretty_N_char (x mod 10)) :: of_string s).
      cbn [parse_digits]. rewrite pretty_N_char_val by done. clear H1 H2 IH Hx Hs Hne.
      generalize dependent (x / 10)%N. generalize dependent (x mod 10)%N. intros m Hm q Hx. subst x.
      replace (0 <=? 48 + Z.of_N m - 48) with true by (symmetry; apply Z.leb_le; lia).
      replace (48 + Z.of_N m - 48 <=? 9) with true by (symmetry; apply Z.leb_le; lia). cbn [andb].
      f_equal. lia.
Qed.

Lemma fmt_d_dec p : Forall is_dec (of_string (fmt_d (Z.pos p))) /\ parse_digits (of_string (fmt_d (Z.pos p))) 0 = Some (Z.pos p).
Proof.
  change (fmt_d (Z.pos p)) with (pretty_N_go (N.pos p) "").
  destruct (pretty_N_go_dec (N.to_nat (N.pos p)) (N.pos p) ""%string) as [H1 H2]; [|constructor|].
  - rewrite N2Nat.id. apply N.pow_gt_lin_r. lia.
  - split; [exact H1|]. now rewrite H2.
Qed.

(** Digits are read as they are, after an optional sign. *)
Lemma ParseInt_digits d bits : Forall is_dec d -> d <> [] ->
  ParseInt d bits = (n ← parse_digits d 0; if (- 2 ^ (bits - 1) <=? n) && (n <? 2 ^ (bits - 1)) then Some n else None) /\
  ParseInt ("-"%byte :: d) bits =
    (n ← parse_digits d 0; if (- 2 ^ (bits - 1) <=? - n) && (- n <? 2 ^ (bits - 1)) then Some (- n) else None).
Proof.
  intros H Hne. destruct d as [|c d]; [done|]. split; [|done]. inv H.
  unfold is_dec in *. destruct c; try reflexivity; exfalso; cbn in *; lia.
Qed.

Lemma ParseInt_fmt_d z bits : 0 < bits -> - 2 ^ (bits - 1) <= z < 2 ^ (bits - 1) -> ParseInt (of_string (fmt_d z)) bits = Some z.
Proof.
  intros Hb Hz. assert (Hr : (- 2 ^ (bits - 1) <=? z) && (z <? 2 ^ (bits - 1)) = true) by (apply andb_true_iff; split; lia).
  destruct z as [|p|p].
  - change (ParseInt (of_string (fmt_d 0)) bits) with
      (if (- 2 ^ (bits - 1) <=? 0) && (0 <? 2 ^ (bits - 1)) then Some 0 else None). now rewrite Hr.
  - destruct (fmt_d_dec p) as [H1 H2].
    destruct (ParseInt_digits _ bits H1) as [-> _]; [intros E; rewrite E in H2; discriminate|].
    rewrite H2. cbn [mbind option_bind]. now rewrite Hr.
  - destruct (fmt_d_dec p) as [H1 H2]. change (of_string (fmt_d (Z.neg p))) with ("-"%byte :: of_string (fmt_d (Z.pos p))).
    destruct (ParseInt_digits _ bits H1) as [_ ->]; [intros E; rewrite E in H2; discriminate|].
    rewrite H2. cbn [mbind option_bind]. change (- Z.pos p) with (Z.neg p). now rewrite Hr.
Qed.

Lemma fmt_d_bytes z b : b ∈ of_string (fmt_d z) -> is_dec b \/ b = "-"%byte.
Proof.
  destruct z as [|p|p].
  - change (of_string (fmt_d 0)) with ["0"%byte]. intros ->%list_elem_of_singleton. left. unfold is_dec. cbn. lia.
  - intros H. left. revert H. destruct (fmt_d_dec p) as [H1 _]. rewrite Forall_forall in H1. apply H1.
  - change (of_string (fmt_d (Z.neg p))) with ("-"%byte :: of_string (fmt_d (Z.pos p))).
    intros [->|H]%elem_of_cons; [now right|left]. destruct (fmt_d_dec p) as [H1 _]. rewrite Forall_forall in H1. now apply H1.
Qed.

(** ** net *)

Definition colon : byte := ":"%byte.
Definition lbracket : byte := "["%byte.
Definition rbracket : byte := "]"%byte.

Inductive addr_error := MissingPort | TooManyColons | MissingBracket | UnexpectedLeft | UnexpectedRight.

(** The host, and where to look for stray brackets; [i] is the last colon. *)
Definition split_host (hostport : bytes) (i : nat) : result addr_error (bytes * nat * nat) :=
  match hostport with
  | [] => Err MissingPort
  | c :: _ =>
      if bool_decide (c = lbracket) then
        match IndexByte hostport rbracket with
        | None => Err MissingBracket
        | Some e =>
            if (S e =? length hostport)%nat then Err MissingPort
            else if (S e =? i)%nat then Ok (take (e - 1) (drop 1 hostport), 1%nat, S e)
            else if bool_decide (hostport !! S e = Some colon) then Err TooManyColons else Err MissingPort
        end
      else if ContainsByte (take i hostport) colon then Err TooManyColons
      else Ok (take i hostport, O, O)
  end.

Definition SplitHostPort (hostport : bytes) : result addr_error (bytes * bytes) :=
  match LastIndexByte hostport colon with
  | None => Err MissingPort
  | Some i =>
      r ← split_host hostport i;
      let '(host, j, k) := r in
      if ContainsByte (drop j hostport) lbracket then Err UnexpectedLeft
      else if ContainsByte (drop k hostport) rbracket then Err UnexpectedRight
      else Ok (host, drop (S i) hostport)
  end.

Definition JoinHostPort (host port : bytes) : bytes :=
  if ContainsByte host colon then lbracket :: host ++ rbracket :: colon :: port
  else host ++ colon :: port.

Lemma split_host_bracketed host port : rbracket ∉ host ->
  split_host (lbracket :: host ++ rbracket :: colon :: port) (S (S (length host))) = Ok (host, 1%nat, S (S (length host))).
Proof.
  intros H. unfold split_host. rewrite bool_decide_eq_true_2 by done.
  replace (IndexByte (lbracket :: host ++ rbracket :: colon :: port) rbracket) with (Some (S (length host))).
  2: { cbn [IndexByte]. rewrite bool_decide_eq_false_2 by discriminate. now rewrite IndexByte_app. }
  cbn [length]. rewrite length_app. cbn [length]. rewrite (proj2 (Nat.eqb_neq _ _)) by lia.
  rewrite Nat.eqb_refl.
  change (drop 1 (lbracket :: host ++ rbracket :: colon :: port)) with (host ++ rbracket :: colon :: port).
  cbn [Nat.sub]. now rewrite Nat.sub_0_r, take_app_length.
Qed.

Lemma split_host_plain host port : lbracket ∉ host -> colon ∉ host ->
  split_host (host ++ colon :: port) (length host) = Ok (host, O, O).
Proof.
  intros H1 H2. unfold split_host. destruct (host ++ colon :: port) as [|c r] eqn:E; [now destruct host|].
  rewrite bool_decide_eq_false_2.
  - rewrite <- E, take_app_length. unfold ContainsByte. now rewrite bool_decide_eq_false_2.
  - destruct host; cbn in E; injection E as <- _; [discriminate|]. apply not_elem_of_cons in H1 as [H1 _]. congruence.
Qed.

(** Joining and splitting again. *)
Lemma SplitHostPort_Join host port :
  lbracket ∉ host -> rbracket ∉ host -> colon ∉ port -> lbracket ∉ port -> rbracket ∉ port ->
  SplitHostPort (JoinHostPort host port) = Ok (host, port).
Proof.
  intros H1 H2 P1 P2 P3. unfold JoinHostPort. destruct (ContainsByte host colon) eqn:Hc.
  - unfold SplitHostPort.
    replace (LastIndexByte (lbracket :: host ++ rbracket :: colon :: port) colon) with (Some (S (S (length host)))).
    2: { replace (lbracket :: host ++ rbracket :: colon :: port) with ((lbracket :: host ++ [rbracket]) ++ colon :: port)
           by (cbn; now rewrite <- app_assoc). rewrite LastIndexByte_app by done. cbn. rewrite length_app. cbn. do 2 f_equal. lia. }
    rewrite split_host_bracketed by done. cbn [mbind result_bind]. unfold ContainsByte. cbn [skipn].
    replace (host ++ rbracket :: colon :: port) with ((host ++ [rbracket]) ++ colon :: port) by now rewrite <- app_assoc.
    assert (Hl : length (host ++ [rbracket]) = S (length host)) by (rewrite length_app; cbn; lia).
    rewrite <- Hl, drop_app_length, bool_decide_eq_false_2 by set_solver. rewrite bool_decide_eq_false_2 by set_solver.
    rewrite drop_app, (drop_ge (host ++ [rbracket])) by lia. rewrite Nat.sub_succ_l, Nat.sub_diag by lia. reflexivity.
  - unfold ContainsByte in Hc. apply bool_decide_eq_false in Hc. unfold SplitHostPort.
    rewrite LastIndexByte_app, split_host_plain by done. cbn [mbind result_bind skipn]. unfold ContainsByte.
    rewrite !bool_decide_eq_false_2 by set_solver.
    rewrite drop_app, (drop_ge host) by lia. rewrite Nat.sub_succ_l, Nat.sub_diag by lia. reflexivity.
Qed.

Example hosts :
  SplitHostPort (of_string "[::1]:8334") = Ok (of_string "::1", of_string "8334") /\
  SplitHostPort (of_string "::1") = Err TooManyColons /\
  JoinHostPort (of_string "::1") (of_string "8334") = of_string "[::1]:8334".
Proof. vm_compute. auto. Qed.

(** ** path/filepath on Unix *)

Definition slash : byte := "/"%byte.
Definition dot : bytes := of_string ".".
Definition dotdot : bytes := of_string "..".

Fixpoint join_slash (l : list bytes) : bytes :=
  match l with [] => [] | [x] => x | x :: l => x ++ slash :: join_slash l end.

(** The elements that are kept, the last one first. *)
Definition clean_step (rooted : bool) (out : list bytes) (e : bytes) : list bytes :=
  if bool_decide (e = []) || bool_decide (e = dot) then out
  else if bool_decide (e = dotdot) then
    match out with
    | top :: rest => if bool_decide (top = dotdot) then e :: out else rest
    | [] => if rooted then [] else [e]
    end
  else e :: out.
Definition Clean (path : bytes) : bytes :=
  let rooted := HasPrefix path [slash] in
  let body := join_slash (rev (fold_left (clean_step rooted) (SplitByte path slash) [])) in
  if rooted then slash :: body else match body with [] => dot | _ => body end.

Lemma SplitByte_app_sep a b sep : SplitByte (a ++ sep :: b) sep = SplitByte a sep ++ SplitByte b sep.
Proof.
  induction a as [|x a IH]; cbn; [now rewrite bool_decide_eq_true_2|].
  rewrite IH. case_bool_decide; [done|]. destruct (SplitByte a sep) as [|f fs] eqn:E; [|done].
  exfalso. destruct a as [|y a]; cbn in E; [discriminate|]. case_bool_decide; [discriminate|]. now destruct (SplitByte a sep).
Qed.

Lemma join_slash_snoc l x : join_slash (l ++ [x]) = match l with [] => x | _ => join_slash l ++ slash :: x end.
Proof.
  induction l as [|y l IH]; [done|]. destruct l as [|z l]; [done|]. cbn [app join_slash] in *.
  rewrite IH, <- app_assoc. done.
Qed.

(** A plain name put behind a path is its last element once the path is cleaned. *)
Lemma Clean_last d name : slash ∉ name -> name <> [] -> name <> dot -> name <> dotdot ->
  last (SplitByte (Clean (d ++ slash :: name)) slash) = Some name.
Proof.
  intros Hs H1 H2 H3.
  assert (Hn : last (SplitByte name slash) = Some name) by (now rewrite SplitByte_none).
  assert (Hl : forall p, last (SplitByte (p ++ slash :: name) slash) = Some name)
    by (intros p; rewrite SplitByte_app_sep, (SplitByte_none name), last_snoc; done).
  assert (Hc : forall r out, clean_step r out name = name :: out)
    by (intros; unfold clean_step; now rewrite !bool_decide_eq_false_2 by done).
  unfold Clean. rewrite SplitByte_app_sep, (SplitByte_none name) by done. destruct (HasPrefix _ _); cbv zeta.
  all: rewrite fold_left_app; cbn [fold_left]; rewrite Hc; cbn [rev]; rewrite join_slash_snoc; destruct (rev _) as [|y l].
  - apply (Hl []).
  - apply (Hl (slash :: _)).
  - destruct name; [done|exact Hn].
  - destruct (join_slash (y :: l) ++ slash :: name) eqn:E; [now destruct (join_slash (y :: l))|]. rewrite <- E. apply Hl.
Qed.

Lemma Clean_nonempty p : Clean p <> [].
Proof. unfold Clean. destruct (HasPrefix _ _); [done|]. now destruct (join_slash _). Qed.

Fixpoint Join (elem : list bytes) : bytes :=
  match elem with
  | [] => []
  | [] :: elem => Join elem
  | elem => Clean (join_slash elem)
  end.
Definition Dir (path : bytes) : bytes :=
  Clean (match LastIndexByte path slash with Some i => take (S i) path | None => [] end).

(** ** os.ExpandEnv *)

Definition isShellSpecialVar (c : byte) : bool := bool_decide (c ∈ of_string "*#$@!?-0123456789").
Definition isAlphaNum (c : byte) : bool :=
  let v := byte_val c in
  (v =? 95) || ((48 <=? v) && (v <=? 57)) || ((97 <=? v) && (v <=? 122)) || ((65 <=? v) && (v <=? 90)).
Fixpoint alnum_prefix (s : bytes) : bytes :=
  match s with c :: s => if isAlphaNum c then c :: alnum_prefix s else [] | [] => [] end.

(** The name after a dollar sign, and how much of [s] it takes. *)
Definition getShellName (s : bytes) : bytes * nat :=
  match s with
  | "{"%byte :: t =>
      match t with
      | c :: "}"%byte :: _ => if isShellSpecialVar c then ([c], 3%nat) else
                              match IndexByte t "}"%byte with
                              | Some O => ([], 2%nat) | Some i => (take i t, S (S i)) | None => ([], 1%nat) end
      | _ => match IndexByte t "}"%byte with
             | Some O => ([], 2%nat) | Some i => (take i t, S (S i)) | None => ([], 1%nat) end
      end
  | c :: _ => if isShellSpecialVar c then ([c], 1%nat) else let n := alnum_prefix s in (n, length n)
  | [] => ([], O)
  end.

(** Each round takes at least one byte, so the length of [s] is enough fuel. *)
Fixpoint expand (fuel : nat) (getenv : bytes -> bytes) (s : bytes) : bytes :=
  match fuel, s with
  | S fuel, "$"%byte :: ((_ :: _) as t) =>
      let '(name, w) := getShellName t in
      match name, w with
      | [], O => "$"%byte :: expand fuel getenv t
      | [], _ => expand fuel getenv (drop w t)
      | _, _ => getenv name ++ expand fuel getenv (drop w t)
      end
  | S fuel, c :: t => c :: expand fuel getenv t
  | _, _ => []
  end.
Definition ExpandEnv (getenv : bytes -> bytes) (s : bytes) : bytes := expand (length s) getenv s.

Lemma expand_none fuel getenv s : "$"%byte ∉ s -> (length s <= fuel)%nat -> expand fuel getenv s = s.
Proof.
  revert fuel. induction s as [|c s IH]; intros fuel H Hl; [now destruct fuel|].
  destruct fuel as [|fuel]; [cbn in Hl; lia|]. apply not_elem_of_cons in H as [Hc Hs].
  assert (E : expand fuel getenv s = s) by (apply IH; [done|cbn in Hl; lia]).
  destruct c; cbn in *; try congruence; now rewrite E.
Qed.

Example paths :
  map (fun s => to_string (Clean (of_string s))) ["/a//b/../c/."; "../../x"; ""; "/.."; "a/b/"]%string =
    ["/a/c"; "../../x"; "."; "/"; "a/b"]%string /\
  to_string (Dir (of_string "/home/u/.acbc")) = "/home/u"%string /\
  to_string (Join [of_string "/d"; []; of_string "testnet"]) = "/d/testnet"%string /\
  to_string (ExpandEnv (fun n => of_string "<" ++ n ++ of_string ">") (of_string "$HOME/${A}x$$z$")) = "<HOME>/<A>x<$>z$"%string.
Proof. vm_compute. auto. Qed.
