(* ===== verification/GoNet.v ===== *)
(** * IP addresses of the Go standard library

The part of package net that the configuration and the server use on the text of
addresses: ParseIP and ParseCIDR as of Go 1.17, masks, and the forms of an address. *)

From Stdlib Require Import ZArith Lia List.
From Stdlib Require Import Strings.String Strings.Byte.
From S2P Require Import Prelude WireFormat GoStrings.

#[local] Open Scope list_scope.
#[local] Set Warnings "-register-all".

Definition v4InV6Prefix : bytes := replicate 10 x00 ++ [xff; xff].
(** net.IPv4: sixteen bytes. *)
Definition IPv4 (a b c d : byte) : bytes := v4InV6Prefix ++ [a; b; c; d].

Definition To4 (ip : bytes) : option bytes :=
  if (length ip =? 4)%nat then Some ip
  else if (length ip =? 16)%nat && HasPrefix ip v4InV6Prefix then Some (drop 12 ip) else None.

(** ** Numbers in front of a text, with how many bytes they take *)

Definition big : Z := 0xFFFFFF.
Definition dec_digit (c : byte) : option Z :=
  let v := byte_val c in if (48 <=? v) && (v <=? 57) then Some (v - 48) else None.
Definition hex_digit_val (c : byte) : option Z :=
  let v := byte_val c in
  if (48 <=? v) && (v <=? 57) then Some (v - 48)
  else if (97 <=? v) && (v <=? 102) then Some (v - 87)
  else if (65 <=? v) && (v <=? 70) then Some (v - 55) else None.

(** [None] is a number that is too big. *)
Fixpoint number (digit : byte -> option Z) (base : Z) (s : bytes) (n : Z) (c : nat) : option (Z * nat) :=
  match s with
  | [] => Some (n, c)
  | x :: s =>
      match digit x with
      | None => Some (n, c)
      | Some d => let n := n * base + d in if big <=? n then None else number digit base s n (S c)
      end
  end.
Definition some_digits (r : option (Z * nat)) : option (Z * nat) :=
  match r with Some (_, O) => None | r => r end.
Definition dtoi (s : bytes) : option (Z * nat) := some_digits (number dec_digit 10 s 0 0).
Definition xtoi (s : bytes) : option (Z * nat) := some_digits (number hex_digit_val 16 s 0 0).

(** ** IPv4 *)

Definition full_stop : byte := "."%byte.

(** The octets that are left to read, each but the first after a dot. *)
Fixpoint parse_octets (n : nat) (first : bool) (s : bytes) : option bytes :=
  match n with
  | O => match s with [] => Some [] | _ => None end
  | S n =>
      s ← (if first then match s with [] => None | _ => Some s end
           else match s with x :: s => if bool_decide (x = full_stop) then Some s else None | [] => None end);
      r ← dtoi s;
      let '(v, c) := r in
      if 255 <? v then None
      else if (1 <? c)%nat && bool_decide (s !! 0%nat = Some "0"%byte) then None
      else rest ← parse_octets n false (drop c s); Some (byte_of v :: rest)
  end.
Definition parseIPv4 (s : bytes) : option bytes := p ← parse_octets 4 true s; Some (v4InV6Prefix ++ p).

(** ** IPv6 *)

(** The loop: [ip] are the bytes read, [ellipsis] how many there were before the
two colons.  Each round reads two bytes of at most sixteen, so eight are enough. *)
Fixpoint parse_groups (fuel : nat) (ip : bytes) (ellipsis : option nat) (s : bytes) : option (bytes * option nat * bytes) :=
  match fuel with
  | O => Some (ip, ellipsis, s)
  | S fuel =>
      r ← xtoi s;
      let '(n, c) := r in
      if 0xFFFF <? n then None
      else if bool_decide (s !! c = Some full_stop) then
        if bool_decide (ellipsis = None) && negb (length ip =? 12)%nat then None
        else if (16 <? length ip + 4)%nat then None
        else ip4 ← parseIPv4 s; Some (ip ++ drop 12 ip4, ellipsis, [])
      else
        let ip := ip ++ [byte_of (n / 256); byte_of n] in
        match drop c s with
        | [] => Some (ip, ellipsis, [])
        | x :: s =>
            if negb (bool_decide (x = colon)) then None
            else match s with
                 | [] => None
                 | y :: s' =>
                     if bool_decide (y = colon) then
                       match ellipsis, s' with
                       | Some _, _ => None
                       | None, [] => Some (ip, Some (length ip), [])
                       | None, _ => parse_groups fuel ip (Some (length ip)) s'
                       end
                     else parse_groups fuel ip ellipsis s
                 end
        end
  end.

Definition expand_ellipsis (ip : bytes) (e : nat) : bytes :=
  take e ip ++ replicate (16 - length ip) x00 ++ drop e ip.

Definition parseIPv6 (s : bytes) : option bytes :=
  let start := match s with
               | x :: y :: s' => if bool_decide (x = colon) && bool_decide (y = colon) then (Some 0%nat, s') else (None, s)
               | _ => (None, s)
               end in
  match start with
  | (Some _, []) => Some (replicate 16 x00)
  | (ellipsis, s) =>
      r ← parse_groups 8 [] ellipsis s;
      let '(ip, ellipsis, s) := r in
      match s with
      | _ :: _ => None
      | [] =>
          if (length ip <? 16)%nat then e ← ellipsis; Some (expand_ellipsis ip e)
          else match ellipsis with Some _ => None | None => Some ip end
      end
  end.

(** By the first dot or colon. *)
Fixpoint ip_kind (s : bytes) : option bool :=
  match s with
  | [] => None
  | x :: s => if bool_decide (x = full_stop) then Some true else if bool_decide (x = colon) then Some false else ip_kind s
  end.
Definition ParseIP (s : bytes) : option bytes :=
  match ip_kind s with Some true => parseIPv4 s | Some false => parseIPv6 s | None => None end.

(** ** Networks *)

Record IPNet := MkIPNet { IP : bytes; Mask : bytes }.

(** A mask of [ones] bits in [n] bytes. *)
Fixpoint CIDRMask (ones : Z) (n : nat) : bytes :=
  match n with
  | O => []
  | S n => (if 8 <=? ones then xff else byte_of (Z.lnot (Z.shiftr 0xff ones))) :: CIDRMask (Z.max 0 (ones - 8)) n
  end.
(** The address under a mask of its own length. *)
Definition mask_ip (ip mask : bytes) : bytes :=
  map (fun p => byte_of (Z.land (byte_val p.1) (byte_val p.2))) (combine ip mask).

Definition ParseCIDR (s : bytes) : option (bytes * IPNet) :=
  i ← IndexByte s slash;
  let addr := take i s in
  let mask := drop (S i) s in
  let '(iplen, ip) := match parseIPv4 addr with Some ip => (4%nat, Some ip) | None => (16%nat, parseIPv6 addr) end in
  ip ← ip;
  r ← dtoi mask;
  let '(n, c) := r in
  if negb (c =? length mask)%nat || (8 * Z.of_nat iplen <? n) then None
  else
    let m := CIDRMask n iplen in
    let plain := if (iplen =? 4)%nat then drop 12 ip else ip in
    Some (ip, MkIPNet (mask_ip plain m) m).

Example parse_ips :
  ParseIP (of_string "127.0.0.1") = Some (IPv4 x7f x00 x00 x01) /\ ParseIP (of_string "127.0.0.01") = None /\
  ParseIP (of_string "256.0.0.1") = None /\ ParseIP (of_string "1.2.3") = None /\ ParseIP (of_string "localhost") = None /\
  ParseIP (of_string "::1") = Some (replicate 15 x00 ++ [x01]) /\
  ParseIP (of_string "2001:db8::ff00:42:8329") = Some [x20; x01; x0d; xb8; x00; x00; x00; x00; x00; x00; xff; x00; x00; x42; x83; x29] /\
  ParseIP (of_string "::ffff:1.2.3.4") = Some (IPv4 x01 x02 x03 x04) /\
  ParseIP (of_string "1:2:3:4:5:6:7:8:9") = None /\ ParseIP (of_string "1::2::3") = None /\ ParseIP (of_string "1:") = None /\
  ParseCIDR (of_string "192.168.77.0/18") = Some (IPv4 xc0 xa8 x4d x00, MkIPNet [xc0; xa8; x40; x00] [xff; xff; xc0; x00]) /\
  ParseCIDR (of_string "10.0.0.0/33") = None /\ ParseCIDR (of_string "::1") = None.
Proof. vm_compute. auto 20. Qed.
