(* ===== verification/Certgen.v ===== *)
(** * Certificates (acbcutil/certgen.go, net.go)

NewTLSCertPair: the names and addresses a new certificate is made for, its validity,
and the PEM texts it is written as.  The clock, the random numbers, the host's name
and interfaces, and the encodings of X.509 are what the system answers, in [cert_env].
Times are in nanoseconds since 1970. *)

From Stdlib Require Import ZArith Lia List.
From Stdlib Require Import Strings.String Strings.Byte.
From S2P Require Import Prelude WireFormat GoStrings GoNet RpcAuth.

#[local] Open Scope list_scope.
#[local] Set Warnings "-register-all".

(** ** Times *)

Definition second : Z := 1000000000.
Definition hour : Z := 3600 * second.

(** Days from 1970-01-01 to a date, of the year that starts in March. *)
Definition days (year month day : Z) : Z :=
  let y := if month <=? 2 then year - 1 else year in
  let m := (month + 9) mod 12 in
  y * 365 + y / 4 - y / 100 + y / 400 + (153 * m + 2) / 5 + (day - 1) - 719468.
(** time.Date in UTC. *)
Definition Date (year month day h m s ns : Z) : Z :=
  (days year month day * 86400 + h * 3600 + m * 60 + s) * second + ns.

Example dates :
  Date 1970 1 1 0 0 0 0 = 0 /\ Date 2000 2 29 12 0 0 0 = 951825600 * second /\ Date 2049 12 31 23 59 59 0 = 2524607999 * second.
Proof. vm_compute. auto. Qed.

(** ** PEM *)

(** Lines of 64 characters, the last one shorter. *)
Fixpoint pem_lines (fuel : nat) (s : bytes) : bytes :=
  match fuel, s with
  | S fuel, _ :: _ => take 64 s ++ [x0a] ++ pem_lines fuel (drop 64 s)
  | _, _ => []
  end.
(** pem.Encode of a block without headers to a buffer. *)
Definition pem_Encode (typ : string) (der : bytes) : bytes :=
  let body := EncodeToString der in
  of_string ("-----BEGIN " +:+ typ +:+ "-----") ++ [x0a] ++ pem_lines (length body) body ++
  of_string ("-----END " +:+ typ +:+ "-----") ++ [x0a].

(** ** The template *)

Definition KeyUsageDigitalSignature : Z := Z.shiftl 1 0.
Definition KeyUsageKeyEncipherment : Z := Z.shiftl 1 2.
Definition KeyUsageCertSign : Z := Z.shiftl 1 5.

Record Certificate := MkCertificate {
  SerialNumber : Z; Organization : list string; CommonName : string; NotBefore : Z; NotAfter : Z;
  KeyUsage : Z; IsCA : bool; BasicConstraintsValid : bool;
  DNSNames : list string; IPAddresses : list bytes }.

(** What the system answers: the time, a private key, a random number below a limit,
the name of the host, the texts of the addresses of its interfaces, the DER forms of
the certificate that the key signs and of the key. *)
Record cert_env := MkCertEnv {
  Now : Z; GenerateKey : result string bytes; rand_Int : Z -> result string Z;
  Hostname : result string string; InterfaceAddrs : result string (list string);
  CreateCertificate : Certificate -> bytes -> result string bytes;
  MarshalECPrivateKey : bytes -> result string bytes }.

(** net.IP.Equal: an IPv4 address equals its form in sixteen bytes. *)
Definition IP_Equal (ip x : bytes) : bool :=
  if (length ip =? length x)%nat then bool_decide (ip = x)
  else if (length ip =? 4)%nat && (length x =? 16)%nat
  then bool_decide (take 12 x = v4InV6Prefix) && bool_decide (ip = drop 12 x)
  else if (length ip =? 16)%nat && (length x =? 4)%nat
  then bool_decide (take 12 ip = v4InV6Prefix) && bool_decide (drop 12 ip = x)
  else false.

(** The closures addIP and addHost: appended unless there is an equal one. *)
Definition addIP (ipAddresses : list bytes) (ipAddr : bytes) : list bytes :=
  if existsb (fun ip => IP_Equal ip ipAddr) ipAddresses then ipAddresses else ipAddresses ++ [ipAddr].
Definition addHost (dnsNames : list string) (host : string) : list string :=
  if existsb (fun dnsName => bool_decide (host = dnsName)) dnsNames then dnsNames else dnsNames ++ [host].

Definition interfaceAddrs (env : cert_env) : result string (list string) := InterfaceAddrs env.

(** One interface: an address that does not parse is passed over. *)
Definition add_interface (ipAddresses : list bytes) (a : string) : list bytes :=
  match ParseCIDR (of_string a) with Some (ipAddr, _) => addIP ipAddresses ipAddr | None => ipAddresses end.

(** The host of an extra name, with or without a port. *)
Definition extra_host (hostStr : string) : string :=
  match SplitHostPort (of_string hostStr) with Ok (host, _) => to_string host | Err _ => hostStr end.
Definition add_extra (names : list bytes * list string) (hostStr : string) : list bytes * list string :=
  let '(ipAddresses, dnsNames) := names in
  let host := extra_host hostStr in
  match ParseIP (of_string host) with
  | Some ip => (addIP ipAddresses ip, dnsNames)
  | None => (ipAddresses, addHost dnsNames host)
  end.

Definition localhost4 : bytes := IPv4 x7f x00 x00 x01.
Definition localhost6 : bytes := replicate 15 x00 ++ [x01].

(** The names and addresses of the certificate. *)
Definition cert_names (host : string) (addrs extraHosts : list string) : list bytes * list string :=
  let ipAddresses := [localhost4; localhost6] in
  let dnsNames := [host] in
  let dnsNames := if bool_decide (host <> "localhost"%string) then dnsNames ++ ["localhost"%string] else dnsNames in
  let ipAddresses := fold_left add_interface addrs ipAddresses in
  fold_left add_extra extraHosts (ipAddresses, dnsNames).

Definition endOfTime : Z := Date 2049 12 31 23 59 59 0.

Definition wrap_error {A} (what : string) (r : result string A) : result string A :=
  match r with Ok a => Ok a | Err e => Err (what +:+ ": " +:+ e)%string end.

(** NewTLSCertPair: the certificate and the key, both in PEM. *)
Definition NewTLSCertPair (env : cert_env) (organization : string) (validUntil : Z) (extraHosts : list string) :
    result string (bytes * bytes) :=
  let now := Now env in
  if validUntil <? now then Err "validUntil would create an already-expired certificate"%string
  else
    priv ← GenerateKey env;
    let validUntil := if endOfTime <? validUntil then endOfTime else validUntil in
    let serialNumberLimit := Z.shiftl 1 128 in
    serialNumber ← wrap_error "failed to generate serial number" (rand_Int env serialNumberLimit);
    host ← Hostname env;
    addrs ← interfaceAddrs env;
    let '(ipAddresses, dnsNames) := cert_names host addrs extraHosts in
    let template := MkCertificate serialNumber [organization] host (now + - hour * 24) validUntil
      (Z.lor (Z.lor KeyUsageKeyEncipherment KeyUsageDigitalSignature) KeyUsageCertSign) true true dnsNames ipAddresses in
    derBytes ← wrap_error "failed to create certificate" (CreateCertificate env template priv);
    let certBuf := pem_Encode "CERTIFICATE" derBytes in
    keybytes ← wrap_error "failed to marshal private key" (MarshalECPrivateKey env priv);
    let keyBuf := pem_Encode "EC PRIVATE KEY" keybytes in
    Ok (certBuf, keyBuf).

Example localhost_parses :
  ParseIP (of_string "127.0.0.1") = Some localhost4 /\ ParseIP (of_string "::1") = Some localhost6.
Proof. vm_compute. auto. Qed.

(** Names: an interface that is already there, one that is not an address, extra names
with ports and in both notations. *)
Example names_example :
  cert_names "node" ["127.0.0.1/8"; "10.0.0.2/24"; "bad"] ["10.0.0.2:8334"; "::ffff:10.0.0.2"; "node"; "other:1"; "[::1]"]%string =
  ([localhost4; localhost6; IPv4 x0a x00 x00 x02], ["node"; "localhost"; "other"; "[::1]"]%string).
Proof. vm_compute. reflexivity. Qed.

(** ** Names without repetition *)

(** No two entries are the same for [eqb], in the order of the list. *)
Definition distinct {A} (eqb : A -> A -> bool) (l : list A) : Prop := ForallOrdPairs (fun x y => eqb x y = false) l.

(** [l] stands for [srcs]: its entries are among them, it has one for each, and none
twice. *)
Definition represents {A} (eqb : A -> A -> bool) (l srcs : list A) : Prop :=
  distinct eqb l /\ (forall x, In x l -> In x srcs) /\ (forall x, In x srcs -> exists y, In y l /\ eqb y x = true).

Section represents.
Context {A : Type} (eqb : A -> A -> bool) (eqb_refl : forall x, eqb x x = true).

Lemma distinct_snoc l x : distinct eqb l -> (forall y, In y l -> eqb y x = false) -> distinct eqb (l ++ [x]).
Proof.
  induction 1 as [|y l Hy H IH]; intros Hx; cbn; [repeat constructor|].
  constructor; [|apply IH; intros; apply Hx; now right].
  apply List.Forall_app. split; [done|]. constructor; [|done]. apply Hx. now left.
Qed.

Lemma represents_add l srcs x : represents eqb l srcs ->
  represents eqb (if existsb (fun y => eqb y x) l then l else l ++ [x]) (srcs ++ [x]).
Proof.
  intros (H1 & H2 & H3). destruct (existsb _ l) eqn:E.
  - split_and!; [done|intros; rewrite in_app_iff; auto|]. intros z [Hz|[<-|[]]]%in_app_iff; [auto|].
    now apply existsb_exists in E.
  - split_and!.
    + apply distinct_snoc; [done|]. intros y Hy. apply not_true_is_false. intros Hyx. apply not_true_iff_false in E.
      apply E, existsb_exists. eauto.
    + intros z. rewrite !in_app_iff. naive_solver.
    + intros z [Hz|[<-|[]]]%in_app_iff.
      * destruct (H3 z Hz) as (y & Hy & Hyz). exists y. rewrite in_app_iff. auto.
      * exists x. rewrite in_app_iff. cbn. auto.
Qed.
End represents.
Arguments distinct_snoc {A eqb}.
Arguments represents_add {A eqb} _ {l srcs} x.

Lemma IP_Equal_refl x : IP_Equal x x = true.
Proof. unfold IP_Equal. rewrite Nat.eqb_refl. now apply bool_decide_eq_true. Qed.

Definition name_eqb (x y : string) : bool := bool_decide (y = x).
Lemma name_eqb_refl x : name_eqb x x = true.
Proof. now apply bool_decide_eq_true. Qed.

(** What the certificate is to cover: this machine, its interfaces, and the extra
names that are addresses; its names, and the extra names that are not addresses. *)
Definition extra_ip (h : string) : option bytes := ParseIP (of_string (extra_host h)).
Definition wanted_ips (addrs extraHosts : list string) : list bytes :=
  [localhost4; localhost6] ++ omap (fun a => fst <$> ParseCIDR (of_string a)) addrs ++ omap extra_ip extraHosts.
Definition wanted_hosts (host : string) (extraHosts : list string) : list string :=
  [host; "localhost"%string] ++ omap (fun h => match extra_ip h with Some _ => None | None => Some (extra_host h) end) extraHosts.

Lemma interfaces_represent addrs : forall l srcs, represents IP_Equal l srcs ->
  represents IP_Equal (fold_left add_interface addrs l) (srcs ++ omap (fun a => fst <$> ParseCIDR (of_string a)) addrs).
Proof.
  induction addrs as [|a addrs IH]; intros l srcs H; cbn [fold_left omap list_omap]; [now rewrite app_nil_r|].
  unfold add_interface at 2. destruct (ParseCIDR (of_string a)) as [[ip n]|] eqn:E.
  - apply (represents_add IP_Equal_refl ip) in H. specialize (IH _ _ H). cbn [omap list_omap]; rewrite ?E.
    rewrite <- app_assoc in IH. exact IH.
  - specialize (IH _ _ H). cbn [omap list_omap]; rewrite ?E. exact IH.
Qed.

Lemma extras_represent extra : forall ips names sips snames, represents IP_Equal ips sips -> represents name_eqb names snames ->
  let '(ips', names') := fold_left add_extra extra (ips, names) in
  represents IP_Equal ips' (sips ++ omap extra_ip extra) /\
  represents name_eqb names' (snames ++ omap (fun h => match extra_ip h with Some _ => None | None => Some (extra_host h) end) extra).
Proof.
  induction extra as [|h extra IH]; intros ips names sips snames H1 H2; cbn [fold_left omap list_omap]; [rewrite !app_nil_r; auto|].
  unfold add_extra at 2. cbn [omap list_omap]. fold (extra_ip h). destruct (extra_ip h) as [ip|].
  - apply (represents_add IP_Equal_refl ip) in H1. specialize (IH _ _ _ _ H1 H2). unfold addIP.
    destruct (fold_left _ _ _) as [ips' names']. rewrite <- app_assoc in IH. exact IH.
  - apply (represents_add name_eqb_refl (extra_host h)) in H2. specialize (IH _ _ _ _ H1 H2).
    unfold addHost. change (fun dnsName => bool_decide (extra_host h = dnsName)) with (fun y => name_eqb y (extra_host h)).
    destruct (fold_left _ _ _) as [ips' names']. rewrite <- app_assoc in IH. exact IH.
Qed.

Lemma cert_names_represent host addrs extra : let '(ips, names) := cert_names host addrs extra in
  represents IP_Equal ips (wanted_ips addrs extra) /\ represents name_eqb names (wanted_hosts host extra).
Proof.
  unfold cert_names, wanted_ips, wanted_hosts. rewrite app_assoc. apply extras_represent; [apply interfaces_represent|].
  - split_and!; [repeat constructor|done|]. intros x Hx. exists x. auto using IP_Equal_refl.
  - case_bool_decide as E; cbn [app].
    + split_and!; [|done|intros x Hx; exists x; auto using name_eqb_refl]. repeat constructor. apply bool_decide_eq_false. congruence.
    + split_and!; [repeat constructor|cbn; naive_solver|]. intros x Hx. exists host. split; [now left|].
      apply bool_decide_eq_true. destruct (decide (host = "localhost"%string)); [|done]. cbn in Hx. naive_solver.
Qed.

(** ** PEM loses nothing *)

Lemma pem_lines_body fuel : forall s, x0a ∉ s -> (length s <= fuel)%nat -> filter (fun c => c <> x0a) (pem_lines fuel s) = s.
Proof.
  induction fuel as [|fuel IH]; intros [|c s] Hn Hl; try done; [cbn in Hl; lia|].
  unfold pem_lines; fold pem_lines. rewrite <- (take_drop 64 (c :: s)) in Hn. apply not_elem_of_app in Hn as [H1 H2].
  rewrite !filter_app, IH by (done || (rewrite length_drop; cbn [length] in *; lia)).
  replace (filter _ [x0a]) with (@nil byte) by (vm_compute; reflexivity). cbn [app].
  rewrite <- (take_drop 64 (c :: s)) at 3. f_equal.
  induction (take 64 (c :: s)) as [|x l IHl]; [done|]. apply not_elem_of_cons in H1 as [Hx Hl'].
  rewrite filter_cons_True by congruence. now rewrite IHl.
Qed.

Lemma pem_Encode_inj typ d1 d2 : pem_Encode typ d1 = pem_Encode typ d2 -> d1 = d2.
Proof.
  unfold pem_Encode. intros H. do 2 apply app_inv_head in H. apply app_inv_tail in H. apply EncodeToString_inj.
  rewrite <- (pem_lines_body (length (EncodeToString d1)) (EncodeToString d1)), H by (auto using b64_no_newline).
  now apply pem_lines_body; [apply b64_no_newline|].
Qed.

(** ** NewTLSCertPair *)

Lemma NoDup_distinct l : distinct name_eqb l -> NoDup l.
Proof.
  induction 1 as [|x l Hx H IH]; constructor; [|done]. intros Hin%list_elem_of_In. rewrite List.Forall_forall in Hx.
  specialize (Hx x Hin). now rewrite name_eqb_refl in Hx.
Qed.

Lemma represents_names l srcs : represents name_eqb l srcs -> NoDup l /\ forall n, In n l <-> In n srcs.
Proof.
  intros (H1 & H2 & H3). split; [now apply NoDup_distinct|]. intros n. split; [apply H2|].
  intros (y & Hy & E%bool_decide_eq_true)%H3. now subst.
Qed.

(** What a certificate says of its names and its time, for a call at [now]. *)
Definition certifies (t : Certificate) (now validUntil : Z) (org host : string) (addrs extraHosts : list string) : Prop :=
  Organization t = [org] /\ CommonName t = host /\ IsCA t = true /\ BasicConstraintsValid t = true /\
  represents IP_Equal (IPAddresses t) (wanted_ips addrs extraHosts) /\
  NoDup (DNSNames t) /\ (forall n, In n (DNSNames t) <-> In n (wanted_hosts host extraHosts)) /\
  NotBefore t = now - 24 * hour /\ NotAfter t = Z.min validUntil endOfTime.

(** What stops the generation besides an expired certificate. *)
Inductive system_failed (env : cert_env) : Prop :=
  | no_key e : GenerateKey env = Err e -> system_failed env
  | no_serial e : rand_Int env (2 ^ 128) = Err e -> system_failed env
  | no_hostname e : Hostname env = Err e -> system_failed env
  | no_interfaces e : InterfaceAddrs env = Err e -> system_failed env
  | no_certificate t priv e : CreateCertificate env t priv = Err e -> system_failed env
  | no_key_bytes priv e : MarshalECPrivateKey env priv = Err e -> system_failed env.

(** A pair of PEM texts of a certificate that [t] describes and of its key. *)
Definition pair_of (env : cert_env) (t : Certificate) (cert key : bytes) : Prop :=
  exists priv der keybytes, GenerateKey env = Ok priv /\ CreateCertificate env t priv = Ok der /\
    MarshalECPrivateKey env priv = Ok keybytes /\
    cert = pem_Encode "CERTIFICATE" der /\ key = pem_Encode "EC PRIVATE KEY" keybytes.

Lemma NewTLSCertPair_cases env org validUntil extraHosts :
  match NewTLSCertPair env org validUntil extraHosts with
  | Ok (cert, key) => Now env <= validUntil /\ exists t host addrs,
      Hostname env = Ok host /\ InterfaceAddrs env = Ok addrs /\
      certifies t (Now env) validUntil org host addrs extraHosts /\ pair_of env t cert key
  | Err e => validUntil < Now env \/ system_failed env
  end.
Proof.
  unfold NewTLSCertPair. destruct (Z.ltb_spec validUntil (Now env)); [now left|].
  change (Z.shiftl 1 128) with (2 ^ 128)%Z. unfold interfaceAddrs.
  destruct (GenerateKey env) as [priv|e] eqn:G; cbn [mbind result_bind]; [|eauto using no_key].
  destruct (rand_Int env (2 ^ 128)) as [serial|e] eqn:R; cbn [mbind result_bind wrap_error]; [|eauto using no_serial].
  destruct (Hostname env) as [host|e] eqn:Hh; cbn [mbind result_bind]; [|eauto using no_hostname].
  destruct (InterfaceAddrs env) as [addrs|e] eqn:A; cbn [mbind result_bind]; [|eauto using no_interfaces].
  pose proof (cert_names_represent host addrs extraHosts) as N.
  destruct (cert_names host addrs extraHosts) as [ips names]. destruct N as [N1 N2%represents_names].
  destruct (CreateCertificate env _ priv) as [der|e] eqn:C; cbn [mbind result_bind wrap_error]; [|eauto using no_certificate].
  destruct (MarshalECPrivateKey env priv) as [kb|e] eqn:M; cbn [mbind result_bind wrap_error]; [|eauto using no_key_bytes].
  split; [done|]. eexists _, host, addrs. split_and!; [done..| |exists priv, der, kb; split_and!; (exact C || done)].
  split_and!; try done; [apply N2|apply N2|]. cbn [NotAfter]. destruct (Z.ltb_spec endOfTime validUntil); lia.
Qed.
