(* ===== verification/RpcServer.v ===== *)
(** * The RPC server (rpcserver.go)

From an HTTP request to the bytes of its response: the tables of commands, the
parsing and dispatch of one request, single and batched bodies, status lines,
and the handlers of the two endpoints.

A body is given as what encoding/json makes of its text: see [body].  Handlers
run to a [result]: [Err] is a run-time panic, never an error value. *)

From Stdlib Require Import ZArith Lia List.
From Stdlib Require Import Strings.String Strings.Ascii Strings.Byte.
From S2P Require Import Prelude WireFormat ChainHash JsonTypes AcbcJson AcbcJsonCmds RpcAuth.

#[local] Open Scope list_scope.
#[local] Open Scope string_scope.
#[local] Set Warnings "-register-all".

(** ** Errors and command tables *)

Definition ErrRPCUnimplemented : RPCError := MkRPCError AcbcJson.ErrRPCUnimplemented "Command unimplemented".
Definition ErrRPCNoWallet : RPCError :=
  MkRPCError AcbcJson.ErrRPCNoWallet "This implementation does not implement wallet commands".

(** A run-time panic. *)
Inductive panic := NilDereference | TypeAssertion | UnmarshalPanic | CloseOfClosedChannel.

(** A Go [error]: an *acbcjson.RPCError, or any other with its text. *)
Inductive gerr := GRpc (e : RPCError) | GOther (msg : string).

(** commandHandler: the result as the document it marshals to, and the error. *)
Definition commandHandler : Type := command -> result panic (json * option gerr).

Definition rpcAskWallet : gset string := list_to_set
  ["addmultisigaddress"; "backupwallet"; "createencryptedwallet"; "createmultisig"; "dumpprivkey"; "dumpwallet";
   "encryptwallet"; "getaccount"; "getaccountaddress"; "getaddressesbyaccount"; "getbalance"; "getnewaddress";
   "getrawchangeaddress"; "getreceivedbyaccount"; "getreceivedbyaddress"; "gettransaction"; "gettxoutsetinfo";
   "getunconfirmedbalance"; "getwalletinfo"; "importprivkey"; "importwallet"; "keypoolrefill"; "listaccounts";
   "listaddressgroupings"; "listlockunspent"; "listreceivedbyaccount"; "listreceivedbyaddress"; "listsinceblock";
   "listtransactions"; "listunspent"; "lockunspent"; "move"; "sendfrom"; "sendmany"; "sendtoaddress"; "setaccount";
   "settxfee"; "signmessage"; "signrawtransaction"; "walletlock"; "walletpassphrase"; "walletpassphrasechange"].

Definition rpcUnimplemented : gset string := list_to_set
  ["estimatepriority"; "getchaintips"; "getmempoolentry"; "getnetworkinfo"; "getwork"; "invalidateblock";
   "preciousblock"; "reconsiderblock"].

Definition rpcLimited : gset string := list_to_set
  ["loadtxfilter"; "notifyblocks"; "notifynewtransactions"; "notifyreceived"; "notifyspent"; "rescan"; "rescanblocks";
   "session"; "help"; "createrawtransaction"; "decoderawtransaction"; "decodescript"; "estimatefee"; "getbestblock";
   "getbestblockhash"; "getblock"; "getblockcount"; "getblockhash"; "getblockheader"; "getcfilter"; "getcfilterheader";
   "getcurrentnet"; "getdifficulty"; "getheaders"; "getinfo"; "getnettotals"; "getnetworkhashps"; "getrawmempool";
   "getrawtransaction"; "gettxout"; "searchrawtransactions"; "sendrawtransaction"; "submitblock"; "uptime";
   "validateaddress"; "verifymessage"; "version"].

(** ** Handlers *)

Definition handleUnimplemented : commandHandler := fun _ => Ok (JNull, Some (GRpc ErrRPCUnimplemented)).
Definition handleAskWallet : commandHandler := fun _ => Ok (JNull, Some (GRpc ErrRPCNoWallet)).

(** handleGetBlockHash: the height is formatted and read back as a hash; the
error is dropped, and a nil hash is dereferenced. *)
Definition handleGetBlockHash : commandHandler := fun cmd =>
  match cmd with
  | Some (t, VPtr (Some (VStruct [VInt Index]))) =>
      if bool_decide (type_string t = type_string (TPtr GetBlockHashCmd)) then
        match NewHashFromStr (to_bytes (fmt_d Index)) with
        | Ok hash => Ok (JStr (string_of_list_byte (Hash_String hash)), None)
        | Err _ => Err NilDereference
        end
      else Err TypeAssertion
  | _ => Err TypeAssertion
  end.

(** rpcHandlersBeforeInit, which init stores in rpcHandlers. *)
Definition rpcHandlers : gmap string commandHandler := {[ "getblockhash" := handleGetBlockHash ]}.

(** internalRPCError: [context] only goes to the log. *)
Definition internalRPCError (errStr context : string) : RPCError := NewRPCError (Code ErrRPCInternal) errStr.

(** ** Replies *)

Definition createMarshalledReply (rpcVersion : string) (id : json) (res : json) (replyErr : option gerr) :
    result jerr json :=
  let jsonErr := match replyErr with
                 | Some (GRpc jErr) => Some jErr
                 | Some (GOther msg) => Some (internalRPCError msg "")
                 | None => None
                 end in
  MarshalResponse rpcVersion id res jsonErr.

(** A reply that is dropped when it does not marshal. *)
Definition reply_or_nil (r : result jerr json) : option json :=
  match r with Ok msg => Some msg | Err _ => None end.

Record parsedRPCCmd := MkParsed {
  p_jsonrpc : string; p_id : json; p_method : string; p_cmd : command; p_err : option RPCError }.

Definition parseCmd (request : Request) : result panic parsedRPCCmd :=
  match UnmarshalCmd the_registry request with
  | Err JPanic => Err UnmarshalPanic
  | Err (Error code desc) =>
      if decide (code = ErrUnregisteredMethod)
      then Ok (MkParsed (Jsonrpc request) (ID request) (Method request) None (Some ErrRPCMethodNotFound))
      else Ok (MkParsed (Jsonrpc request) (ID request) (Method request) None
                 (Some (NewRPCError (Code ErrRPCInvalidParams) (Error_Error (Error code desc)))))
  | Ok cmd => Ok (MkParsed (Jsonrpc request) (ID request) (Method request) (Some cmd) None)
  end.

Definition standardCmdResult (cmd : parsedRPCCmd) : result panic (json * option gerr) :=
  match rpcHandlers !! p_method cmd with
  | Some handler => handler (p_cmd cmd)
  | None =>
      if bool_decide (p_method cmd ∈ rpcAskWallet) then handleAskWallet (p_cmd cmd)
      else if bool_decide (p_method cmd ∈ rpcUnimplemented) then handleUnimplemented (p_cmd cmd)
      else Ok (JNull, Some (GRpc ErrRPCMethodNotFound))
  end.

Definition malformed : RPCError := MkRPCError (Code ErrRPCInvalidRequest) "Invalid request: malformed".

(** processRequest: the marshalled response, [None] for nil. *)
Definition processRequest (request : Request) (isAdmin : bool) : result panic (option json) :=
  let jsonErr :=
    if negb isAdmin && negb (bool_decide (Method request ∈ rpcLimited))
    then Some (internalRPCError "limited user not authorized for this method" "") else None in
  match jsonErr with
  | Some e => Ok (reply_or_nil (createMarshalledReply (Jsonrpc request) (ID request) JNull (Some (GRpc e))))
  | None =>
      if bool_decide (Method request = "") || match Params request with None => true | Some _ => false end then
        Ok (reply_or_nil (createMarshalledReply (Jsonrpc request) (ID request) JNull (Some (GRpc malformed))))
      else
        match ID request with
        | JNull => Ok None
        | _ =>
            parsedCmd ← parseCmd request;
            match p_err parsedCmd with
            | Some e => Ok (reply_or_nil (createMarshalledReply (Jsonrpc request) (ID request) JNull (Some (GRpc e))))
            | None =>
                r ← standardCmdResult parsedCmd;
                let jsonErr := match r.2 with
                               | Some (GRpc rpcErr) => Some (GRpc rpcErr)
                               | Some (GOther _) => Some (GRpc malformed)
                               | None => None
                               end in
                Ok (reply_or_nil (createMarshalledReply (Jsonrpc request) (ID request) r.1 jsonErr))
            end
        end
  end.

(** ** Request bodies *)

(** json.Unmarshal into an acbcjson.Request: members are matched without regard
to case and stored one after the other; a member of the wrong type is skipped
and the first such error is returned.  [null] leaves a string as it is. *)
Definition unmarshal_error (j : json) (target : string) : string :=
  "json: cannot unmarshal " ++ value_string (TBase KindString) j ++ " into Go " ++ target.

Definition zeroRequest : Request := MkRequest "" "" None JNull.

Definition store_member (acc : option string * Request) (member : string * json) : option string * Request :=
  let '(err, r) := acc in
  let '(name, j) := member in
  let mistyped field type :=
    (match err with Some e => Some e | None =>
       Some (unmarshal_error j ("struct field Request." ++ field ++ " of type " ++ type)) end, r) in
  if EqualFold name "jsonrpc" then
    match j with
    | JStr s => (err, MkRequest s (Method r) (Params r) (ID r))
    | JNull => (err, r)
    | _ => mistyped "jsonrpc" "acbcjson.RPCVersion"
    end
  else if EqualFold name "method" then
    match j with
    | JStr s => (err, MkRequest (Jsonrpc r) s (Params r) (ID r))
    | JNull => (err, r)
    | _ => mistyped "method" "string"
    end
  else if EqualFold name "params" then
    match j with
    | JArr l => (err, MkRequest (Jsonrpc r) (Method r) (Some l) (ID r))
    | JNull => (err, MkRequest (Jsonrpc r) (Method r) None (ID r))
    | _ => mistyped "params" "[]json.RawMessage"
    end
  else if EqualFold name "id" then (err, MkRequest (Jsonrpc r) (Method r) (Params r) j)
  else (err, r).

Definition UnmarshalRequest (j : json) : option string * Request :=
  match j with
  | JNull => (None, zeroRequest)
  | JObj ms => fold_left store_member ms (None, zeroRequest)
  | _ => (Some (unmarshal_error j "value of type acbcjson.Request"), zeroRequest)
  end.

(** The text of a body, by its first byte (batchedRequestPrefix).  A single body
is the document it parses to, or the error.  A batch is what json.Unmarshal into
a []interface{} gives: its error, if any, and the entries, each as the document
that json.Marshal prints for it. *)
Inductive body :=
  | SingleBody (doc : result string json)
  | BatchBody (err : option string) (entries : list json).

(** json.Marshal of a decoded entry succeeds: it holds no unsupported value. *)
Definition json_Marshal (entry : json) : result string json := Ok entry.

Definition rpc_error (code : Z) (msg : string) : RPCError := MkRPCError code msg.
Definition parse_failure (err : string) : RPCError :=
  rpc_error (Code ErrRPCParse) ("Failed to parse request: " ++ err).
Definition invalid_request (err : string) : RPCError :=
  rpc_error (Code ErrRPCInvalidRequest) ("Invalid request: " ++ err).

(** [if resp != nil { results = append(results, resp) }]. *)
Definition append_reply (results : list json) (resp : option json) : list json :=
  match resp with Some r => (results ++ [r])%list | None => results end.

(** The single-request part of jsonRPCRead: [None] is the return without a
response, otherwise the results. *)
Definition single_results (RPCQuirks : bool) (doc : result string json) (isAdmin : bool) :
    result panic (option (list json)) :=
  let '(err, req) := match doc with
                     | Err e => (Some e, zeroRequest)
                     | Ok j => UnmarshalRequest j
                     end in
  let parsed := match err with
                | Some e => MarshalResponse RpcVersion1 JNull JNull (Some (parse_failure e))
                | None => Ok JNull
                end in
  match parsed with
  | Ok _ =>
      match ID req with
      | JNull => if negb (RPCQuirks && bool_decide (Jsonrpc req = "")) then Ok None
                 else resp ← processRequest req isAdmin; Ok (Some (append_reply [] resp))
      | _ => resp ← processRequest req isAdmin; Ok (Some (append_reply [] resp))
      end
  | Err _ => Ok (Some [])
  end.

(** One entry of a batch: its reply, if any. *)
Definition batch_entry (entry : json) (isAdmin : bool) : result panic (option json) :=
  match json_Marshal entry with
  | Err err => Ok (reply_or_nil (MarshalResponse RpcVersion2 JNull JNull (Some (invalid_request err))))
  | Ok reqBytes =>
      match UnmarshalRequest reqBytes with
      | (Some err, _) => Ok (reply_or_nil (MarshalResponse "" JNull JNull (Some (invalid_request err))))
      | (None, req) => processRequest req isAdmin
      end
  end.

Fixpoint batch_loop (entries : list json) (isAdmin : bool) (results : list json) : result panic (list json) :=
  match entries with
  | [] => Ok results
  | entry :: rest =>
      resp ← batch_entry entry isAdmin;
      batch_loop rest isAdmin (append_reply results resp)
  end.

(** The batch part of jsonRPCRead: the results and batchSize. *)
Definition batch_results (err : option string) (entries : list json) (isAdmin : bool) :
    result panic (list json * nat) :=
  let '(err, results) :=
    match err with
    | Some e => let m := MarshalResponse RpcVersion2 JNull JNull (Some (parse_failure e)) in
                (negb (is_ok m), append_reply [] (reply_or_nil m))
    | None => (false, [])
    end in
  if err then Ok (results, O)
  else
    match entries with
    | [] => Ok (append_reply results (reply_or_nil
                 (MarshalResponse RpcVersion2 JNull JNull (Some (invalid_request "empty batch")))), O)
    | _ => results ← batch_loop entries isAdmin results; Ok (results, length entries)
    end.

(** What is written: text and marshalled documents. *)
Inductive chunk := CText (s : string) | CJson (j : json).

(** The loop that forms the text of a batched response. *)
Fixpoint batch_buffer (results : list json) : list chunk :=
  match results with
  | [] => []
  | [reply] => [CJson reply; CText "]"]
  | reply :: rest => CJson reply :: CText "," :: batch_buffer rest
  end.

(** msg, from the results, as both branches at the end of jsonRPCRead form it. *)
Definition response_msg (batchedRequest : bool) (batchSize : nat) (results : list json) : list chunk :=
  let msg := if batchedRequest && (0 <? batchSize)%nat then
               match results with [] => [] | _ => CText "[" :: batch_buffer results end
             else [] in
  if negb batchedRequest || (batchSize =? 0)%nat then
    match results with r :: _ => [CJson r] | [] => msg end
  else msg.
