(* ===== verification/RpcServerProps.v ===== *)
(** * Properties of the RPC server

What processRequest answers on every request, what limited users reach, and how
single and batched bodies turn into responses. *)

From Stdlib Require Import ZArith Lia List.
From Stdlib Require Import Strings.String Strings.Ascii Strings.Byte.
From stdpp Require Import pretty.
From S2P Require Import Prelude WireFormat ChainHash JsonTypes AcbcJson AcbcJsonProps AcbcJsonCmds RpcAuth.
From S2P Require Import RpcServer.

#[local] Open Scope list_scope.
#[local] Set Warnings "-register-all".

(** ** Decimal text *)

Definition is_digit (c : byte) : bool := (0x30 <=? byte_val c) && (byte_val c <=? 0x39).

Lemma to_bytes_String c s : to_bytes (String c s) = byte_of_ascii c :: to_bytes s.
Proof. reflexivity. Qed.

Lemma pretty_digit x : is_digit (byte_of_ascii (pretty_N_char x)) = true.
Proof. destruct x as [|[[[[]|[]|]|[[]|[]|]|]|[[[]|[]|]|[[]|[]|]|]|]]; reflexivity. Qed.

Lemma pretty_N_go_digits k : forall x s, (x < 10 ^ N.of_nat k)%N -> forallb is_digit (to_bytes s) = true ->
  forallb is_digit (to_bytes (pretty_N_go x s)) = true /\
  (length (to_bytes (pretty_N_go x s)) <= k + length (to_bytes s))%nat.
Proof.
  induction k as [|k IH]; intros x s Hx Hs.
  - assert (x = 0)%N as -> by (cbn in Hx; lia). rewrite pretty_N_go_0. split; [done|lia].
  - destruct (decide (x = 0)%N) as [->|Hne]; [rewrite pretty_N_go_0; split; [done|lia]|].
    rewrite pretty_N_go_step by lia.
    destruct (IH (x / 10)%N (String (pretty_N_char (x mod 10)) s)) as [H1 H2].
    + apply N.Div0.div_lt_upper_bound. rewrite Nat2N.inj_succ, N.pow_succ_r' in Hx. exact Hx.
    + rewrite to_bytes_String. cbn [forallb]. now rewrite pretty_digit, Hs.
    + split; [exact H1|]. rewrite to_bytes_String in H2. cbn [length] in H2. lia.
Qed.

(** A non-negative int64 in decimal: digits, at most nineteen of them. *)
Lemma fmt_d_digits z : 0 <= z < 2 ^ 63 ->
  forallb is_digit (to_bytes (fmt_d z)) = true /\ (length (to_bytes (fmt_d z)) <= 19)%nat.
Proof.
  intros Hz. destruct z as [|p|p]; [split; [reflexivity|cbn; lia]| |lia].
  change (fmt_d (Z.pos p)) with (pretty_N_go (N.pos p) ""%string).
  destruct (pretty_N_go_digits 19 (N.pos p) ""%string) as [H1 H2]; [|reflexivity|split; [exact H1|rewrite Nat.add_0_r in H2; exact H2]].
  change (10 ^ N.of_nat 19)%N with 10000000000000000000%N. change (2 ^ 63) with 9223372036854775808 in Hz. lia.
Qed.

Lemma digit_nibbles a b : is_digit a = true -> is_digit b = true ->
  exists x y, fromHexChar a = Some x /\ fromHexChar b = Some y /\
    [toHexChar (Z.shiftr (byte_val (byte_of (Z.lor (Z.shiftl x 4) y))) 4);
     toHexChar (Z.land (byte_val (byte_of (Z.lor (Z.shiftl x 4) y))) 0x0f)] = [a; b].
Proof.
  intros Ha Hb.
  assert (H : forall c, is_digit c = true -> In c (map byte_of [48; 49; 50; 51; 52; 53; 54; 55; 56; 57])).
  { intros c Hc. unfold is_digit in Hc. boolify. rewrite <- (byte_of_val c). apply in_map.
    assert (byte_val c = 48 \/ byte_val c = 49 \/ byte_val c = 50 \/ byte_val c = 51 \/ byte_val c = 52 \/ byte_val c = 53
      \/ byte_val c = 54 \/ byte_val c = 55 \/ byte_val c = 56 \/ byte_val c = 57) by lia. cbn. intuition congruence. }
  apply H in Ha, Hb. clear H. cbn [map] in Ha, Hb. exists (byte_val a - 48), (byte_val b - 48).
  repeat (destruct Ha as [<-|Ha]; [repeat (destruct Hb as [<-|Hb]; [vm_compute; split_and!; reflexivity|]); destruct Hb|]). destruct Ha.
Qed.

Lemma hex_digits_roundtrip n : forall s, length s = (2 * n)%nat -> forallb is_digit s = true ->
  exists bs, hex_Decode s = Ok bs /\ hex_EncodeToString bs = s /\ length bs = n.
Proof.
  induction n as [|n IH]; intros s Hl Hd.
  - destruct s; [|discriminate]. exists []. done.
  - destruct s as [|a [|b s]]; cbn in Hl; try lia. cbn [forallb] in Hd. rewrite !andb_true_iff in Hd.
    destruct Hd as (Ha & Hb & Hs). destruct (IH s ltac:(lia) Hs) as (bs & E & Eenc & Elen).
    destruct (digit_nibbles a b Ha Hb) as (x & y & Ex & Ey & Exy).
    exists (byte_of (Z.lor (Z.shiftl x 4) y) :: bs). cbn [hex_Decode]. rewrite Ex, Ey, E. split_and!; [done| |cbn; lia].
    change (hex_EncodeToString (?v :: bs)) with
      ([toHexChar (Z.shiftr (byte_val v) 4); toHexChar (Z.land (byte_val v) 0x0f)] ++ hex_EncodeToString bs).
    rewrite Exy, Eenc. done.
Qed.

Lemma hex_Encode_app x y : hex_EncodeToString (x ++ y) = hex_EncodeToString x ++ hex_EncodeToString y.
Proof. unfold hex_EncodeToString. now rewrite map_app, concat_app. Qed.

Lemma hex_Encode_zeros k : hex_EncodeToString (replicate k x00) = replicate (2 * k) x30.
Proof.
  induction k as [|k IH]; [done|]. change (replicate (S k) x00) with ([x00] ++ replicate k x00).
  rewrite hex_Encode_app, IH. replace (2 * S k)%nat with (S (S (2 * k))) by lia. reflexivity.
Qed.

(** Reading decimal digits as a hash and showing it pads them with zeros. *)
Lemma hash_of_digits src : (length src <= 64)%nat -> forallb is_digit src = true ->
  exists h, NewHashFromStr src = Ok h /\ Hash_String h = replicate (64 - length src) x30 ++ src.
Proof.
  intros Hl Hd.
  set (s := if len src mod 2 =? 0 then src else x30 :: src).
  assert (Hs : exists n, length s = (2 * n)%nat /\ (n <= 32)%nat /\ forallb is_digit s = true /\
             replicate (64 - length s) x30 ++ s = replicate (64 - length src) x30 ++ src).
  { unfold s, len. destruct (Z.eqb_spec (Z.of_nat (length src) mod 2) 0) as [E|E].
    - exists (Z.to_nat (Z.of_nat (length src) / 2)). split_and!; try done; Z.div_mod_to_equations; lia.
    - exists (Z.to_nat (Z.of_nat (length src) / 2) + 1)%nat. cbn [length forallb]. split_and!;
        [Z.div_mod_to_equations; lia|Z.div_mod_to_equations; lia|now rewrite Hd|].
      replace (64 - length src)%nat with (S (64 - S (length src))) by (Z.div_mod_to_equations; lia).
      rewrite replicate_S_end, <- app_assoc. reflexivity. }
  destruct Hs as (n & Hn & Hn32 & Hsd & Hpad).
  destruct (hex_digits_roundtrip n s Hn Hsd) as (bs & Eb & Eenc & Elen).
  exists (reverse_copy (replicate (32 - n) x00 ++ bs) (replicate 32 x00)).
  assert (Hrc : reverse_copy (replicate (32 - n) x00 ++ bs) (replicate 32 x00) = rev (replicate (32 - n) x00 ++ bs)).
  { apply reverse_copy_rev; [rewrite length_app, length_replicate; lia|apply length_replicate]. }
  split.
  - unfold NewHashFromStr, Decode. fold s.
    replace (MaxHashStringSize <? len src) with false
      by (symmetry; apply Z.ltb_ge; unfold len, MaxHashStringSize, HashSize; lia).
    assert (Hoff : HashSize - len s / 2 = Z.of_nat (32 - n)).
    { unfold len, HashSize. rewrite Hn. rewrite Nat2Z.inj_mul, Z.mul_comm, Z.div_mul by lia. lia. }
    rewrite Hoff. replace (Z.of_nat (32 - n) <? 0) with false by (symmetry; apply Z.ltb_ge; lia).
    rewrite Eb, Nat2Z.id. done.
  - rewrite Hrc. rewrite Hash_String_spec by (rewrite List.length_rev, length_app, length_replicate; lia).
    rewrite rev_involutive, hex_Encode_app, hex_Encode_zeros, Eenc, <- Hpad. f_equal. f_equal. lia.
Qed.

(** ** The registry and the tables *)

Lemma the_registry_ok : reg_ok the_registry.
Proof. apply init_reg_ok, init_some. Qed.

(** The methods UnmarshalCmd knows: getblockhash and the notifications. *)
Lemma registered_methods m rtp : methodToConcreteType the_registry !! m = Some rtp -> In m (map fst registered).
Proof.
  assert (H : dom (methodToConcreteType the_registry) = list_to_set (map fst registered)) by decide_now.
  intros Hm. apply list_elem_of_In. apply (elem_of_list_to_set (C := gset string)). rewrite <- H.
  apply elem_of_dom. eauto.
Qed.

Lemma tables_unregistered m : m ∈ rpcAskWallet \/ m ∈ rpcUnimplemented -> methodToConcreteType the_registry !! m = None.
Proof.
  intros Hm. destruct (methodToConcreteType the_registry !! m) as [rtp|] eqn:E; [exfalso|done].
  apply registered_methods in E.
  assert (H : Forall (fun m => m ∉ rpcAskWallet ∪ rpcUnimplemented) (map fst registered)) by decide_now.
  rewrite List.Forall_forall in H. apply (H m E), elem_of_union, Hm.
Qed.

Lemma parseCmd_spec r :
  parseCmd r = Ok (match UnmarshalCmd the_registry r with
    | Ok cmd => MkParsed (Jsonrpc r) (ID r) (Method r) (Some cmd) None
    | Err e => MkParsed (Jsonrpc r) (ID r) (Method r) None (Some
        match e with
        | Error ErrUnregisteredMethod _ => ErrRPCMethodNotFound
        | e => NewRPCError (-32602) (Error_Error e)
        end)
    end).
Proof.
  pose proof (UnmarshalCmd_no_panic the_registry r the_registry_ok) as H. unfold parseCmd.
  destruct (UnmarshalCmd the_registry r) as [cmd|[c d|]]; [done| |done]. now destruct c.
Qed.

(** ** One request *)

Definition is_null (j : json) : bool := match j with JNull => true | _ => false end.
Definition is_malformed (r : Request) : bool :=
  bool_decide (Method r = ""%string) || match Params r with None => true | Some _ => false end.
Definition not_authorized : RPCError := MkRPCError (-32603) "limited user not authorized for this method".

(** What is sent for an error or a result: nothing if it does not marshal. *)
Definition error_reply (r : Request) (e : RPCError) : option json :=
  reply_or_nil (MarshalResponse (Jsonrpc r) (ID r) JNull (Some e)).
Definition result_reply (r : Request) (res : json) : option json :=
  reply_or_nil (MarshalResponse (Jsonrpc r) (ID r) res None).

Lemma processRequest_eq r isAdmin :
  processRequest r isAdmin =
    if negb isAdmin && negb (bool_decide (Method r ∈ rpcLimited)) then Ok (error_reply r not_authorized)
    else if is_malformed r then Ok (error_reply r malformed)
    else if is_null (ID r) then Ok None
    else match UnmarshalCmd the_registry r with
         | Err (Error ErrUnregisteredMethod _) => Ok (error_reply r ErrRPCMethodNotFound)
         | Err e => Ok (error_reply r (MkRPCError (-32602) (Error_Error e)))
         | Ok cmd =>
             res ← standardCmdResult (MkParsed (Jsonrpc r) (ID r) (Method r) (Some cmd) None);
             Ok (reply_or_nil (createMarshalledReply (Jsonrpc r) (ID r) res.1
               match res.2 with Some (GRpc e) => Some (GRpc e) | Some (GOther _) => Some (GRpc malformed) | None => None end))
         end.
Proof.
  unfold processRequest. destruct (_ && _); [done|]. fold (is_malformed r). destruct (is_malformed r); [done|].
  rewrite parseCmd_spec. pose proof (UnmarshalCmd_no_panic the_registry r the_registry_ok) as Hp.
  assert (Hid : forall A (a b : A), match ID r with JNull => a | _ => b end = if is_null (ID r) then a else b)
    by (intros; now destruct (ID r)).
  rewrite Hid. destruct (is_null (ID r)); [done|].
  destruct (UnmarshalCmd the_registry r) as [cmd|[c d|]]; [|now destruct c|done].
  cbn [mbind result_bind p_err]. now destruct (standardCmdResult _) as [[? [[]|]]|].
Qed.

(** A method that is registered but is not getblockhash has no handler. *)
Lemma standardCmdResult_other v id m cmd e rtp : methodToConcreteType the_registry !! m = Some rtp ->
  m <> "getblockhash"%string ->
  standardCmdResult (MkParsed v id m cmd e) = Ok (JNull, Some (GRpc ErrRPCMethodNotFound)).
Proof.
  intros Hm Hne. unfold standardCmdResult. cbn [p_method p_cmd].
  unfold rpcHandlers. rewrite lookup_singleton_ne by congruence.
  rewrite !bool_decide_eq_false_2; [done|..]; intros H; enough (methodToConcreteType the_registry !! m = None) by congruence;
    apply tables_unregistered; tauto.
Qed.

(** A text that starts with a minus sign is no hash. *)
Lemma NewHashFromStr_minus t : exists e, NewHashFromStr (x2d :: t) = Err e.
Proof.
  unfold NewHashFromStr, Decode. destruct (_ <? _); [eauto|]. destruct (_ mod 2 =? 0) eqn:E.
  - destruct (_ <? 0); [eauto|]. destruct t; [discriminate E|cbn; eauto].
  - destruct (_ <? 0); [eauto|]. cbn. eauto.
Qed.

(** A handler gives a result or an error, not both. *)
Lemma standardCmdResult_one p :
  match standardCmdResult p with Ok (res, e) => res = JNull \/ e = None | Err _ => True end.
Proof.
  unfold standardCmdResult, rpcHandlers. destruct (decide (p_method p = "getblockhash"%string)) as [->|Hne].
  - rewrite lookup_singleton_eq. generalize (p_cmd p). intros cmd. unfold handleGetBlockHash.
    destruct cmd as [[t v]|]; [|exact I]. destruct v as [| | | | |[v|]| |]; try exact I.
    destruct v as [| | | | | |[|[] []]|]; try exact I. destruct (bool_decide _); [|exact I].
    destruct (NewHashFromStr _); [now right|exact I].
  - rewrite lookup_singleton_ne by done. repeat (destruct (bool_decide _); [now left|]). now left.
Qed.

(** C6: a limited user reaches nothing but the commands of rpcLimited.  For a
limited user processRequest refuses any other method with error -32603 whatever
the rest of the request is, without looking at its parameters, and treats the
methods of rpcLimited exactly as for an administrator. *)
Theorem processRequest_limited r :
  processRequest r false =
    if decide (Method r ∈ rpcLimited) then processRequest r true else Ok (error_reply r not_authorized).
Proof.
  rewrite !processRequest_eq. cbn [negb andb]. rewrite decide_bool_decide. now destruct (bool_decide _).
Qed.

Lemma UnmarshalCmd_getblockhash version index id : in_i64 index ->
  UnmarshalCmd the_registry (MkRequest version "getblockhash" (Some [JInt index]) id) =
    Ok (TPtr GetBlockHashCmd, VPtr (Some (VStruct [VInt index]))).
Proof.
  intros Hi. unfold UnmarshalCmd. cbn [Method request_params Params].
  replace (methodToConcreteType the_registry !! "getblockhash"%string) with (Some (TPtr GetBlockHashCmd))
    by (vm_compute; reflexivity).
  replace (methodToInfo the_registry !! "getblockhash"%string) with (Some (MkInfo 1 1 0 ∅ 0 ""))
    by (vm_compute; reflexivity).
  cbn. unfold int_fits. replace (_ && _) with true; [done|].
  symmetry. apply andb_true_iff. rewrite Z.leb_le, Z.ltb_lt. exact Hi.
Qed.

(** The index in decimal, padded with zeros to 64 characters. *)
Definition padded_decimal (index : Z) : string :=
  let digits := to_bytes (fmt_d index) in string_of_list_byte (replicate (64 - length digits) x30 ++ digits).

Lemma standardCmdResult_getblockhash v id e index : in_i64 index ->
  standardCmdResult (MkParsed v id "getblockhash" (Some (TPtr GetBlockHashCmd, VPtr (Some (VStruct [VInt index])))) e) =
    if index <? 0 then Err NilDereference else Ok (JStr (padded_decimal index), None).
Proof.
  intros Hi. unfold standardCmdResult. cbn [p_method p_cmd]. unfold rpcHandlers. rewrite lookup_singleton_eq.
  unfold handleGetBlockHash. rewrite bool_decide_eq_true_2 by done. unfold padded_decimal.
  set (digits := to_bytes (fmt_d index)). destruct (Z.ltb_spec index 0).
  - assert (Hd : exists t, digits = x2d :: t) by (destruct index as [|p|p]; [lia|lia|]; eexists; reflexivity).
    destruct Hd as [t ->]. destruct (NewHashFromStr_minus t) as [e' ->]. done.
  - destruct (fmt_d_digits index) as [H1 H2]; [unfold in_i64 in Hi; lia|]. fold digits in H1, H2.
    destruct (hash_of_digits digits ltac:(lia) H1) as (h & -> & ->). done.
Qed.

(** Getblockhash, the one command with a handler.  With a 64-bit index in its
parameters the reply is the index in decimal, padded with zeros to 64
characters, whatever the chain holds; a negative index is a nil dereference. *)
Theorem processRequest_getblockhash version id index isAdmin :
  in_i64 index -> id <> JNull ->
  let r := MkRequest version "getblockhash" (Some [JInt index]) id in
  let digits := to_bytes (fmt_d index) in
  processRequest r isAdmin =
    if index <? 0 then Err NilDereference
    else Ok (result_reply r (JStr (string_of_list_byte (replicate (64 - length digits) x30 ++ digits)))).
Proof.
  intros Hi Hid r digits. rewrite processRequest_eq.
  replace (negb isAdmin && _) with false by (destruct isAdmin; vm_compute; reflexivity).
  change (is_malformed r) with false. change (ID r) with id.
  replace (is_null id) with false by now destruct id. cbv iota.
  unfold r at 1. rewrite UnmarshalCmd_getblockhash by done. cbv iota. unfold r at 1 2 3. cbn [Jsonrpc ID Method].
  rewrite standardCmdResult_getblockhash by done. now destruct (index <? 0).
Qed.

(** C39: every other method is answered with an error.  Without a handler beside
getblockhash, processRequest never panics and sends no result: it refuses with
"not authorized" or "malformed", stays silent on a null id, and else answers
-32602 for a known notification with bad parameters and "Method not found" for
everything else; the wallet and the unimplemented commands are no exception, so
their own two errors are never sent. *)
Theorem processRequest_errors r isAdmin :
  Method r <> "getblockhash"%string ->
  processRequest r isAdmin = Ok (
    if negb isAdmin && negb (bool_decide (Method r ∈ rpcLimited)) then error_reply r not_authorized
    else if is_malformed r then error_reply r malformed
    else if is_null (ID r) then None
    else error_reply r
      match UnmarshalCmd the_registry r with
      | Ok _ => ErrRPCMethodNotFound
      | Err (Error ErrUnregisteredMethod _) => ErrRPCMethodNotFound
      | Err e => MkRPCError (-32602) (Error_Error e)
      end) /\
  (Method r ∈ rpcAskWallet \/ Method r ∈ rpcUnimplemented -> forall e,
    UnmarshalCmd the_registry r = Err e -> e = notRegistered (Method r)) /\
  (Method r ∈ rpcAskWallet \/ Method r ∈ rpcUnimplemented -> ~ is_ok (UnmarshalCmd the_registry r)).
Proof.
  intros Hne. split.
  - rewrite processRequest_eq. destruct (_ && _); [done|]. destruct (is_malformed r); [done|].
    destruct (is_null (ID r)); [done|].
    destruct (UnmarshalCmd the_registry r) as [cmd|[c d|]] eqn:E; [|now destruct c|done].
    assert (Hm : exists rtp, methodToConcreteType the_registry !! Method r = Some rtp).
    { unfold UnmarshalCmd in E. destruct (methodToConcreteType the_registry !! Method r); [eauto|discriminate]. }
    destruct Hm as [rtp Hm]. rewrite (standardCmdResult_other _ _ _ _ _ rtp Hm Hne). done.
  - split; intros Hm%tables_unregistered; unfold UnmarshalCmd; rewrite Hm; [congruence|intros []].
Qed.

(** C38: every response answers its request.  Whatever processRequest sends is a
JSON-RPC response with the version and the id of the request and a null result
or a null error; so a request whose version is not 1.0 or 2.0, or whose id is a
boolean, an array or an object, is never answered. *)
Theorem processRequest_response r isAdmin j :
  processRequest r isAdmin = Ok (Some j) ->
  (Jsonrpc r = RpcVersion1 \/ Jsonrpc r = RpcVersion2) /\ IsValidIDType (ID r) = true /\
  exists res err, (res = JNull \/ err = JNull) /\
    j = JObj [("jsonrpc"%string, JStr (Jsonrpc r)); ("result"%string, res); ("error"%string, err); ("id"%string, ID r)].
Proof.
  assert (H : forall res e, (res = JNull \/ e = None) ->
    reply_or_nil (MarshalResponse (Jsonrpc r) (ID r) res e) = Some j ->
    (Jsonrpc r = RpcVersion1 \/ Jsonrpc r = RpcVersion2) /\ IsValidIDType (ID r) = true /\
    exists res err, (res = JNull \/ err = JNull) /\
    j = JObj [("jsonrpc"%string, JStr (Jsonrpc r)); ("result"%string, res); ("error"%string, err); ("id"%string, ID r)]).
  { intros res e Hre. unfold MarshalResponse, NewResponse.
    destruct (IsValid (Jsonrpc r)) eqn:Ev; [|done]. destruct (IsValidIDType (ID r)) eqn:Ei; [|done].
    cbn. intros [= <-]. split_and!; [|done|].
    - unfold IsValid in Ev. cbn in Ev. rewrite !orb_true_iff, !bool_decide_eq_true in Ev. intuition congruence.
    - exists res, (match e with Some e => error_json e | None => JNull end). split; [|done].
      destruct Hre as [->| ->]; auto. }
  assert (He : forall e, @Ok panic _ (error_reply r e) = Ok (Some j) -> _)
    by (intros e E; injection E; exact (H JNull (Some e) (or_introl eq_refl))).
  rewrite processRequest_eq. destruct (_ && _); [apply He|]. destruct (is_malformed r); [apply He|].
  destruct (is_null (ID r)); [done|].
  destruct (UnmarshalCmd the_registry r) as [cmd|[c d|]]; [|destruct c; apply He|apply He].
  pose proof (standardCmdResult_one (MkParsed (Jsonrpc r) (ID r) (Method r) (Some cmd) None)) as Hs.
  destruct (standardCmdResult _) as [[res e]|]; [|done]. cbn. intros [= E].
  destruct Hs as [->| ->]; [apply (H _ _ (or_introl eq_refl) E)|apply (H _ _ (or_intror eq_refl) E)].
Qed.

(** ** Bodies *)

(** The request of a single body: what was stored before any error. *)
Definition single_request (doc : result string json) : Request :=
  match doc with Err _ => zeroRequest | Ok j => (UnmarshalRequest j).2 end.

Lemma processRequest_no_version r isAdmin : IsValid (Jsonrpc r) = false ->
  Method r <> "getblockhash"%string -> processRequest r isAdmin = Ok None.
Proof.
  intros Hv Hne.
  assert (He : forall e, error_reply r e = None) by (intros e; unfold error_reply, MarshalResponse; now rewrite Hv).
  rewrite processRequest_eq, !He. destruct (_ && _); [done|]. destruct (is_malformed r); [done|].
  destruct (is_null (ID r)); [done|].
  destruct (UnmarshalCmd the_registry r) as [cmd|[c d|]] eqn:E; [|destruct c; by rewrite ?He|by rewrite ?He].
  assert (Hm : exists rtp, methodToConcreteType the_registry !! Method r = Some rtp).
  { unfold UnmarshalCmd in E. destruct (methodToConcreteType the_registry !! Method r); [eauto|discriminate]. }
  destruct Hm as [rtp Hm]. rewrite (standardCmdResult_other _ _ _ _ _ rtp Hm Hne).
  transitivity (@Ok panic _ (error_reply r ErrRPCMethodNotFound)); [reflexivity|now rewrite He].
Qed.

(** A single body that fails to parse is never told so.  jsonRPCRead goes on
with whatever part of the request was stored, as if there had been no error: a
body that is no JSON is dropped without a response, or answered with an empty
body under RPC quirks, and the "Failed to parse request" reply is lost. *)
Theorem single_results_parse quirks doc isAdmin :
  let req := single_request doc in
  single_results quirks doc isAdmin =
    (if is_null (ID req) && negb (quirks && bool_decide (Jsonrpc req = ""%string)) then Ok None
     else r ← processRequest req isAdmin; Ok (Some (match r with Some reply => [reply] | None => [] end))) /\
  (is_ok doc = false -> single_results quirks doc isAdmin = Ok (if quirks then Some [] else None)).
Proof.
  intros req.
  assert (H : single_results quirks doc isAdmin =
    (if is_null (ID req) && negb (quirks && bool_decide (Jsonrpc req = ""%string)) then Ok None
     else r ← processRequest req isAdmin; Ok (Some (match r with Some reply => [reply] | None => [] end)))).
  { unfold single_results, req, single_request. destruct doc as [j|e].
    - destruct (UnmarshalRequest j) as [[e|] q]; cbn; (destruct (ID q); cbn; [destruct (negb _); [done|]|..]);
        now destruct (processRequest q isAdmin) as [[]|].
    - cbn. destruct (negb _); [done|]. now destruct (processRequest zeroRequest isAdmin) as [[]|]. }
  split; [exact H|]. intros Hd. rewrite H. destruct doc as [j|e]; [discriminate Hd|]. subst req. cbn [single_request].
  change (is_null (ID zeroRequest)) with true. cbn [andb]. change (bool_decide (Jsonrpc zeroRequest = ""%string)) with true.
  destruct quirks; [|done]. cbn [andb negb]. now rewrite processRequest_no_version.
Qed.

(** The reply to one entry of a batch, on its own. *)
Definition entry_reply (isAdmin : bool) (entry : json) : option json :=
  match batch_entry entry isAdmin with Ok r => r | Err _ => None end.

Lemma batch_loop_spec isAdmin entries : forall results,
  Forall (fun e => is_ok (batch_entry e isAdmin)) entries ->
  batch_loop entries isAdmin results = Ok (results ++ omap (entry_reply isAdmin) entries).
Proof.
  induction entries as [|e entries IH]; intros results H; cbn [batch_loop omap list_omap]; [by rewrite app_nil_r|].
  inv H. unfold entry_reply at 1. destruct (batch_entry e isAdmin) as [r|]; [|done]. cbn [mbind result_bind].
  rewrite IH by done. destruct r; cbn; [by rewrite <- app_assoc|done].
Qed.

(** The text of a JSON array of documents. *)
Definition array_text (l : list json) : list chunk :=
  match l with [] => [] | x :: k => CText "[" :: CJson x :: flat_map (fun y => [CText ","; CJson y]) k ++ [CText "]"] end.

Lemma batch_buffer_spec x k : batch_buffer (x :: k) = CJson x :: flat_map (fun y => [CText ","; CJson y]) k ++ [CText "]"].
Proof. revert x. induction k as [|y k IH]; intros x; [done|]. change (batch_buffer (x :: y :: k)) with
  (CJson x :: CText "," :: batch_buffer (y :: k)). now rewrite IH. Qed.

(** A batch is answered entry by entry.  For a non-empty batch none of whose
entries panics the response is the JSON array of the replies its entries get on
their own, in their order, without the entries that get none: no text at all
when there is no reply.  An entry that is not a request gets none, since its
error is marshalled with an empty version.  An empty batch, and one that does
not parse, get a single error that is no array. *)
Theorem batch_response isAdmin entries err :
  Forall (fun e => is_ok (batch_entry e isAdmin)) entries ->
  let response := r ← batch_results err entries isAdmin; Ok (response_msg true r.2 r.1) in
  (forall entry e req, UnmarshalRequest entry = (Some e, req) -> entry_reply isAdmin entry = None) /\
  match err, entries with
  | None, [] => exists j, response = Ok [CJson j] /\
      MarshalResponse RpcVersion2 JNull JNull (Some (MkRPCError (-32600) "Invalid request: empty batch")) = Ok j
  | None, _ => response = Ok (array_text (omap (entry_reply isAdmin) entries))
  | Some e, [] => exists j, response = Ok [CJson j] /\
      MarshalResponse RpcVersion2 JNull JNull (Some (MkRPCError (-32700) ("Failed to parse request: " +:+ e))) = Ok j
  | Some e, _ => exists j, response = Ok (array_text (j :: omap (entry_reply isAdmin) entries)) /\
      MarshalResponse RpcVersion2 JNull JNull (Some (MkRPCError (-32700) ("Failed to parse request: " +:+ e))) = Ok j
  end.
Proof.
  intros H. cbn zeta. split.
  - intros entry e req E. unfold entry_reply, batch_entry, json_Marshal. now rewrite E.
  - assert (Ha : forall n l, response_msg true (S n) l = array_text l).
    { intros n l. unfold response_msg. cbn. destruct l as [|x k]; [done|]. now rewrite batch_buffer_spec. }
    unfold batch_results.
    assert (Hl : forall l, (results ← batch_loop entries isAdmin l; @Ok panic _ (results, length entries)) =
                  Ok (l ++ omap (entry_reply isAdmin) entries, length entries))
      by (intros l; now rewrite batch_loop_spec).
    destruct err as [e|], entries as [|x k]; cbn [is_ok negb].
    + eexists. split; reflexivity.
    + eexists. split; [|reflexivity].
      change (negb (is_ok ?m)) with false. cbv iota. rewrite Hl. cbn [mbind result_bind fst snd length]. now rewrite Ha.
    + eexists. split; reflexivity.
    + rewrite Hl. cbn [mbind result_bind fst snd length app]. now rewrite Ha.
Qed.

(** ** Concrete runs *)

Example processRequest_getblockhash_witness :
  processRequest (MkRequest "1.0" "getblockhash" (Some [JInt (-1)]) (JInt 7)) true = Err NilDereference /\
  exists j, processRequest (MkRequest "1.0" "getblockhash" (Some [JInt 5]) (JInt 7)) false = Ok (Some j).
Proof.
  split; [apply (processRequest_getblockhash "1.0" (JInt 7) (-1) true); [unfold in_i64; lia|discriminate]|].
  eexists. apply (processRequest_getblockhash "1.0" (JInt 7) 5 false); [unfold in_i64; lia|discriminate].
Defined.

Example processRequest_errors_witness :
  processRequest (MkRequest "2.0" "sendtoaddress" (Some []) (JInt 1)) true =
    Ok (error_reply (MkRequest "2.0" "sendtoaddress" (Some []) (JInt 1)) ErrRPCMethodNotFound).
Proof.
  destruct (processRequest_errors (MkRequest "2.0" "sendtoaddress" (Some []) (JInt 1)) true ltac:(discriminate)) as [H _].
  rewrite H. vm_compute. reflexivity.
Defined.

Definition sample_request : Request := MkRequest "2.0" "getblockhash" (Some [JInt 1]) (JStr "a").

Example processRequest_response_witness :
  exists j, processRequest sample_request false = Ok (Some j) /\ IsValidIDType (ID sample_request) = true /\
    (Jsonrpc sample_request = RpcVersion1 \/ Jsonrpc sample_request = RpcVersion2).
Proof.
  destruct (processRequest sample_request false) as [[j|]|] eqn:E; [|vm_compute in E; discriminate E..].
  exists j. split; [reflexivity|].
  destruct (processRequest_response sample_request false j E) as (Hv & Hi & _). split; [exact Hi|exact Hv].
Defined.

Definition sample_batch : list json :=
  [request_json sample_request; JInt 3; request_json (MkRequest "2.0" "nosuchmethod" (Some []) (JInt 2))].

Example batch_response_witness :
  Forall (fun e => is_ok (batch_entry e true)) sample_batch /\
  (r ← batch_results None sample_batch true; Ok (response_msg true r.2 r.1)) =
    Ok (array_text (omap (entry_reply true) sample_batch)) /\
  length (omap (entry_reply true) sample_batch) = 2%nat.
Proof.
  assert (H : Forall (fun e => is_ok (batch_entry e true)) sample_batch).
  { unfold sample_batch. repeat (apply Forall_cons; split; [vm_compute; exact I|]). apply Forall_nil_2. }
  split; [exact H|]. split; [|vm_compute; reflexivity].
  exact (proj2 (batch_response true sample_batch None H)).
Defined.
