(* ===== verification/RpcHttp.v ===== *)
(** * The HTTP side of the RPC server (rpcserver.go)

Status lines and their cache, the writing of a response, jsonRPCRead as a whole,
the two endpoints that Start installs, and the life cycle of the server. *)

From Stdlib Require Import ZArith Lia List.
From Stdlib Require Import Strings.String Strings.Ascii.
From S2P Require Import Prelude WireFormat JsonTypes AcbcJson AcbcJsonCmds RpcAuth RpcServer.
From S2P Require Import Certgen.

#[local] Open Scope list_scope.
#[local] Open Scope string_scope.
#[local] Set Warnings "-register-all".

(** ** net/http *)

(** http.StatusText. *)
Definition StatusText (code : Z) : string :=
  match code with
  | 100 => "Continue" | 101 => "Switching Protocols" | 102 => "Processing" | 103 => "Early Hints"
  | 200 => "OK" | 201 => "Created" | 202 => "Accepted" | 203 => "Non-Authoritative Information"
  | 204 => "No Content" | 205 => "Reset Content" | 206 => "Partial Content" | 207 => "Multi-Status"
  | 208 => "Already Reported" | 226 => "IM Used"
  | 300 => "Multiple Choices" | 301 => "Moved Permanently" | 302 => "Found" | 303 => "See Other"
  | 304 => "Not Modified" | 305 => "Use Proxy" | 307 => "Temporary Redirect" | 308 => "Permanent Redirect"
  | 400 => "Bad Request" | 401 => "Unauthorized" | 402 => "Payment Required" | 403 => "Forbidden"
  | 404 => "Not Found" | 405 => "Method Not Allowed" | 406 => "Not Acceptable"
  | 407 => "Proxy Authentication Required" | 408 => "Request Timeout" | 409 => "Conflict" | 410 => "Gone"
  | 411 => "Length Required" | 412 => "Precondition Failed" | 413 => "Request Entity Too Large"
  | 414 => "Request URI Too Long" | 415 => "Unsupported Media Type" | 416 => "Requested Range Not Satisfiable"
  | 417 => "Expectation Failed" | 418 => "I'm a teapot" | 421 => "Misdirected Request"
  | 422 => "Unprocessable Entity" | 423 => "Locked" | 424 => "Failed Dependency" | 425 => "Too Early"
  | 426 => "Upgrade Required" | 428 => "Precondition Required" | 429 => "Too Many Requests"
  | 431 => "Request Header Fields Too Large" | 451 => "Unavailable For Legal Reasons"
  | 500 => "Internal Server Error" | 501 => "Not Implemented" | 502 => "Bad Gateway"
  | 503 => "Service Unavailable" | 504 => "Gateway Timeout" | 505 => "HTTP Version Not Supported"
  | 506 => "Variant Also Negotiates" | 507 => "Insufficient Storage" | 508 => "Loop Detected"
  | 510 => "Not Extended" | 511 => "Network Authentication Required"
  | _ => ""
  end.

(** (r http.Request) ProtoAtLeast. *)
Definition ProtoAtLeast (proto : Z * Z) (major minor : Z) : bool :=
  ((major <? proto.1) || ((proto.1 =? major) && (minor <=? proto.2)))%Z.

Definition crlf : string := String (ascii_of_nat 13) (String (ascii_of_nat 10) "").
Definition newline : string := String (ascii_of_nat 10) "".

(** A writer that accepts a number of further writes, then fails. *)
Record out := MkOut { written : list chunk; writes_left : option nat }.
Definition write (c : chunk) (w : out) : option string * out :=
  match writes_left w with
  | Some O => (Some "write error", w)
  | Some (S n) => (None, MkOut (written w ++ [c]) (Some n))
  | None => (None, MkOut (written w ++ [c]) None)
  end.
Definition write_all (cs : list chunk) (w : out) : option string * out :=
  fold_left (fun acc c => match acc with (None, w) => write c w | _ => acc end) cs (None, w).

(** A header in the order http.Header.Write sorts it. *)
Definition headers_text (headers : list (string * string)) : string :=
  foldr (fun h t => h.1 ++ ": " ++ h.2 ++ crlf ++ t) "" headers.

(** What a request leads to on the connection. *)
Inductive http_outcome :=
  | NoResponse                               (** the handler returns without writing *)
  | HttpError (text : string) (code : Z)     (** http.Error *)
  | AuthFail                                 (** 401 with the WWW-Authenticate header *)
  | Answered (w : out)                       (** the hijacked connection, closed after this *)
  | Upgraded (authenticated isAdmin : bool). (** handed to WebsocketHandler *)

Definition jsonAuthFail : http_outcome := AuthFail.

(** ** httpStatusLine *)

Definition status_line (proto11 : bool) (code : Z) : string :=
  let proto := if proto11 then "HTTP/1.1" else "HTTP/1.0" in
  let codeStr := fmt_d code in
  let text := StatusText code in
  let text := if bool_decide (text = "") then "status code " ++ codeStr else text in
  proto ++ " " ++ codeStr ++ " " ++ text ++ crlf.

(** The line, and the cache after the call. *)
Definition httpStatusLine (statusLines : gmap Z string) (proto : Z * Z) (code : Z) : string * gmap Z string :=
  let proto11 := ProtoAtLeast proto 1 1 in
  let key := (if negb proto11 then - code else code)%Z in
  match statusLines !! key with
  | Some line => (line, statusLines)
  | None =>
      let proto := if proto11 then "HTTP/1.1" else "HTTP/1.0" in
      let codeStr := fmt_d code in
      let text := StatusText code in
      if negb (bool_decide (text = "")) then
        let line := proto ++ " " ++ codeStr ++ " " ++ text ++ crlf in
        (line, <[key := line]> statusLines)
      else
        let text := "status code " ++ codeStr in
        (proto ++ " " ++ codeStr ++ " " ++ text ++ crlf, statusLines)
  end.

Definition writeHTTPResponseHeaders (statusLines : gmap Z string) (proto : Z * Z)
    (headers : list (string * string)) (code : Z) (w : out) : option string * out * gmap Z string :=
  let '(line, statusLines) := httpStatusLine statusLines proto code in
  match write (CText line) w with
  | (Some err, w) => (Some err, w, statusLines)
  | (None, w) =>
      match write (CText (headers_text headers)) w with
      | (Some err, w) => (Some err, w, statusLines)
      | (None, w) => let '(err, w) := write (CText crlf) w in (err, w, statusLines)
      end
  end.

(** ** jsonRPCRead *)

(** A request as the server sees it: its body or the error of reading it, the
protocol version, whether the connection can be hijacked and the error of doing
so, and the writes the connection still takes. *)
Record http_request := MkHttpRequest {
  h_body : result string body;
  h_auth : list bytes;
  h_proto : Z * Z;
  h_hijacker : bool;
  h_hijack : option string;
  h_writes : option nat
}.

Record rpcServer := MkServer {
  started : Z; shutdown : Z; numClients : Z;
  auth : auth_state; statusLines : gmap Z string; quit_closed : bool; listeners_closed : nat }.

Definition set_statusLines (m : gmap Z string) (s : rpcServer) : rpcServer :=
  MkServer (started s) (shutdown s) (numClients s) (auth s) m (quit_closed s) (listeners_closed s).
Definition set_numClients (n : Z) (s : rpcServer) : rpcServer :=
  MkServer (started s) (shutdown s) n (auth s) (statusLines s) (quit_closed s) (listeners_closed s).

(** The part of config the RPC server reads. *)
Record rpc_config := MkRpcConfig { RPCQuirks : bool; RPCMaxClients : Z; RPCMaxWebsockets : Z }.

(** The headers Start's handler sets. *)
Definition root_headers : list (string * string) :=
  [("Connection", "close"); ("Content-Type", "application/json")].

(** The response text of a body: [None] is the silent return. *)
Definition body_msg (cfg : rpc_config) (b : body) (isAdmin : bool) : result panic (option (list chunk)) :=
  match b with
  | SingleBody doc =>
      r ← single_results (RPCQuirks cfg) doc isAdmin;
      Ok (match r with Some results => Some (response_msg false 0 results) | None => None end)
  | BatchBody err entries =>
      r ← batch_results err entries isAdmin;
      Ok (Some (response_msg true r.2 r.1))
  end.

(** The headers, the response and a newline; a write that fails is logged. *)
Definition write_response (s : rpcServer) (r : http_request) (msg : list chunk) (buf : out) : result panic http_outcome * rpcServer :=
  match writeHTTPResponseHeaders (statusLines s) (h_proto r) root_headers 200 buf with
  | (Some _, buf, lines) => (Ok (Answered buf), set_statusLines lines s)
  | (None, buf, lines) =>
      let '(_, buf) := write_all msg buf in
      let '(_, buf) := write (CText newline) buf in
      (Ok (Answered buf), set_statusLines lines s)
  end.

(** jsonRPCRead.  The goroutine that waits for the client to close the connection is left
out: it assigns the function's own err when its read fails, so that a client that closes
its side early may get no answer; here the client keeps it open. *)
Definition jsonRPCRead (cfg : rpc_config) (s : rpcServer) (r : http_request) (isAdmin : bool) :
    result panic http_outcome * rpcServer :=
  if negb (shutdown s =? 0)%Z then (Ok NoResponse, s)
  else
    match h_body r with
    | Err err => (Ok (HttpError (fmt_d 400 ++ " error reading JSON message: " ++ err) 400), s)
    | Ok b =>
        if negb (h_hijacker r) then (Ok (HttpError (fmt_d 500 ++ " webserver doesn't support hijacking") 500), s)
        else
          match h_hijack r with
          | Some err => (Ok (HttpError (fmt_d 500 ++ " " ++ err) 500), s)
          | None =>
              let buf := MkOut [] (h_writes r) in
              match body_msg cfg b isAdmin with
              | Err p => (Err p, s)
              | Ok None => (Ok (Answered buf), s)
              | Ok (Some msg) =>
                  write_response s r msg buf
              end
          end
    end.

(** ** Clients *)

(** limitConnections: [true] when the client is turned away with 503.
[int(numClients+1)] is an int32 addition. *)
Definition limitConnections (cfg : rpc_config) (s : rpcServer) : bool :=
  (RPCMaxClients cfg <? i32 (numClients s + 1))%Z.
Definition too_busy : http_outcome := HttpError "503 Too busy.  Try again later." 503.

Definition incrementClients (s : rpcServer) : rpcServer := set_numClients (i32 (numClients s + 1)%Z) s.
Definition decrementClients (s : rpcServer) : rpcServer := set_numClients (i32 (numClients s - 1)%Z) s.

(** ** Start *)

(** The handler of the root endpoint, run alone; decrementClients is deferred. *)
Definition serve_root (cfg : rpc_config) (s : rpcServer) (r : http_request) : result panic http_outcome * rpcServer :=
  if limitConnections cfg s then (Ok too_busy, s)
  else
    let s := incrementClients s in
    let '(_, isAdmin, err) := checkAuth (auth s) (h_auth r) true in
    match err with
    | Some _ => (Ok jsonAuthFail, decrementClients s)
    | None => let '(o, s) := jsonRPCRead cfg s r isAdmin in (o, decrementClients s)
    end.

(** The handler of the websocket endpoint: [upgrade] is the error of the upgrade. *)
Definition serve_ws (s : rpcServer) (r : http_request) (upgrade : option string) : http_outcome :=
  let '(authenticated, isAdmin, err) := checkAuth (auth s) (h_auth r) false in
  match err with
  | Some _ => jsonAuthFail
  | None => match upgrade with
            | Some _ => HttpError "400 Bad Request." 400
            | None => Upgraded authenticated isAdmin
            end
  end.

(** Start: whether this call starts the listeners. *)
Definition Start (s : rpcServer) : bool * rpcServer :=
  let n := i32 (started s + 1)%Z in
  let s := MkServer n (shutdown s) (numClients s) (auth s) (statusLines s) (quit_closed s) (listeners_closed s) in
  ((n =? 1)%Z, s).

(** The listeners, each with the error of closing it: how many were closed and
the first error. *)
Fixpoint close_listeners (ls : list (option string)) (n : nat) : nat * option string :=
  match ls with
  | [] => (n, None)
  | Some err :: _ => (n, Some err)
  | None :: rest => close_listeners rest (S n)
  end.

(** Stop: closing the quit channel a second time would panic. *)
Definition Stop (listeners : list (option string)) (s : rpcServer) : result panic (option string) * rpcServer :=
  let n := i32 (shutdown s + 1)%Z in
  let s := MkServer (started s) n (numClients s) (auth s) (statusLines s) (quit_closed s) (listeners_closed s) in
  if negb (n =? 1)%Z then (Ok None, s)
  else
    match close_listeners listeners 0 with
    | (k, Some err) => (Ok (Some err),
        MkServer (started s) n (numClients s) (auth s) (statusLines s) (quit_closed s) k)
    | (k, None) =>
        if quit_closed s then (Err CloseOfClosedChannel, s)
        else (Ok None, MkServer (started s) n (numClients s) (auth s) (statusLines s) true k)
    end.

(** newRPCServer. *)
Definition newRPCServer (cfg : credentials) : rpcServer := MkServer 0 0 0 (newRPCServer_auth cfg) ∅ false 0.

(** genCertPair: the files after the call, by path with their content and mode
(0666 and 0600), and the error.  A write that fails gives its error and the part
written.  [now] is the time the validity of ten years is counted from. *)
Definition genCertPair (env : cert_env) (now : Z) (write_cert write_key : option (string * bytes))
    (certFile keyFile : string) (fs : gmap string (bytes * Z)) : option string * gmap string (bytes * Z) :=
  let org := "btcd autogenerated cert"%string in
  let validUntil := now + 10 * 365 * 24 * hour in
  match NewTLSCertPair env org validUntil [] with
  | Err err => (Some err, fs)
  | Ok (cert, key) =>
      match write_cert with
      | Some (err, part) => (Some err, <[certFile := (part, 438)]> fs)
      | None =>
          let fs := <[certFile := (cert, 438)]> fs in
          match write_key with
          | Some (err, part) => (Some err, delete certFile (<[keyFile := (part, 384)]> fs))
          | None => (None, <[keyFile := (key, 384)]> fs)
          end
      end
  end.
