(* ===== verification/RpcHttpProps.v ===== *)
(** * Properties of the HTTP side of the RPC server

The status line cache, the bytes of a response, the client count on every path
of the root endpoint and under interleaving, and the life cycle. *)

From Stdlib Require Import ZArith Lia List.
From Stdlib Require Import Strings.String Strings.Ascii.
From stdpp Require Import relations.
From S2P Require Import Prelude WireFormat JsonTypes AcbcJson AcbcJsonCmds RpcAuth RpcServer RpcHttp.

#[local] Open Scope list_scope.
#[local] Set Warnings "-register-all".

(** ** Status lines *)

(** Every cached line is the one that would be computed. *)
Definition cache_ok (m : gmap Z string) : Prop :=
  forall key line, m !! key = Some line -> line = status_line (0 <=? key) (Z.abs key).

Lemma empty_cache_ok : cache_ok ∅.
Proof. intros key line. now rewrite lookup_empty. Qed.

Lemma StatusText_positive code : StatusText code <> ""%string -> 0 < code.
Proof. destruct code; cbn; [done|lia|done]. Qed.

Lemma httpStatusLine_ok m proto code : cache_ok m -> 0 <= code ->
  (code = 0 -> ProtoAtLeast proto 1 1 = true) ->
  (httpStatusLine m proto code).1 = status_line (ProtoAtLeast proto 1 1) code /\ cache_ok (httpStatusLine m proto code).2.
Proof.
  intros Hm Hc Hz. unfold httpStatusLine. set (p := ProtoAtLeast proto 1 1) in *.
  assert (Hkey : (0 <=? (if negb p then - code else code)) = p /\ Z.abs (if negb p then - code else code) = code).
  { destruct p; cbn [negb]; [split; [apply Z.leb_le; lia|lia]|].
    split; [apply Z.leb_gt; destruct (Z.eq_dec code 0) as [->|]; [by specialize (Hz eq_refl)|lia]|lia]. }
  destruct Hkey as [Hk1 Hk2]. set (key := if negb p then - code else code) in *.
  destruct (m !! key) as [line|] eqn:E.
  - split; [|done]. cbn [fst]. rewrite (Hm key line E), Hk1, Hk2. done.
  - unfold status_line. destruct (bool_decide (StatusText code = ""%string)) eqn:Et; cbn [negb fst snd].
    + split; [reflexivity|exact Hm].
    + split; [done|]. intros k l. destruct (decide (k = key)) as [->|Hne].
      * rewrite lookup_insert_eq. intros [= <-]. rewrite Hk1, Hk2. unfold status_line. now rewrite Et.
      * rewrite lookup_insert_ne by done. apply Hm.
Qed.

(** The cache of status lines is invisible.  Through any sequence of calls
with status codes above zero, starting from the empty cache of a new server,
httpStatusLine returns the line computed from the protocol version and the code,
whatever was asked before. *)
Theorem httpStatusLine_cached (calls : list (Z * Z * Z)) proto code :
  Forall (fun c => 0 < c.2) calls -> 0 < code ->
  let m := fold_left (fun m c => (httpStatusLine m c.1 c.2).2) calls ∅ in
  (httpStatusLine m proto code).1 = status_line (ProtoAtLeast proto 1 1) code.
Proof.
  intros Hcs Hc m. assert (Hm : cache_ok m).
  { unfold m. generalize empty_cache_ok. generalize (∅ : gmap Z string).
    induction Hcs as [|c cs Hc' _ IH]; intros m0 Hm0; [done|]. cbn [fold_left].
    apply IH, httpStatusLine_ok; [done|lia|lia]. }
  apply httpStatusLine_ok; [done|lia|lia].
Qed.

Example httpStatusLine_cached_witness :
  (httpStatusLine (httpStatusLine ∅ (1, 0) 200).2 (1, 1) 200).1 = ("HTTP/1.1 200 OK" +:+ crlf)%string.
Proof.
  pose proof (httpStatusLine_cached [((1, 0), 200)] (1, 1) 200) as H. cbn [fold_left fst snd] in H.
  rewrite H; [reflexivity|repeat constructor|lia].
Defined.

(** ** The bytes of a response *)

Lemma write_all_unlimited cs w : writes_left w = None ->
  write_all cs w = (None, MkOut (written w ++ cs) None).
Proof.
  intros H. unfold write_all. destruct w as [l n]. cbn in H. subst n. cbn [written].
  assert (G : forall cs l, fold_left (fun acc c => match acc with (None, w) => write c w | _ => acc end) cs (None, MkOut l None)
    = (None, MkOut (l ++ cs) None)).
  { clear. induction cs as [|c cs IH]; intros l; cbn; [by rewrite app_nil_r|]. rewrite IH, <- app_assoc. done. }
  apply G.
Qed.

Definition with_clients (n : Z) (s : rpcServer) : rpcServer := set_numClients n s.

(** What jsonRPCRead writes.  On a running server, for a request whose body was
read and whose connection could be hijacked and takes all writes, the response
is the status line 200 of the request's protocol version, the two headers, an
empty line, the text of the body's results and a final newline; nothing at all
for a single request that must not be answered; and a request that panics
writes nothing. *)
Theorem jsonRPCRead_written cfg s r b isAdmin :
  shutdown s = 0 -> h_body r = Ok b -> h_hijacker r = true -> h_hijack r = None -> h_writes r = None ->
  cache_ok (statusLines s) ->
  (jsonRPCRead cfg s r isAdmin).1 =
    match body_msg cfg b isAdmin with
    | Err p => Err p
    | Ok None => Ok (Answered (MkOut [] None))
    | Ok (Some msg) => Ok (Answered (MkOut
        (CText (status_line (ProtoAtLeast (h_proto r) 1 1) 200) ::
         CText ("Connection: close" +:+ crlf +:+ "Content-Type: application/json" +:+ crlf) ::
         CText crlf :: msg ++ [CText newline]) None))
    end /\
  cache_ok (statusLines (jsonRPCRead cfg s r isAdmin).2) /\ numClients (jsonRPCRead cfg s r isAdmin).2 = numClients s.
Proof.
  intros Hs Hb Hh Hj Hw Hc. unfold jsonRPCRead, write_response. rewrite Hs, Hb, Hh, Hj, Hw. cbn [negb Z.eqb].
  destruct (body_msg cfg b isAdmin) as [[msg|]|p]; [|done|done].
  unfold writeHTTPResponseHeaders.
  destruct (httpStatusLine_ok (statusLines s) (h_proto r) 200 Hc ltac:(lia) ltac:(lia)) as [H1 H2].
  destruct (httpStatusLine (statusLines s) (h_proto r) 200) as [line lines]. cbn [fst snd] in H1, H2. subst line.
  cbn [write writes_left written app]. rewrite write_all_unlimited by done. cbn [write writes_left written app].
  split; [|done]. cbn [fst]. repeat f_equal.
Qed.

Example jsonRPCRead_written_witness :
  (jsonRPCRead (MkRpcConfig false 10 25) (newRPCServer sample_credentials)
     (MkHttpRequest (Ok (BatchBody None [])) [] (1, 1) true None None) true).1 =
  Ok (Answered (MkOut
    [CText ("HTTP/1.1 200 OK" +:+ crlf); CText (headers_text root_headers); CText crlf;
     CJson (JObj [("jsonrpc", JStr "2.0"); ("result", JNull);
       ("error", JObj [("code", JInt (-32600)); ("message", JStr "Invalid request: empty batch")]); ("id", JNull)])%string;
     CText newline] None)).
Proof.
  destruct (jsonRPCRead_written (MkRpcConfig false 10 25) (newRPCServer sample_credentials)
    (MkHttpRequest (Ok (BatchBody None [])) [] (1, 1) true None None) (BatchBody None []) true
    eq_refl eq_refl eq_refl eq_refl eq_refl empty_cache_ok) as [-> _].
  reflexivity.
Defined.

(** ** The root endpoint *)

Lemma jsonRPCRead_clients cfg s r isAdmin : numClients (jsonRPCRead cfg s r isAdmin).2 = numClients s.
Proof.
  unfold jsonRPCRead, write_response. destruct (negb _); [done|]. destruct (h_body r); [|done]. destruct (negb _); [done|].
  destruct (h_hijack r); [done|]. destruct (body_msg _ _ _) as [[]|]; [|done..].
  destruct (writeHTTPResponseHeaders _ _ _ _ _) as [[[] ?] ?]; [done|].
  destruct (write_all _ _). now destruct (write _ _).
Qed.

(** A request leaves the server as it was but for the status lines it made. *)
Lemma jsonRPCRead_state cfg s r isAdmin : exists m, (jsonRPCRead cfg s r isAdmin).2 = set_statusLines m s.
Proof.
  assert (Hs : s = set_statusLines (statusLines s) s) by now destruct s.
  unfold jsonRPCRead, write_response. destruct (negb _); [eauto|]. destruct (h_body r); [|eauto]. destruct (negb _); [eauto|].
  destruct (h_hijack r); [eauto|]. destruct (body_msg _ _ _) as [[msg|]|]; [|eauto..].
  destruct (writeHTTPResponseHeaders _ _ _ _ _) as [[[e|] buf] lines]; [cbn; eauto|].
  destruct (write_all _ _). destruct (write _ _). cbn. eauto.
Qed.

Lemma serve_root_state cfg s r : 0 <= numClients s < 2 ^ 31 - 1 -> exists m, (serve_root cfg s r).2 = set_statusLines m s.
Proof.
  intros Hn. assert (Hs : s = set_statusLines (statusLines s) s) by now destruct s.
  assert (Hd : forall m, decrementClients (set_statusLines m (incrementClients s)) = set_statusLines m s).
  { intros m. unfold decrementClients, incrementClients, set_numClients, set_statusLines. cbn [numClients started shutdown auth statusLines quit_closed listeners_closed].
    unfold i32. rewrite (Z.mod_small (numClients s + 1 + 2 ^ 31)) by lia. rewrite Z.mod_small by lia. f_equal. lia. }
  unfold serve_root. destruct (limitConnections _ _); [eauto|]. cbn [auth incrementClients set_numClients].
  destruct (checkAuth _ _ _) as [[a isAdmin] [e|]].
  - exists (statusLines s). now rewrite <- (Hd (statusLines s)).
  - destruct (jsonRPCRead_state cfg (incrementClients s) r isAdmin) as [m Hm].
    destruct (jsonRPCRead cfg (incrementClients s) r isAdmin) as [o s']. cbn [snd] in *. rewrite Hm. eauto.
Qed.

(** The root endpoint gates and counts.  Run alone, its handler leaves the
client count as it was on every path, a panic included; with the limit reached
it answers 503 and touches nothing; otherwise a request without valid
credentials gets 401 and its body is not looked at, and a request with them is
served with the rights checkAuth found. *)
Theorem serve_root_gate cfg s r :
  0 <= numClients s < 2 ^ 31 - 1 ->
  numClients (serve_root cfg s r).2 = numClients s /\
  (RPCMaxClients cfg <= numClients s -> serve_root cfg s r = (Ok too_busy, s)) /\
  (numClients s < RPCMaxClients cfg ->
     match checkAuth (auth s) (h_auth r) true with
     | (_, _, Some _) => (serve_root cfg s r).1 = Ok AuthFail
     | (_, isAdmin, None) => (serve_root cfg s r).1 = (jsonRPCRead cfg (incrementClients s) r isAdmin).1
     end).
Proof.
  intros Hn. assert (Hi : i32 (numClients s + 1) = numClients s + 1).
  { unfold i32. rewrite Z.mod_small; lia. }
  assert (Hd : i32 (numClients s + 1 - 1) = numClients s).
  { replace (numClients s + 1 - 1) with (numClients s) by lia. unfold i32. rewrite Z.mod_small; lia. }
  unfold serve_root, limitConnections. rewrite Hi.
  destruct (Z.ltb_spec (RPCMaxClients cfg) (numClients s + 1)).
  - split_and!; [done|done|lia].
  - assert (Hb : numClients (decrementClients (incrementClients s)) = numClients s) by (cbn; now rewrite Hi).
    destruct (checkAuth (auth (incrementClients s)) (h_auth r) true) as [[a isAdmin] [e|]] eqn:Ea;
      change (auth (incrementClients s)) with (auth s) in Ea; rewrite Ea.
    + split_and!; [done|lia|done].
    + pose proof (jsonRPCRead_clients cfg (incrementClients s) r isAdmin) as Hj.
      destruct (jsonRPCRead cfg (incrementClients s) r isAdmin) as [o s'] eqn:E. cbn [fst snd] in *.
      split_and!; [|lia|done]. cbn [decrementClients set_numClients numClients]. rewrite Hj.
      cbn [incrementClients set_numClients numClients]. now rewrite Hi.
Qed.

Example serve_root_gate_witness :
  serve_root (MkRpcConfig false 0 25) (newRPCServer sample_credentials)
    (MkHttpRequest (Ok (BatchBody None [])) [] (1, 1) true None None) = (Ok too_busy, newRPCServer sample_credentials).
Proof.
  apply (serve_root_gate (MkRpcConfig false 0 25) (newRPCServer sample_credentials)); cbn; lia.
Defined.

(** ** Interleaved clients

The handler of the root endpoint as atomic steps: limitConnections reads the
count, incrementClients adds to it later, decrementClients runs at the end.
Connections are numbered in the order they arrive. *)

Inductive phase := Arrived | Entered | Counted | Gone.
#[export] Instance phase_eq_dec : EqDecision phase.
Proof. solve_decision. Defined.

Record clients := MkClients { conns : list phase; server : rpcServer }.

Inductive client_step (cfg : rpc_config) : clients -> clients -> Prop :=
  | step_arrive l s : client_step cfg (MkClients l s) (MkClients (l ++ [Arrived]) s)
  | step_refused l s i : l !! i = Some Arrived -> limitConnections cfg s = true ->
      client_step cfg (MkClients l s) (MkClients (<[i := Gone]> l) s)
  | step_admitted l s i : l !! i = Some Arrived -> limitConnections cfg s = false ->
      client_step cfg (MkClients l s) (MkClients (<[i := Entered]> l) s)
  | step_counted l s i : l !! i = Some Entered ->
      client_step cfg (MkClients l s) (MkClients (<[i := Counted]> l) (incrementClients s))
  | step_done l s i : l !! i = Some Counted ->
      client_step cfg (MkClients l s) (MkClients (<[i := Gone]> l) (decrementClients s)).

Definition count_of (p : phase) (l : list phase) : Z := sum_map (fun q => if decide (q = p) then 1 else 0) l.

Lemma sum_map_insert {A} (f : A -> Z) l i x y : l !! i = Some x -> sum_map f (<[i := y]> l) = sum_map f l - f x + f y.
Proof.
  revert i. induction l as [|z l IH]; intros [|i] H; cbn in H; try discriminate; unfold sum_map in *; cbn.
  - injection H as ->. lia.
  - specialize (IH i H). etransitivity; [apply (f_equal (Z.add (f z)) IH)|lia].
Qed.

Lemma count_of_nonneg p l : 0 <= count_of p l.
Proof. unfold count_of, sum_map. induction l as [|q l IH]; cbn; [lia|]. case_decide; lia. Qed.

(** At most [k] connections are between the check and the increment. *)
Definition window (k : Z) (c : clients) : Prop := count_of Entered (conns c) <= k.

Definition clients_inv (cfg : rpc_config) (k : Z) (c : clients) : Prop :=
  numClients (server c) = count_of Counted (conns c) /\
  count_of Counted (conns c) + count_of Entered (conns c) <= RPCMaxClients cfg - 1 + k.

Lemma i32_id z : - 2 ^ 31 <= z < 2 ^ 31 -> i32 z = z.
Proof. intros H. unfold i32. rewrite Z.mod_small; lia. Qed.

#[local] Arguments sum_map : simpl never.

Ltac eval_phases :=
  repeat match goal with
  | |- context [if decide (?a = ?b) then 1 else 0] =>
      let v := eval vm_compute in (if decide (a = b) then 1 else 0) in change (if decide (a = b) then 1 else 0) with v
  end; cbn in *.

Lemma client_step_inv cfg k c c' : 0 <= RPCMaxClients cfg -> 1 <= k -> RPCMaxClients cfg + k < 2 ^ 31 - 1 ->
  clients_inv cfg k c -> client_step cfg c c' -> window k c' -> clients_inv cfg k c'.
Proof.
  intros Hmax Hk Hb [Hn Hi] Hstep Hw.
  pose proof (count_of_nonneg Counted (conns c)). pose proof (count_of_nonneg Entered (conns c)).
  unfold clients_inv, window, count_of in *.
  destruct Hstep as [l s|l s i Hl Hlim|l s i Hl Hlim|l s i Hl|l s i Hl]; cbn [conns server] in *.
  - rewrite !sum_map_app. change (sum_map _ [Arrived]) with 0. cbn. split; lia.
  - rewrite !(sum_map_insert _ _ _ _ _ Hl). eval_phases. split; lia.
  - rewrite !(sum_map_insert _ _ _ _ _ Hl) in *. unfold limitConnections in Hlim. revert Hw. eval_phases. intros Hw.
    rewrite i32_id in Hlim by lia. apply Z.ltb_ge in Hlim. split; lia.
  - rewrite !(sum_map_insert _ _ _ _ _ Hl). eval_phases. rewrite i32_id by lia. split; lia.
  - assert (1 <= sum_map (fun q => if decide (q = Counted) then 1 else 0) l).
    { pose proof (sum_map_insert (fun q => if decide (q = Counted) then 1 else 0) l i Counted Gone Hl) as E.
      pose proof (count_of_nonneg Counted (<[i := Gone]> l)) as Hp. unfold count_of in Hp. revert E. cbv beta. eval_phases. lia. }
    rewrite !(sum_map_insert _ _ _ _ _ Hl). eval_phases. rewrite i32_id by lia. split; lia.
Qed.

Lemma count_gone l : Forall (fun p => p = Gone) l -> count_of Counted l = 0.
Proof. induction 1 as [|p l -> _ IH]; [done|]. exact IH. Qed.

(** How far the client limit holds.  However the handlers interleave, the count
is the number of connections being served, and if at most [k] of them are ever
between the check and the increment it stays below the limit plus [k]: so never
above the limit when the two are not interleaved, while two connections that
both check before either increments do exceed it. *)
Theorem clients_bounded cfg k s c :
  0 <= RPCMaxClients cfg -> 1 <= k -> RPCMaxClients cfg + k < 2 ^ 31 - 1 -> numClients s = 0 ->
  rtc (fun c c' => client_step cfg c c' /\ window k c') (MkClients [] s) c ->
  numClients (server c) = count_of Counted (conns c) /\ numClients (server c) <= RPCMaxClients cfg - 1 + k /\
  (k = 1 -> numClients (server c) <= RPCMaxClients cfg) /\
  (Forall (fun p => p = Gone) (conns c) -> numClients (server c) = 0) /\
  exists c', rtc (client_step (MkRpcConfig false 1 25)) (MkClients [] s) c' /\ numClients (server c') = 2.
Proof.
  intros Hmax Hk Hb Hs Hrun.
  assert (Hinv : clients_inv cfg k c).
  { remember (MkClients [] s) as c0 eqn:E0. assert (H0 : clients_inv cfg k c0).
    { subst c0. unfold clients_inv, count_of, sum_map. cbn. lia. }
    clear E0. induction Hrun as [|c0 c1 c2 [Hstep Hw] _ IH]; [done|]. apply IH. eapply client_step_inv; eauto. }
  destruct Hinv as [Hn Hi]. pose proof (count_of_nonneg Entered (conns c)). split_and!; [done|lia|lia| |].
  - intros Hg. rewrite Hn. now apply count_gone.
  - eexists. split.
    + eapply rtc_l; [apply step_arrive|]. eapply rtc_l; [apply step_arrive|]. cbn [app].
      assert (Hlim : limitConnections (MkRpcConfig false 1 25) s = false) by (unfold limitConnections; now rewrite Hs).
      eapply rtc_l; [apply (step_admitted _ _ _ 0); [done|exact Hlim]|]. cbn.
      eapply rtc_l; [apply (step_admitted _ _ _ 1); [done|exact Hlim]|]. cbn.
      eapply rtc_l; [apply (step_counted _ _ _ 0); done|]. cbn.
      eapply rtc_l; [apply (step_counted _ _ _ 1); done|]. cbn. apply rtc_refl.
    + cbn. now rewrite Hs.
Qed.

Example clients_bounded_witness :
  let c := MkClients [Counted] (incrementClients (newRPCServer sample_credentials)) in
  numClients (server c) = count_of Counted (conns c) /\ numClients (server c) <= 10.
Proof.
  set (cfg := MkRpcConfig false 10 25). set (s := newRPCServer sample_credentials). cbn zeta.
  destruct (clients_bounded cfg 1 s (MkClients [Counted] (incrementClients s))) as (H1 & _ & H2 & _);
    [vm_compute; discriminate|lia|vm_compute; reflexivity|reflexivity| |split; [exact H1|exact (H2 eq_refl)]].
  eapply rtc_l; [split; [apply (step_arrive cfg [])|vm_compute; discriminate]|].
  eapply rtc_l; [split; [apply (step_admitted cfg [Arrived] s 0); reflexivity|vm_compute; discriminate]|].
  eapply rtc_l; [split; [apply (step_counted cfg [Entered] s 0); reflexivity|vm_compute; discriminate]|].
  apply rtc_refl.
Defined.

(** ** Life cycle *)

Fixpoint start_all (n : nat) (s : rpcServer) : list bool * rpcServer :=
  match n with
  | O => ([], s)
  | S n' => let '(b, s) := Start s in let '(l, s) := start_all n' s in (b :: l, s)
  end.

Fixpoint stop_all (ls : list (list (option string))) (s : rpcServer) : list (result panic (option string)) * rpcServer :=
  match ls with
  | [] => ([], s)
  | l :: rest => let '(r, s) := Stop l s in let '(rs, s) := stop_all rest s in (r :: rs, s)
  end.

Lemma start_again n : forall s, 1 <= started s -> started s + Z.of_nat n < 2 ^ 31 -> (start_all n s).1 = replicate n false.
Proof.
  induction n as [|n IH]; intros s H1 H2; [done|]. cbn [start_all]. unfold Start. rewrite i32_id by lia.
  specialize (IH (MkServer (started s + 1) (shutdown s) (numClients s) (auth s) (statusLines s) (quit_closed s) (listeners_closed s))).
  cbn [started] in IH. specialize (IH ltac:(lia) ltac:(lia)). destruct (start_all n _) as [l s']. cbn [fst] in *.
  rewrite IH. replace (started s + 1 =? 1) with false by (symmetry; apply Z.eqb_neq; lia). done.
Qed.

Lemma stop_again ls : forall s, 1 <= shutdown s -> shutdown s + Z.of_nat (length ls) < 2 ^ 31 ->
  (stop_all ls s).1 = map (fun _ => Ok None) ls /\ listeners_closed (stop_all ls s).2 = listeners_closed s.
Proof.
  induction ls as [|l ls IH]; intros s H1 H2; [done|]. cbn [stop_all length] in *. unfold Stop.
  rewrite i32_id by lia. replace (negb (shutdown s + 1 =? 1)) with true by (symmetry; apply negb_true_iff, Z.eqb_neq; lia).
  specialize (IH (MkServer (started s) (shutdown s + 1) (numClients s) (auth s) (statusLines s) (quit_closed s) (listeners_closed s))).
  cbn [shutdown listeners_closed] in IH. specialize (IH ltac:(lia) ltac:(lia)).
  destruct (stop_all ls _) as [rs s']. cbn [fst snd map] in *. destruct IH as [-> ->]. done.
Qed.

Lemma close_listeners_all ls : forall n, Forall (fun l => l = None) ls -> close_listeners ls n = ((n + length ls)%nat, None).
Proof.
  induction ls as [|l ls IH]; intros n H; [cbn; f_equal; lia|]. inv H. cbn. rewrite IH by done. f_equal. lia.
Qed.

(** The server starts once and stops once.  Of any number of calls of Start
below 2^31 exactly the first starts the listeners; of any number of calls of
Stop the first closes all listeners when none of them fails, the later ones
return without closing anything, no call closes the quit channel twice, and
after it a request is dropped without a response. *)
Theorem start_stop_once creds n ls lss :
  Z.of_nat n < 2 ^ 31 - 1 -> Z.of_nat (length lss) < 2 ^ 31 - 1 -> Forall (fun l => l = None) ls ->
  (start_all (S n) (newRPCServer creds)).1 = true :: replicate n false /\
  let r := stop_all (ls :: lss) (newRPCServer creds) in
  r.1 = Ok None :: map (fun _ => Ok None) lss /\ listeners_closed r.2 = length ls /\
  (forall cfg req isAdmin, jsonRPCRead cfg (Stop ls (newRPCServer creds)).2 req isAdmin =
     (Ok NoResponse, (Stop ls (newRPCServer creds)).2)).
Proof.
  intros Hn Hl Hls. split.
  - cbn [start_all]. unfold Start. change (i32 (started (newRPCServer creds) + 1)) with 1.
    match goal with |- context [start_all n ?s] =>
      pose proof (start_again n s ltac:(cbn; lia) ltac:(cbn; lia)) as H; destruct (start_all n s) as [l s'] end.
    cbn [fst] in *. now rewrite H.
  - assert (Hs : Stop ls (newRPCServer creds) =
      (Ok None, MkServer 0 1 0 (newRPCServer_auth creds) ∅ true (length ls))).
    { unfold Stop. change (i32 (shutdown (newRPCServer creds) + 1)) with 1. cbn [negb Z.eqb Pos.eqb].
      now rewrite close_listeners_all. }
    cbn zeta. cbn [stop_all]. rewrite Hs.
    pose proof (stop_again lss (MkServer 0 1 0 (newRPCServer_auth creds) ∅ true (length ls)) ltac:(cbn; lia) ltac:(cbn [shutdown]; lia)) as [H1 H2].
    destruct (stop_all lss _) as [rs s']. cbn [fst snd] in *. rewrite H1, H2. split_and!; done.
Qed.

Example start_stop_once_witness :
  (start_all 3 (newRPCServer sample_credentials)).1 = [true; false; false].
Proof.
  destruct (start_stop_once sample_credentials 2 [] []) as [H _]; [lia|cbn; lia|constructor|]. exact H.
Defined.
