(* ===== verification/RpcWebsocket.v ===== *)
(** * Websocket clients (rpcwebsocket.go: wsClient)

The input handler of a websocket client: one message, single or batched, with
its authentication, the limit on concurrent requests, the requests it starts and
the messages it sends; and the client's life cycle.

The goroutines are given as atomic steps on the client: [in_message] is one turn
of inHandler's loop after a message was read, [service_step] one request that it
started.  A turn that acquires the semaphore happens when there is room. *)

From Stdlib Require Import ZArith Lia List.
From Stdlib Require Import Strings.String.
From S2P Require Import Prelude WireFormat JsonTypes AcbcJson AcbcJsonCmds RpcAuth RpcServer.

#[local] Open Scope list_scope.
#[local] Open Scope string_scope.
#[local] Set Warnings "-register-all".

(** ** The client *)

Definition websocketSendBufferSize : nat := 50.

(** [wsClient]: [sem] counts the acquired places of serviceRequestSem, [sendq]
are the messages given to sendChan, [jobs] the requests being serviced, and
[finished] tells that inHandler has called wg.Done. *)
Record wsClient := MkClient {
  authenticated : bool; isAdmin : bool; disconnected : bool;
  sessionID : Z; sem_cap : nat; sem : nat;
  sendq : list (list chunk); jobs : list parsedRPCCmd; finished : bool }.

(** newWebsocketClient; the session id is random and may fail. *)
Definition newWebsocketClient (random : result string Z) (maxConcurrent : nat) (auth admin : bool) : result string wsClient :=
  match random with
  | Err err => Err err
  | Ok id => Ok (MkClient auth admin false id maxConcurrent 0 [] [] false)
  end.

Definition set_auth (a adm : bool) (c : wsClient) : wsClient :=
  MkClient a adm (disconnected c) (sessionID c) (sem_cap c) (sem c) (sendq c) (jobs c) (finished c).
Definition set_sem (n : nat) (c : wsClient) : wsClient :=
  MkClient (authenticated c) (isAdmin c) (disconnected c) (sessionID c) (sem_cap c) n (sendq c) (jobs c) (finished c).
Definition set_jobs (l : list parsedRPCCmd) (c : wsClient) : wsClient :=
  MkClient (authenticated c) (isAdmin c) (disconnected c) (sessionID c) (sem_cap c) (sem c) (sendq c) l (finished c).

(** semaphore: acquire blocks when it is full, release when it is empty. *)
Definition acquire (c : wsClient) : wsClient := set_sem (S (sem c)) c.
Definition release (c : wsClient) : wsClient := set_sem (pred (sem c)) c.

(** SendMessage, without a channel to report to. *)
Definition SendMessage (msg : list chunk) (c : wsClient) : wsClient :=
  if disconnected c then c
  else MkClient (authenticated c) (isAdmin c) (disconnected c) (sessionID c) (sem_cap c) (sem c)
         (sendq c ++ [msg])%list (jobs c) (finished c).

Definition Disconnect (c : wsClient) : wsClient :=
  if disconnected c then c
  else MkClient (authenticated c) (isAdmin c) true (sessionID c) (sem_cap c) (sem c) (sendq c) (jobs c) (finished c).

(** What follows the loop: Disconnect and wg.Done. *)
Definition leave (c : wsClient) : wsClient :=
  let c := Disconnect c in
  MkClient (authenticated c) (isAdmin c) (disconnected c) (sessionID c) (sem_cap c) (sem c) (sendq c) (jobs c) true.

(** ** Requests *)

(** wsHandlers is empty: every entry of wsHandlersBeforeInit is commented out. *)
Definition wsHandlers : gmap string commandHandler := ∅.

Definition command_result (r : parsedRPCCmd) : result panic (json * option gerr) :=
  match wsHandlers !! p_method r with
  | Some wsHandler => wsHandler (p_cmd r)
  | None => standardCmdResult r
  end.

(** serviceRequest. *)
Definition serviceRequest (r : parsedRPCCmd) (c : wsClient) : result panic wsClient :=
  res ← command_result r;
  match createMarshalledReply (p_jsonrpc r) (p_id r) res.1 res.2 with
  | Err _ => Ok c
  | Ok reply => Ok (SendMessage [CJson reply] c)
  end.

(** The [i]-th goroutine that inHandler started: it services and releases. *)
Definition service_step (i : nat) (c : wsClient) : option (result panic wsClient) :=
  match jobs c !! i with
  | Some r => Some (c ← serviceRequest r (set_jobs (delete i (jobs c)) c); Ok (release c))
  | None => None
  end.

(** A reply if it marshals. *)
Definition send_reply (r : result jerr json) (c : wsClient) : wsClient :=
  match r with Ok reply => SendMessage [CJson reply] c | Err _ => c end.

(** The dynamic type of the command is *AuthenticateCmd, with these fields. *)
Definition as_authenticate (cmd : command) : option (string * string) :=
  match cmd with
  | Some (t, VPtr (Some (VStruct [VStr u; VStr p]))) =>
      if bool_decide (type_string t = type_string (TPtr AuthenticateCmd)) then Some (u, p) else None
  | _ => None
  end.

(** What the switch on the authenticate command decides. *)
Inductive auth_switch := SwitchBreak | SwitchAuthenticated (admin : bool) | SwitchPass.
Definition check_auth_cmd (s : auth_state) (authed : bool) (cmd : command) : auth_switch :=
  match authed, as_authenticate cmd with
  | true, Some _ => SwitchBreak
  | false, None => SwitchBreak
  | false, Some (u, p) =>
      match check_credentials s u p with
      | None => SwitchBreak
      | Some admin => SwitchAuthenticated admin
      end
  | true, None => SwitchPass
  end.

Definition ws_limited : RPCError :=
  MkRPCError (Code ErrRPCInvalidParams) "limited user not authorized for this method".

(** How a turn of the loop ends: the next turn, [break out], or a return from
inHandler that skips what follows the loop. *)
Inductive turn := Continue | Break | Return.

(** One single request. *)
Definition in_single (s : auth_state) (doc : result string json) (c : wsClient) : result panic (turn * wsClient) :=
  let '(err, req) := match doc with Err e => (Some e, zeroRequest) | Ok j => UnmarshalRequest j end in
  match err with
  | Some e =>
      if negb (authenticated c) then Ok (Break, c)
      else Ok (Continue, send_reply (createMarshalledReply RpcVersion1 JNull JNull
                (Some (GRpc (MkRPCError (Code ErrRPCParse) ("Failed to parse request: " ++ e))))) c)
  | None =>
      if bool_decide (Method req = "") || match Params req with None => true | Some _ => false end then
        Ok (Continue, send_reply (createMarshalledReply (Jsonrpc req) (ID req) JNull (Some (GRpc malformed))) c)
      else
        match ID req with
        | JNull => if negb (authenticated c) then Ok (Break, c) else Ok (Continue, c)
        | _ =>
            cmd ← parseCmd req;
            match p_err cmd with
            | Some e =>
                if negb (authenticated c) then Ok (Break, c)
                else Ok (Continue, send_reply (createMarshalledReply (p_jsonrpc cmd) (p_id cmd) JNull (Some (GRpc e))) c)
            | None =>
                match check_auth_cmd s (authenticated c) (p_cmd cmd) with
                | SwitchBreak => Ok (Break, c)
                | SwitchAuthenticated admin =>
                    Ok (Continue, send_reply (createMarshalledReply (p_jsonrpc cmd) (p_id cmd) JNull None) (set_auth true admin c))
                | SwitchPass =>
                    if negb (isAdmin c) && negb (bool_decide (Method req ∈ rpcLimited)) then
                      Ok (Continue, send_reply (createMarshalledReply "" (ID req) JNull (Some (GRpc ws_limited))) c)
                    else
                      let c := acquire c in
                      Ok (Continue, set_jobs (jobs c ++ [cmd])%list c)
                end
            end
        end
  end.

(** How the loop over the entries of a batch ends. *)
Inductive batch_turn := BatchDone (results : list json) | BatchBreak | BatchReturn.

(** One entry that is a request: its reply and the client; [inl] leaves the loop. *)
Definition ws_entry_request (s : auth_state) (req : Request) (c : wsClient) :
    result panic ((batch_turn + option json) * wsClient) :=
  let reply r := Ok (inr (reply_or_nil r), c) in
  if bool_decide (Method req = "") || match Params req with None => true | Some _ => false end then
    reply (createMarshalledReply (Jsonrpc req) (ID req) JNull (Some (GRpc malformed)))
  else
    match ID req with
    | JNull => if negb (authenticated c) then Ok (inl BatchBreak, c) else Ok (inr None, c)
    | _ =>
        cmd ← parseCmd req;
        match p_err cmd with
        | Some e =>
            if negb (authenticated c) then Ok (inl BatchBreak, c)
            else reply (createMarshalledReply (p_jsonrpc cmd) (p_id cmd) JNull (Some (GRpc e)))
        | None =>
            match check_auth_cmd s (authenticated c) (p_cmd cmd) with
            | SwitchBreak => Ok (inl BatchBreak, c)
            | SwitchAuthenticated admin =>
                Ok (inr (reply_or_nil (createMarshalledReply (p_jsonrpc cmd) (p_id cmd) JNull None)), set_auth true admin c)
            | SwitchPass =>
                if negb (isAdmin c) && negb (bool_decide (Method req ∈ rpcLimited)) then
                  reply (createMarshalledReply (Jsonrpc req) (ID req) JNull (Some (GRpc ws_limited)))
                else
                  resp ← command_result cmd;
                  match createMarshalledReply (p_jsonrpc cmd) (p_id cmd) resp.1 resp.2 with
                  | Err _ => Ok (inl BatchReturn, c)
                  | Ok r => Ok (inr (Some r), c)
                  end
            end
        end
    end.

(** One entry. *)
Definition ws_entry (s : auth_state) (entry : json) (c : wsClient) :
    result panic ((batch_turn + option json) * wsClient) :=
  let reply r := Ok (inr (reply_or_nil r), c) in
  match json_Marshal entry with
  | Err err =>
      if negb (authenticated c) then Ok (inl BatchBreak, c)
      else reply (MarshalResponse RpcVersion2 JNull JNull (Some (invalid_request err)))
  | Ok reqBytes =>
      match UnmarshalRequest reqBytes with
      | (Some err, _) =>
          if negb (authenticated c) then Ok (inl BatchBreak, c)
          else reply (MarshalResponse RpcVersion2 JNull JNull (Some (invalid_request err)))
      | (None, req) => ws_entry_request s req c
      end
  end.

Fixpoint ws_entries (s : auth_state) (entries : list json) (results : list json) (c : wsClient) :
    result panic (batch_turn * wsClient) :=
  match entries with
  | [] => Ok (BatchDone results, c)
  | entry :: rest =>
      r ← ws_entry s entry c;
      match r with
      | (inl t, c) => Ok (t, c)
      | (inr resp, c) => ws_entries s rest (append_reply results resp) c
      end
  end.

(** The end of a batch: the payload is sent, even when it is empty. *)
Definition finish_batch (batchSize : nat) (results : list json) (c : wsClient) : turn * wsClient :=
  (Continue, release (SendMessage (response_msg true batchSize results) c)).

(** One batch. *)
Definition in_batch (s : auth_state) (err : option string) (entries : list json) (c : wsClient) :
    result panic (turn * wsClient) :=
  let c := acquire c in
  let parsed :=
    match err with
    | Some e =>
        if negb (authenticated c) then None
        else let m := MarshalResponse RpcVersion2 JNull JNull (Some (parse_failure e)) in
             Some (negb (is_ok m), append_reply [] (reply_or_nil m))
    | None => Some (false, [])
    end in
  match parsed with
  | None => Ok (Break, c)
  | Some (true, results) => Ok (finish_batch 0 results c)
  | Some (false, results) =>
      match entries with
      | [] =>
          if negb (authenticated c) then Ok (Break, c)
          else Ok (finish_batch 0 (append_reply results (reply_or_nil
                 (MarshalResponse RpcVersion2 JNull JNull (Some (invalid_request "empty batch"))))) c)
      | _ =>
          r ← ws_entries s entries results c;
          match r with
          | (BatchDone results, c) => Ok (finish_batch (length entries) results c)
          | (BatchBreak, c) => Ok (Break, c)
          | (BatchReturn, c) => Ok (Return, c)
          end
      end
  end.

(** One turn of inHandler's loop: [None] is a failed read. *)
Definition in_message (s : auth_state) (msg : option body) (c : wsClient) : result panic (turn * wsClient) :=
  if disconnected c then Ok (Break, leave c)
  else
    match msg with
    | None => Ok (Break, leave c)
    | Some b =>
        r ← (match b with SingleBody doc => in_single s doc c | BatchBody err entries => in_batch s err entries c end);
        match r with
        | (Break, c) => Ok (Break, leave c)
        | r => Ok r
        end
    end.
