(* ===== verification/RpcWebsocketProps.v ===== *)
(** * Properties of websocket clients

Who can get a request executed over a websocket, how many requests run at a
time, and how a turn of the input handler can end. *)

From Stdlib Require Import ZArith Lia List.
From Stdlib Require Import Strings.String.
From stdpp Require Import relations.
From S2P Require Import Prelude WireFormat JsonTypes AcbcJson AcbcJsonProps AcbcJsonCmds RpcAuth RpcServer.
From S2P Require Import RpcServerProps RpcWebsocket.

#[local] Open Scope list_scope.
#[local] Set Warnings "-register-all".

(** ** No request parses to an authenticate command *)

Lemma no_authenticate_type : map_Forall (fun _ t => type_string t <> type_string (TPtr AuthenticateCmd))
  (methodToConcreteType the_registry).
Proof. decide_now. Qed.

#[local] Opaque the_registry.

Lemma UnmarshalCmd_type r t v : UnmarshalCmd the_registry r = Ok (t, v) ->
  methodToConcreteType the_registry !! Method r = Some t.
Proof.
  unfold UnmarshalCmd. destruct (methodToConcreteType the_registry !! Method r) as [rtp|]; [|done].
  generalize (match methodToInfo the_registry !! Method r with Some i => i | None => zeroInfo end). intros info.
  destruct (Elem rtp) as [| | |name fs]; try (intros H; discriminate H).
  destruct (checkNumParams _ _); [|intros H; discriminate H].
  destruct (unmarshal_params _ _ _ _); [|intros H; discriminate H]. now intros [= <- _].
Qed.

Lemma parsed_not_authenticate r cmd : parseCmd r = Ok cmd -> as_authenticate (p_cmd cmd) = None.
Proof.
  rewrite parseCmd_spec. destruct (UnmarshalCmd the_registry r) as [[t v]|e] eqn:E; intros [= <-]; [|done].
  cbn [p_cmd]. apply UnmarshalCmd_type in E. pose proof (no_authenticate_type _ _ E) as Hne.
  unfold as_authenticate. clear E. destruct v as [| | | | |[v|]| |]; try reflexivity.
  destruct v as [| | | | | |[|[] [|[] []]]|]; try reflexivity. rewrite bool_decide_eq_false_2 by exact Hne. reflexivity.
Qed.

Lemma check_auth_parsed s a r cmd : parseCmd r = Ok cmd ->
  check_auth_cmd s a (p_cmd cmd) = if a then SwitchPass else SwitchBreak.
Proof. intros H%parsed_not_authenticate. unfold check_auth_cmd. rewrite H. now destruct a. Qed.

Lemma parseCmd_ok r : exists cmd, parseCmd r = Ok cmd.
Proof. rewrite parseCmd_spec. eauto. Qed.

(** ** Unauthenticated clients *)

(** The requests that a client without authentication may send and stay. *)
Definition malformed_request (j : json) : bool :=
  match UnmarshalRequest j with (None, req) => is_malformed req | _ => false end.
Definition tolerated (b : body) : bool :=
  match b with
  | SingleBody (Ok j) => malformed_request j
  | SingleBody (Err _) => false
  | BatchBody None (e :: es) => forallb malformed_request (e :: es)
  | BatchBody _ _ => false
  end.

Lemma send_reply_frame r c : authenticated (send_reply r c) = authenticated c /\ jobs (send_reply r c) = jobs c /\
  sem (send_reply r c) = sem c /\ sem_cap (send_reply r c) = sem_cap c /\ finished (send_reply r c) = finished c /\
  disconnected (send_reply r c) = disconnected c.
Proof. unfold send_reply, SendMessage. destruct r; [|done]. now destruct (disconnected c) eqn:E. Qed.

Lemma in_single_unauthenticated s doc c : authenticated c = false ->
  exists t c', in_single s doc c = Ok (t, c') /\ t = (if tolerated (SingleBody doc) then Continue else Break) /\
    authenticated c' = false /\ jobs c' = jobs c /\ sem c' = sem c /\ sem_cap c' = sem_cap c.
Proof.
  intros Ha. unfold in_single, tolerated, malformed_request. rewrite Ha. cbn [negb].
  destruct doc as [j|e]; [|exists Break, c; done].
  destruct (UnmarshalRequest j) as [[e|] req]; [exists Break, c; done|].
  fold (is_malformed req). destruct (is_malformed req).
  { destruct (send_reply_frame (createMarshalledReply (Jsonrpc req) (ID req) JNull (Some (GRpc malformed))) c)
      as (H1 & H2 & H3 & H4 & _). eexists _, _. split; [done|]. rewrite H1, H2, H3, H4. done. }
  destruct (parseCmd_ok req) as [cmd Hcmd]. rewrite Hcmd. cbn [mbind result_bind].
  rewrite (check_auth_parsed s false req cmd Hcmd). clear Hcmd.
  exists Break, c. split; [|done]. destruct (ID req); [done|..]; now destruct (p_err cmd).
Qed.

Lemma ws_entry_unauthenticated s entry c : authenticated c = false ->
  exists r, ws_entry s entry c = Ok (r, c) /\
    (if malformed_request entry then exists o, r = inr o else r = inl BatchBreak).
Proof.
  intros Ha. unfold ws_entry, ws_entry_request, malformed_request, json_Marshal. rewrite Ha. cbn [negb].
  destruct (UnmarshalRequest entry) as [[e|] req]; [eauto|].
  fold (is_malformed req). destruct (is_malformed req); [eauto|].
  destruct (parseCmd_ok req) as [cmd Hcmd]. rewrite Hcmd. cbn [mbind result_bind].
  rewrite (check_auth_parsed s false req cmd Hcmd). clear Hcmd.
  exists (inl BatchBreak). split; [|done]. destruct (ID req); [done|..]; now destruct (p_err cmd).
Qed.

Lemma ws_entries_unauthenticated s entries c : authenticated c = false -> forall results,
  exists t, ws_entries s entries results c = Ok (t, c) /\
    (if forallb malformed_request entries then exists l, t = BatchDone l else t = BatchBreak).
Proof.
  intros Ha. induction entries as [|e es IH]; intros results; cbn [ws_entries forallb]; [eauto|].
  destruct (ws_entry_unauthenticated s e c Ha) as (r & -> & Hr). cbn [mbind result_bind].
  destruct (malformed_request e); cbn [andb].
  - destruct Hr as [o ->]. apply IH.
  - subst r. eauto.
Qed.

Lemma finish_batch_frame n results c : let r := finish_batch n results c in
  r.1 = Continue /\ authenticated r.2 = authenticated c /\ jobs r.2 = jobs c /\ sem r.2 = pred (sem c) /\
  sem_cap r.2 = sem_cap c /\ finished r.2 = finished c /\ disconnected r.2 = disconnected c.
Proof. unfold finish_batch, SendMessage. cbn. now destruct (disconnected c) eqn:E. Qed.

Lemma in_batch_unauthenticated s err entries c : authenticated c = false ->
  exists t c', in_batch s err entries c = Ok (t, c') /\ t = (if tolerated (BatchBody err entries) then Continue else Break) /\
    authenticated c' = false /\ jobs c' = jobs c /\ sem_cap c' = sem_cap c /\ (t = Continue -> sem c' = sem c) /\
    (sem c' <= S (sem c))%nat.
Proof.
  intros Ha. unfold in_batch, tolerated. cbn [authenticated acquire set_sem]. rewrite Ha. cbn [negb].
  destruct err as [e|]; [eexists _, _; split; [done|]; destruct entries; done|].
  destruct entries as [|e es]; [eexists _, _; split; [done|]; done|].
  destruct (ws_entries_unauthenticated s (e :: es) (acquire c) Ha []) as (t & Ht & Hl). rewrite Ht.
  cbn [mbind result_bind]. destruct (forallb malformed_request (e :: es)).
  - destruct Hl as [l ->]. pose proof (finish_batch_frame (length (e :: es)) l (acquire c)) as H.
    destruct (finish_batch _ _ _) as [t c']. cbn [fst snd] in H. destruct H as (-> & H1 & H2 & H3 & H4 & _).
    exists Continue, c'. rewrite H1, H2, H3, H4. cbn. split_and!; done || lia.
  - subst t. eexists _, _. split; [done|]. cbn. split_and!; done || lia.
Qed.

Lemma leave_frame c : authenticated (leave c) = authenticated c /\ jobs (leave c) = jobs c /\
  sem (leave c) = sem c /\ sem_cap (leave c) = sem_cap c /\ finished (leave c) = true /\ disconnected (leave c) = true.
Proof. unfold leave, Disconnect. now destruct (disconnected c) eqn:E. Qed.

(** C5: an unauthenticated websocket client gets nothing done.  Whatever it sends,
the turn does not panic, the client stays unauthenticated and starts no request;
it is disconnected, with the handler finished, unless everything it sent was a
malformed request.  There is no way to authenticate: no request parses to the
authenticate command. *)
Theorem ws_unauthenticated s msg c :
  authenticated c = false -> disconnected c = false ->
  exists t c', in_message s msg c = Ok (t, c') /\
    authenticated c' = false /\ jobs c' = jobs c /\
    (t = if match msg with Some b => tolerated b | None => false end then Continue else Break) /\
    (t = Break -> disconnected c' = true /\ finished c' = true).
Proof.
  intros Ha Hd. unfold in_message. rewrite Hd.
  destruct msg as [b|]; [|destruct (leave_frame c) as (H1 & H2 & _ & _ & H5 & H6); exists Break, (leave c);
    rewrite H1, H2, H5, H6; done].
  assert (H : exists t c', match b with SingleBody doc => in_single s doc c | BatchBody err entries => in_batch s err entries c end
      = Ok (t, c') /\ t = (if tolerated b then Continue else Break) /\ authenticated c' = false /\ jobs c' = jobs c).
  { destruct b as [doc|err entries].
    - destruct (in_single_unauthenticated s doc c Ha) as (t & c' & ? & ? & ? & ? & _). eauto 10.
    - destruct (in_batch_unauthenticated s err entries c Ha) as (t & c' & ? & ? & ? & ? & _). eauto 10. }
  destruct H as (t & c' & -> & Ht & H1 & H2). cbn [mbind result_bind]. destruct (tolerated b); subst t.
  - exists Continue, c'. done.
  - destruct (leave_frame c') as (E1 & E2 & _ & _ & E5 & E6). exists Break, (leave c'). rewrite E1, E2, E5, E6. done.
Qed.

Example ws_unauthenticated_witness :
  let c := MkClient false false false 7 4 0 [] [] false in
  let msg := request_json (MkRequest "1.0" "getblockhash" (Some [JInt 1]) (JInt 1)) in
  exists c', in_message (newRPCServer_auth sample_credentials) (Some (SingleBody (Ok msg))) c = Ok (Break, c') /\
    jobs c' = [] /\ disconnected c' = true.
Proof.
  intros c msg.
  destruct (ws_unauthenticated (newRPCServer_auth sample_credentials) (Some (SingleBody (Ok msg))) c eq_refl eq_refl)
    as (t & c' & H & _ & Hj & Ht & Hb). vm_compute in Ht. subst t.
  exists c'. split; [exact H|]. split; [exact Hj|]. exact (proj1 (Hb eq_refl)).
Defined.

(** ** Any client *)

Lemma ws_entry_client s entry c r c' : ws_entry s entry c = Ok (r, c') -> c' = c.
Proof.
  unfold ws_entry, ws_entry_request, json_Marshal.
  destruct (UnmarshalRequest entry) as [[e|] req].
  { destruct (negb _); intros H; injection H; congruence. }
  destruct (_ || _); [intros H; injection H; congruence|].
  destruct (parseCmd_ok req) as [cmd Hcmd]. rewrite Hcmd. cbn [mbind result_bind].
  rewrite (check_auth_parsed s (authenticated c) req cmd Hcmd). clear Hcmd.
  set (rest := match p_err cmd with Some _ => _ | None => _ end).
  assert (Hr : rest = Ok (r, c') -> c' = c).
  { unfold rest. destruct (p_err cmd); [destruct (negb _); intros H; injection H; congruence|].
    destruct (authenticated c); [|intros H; injection H; congruence].
    destruct (_ && _); [intros H; injection H; congruence|].
    destruct (command_result cmd) as [resp|]; [|discriminate]. cbn [mbind result_bind].
    destruct (createMarshalledReply _ _ _ _); intros H; injection H; congruence. }
  destruct (ID req); [destruct (negb _); intros H; injection H; congruence|exact Hr..].
Qed.

Lemma ws_entries_client s entries : forall results c t c', ws_entries s entries results c = Ok (t, c') -> c' = c.
Proof.
  induction entries as [|e es IH]; intros results c t c'; cbn [ws_entries]; [intros H; injection H; congruence|].
  destruct (ws_entry s e c) as [[r c1]|] eqn:E; [|discriminate]. apply ws_entry_client in E. subst c1.
  cbn [mbind result_bind]. destruct r; [intros H; injection H; congruence|apply IH].
Qed.

(** What a turn leaves alone. *)
Record frame (c c' : wsClient) : Prop := {
  fr_auth : authenticated c' = authenticated c;
  fr_admin : isAdmin c' = isAdmin c;
  fr_cap : sem_cap c' = sem_cap c
}.

Lemma send_frame msg c : frame c (SendMessage msg c) /\ jobs (SendMessage msg c) = jobs c /\ sem (SendMessage msg c) = sem c.
Proof. unfold SendMessage. destruct (disconnected c) eqn:E; split; try done; constructor; done. Qed.

Lemma in_batch_frame s err entries c t c' : in_batch s err entries c = Ok (t, c') ->
  frame c c' /\ jobs c' = jobs c /\ sem c' = match t with Continue => sem c | _ => S (sem c) end.
Proof.
  assert (Hf : forall n l, let r := finish_batch n l (acquire c) in
    r.1 = Continue /\ frame c r.2 /\ jobs r.2 = jobs c /\ sem r.2 = sem c).
  { intros n l. unfold finish_batch, SendMessage, acquire. cbn.
    destruct (disconnected c) eqn:Ed; cbn; split_and!; try done; constructor; done. }
  assert (Hk : frame c (acquire c)) by (constructor; done).
  unfold in_batch. intros H.
  assert (Hfin : forall n l, Ok (finish_batch n l (acquire c)) = @Ok panic _ (t, c') ->
    frame c c' /\ jobs c' = jobs c /\ sem c' = match t with Continue => sem c | _ => S (sem c) end).
  { intros n l E. specialize (Hf n l). destruct (finish_batch n l (acquire c)) as [t0 c0].
    injection E as <- <-. cbn [fst snd] in Hf. destruct Hf as (-> & ?). done. }
  assert (Hbrk : @Ok panic _ (Break, acquire c) = Ok (t, c') ->
    frame c c' /\ jobs c' = jobs c /\ sem c' = match t with Continue => sem c | _ => S (sem c) end).
  { intros E. injection E as <- <-. done. }
  assert (Hrest : forall results, (r ← ws_entries s entries results (acquire c);
      match r with
      | (BatchDone results, c) => Ok (finish_batch (length entries) results c)
      | (BatchBreak, c) => Ok (Break, c)
      | (BatchReturn, c) => Ok (Return, c)
      end) = @Ok panic _ (t, c') ->
    frame c c' /\ jobs c' = jobs c /\ sem c' = match t with Continue => sem c | _ => S (sem c) end).
  { intros results. destruct (ws_entries s entries results (acquire c)) as [[b c1]|] eqn:E; [|discriminate].
    apply ws_entries_client in E. subst c1. cbn [mbind result_bind]. destruct b as [l| |]; [apply Hfin|apply Hbrk|].
    intros E. injection E as <- <-. done. }
  destruct (match err with Some _ => _ | None => _ end) as [[[] results]|]; [exact (Hfin _ _ H)| |exact (Hbrk H)].
  destruct entries as [|e es]; [|exact (Hrest _ H)].
  destruct (negb _); [exact (Hbrk H)|exact (Hfin _ _ H)].
Qed.

(** One single request: it starts at most one job, for a request the client may
make. *)
Lemma in_single_frame s doc c t c' : in_single s doc c = Ok (t, c') ->
  frame c c' /\ t <> Return /\
  ((jobs c' = jobs c /\ sem c' = sem c) \/
   (t = Continue /\ authenticated c = true /\ sem c' = S (sem c) /\ sendq c' = sendq c /\
    exists j req cmd, doc = Ok j /\ UnmarshalRequest j = (None, req) /\ parseCmd req = Ok cmd /\
      p_err cmd = None /\ jobs c' = jobs c ++ [cmd] /\ (isAdmin c = true \/ Method req ∈ rpcLimited))).
Proof.
  assert (Hrefl : frame c c) by (constructor; done).
  assert (Hsend : forall r, @Ok panic _ (Continue, send_reply r c) = Ok (t, c') ->
    frame c c' /\ t <> Return /\ jobs c' = jobs c /\ sem c' = sem c).
  { intros [r|] E; injection E as <- <-; [|done]. cbn [send_reply].
    destruct (send_frame [CJson r] c) as (? & ? & ?). done. }
  unfold in_single. intros H.
  assert (Hself : forall P, frame c c /\ Break <> Return /\ ((jobs c = jobs c /\ sem c = sem c) \/ P))
    by (intros P; split; [done|]; split; [done|left; done]).
  destruct (match doc with Ok j => _ | Err e => _ end) as [[e|] req] eqn:Ed.
  { destruct (negb _); [injection H as <- <-; apply Hself|apply Hsend in H as (? & ? & ?); tauto]. }
  destruct (_ || _); [apply Hsend in H as (? & ? & ?); tauto|].
  destruct (parseCmd_ok req) as [cmd Hcmd]. rewrite Hcmd in H. cbn [mbind result_bind] in H.
  rewrite (check_auth_parsed s (authenticated c) req cmd Hcmd) in H.
  destruct doc as [j|]; [|discriminate Ed].
  set (rest := match p_err cmd with Some _ => _ | None => _ end) in H.
  assert (Hr : rest = Ok (t, c') -> frame c c' /\ t <> Return /\
    ((jobs c' = jobs c /\ sem c' = sem c) \/
     (t = Continue /\ authenticated c = true /\ sem c' = S (sem c) /\ sendq c' = sendq c /\
      p_err cmd = None /\ jobs c' = jobs c ++ [cmd] /\ (isAdmin c = true \/ Method req ∈ rpcLimited)))).
  { unfold rest. destruct (p_err cmd).
    { destruct (negb _); [intros E; injection E as <- <-; apply Hself|intros E; apply Hsend in E as (? & ? & ?); tauto]. }
    destruct (authenticated c) eqn:Ha; [|intros E; injection E as <- <-; apply Hself].
    destruct (negb (isAdmin c) && _) eqn:El; [intros E; apply Hsend in E as (? & ? & ?); tauto|].
    intros E. injection E as <- <-. split; [constructor; reflexivity|]. split; [discriminate|]. right.
    do 6 (split; [reflexivity|]).
    apply andb_false_iff in El. rewrite !negb_false_iff, bool_decide_eq_true in El. exact El. }
  assert (Hnull : (if negb (authenticated c) then @Ok panic _ (Break, c) else Ok (Continue, c)) = Ok (t, c') ->
    frame c c' /\ t <> Return /\ jobs c' = jobs c /\ sem c' = sem c)
    by (clear -Hrefl; destruct (negb _); intros E; injection E as <- <-; repeat split; done || apply Hrefl).
  assert (Hr' : rest = Ok (t, c') -> frame c c' /\ t <> Return /\
    ((jobs c' = jobs c /\ sem c' = sem c) \/
     (t = Continue /\ authenticated c = true /\ sem c' = S (sem c) /\ sendq c' = sendq c /\
    exists j0 req cmd, Ok j = @Ok string _ j0 /\ UnmarshalRequest j0 = (None, req) /\ parseCmd req = Ok cmd /\
      p_err cmd = None /\ jobs c' = jobs c ++ [cmd] /\ (isAdmin c = true \/ Method req ∈ rpcLimited)))).
  { intros E. destruct (Hr E) as (? & ? & [?|(? & ? & ? & ? & ? & ? & ?)]); [tauto|]. split; [assumption|]. split; [assumption|].
    right. split_and!; try assumption. exists j, req, cmd. split_and!; try assumption; reflexivity. }
  destruct (ID req); [destruct (Hnull H) as (? & ? & ?); tauto|exact (Hr' H)..].
Qed.

(** ** The goroutines of a client *)

(** inHandler waits for room before it acquires. *)
Definition has_room (msg : option body) (c c' : wsClient) : Prop :=
  match msg with
  | Some (BatchBody _ _) => (sem c < sem_cap c)%nat
  | _ => (sem c' <= sem_cap c)%nat
  end.

(** The client, and whether inHandler is still running. *)
Inductive ws_step (s : auth_state) : wsClient * bool -> wsClient * bool -> Prop :=
  | ws_turn msg c t c' : in_message s msg c = Ok (t, c') -> has_room msg c c' ->
      ws_step s (c, true) (c', match t with Continue => true | _ => false end)
  | ws_service i c c' running : service_step i c = Some (Ok c') -> ws_step s (c, running) (c', running).

(** A request that may be serviced for the client. *)
Definition job_ok (admin : bool) (cmd : parsedRPCCmd) : Prop :=
  p_err cmd = None /\ (admin = true \/ p_method cmd ∈ rpcLimited).

Record ws_inv (a adm : bool) (cap : nat) (st : wsClient * bool) : Prop := {
  inv_auth : authenticated st.1 = a;
  inv_admin : isAdmin st.1 = adm;
  inv_cap : sem_cap st.1 = cap;
  inv_sem : (length (jobs st.1) <= sem st.1 <= cap)%nat;
  inv_running : st.2 = true -> sem st.1 = length (jobs st.1);
  inv_jobs : Forall (job_ok adm) (jobs st.1);
  inv_silent : a = false -> jobs st.1 = []
}.

Lemma parseCmd_method req cmd : parseCmd req = Ok cmd -> p_method cmd = Method req.
Proof. rewrite parseCmd_spec. destruct (UnmarshalCmd _ _); intros H; injection H as <-; reflexivity. Qed.

Lemma in_message_inv s msg c t c' a adm cap : in_message s msg c = Ok (t, c') -> has_room msg c c' ->
  ws_inv a adm cap (c, true) -> ws_inv a adm cap (c', match t with Continue => true | _ => false end).
Proof.
  intros H Hroom [Ha Had Hcap Hsem Hrun Hjobs Hsil]. cbn [fst snd] in *. specialize (Hrun eq_refl).
  assert (Hsame : forall c1 b, frame c c1 -> jobs c1 = jobs c ->
    (sem c1 = sem c \/ (b = false /\ sem c1 = S (sem c) /\ (sem c < cap)%nat)) ->
    ws_inv a adm cap (c1, b)).
  { intros c1 b [F1 F2 F3] Hj Hs. constructor; cbn [fst snd]; rewrite ?F1, ?F2, ?F3, ?Hj; auto.
    - destruct Hs as [-> |(_ & -> & ?)]; lia.
    - intros ->. destruct Hs as [-> |(? & _)]; [done|discriminate]. }
  assert (Hl : forall c1 t1, leave c1 = c' -> t = t1 -> frame c c' <-> frame c c1).
  { intros c1 t1 <- _. destruct (leave_frame c1) as (L1 & _ & _ & L4 & _).
    assert (isAdmin (leave c1) = isAdmin c1) by (unfold leave, Disconnect; now destruct (disconnected c1)).
    split; intros [F1 F2 F3]; constructor; congruence. }
  unfold in_message in H. destruct (disconnected c).
  { injection H as <- <-. destruct (leave_frame c) as (L1 & L2 & L3 & L4 & _).
    apply Hsame; [apply (Hl c Break eq_refl eq_refl); constructor; done|done|left; done]. }
  destruct msg as [b|].
  2: { injection H as <- <-. destruct (leave_frame c) as (L1 & L2 & L3 & L4 & _).
       apply Hsame; [apply (Hl c Break eq_refl eq_refl); constructor; done|done|left; done]. }
  assert (Hleave : forall c1, frame c c1 -> jobs c1 = jobs c ->
    (sem c1 = sem c \/ (sem c1 = S (sem c) /\ (sem c < cap)%nat)) -> leave c1 = c' -> ws_inv a adm cap (c', false)).
  { intros c1 F Hj Hs E. destruct (leave_frame c1) as (L1 & L2 & L3 & L4 & _). apply Hsame.
    - now apply (Hl c1 t E eq_refl).
    - rewrite <- E, L2. done.
    - rewrite <- E, L3. destruct Hs as [?|[? ?]]; auto. }
  destruct b as [doc|err entries].
  - destruct (in_single s doc c) as [[t1 c1]|] eqn:E; [|discriminate]. cbn [mbind result_bind] in H.
    destruct (in_single_frame _ _ _ _ _ E) as (F & Hret & Hcase). destruct t1; [| |done]; injection H as <- <-.
    + destruct Hcase as [[Hj Hs]|(_ & Hauth & Hs & _ & j & req & cmd & _ & _ & Hp & He & Hj & Hok)];
        [apply Hsame; auto|].
      cbn [has_room] in Hroom. pose proof (parseCmd_method _ _ Hp) as Hm. destruct F as [F1 F2 F3].
      constructor; cbn [fst snd]; rewrite ?F1, ?F2, ?F3, ?Hj, ?length_app; auto.
      * cbn [length]. lia.
      * intros _. cbn [length]. lia.
      * apply Forall_app. split; [done|]. apply Forall_singleton. split; [done|]. rewrite Hm, <- Had. done.
      * intros ->. congruence.
    + destruct Hcase as [[Hj Hs]|(? & _)]; [eapply Hleave; eauto|discriminate].
  - destruct (in_batch s err entries c) as [[t1 c1]|] eqn:E; [|discriminate]. cbn [mbind result_bind] in H.
    destruct (in_batch_frame _ _ _ _ _ _ E) as (F & Hj & Hs). cbn [has_room] in Hroom. rewrite Hcap in Hroom.
    destruct t1; injection H as <- <-.
    + apply Hsame; auto.
    + eapply Hleave; eauto.
    + apply Hsame; auto.
Qed.

Lemma service_step_inv i c c' running a adm cap : service_step i c = Some (Ok c') ->
  ws_inv a adm cap (c, running) -> ws_inv a adm cap (c', running).
Proof.
  unfold service_step. destruct (jobs c !! i) as [r|] eqn:Ei; [|discriminate].
  intros H [Ha Had Hcap Hsem Hrun Hjobs Hsil]. cbn [fst snd] in *.
  set (c0 := set_jobs (delete i (jobs c)) c) in *.
  assert (Hc : exists c1, frame c0 c1 /\ jobs c1 = jobs c0 /\ sem c1 = sem c0 /\ release c1 = c').
  { unfold serviceRequest in H. destruct (command_result r) as [res|]; [|discriminate]. cbn [mbind result_bind] in H.
    destruct (createMarshalledReply _ _ _ _) as [reply|]; injection H as <-.
    - destruct (send_frame [CJson reply] c0) as (? & ? & ?). eauto.
    - exists c0. repeat split. }
  destruct Hc as (c1 & [F1 F2 F3] & Hj & Hs & <-).
  assert (Hlen : S (length (jobs c0)) = length (jobs c)).
  { cbn [c0 jobs set_jobs]. rewrite length_delete by eauto. apply lookup_lt_Some in Ei. lia. }
  constructor; cbn [fst snd release set_sem authenticated isAdmin sem_cap sem jobs]; rewrite ?F1, ?F2, ?F3, ?Hj, ?Hs; auto.
  - cbn [c0 sem set_jobs] in *. lia.
  - intros Hr. specialize (Hrun Hr). cbn [c0 sem set_jobs] in *. lia.
  - cbn [c0 jobs set_jobs]. now apply Forall_delete.
  - intros Hf. rewrite (Hsil Hf) in Ei. now rewrite lookup_nil in Ei.
Qed.

Lemma ws_runs_inv s random cap a adm c0 st : newWebsocketClient random cap a adm = Ok c0 ->
  rtc (ws_step s) (c0, true) st -> ws_inv a adm cap st.
Proof.
  intros Hnew Hrun. assert (H0 : ws_inv a adm cap (c0, true)).
  { unfold newWebsocketClient in Hnew. destruct random; [|discriminate]. injection Hnew as <-.
    constructor; cbn; auto. lia. }
  remember (c0, true) as st0 eqn:E. clear E.
  induction Hrun as [|x y z Hstep _ IH]; [done|]. apply IH. destruct Hstep as [msg c1 t c1' Ht Hr|i c1 c1' r Hs].
  - eapply in_message_inv; eauto.
  - eapply service_step_inv; eauto.
Qed.

(** A websocket client never gets beyond its limits.  However the turns of
inHandler and the requests it started interleave, at most RPCMaxConcurrentReqs
requests are being serviced; while inHandler runs, the places taken in the
semaphore are exactly those requests; every one of them is for a method that the
client's rights allow; the rights never change; and a client that connected
without authentication never has one. *)
Theorem ws_limits s random cap a adm c0 c running :
  newWebsocketClient random cap a adm = Ok c0 ->
  rtc (ws_step s) (c0, true) (c, running) ->
  (length (jobs c) <= sem c <= cap)%nat /\ (running = true -> sem c = length (jobs c)) /\
  Forall (job_ok adm) (jobs c) /\ authenticated c = a /\ isAdmin c = adm /\ (a = false -> jobs c = []).
Proof.
  intros Hnew Hrun. destruct (ws_runs_inv _ _ _ _ _ _ _ Hnew Hrun) as [? ? ? ? ? ? ?]. cbn [fst snd] in *. split_and!; auto; lia.
Qed.

Example ws_limits_witness :
  let s := newRPCServer_auth sample_credentials in
  let msg := request_json (MkRequest "1.0" "getblockhash" (Some [JInt 1]) (JInt 1)) in
  exists c, rtc (ws_step s) (MkClient true false false 7 4 0 [] [] false, true) (c, true) /\
    length (jobs c) = 1%nat /\ Forall (job_ok false) (jobs c) /\ (length (jobs c) <= sem c <= 4)%nat.
Proof.
  intros s msg. set (c0 := MkClient true false false 7 4 0 [] [] false).
  destruct (in_message s (Some (SingleBody (Ok msg))) c0) as [[[] c]|] eqn:E; [|vm_compute in E; discriminate E..].
  assert (Hj : length (jobs c) = 1%nat) by (vm_compute in E; injection E as <-; reflexivity).
  assert (Hs : sem c = 1%nat) by (vm_compute in E; injection E as <-; reflexivity).
  assert (H : rtc (ws_step s) (c0, true) (c, true)).
  { apply rtc_once, (ws_turn s _ _ _ _ E). unfold has_room. rewrite Hs. cbn. lia. }
  exists c. split; [exact H|]. split; [exact Hj|].
  destruct (ws_limits s (Ok 7) 4 true false c0 c true eq_refl H) as (H1 & _ & H2 & _). split; [exact H2|exact H1].
Defined.

(** ** Turns that go wrong *)

(** The refusal of a method outside rpcLimited is marshalled with an empty
version: a limited client gets no answer to a single such request. *)
Lemma ws_limited_refusal_lost s j req cmd c :
  authenticated c = true -> isAdmin c = false ->
  UnmarshalRequest j = (None, req) -> is_malformed req = false -> ID req <> JNull ->
  parseCmd req = Ok cmd -> p_err cmd = None -> Method req ∉ rpcLimited ->
  in_single s (Ok j) c = Ok (Continue, c).
Proof.
  intros Ha Had Hj Hm Hid Hp He Hl. unfold in_single. rewrite Hj. fold (is_malformed req). rewrite Hm.
  pose proof (check_auth_parsed s (authenticated c) req cmd Hp) as Hc.
  assert (Hn : forall A (x y : A), match ID req with JNull => x | _ => y end = y) by (intros; now destruct (ID req)).
  rewrite Hn, Hp. cbn [mbind result_bind]. rewrite He, Hc, Ha, Had.
  now rewrite bool_decide_eq_false_2.
Qed.

(** A batch can leave its handler hanging.  When a client's batch starts with a
getblockhash request without a version, inHandler returns in the middle of the
batch: the place in the semaphore stays taken, nothing is sent, and the client
is neither disconnected nor marked finished, so whoever waits for it waits for
ever; with a negative index the same request panics instead. *)
Theorem ws_batch_return s c id index rest :
  authenticated c = true -> disconnected c = false -> in_i64 index -> id <> JNull ->
  let entry := JObj [("method", JStr "getblockhash"); ("params", JArr [JInt index]); ("id", id)]%string in
  in_message s (Some (BatchBody None (entry :: rest))) c =
    if index <? 0 then Err NilDereference else Ok (Return, acquire c).
Proof.
  intros Ha Hd Hi Hid entry.
  set (req := MkRequest "" "getblockhash" (Some [JInt index]) id).
  assert (Hu : UnmarshalRequest entry = (None, req)) by reflexivity.
  set (cmd := MkParsed "" id "getblockhash" (Some (TPtr GetBlockHashCmd, VPtr (Some (VStruct [VInt index])))) None).
  assert (Hp : parseCmd req = Ok cmd).
  { rewrite parseCmd_spec. unfold req. rewrite UnmarshalCmd_getblockhash by done. reflexivity. }
  assert (He : ws_entry s entry (acquire c) = if index <? 0 then Err NilDereference else Ok (inl BatchReturn, acquire c)).
  { unfold ws_entry, ws_entry_request, json_Marshal. rewrite Hu.
    change (bool_decide (Method req = ""%string) || _) with false. cbv iota.
    assert (Hn : forall A (x y : A), match ID req with JNull => x | _ => y end = y) by (intros; cbn; now destruct id).
    rewrite Hn, Hp. cbn [mbind result_bind p_err cmd].
    rewrite (check_auth_parsed s (authenticated (acquire c)) req cmd Hp). change (authenticated (acquire c)) with (authenticated c).
    rewrite Ha. replace (negb (isAdmin (acquire c)) && negb _) with false
      by (destruct (isAdmin (acquire c)); vm_compute; reflexivity).
    unfold command_result, wsHandlers. rewrite lookup_empty.
    unfold cmd. rewrite standardCmdResult_getblockhash by done. destruct (index <? 0); reflexivity. }
  unfold in_message. rewrite Hd. unfold in_batch. cbv zeta iota. cbn [ws_entries]. rewrite He.
  destruct (index <? 0); reflexivity.
Qed.

Example ws_batch_return_witness :
  in_message (newRPCServer_auth sample_credentials)
    (Some (BatchBody None [JObj [("method", JStr "getblockhash"); ("params", JArr [JInt 1]); ("id", JInt 1)]%string]))
    (MkClient true true false 7 4 0 [] [] false) = Ok (Return, MkClient true true false 7 4 1 [] [] false).
Proof.
  apply (ws_batch_return (newRPCServer_auth sample_credentials) (MkClient true true false 7 4 0 [] [] false) (JInt 1) 1 []);
    [reflexivity|reflexivity|unfold in_i64; lia|discriminate].
Defined.
