(* ===== verification/GoFloat.v ===== *)
(** * float64

The floating-point numbers of Go, as [spec_float] of the Standard Library with
the precision and exponent range of binary64: conversions from integers and from
JSON numbers (strconv.ParseFloat, correctly rounded), truncation, and the
conversion to an integer, whose value out of range Go leaves to the
implementation. *)

From Stdlib Require Import ZArith Lia List.
From Stdlib Require Import Strings.String Strings.Ascii.
From Stdlib Require Import Floats.SpecFloat.
From S2P Require Import Prelude JsonTypes.

#[local] Open Scope list_scope.

Definition prec : Z := 53.
Definition emax : Z := 1024.
Definition float64 : Type := spec_float.

Definition f64_of_Z (z : Z) : float64 := binary_normalize prec emax z 0 false.
Definition f64_add : float64 -> float64 -> float64 := SFadd prec emax.
Definition f64_sub : float64 -> float64 -> float64 := SFsub prec emax.
Definition f64_mul : float64 -> float64 -> float64 := SFmul prec emax.
Definition f64_div : float64 -> float64 -> float64 := SFdiv prec emax.
Definition f64_ltb : float64 -> float64 -> bool := SFltb.
Definition f64_zero : float64 := S754_zero false.

Definition IsNaN (f : float64) : bool := match f with S754_nan => true | _ => false end.
(** math.IsInf: any infinity for sign 0, else the one of that sign. *)
Definition IsInf (f : float64) (sign : Z) : bool :=
  match f with
  | S754_infinity false => 0 <=? sign
  | S754_infinity true => sign <=? 0
  | _ => false
  end.

(** The integer part, toward zero, of a finite number. *)
Definition trunc_Z (f : float64) : Z :=
  match f with
  | S754_finite s m e =>
      let a := if 0 <=? e then Z.pos m * 2 ^ e else Z.pos m / 2 ^ (- e) in
      if s then - a else a
  | _ => 0
  end.

(** [f == math.Trunc(f)] for a finite number. *)
Definition is_integral (f : float64) : bool :=
  match f with
  | S754_zero _ => true
  | S754_finite _ m e => (0 <=? e) || (Z.pos m mod 2 ^ (- e) =? 0)
  | _ => false
  end.

(** uint64(f) and int64(f): [other] is what the processor gives out of range. *)
Definition to_uint64 (other : float64 -> Z) (f : float64) : Z :=
  match f with
  | S754_zero _ => 0
  | S754_finite _ _ _ => let z := trunc_Z f in if (0 <=? z) && (z <? 2 ^ 64) then z else other f
  | _ => other f
  end.
Definition to_int64 (other : float64 -> Z) (f : float64) : Z :=
  match f with
  | S754_zero _ => 0
  | S754_finite _ _ _ => let z := trunc_Z f in if (- 2 ^ 63 <=? z) && (z <? 2 ^ 63) then z else other f
  | _ => other f
  end.

(** ** JSON numbers *)

Definition digit_of (c : ascii) : option Z :=
  let n := Z.of_nat (nat_of_ascii c) in if (48 <=? n) && (n <=? 57) then Some (n - 48) else None.

(** The digits of a literal before its exponent: the integer they form, with the
point removed, how many stand after the point, and the rest. *)
Fixpoint mantissa_of (s : string) (m : Z) (frac : Z) (point : bool) : Z * Z * string :=
  match s with
  | EmptyString => (m, frac, EmptyString)
  | String c s' =>
      match digit_of c with
      | Some d => mantissa_of s' (10 * m + d) (if point then frac + 1 else frac) point
      | None => if ascii_dec c "." then mantissa_of s' m frac true else (m, frac, s)
      end
  end.

Definition exponent_of (s : string) : Z :=
  match s with
  | String c s' =>
      if bool_decide (c = "e"%char) || bool_decide (c = "E"%char) then
        match s' with
        | String "-" t => - (mantissa_of t 0 0 false).1.1
        | String "+" t => (mantissa_of t 0 0 false).1.1
        | t => (mantissa_of t 0 0 false).1.1
        end
      else 0
  | EmptyString => 0
  end.

(** The float nearest to [m * 10^k]. *)
Definition f64_of_decimal (neg : bool) (m k : Z) : float64 :=
  match m * 10 ^ Z.max k 0, 10 ^ Z.max (- k) 0 with
  | Z.pos n, Z.pos d => f64_div (S754_finite neg n 0) (S754_finite false d 0)
  | _, _ => S754_zero neg
  end.

Definition f64_of_lit (lit : string) : float64 :=
  let '(neg, s) := match lit with String "-" s => (true, s) | s => (false, s) end in
  let '(m, frac, rest) := mantissa_of s 0 0 false in
  f64_of_decimal neg m (exponent_of rest - frac).

(** A JSON number as a float64; [None] when it is out of range. *)
Definition f64_of_json (j : json) : option float64 :=
  let f := match j with JInt z => f64_of_Z z | JDec lit => f64_of_lit lit | _ => S754_nan end in
  match f with S754_infinity _ | S754_nan => None | _ => Some f end.

Example f64_parse :
  f64_of_json (JDec "0.1") = Some (S754_finite false 7205759403792794 (-56)) /\
  f64_of_json (JDec "-12.5e1") = Some (S754_finite true 8796093022208000 (-46)) /\
  f64_of_json (JDec "1e400") = None /\ f64_of_json (JInt (2 ^ 53 + 1)) = f64_of_json (JInt (2 ^ 53)).
Proof. vm_compute. auto. Qed.

(** ** Integers are exact up to 2^53 *)

Lemma digits2_size p : Z.pos (digits2_pos p) = Z.log2 (Z.pos p) + 1.
Proof.
  induction p as [p IH|p IH|]; cbn [digits2_pos].
  - rewrite Pos2Z.inj_succ, IH, Pos2Z.inj_xI, Z.log2_succ_double by lia. lia.
  - rewrite Pos2Z.inj_succ, IH, Pos2Z.inj_xO, Z.log2_double by lia. lia.
  - done.
Qed.

Lemma iter_xO m d : Z.pos (Pos.iter xO m d) = Z.pos m * 2 ^ Z.pos d.
Proof.
  revert m. induction d as [|d IH] using Pos.peano_ind; intros m.
  - cbn. lia.
  - rewrite Pos.iter_succ, Pos2Z.inj_xO, IH, Pos2Z.inj_succ, Z.pow_succ_r by lia. lia.
Qed.

Lemma fexp_id e : - 1021 <= e -> fexp prec emax e = e - prec.
Proof. intros H. unfold fexp, emin, prec, emax. lia. Qed.

(** A mantissa of exactly 53 bits is not rounded. *)
Lemma round_exact s m e : Z.log2 (Z.pos m) = 52 -> - 1074 <= e <= 971 ->
  binary_round_aux prec emax s (Z.pos m) e loc_Exact = S754_finite s m e.
Proof.
  intros Hm He. unfold binary_round_aux, shr_fexp. cbn [Zdigits2].
  assert (E : fexp prec emax (Z.pos (digits2_pos m) + e) - e = 0).
  { rewrite digits2_size, Hm, fexp_id by lia. unfold prec. lia. }
  rewrite E. cbn [shr shr_record_of_loc shr_m loc_of_shr_record round_nearest_even Zdigits2]. rewrite E.
  cbn [shr shr_record_of_loc shr_m]. replace (e <=? emax - prec) with true; [done|].
  symmetry. apply Z.leb_le. unfold emax, prec. lia.
Qed.

(** Integers below 2^53 are floats, and truncation gives them back. *)
Lemma f64_of_Z_exact z : 0 < z < 2 ^ 53 ->
  exists m e, f64_of_Z z = S754_finite false m e /\ - 53 < e <= 0 /\ Z.pos m = z * 2 ^ (- e).
Proof.
  intros Hz. destruct z as [|p|p]; try lia. unfold f64_of_Z, binary_normalize, binary_round.
  set (d := Z.log2 (Z.pos p)). assert (Hd : 0 <= d < 53).
  { split; [apply Z.log2_nonneg|]. apply Z.log2_lt_pow2; lia. }
  rewrite digits2_size. fold d. rewrite fexp_id by lia. unfold shl_align.
  replace (d + 1 + 0 - prec - 0) with (d - 52) by (unfold prec; lia).
  destruct (Z.eq_dec d 52) as [Ed|Ed].
  - rewrite Ed. cbn [Z.sub Z.add Z.opp Z.pos_sub]. change (52 - 52) with 0. cbv iota beta.
    exists p, 0. rewrite round_exact by (unfold d in Ed; lia). split_and!; try lia. done.
  - assert (exists k, d - 52 = Z.neg k) as [k Hk] by (destruct (d - 52) eqn:E; try lia; eauto).
    rewrite Hk. exists (Pos.iter xO p k), (d + 1 + 0 - prec).
    assert (Hpk : Z.pos (Pos.iter xO p k) = Z.pos p * 2 ^ (52 - d)) by (rewrite iter_xO; f_equal; f_equal; lia).
    rewrite round_exact.
    + split_and!; [done|unfold prec; lia|unfold prec; lia|]. rewrite Hpk. f_equal. f_equal. unfold prec. lia.
    + rewrite Hpk, Z.log2_mul_pow2 by lia. fold d. lia.
    + unfold prec. lia.
Qed.

Lemma f64_of_Z_trunc z : 0 <= z < 2 ^ 53 ->
  trunc_Z (f64_of_Z z) = z /\ is_integral (f64_of_Z z) = true /\ f64_ltb (f64_of_Z z) f64_zero = false /\
  f64_of_json (JInt z) = Some (f64_of_Z z).
Proof.
  intros Hz. destruct (Z.eq_dec z 0) as [->|Hn]; [done|].
  destruct (f64_of_Z_exact z ltac:(lia)) as (m & e & E & He & Hm). cbn [f64_of_json]. rewrite E. cbn [trunc_Z is_integral f64_ltb].
  assert (Hdiv : Z.pos m / 2 ^ (- e) = z) by (rewrite Hm; apply Z.div_mul; lia).
  assert (Hmod : Z.pos m mod 2 ^ (- e) = 0) by (rewrite Hm; apply Z.mod_mul; lia).
  split_and!; try done.
  - destruct (Z.leb_spec 0 e); [|done]. assert (e = 0) as -> by lia. change (- 0) with 0 in *. cbn in *. lia.
  - rewrite Hmod. cbn. apply orb_true_r.
  - unfold f64_of_json. now rewrite E.
Qed.
