(* ===== verification/Amount.v ===== *)
(** * acbcutil/amount.go

Amounts in satoshi and their conversion from and to floating-point bitcoins. *)

From Stdlib Require Import ZArith Lia List.
From Stdlib Require Import Strings.String.
From Stdlib Require Import Floats.SpecFloat.
From S2P Require Import Prelude JsonTypes GoFloat.

#[local] Open Scope list_scope.

Definition AmountMegaBTC : Z := 6.
Definition AmountKiloBTC : Z := 3.
Definition AmountBTC : Z := 0.
Definition AmountMilliBTC : Z := -3.
Definition AmountMicroBTC : Z := -6.
Definition AmountSatoshi : Z := -8.

(** The constants of const.go, which are exact as float64. *)
Definition SatoshiPerBitcent : Z := 10 ^ 6.
Definition SatoshiPerBitcoin : Z := 10 ^ 8.
Definition MaxSatoshi : Z := 21 * 10 ^ 6 * SatoshiPerBitcoin.

Definition half : float64 := S754_finite false (2 ^ 52) (-53).

Section amount.
(** What int64(f) gives when f is out of range. *)
Context (other : float64 -> Z).

Definition round (f : float64) : Z :=
  if f64_ltb f f64_zero then to_int64 other (f64_sub f half) else to_int64 other (f64_add f half).

Definition NewAmount (f : float64) : option Z :=
  if IsNaN f || IsInf f 1 || IsInf f (-1) then None
  else Some (round (f64_mul f (f64_of_Z SatoshiPerBitcoin))).
End amount.

(** math.Pow10, as the quotient or product of the tables of the package. *)
Definition pow10 (n : Z) : float64 := f64_of_decimal false 1 n.
Definition Pow10 (n : Z) : float64 :=
  if (0 <=? n) && (n <=? 308) then f64_mul (pow10 (32 * (n / 32))) (pow10 (n mod 32))
  else if (-323 <=? n) && (n <=? 0) then f64_div (pow10 (- (32 * ((- n) / 32)))) (pow10 ((- n) mod 32))
  else if 0 <? n then S754_infinity false else f64_zero.

Definition ToUnit (u : Z) (a : Z) : float64 := f64_div (f64_of_Z a) (Pow10 (u + 8)).
Definition ToBTC (a : Z) : float64 := ToUnit AmountBTC a.

Example amounts :
  map (fun a => NewAmount (fun _ => 0) (ToBTC a)) [0; 1; -1; 123456789; 2099999999999999; - MaxSatoshi] =
  map Some [0; 1; -1; 123456789; 2099999999999999; - MaxSatoshi].
Proof. vm_compute. reflexivity. Qed.
