(* ===== verification/AcbcUtil.v ===== *)
(** * acbcutil and the chain view

Blocks and transactions with their caches (acbcutil/block.go, acbcutil/tx.go),
application data directories (acbcutil/appdata.go), block weight
(blockchain/weight.go) and blocks by height (blockchain/chainview.go, chain.go). *)

From Stdlib Require Import ZArith Lia List.
From Stdlib Require Import Strings.String Strings.Ascii.
From S2P Require Import Prelude WireFormat TxFormat WireCommon WireMsgTx WireMsgTxEncode Sha256 ChainHash.
From S2P Require Import WireBlock.

#[local] Open Scope list_scope.
#[local] Set Warnings "-register-all".

(** ** Transactions *)

Definition TxIndexUnknown : Z := -1.

Record Tx := MkTx { t_msgTx : tx; t_txIndex : Z }.
Definition NewTx (msgTx : tx) : Tx := MkTx msgTx TxIndexUnknown.
Definition Tx_Index (t : Tx) : Z := t_txIndex t.
Definition SetIndex (index : Z) (t : Tx) : Tx := MkTx (t_msgTx t) index.
Definition Tx_MsgTx (t : Tx) : tx := t_msgTx t.

(** NewTxFromReader and NewTxFromBytes. *)
Definition NewTxFromReader : IO Tx := msgTx ← Deserialize; mret (MkTx msgTx TxIndexUnknown).
Definition NewTxFromBytes (serializedTx : bytes) (w : world) : result werr Tx :=
  (NewTxFromReader (set_rd (Reader serializedTx EOF) w)).1.

(** ** Blocks *)

(** [b_transactions] holds nil for a transaction not wrapped yet. *)
Record Block := MkBlock {
  b_msgBlock : MsgBlock; b_hash : option bytes; b_height : Z;
  b_transactions : list (option Tx); b_generated : bool }.

Definition Height (b : Block) : Z := b_height b.
Definition Block_MsgBlock (b : Block) : MsgBlock := b_msgBlock b.

(** (b *Block) Hash: the hash and the block with its cache. *)
Definition Block_Hash (w : world) (b : Block) : bytes * Block :=
  match b_hash b with
  | Some h => (h, b)
  | None =>
      let hash := MsgBlock_BlockHash (b_msgBlock b) w in
      (hash, MkBlock (b_msgBlock b) (Some hash) (b_height b) (b_transactions b) (b_generated b))
  end.

(** The loop over b.transactions from index [i] on; [None] is an index out of
range in the message's transactions. *)
Fixpoint wrap_from (i : nat) (l : list (option Tx)) (txs : list tx) : option (list (option Tx)) :=
  match l with
  | [] => Some []
  | Some t :: rest => k ← wrap_from (S i) rest txs; Some (Some t :: k)
  | None :: rest =>
      m ← txs !! i;
      let newTx := SetIndex (Z.of_nat i) (NewTx m) in
      k ← wrap_from (S i) rest txs; Some (Some newTx :: k)
  end.

(** (b *Block) Transactions. *)
Definition Block_Transactions (b : Block) : option (list (option Tx) * Block) :=
  if b_generated b then Some (b_transactions b, b)
  else
    let l := match b_transactions b with
             | [] => replicate (length (Transactions (b_msgBlock b))) None
             | l => l
             end in
    l' ← wrap_from 0 l (Transactions (b_msgBlock b));
    Some (l', MkBlock (b_msgBlock b) (b_hash b) (b_height b) l' true).

(** The caches agree with the message. *)
Record block_ok (w : world) (b : Block) : Prop := {
  bok_hash h : b_hash b = Some h -> h = MsgBlock_BlockHash (b_msgBlock b) w;
  bok_txs i t : b_transactions b !! i = Some (Some t) ->
    Transactions (b_msgBlock b) !! i = Some (t_msgTx t) /\ t_txIndex t = Z.of_nat i;
  bok_len : b_transactions b = [] \/ length (b_transactions b) = length (Transactions (b_msgBlock b));
  bok_generated : b_generated b = true ->
    length (b_transactions b) = length (Transactions (b_msgBlock b)) /\ Forall is_Some (b_transactions b)
}.

(** All transactions of a message, wrapped with their positions. *)
Definition wrapped (txs : list tx) : list (option Tx) :=
  imap (fun i m => Some (MkTx m (Z.of_nat i))) txs.

Lemma wrap_from_spec l : forall i txs, (i + length l = length txs)%nat ->
  (forall j t, l !! j = Some (Some t) -> txs !! (i + j)%nat = Some (t_msgTx t) /\ t_txIndex t = Z.of_nat (i + j)) ->
  wrap_from i l txs = Some (drop i (wrapped txs)).
Proof.
  assert (Hw : forall i txs m, txs !! i = Some m -> drop i (wrapped txs) = Some (MkTx m (Z.of_nat i)) :: drop (S i) (wrapped txs)).
  { intros i txs m Hm. apply drop_S. unfold wrapped. rewrite list_lookup_imap, Hm. done. }
  induction l as [|o l IH]; intros i txs Hl Ht; cbn [wrap_from].
  - cbn in Hl. rewrite drop_ge; [done|]. unfold wrapped. rewrite length_imap. lia.
  - cbn [length] in Hl. destruct (lookup_lt_is_Some_2 txs i ltac:(lia)) as [m Hm].
    assert (IH' : wrap_from (S i) l txs = Some (drop (S i) (wrapped txs))).
    { apply IH; [lia|]. intros j t Hj. replace (S i + j)%nat with (i + S j)%nat by lia. apply (Ht (S j) t Hj). }
    rewrite (Hw i txs m Hm). destruct o as [t|].
    + destruct (Ht O t eq_refl) as [H1 H2]. rewrite Nat.add_0_r in *. rewrite IH'. cbn.
      destruct t as [t_m t_i]. cbn in H1, H2. repeat f_equal; congruence.
    + rewrite Hm. cbn [mbind option_bind]. rewrite IH'. done.
Qed.

#[local] Opaque MsgBlock_BlockHash.

(** The caches of a block are invisible.  On a block whose caches agree with its
message, Hash is the hash of the message, Transactions are the message's
transactions wrapped with their positions, and both leave such a block. *)
Theorem block_caches w b : block_ok w b ->
  (Block_Hash w b).1 = MsgBlock_BlockHash (b_msgBlock b) w /\ block_ok w (Block_Hash w b).2 /\
  exists b', Block_Transactions b = Some (wrapped (Transactions (b_msgBlock b)), b') /\ block_ok w b' /\
    b_msgBlock b' = b_msgBlock b.
Proof.
  intros [Hh Ht Hl Hg]. split; [|split].
  - unfold Block_Hash. destruct (b_hash b) as [h|] eqn:E; [now apply Hh|done].
  - unfold Block_Hash. destruct (b_hash b) as [h|] eqn:E; cbn [snd].
    { constructor; rewrite ?E; assumption. }
    constructor; cbn; try assumption. intros h [= <-]. reflexivity.
  - unfold Block_Transactions. set (txs := Transactions (b_msgBlock b)) in *.
    destruct (b_generated b) eqn:Eg.
    + destruct (Hg eq_refl) as [Hlen Hall]. exists b. split; [|split; [constructor; done|done]]. f_equal. f_equal.
      apply list_eq. intros i. unfold wrapped. rewrite list_lookup_imap.
      destruct (b_transactions b !! i) as [[t|]|] eqn:Ei.
      * destruct (Ht i t Ei) as [H1 H2]. rewrite H1. cbn. destruct t as [m k]. cbn in *. congruence.
      * rewrite Forall_lookup in Hall. now destruct (Hall i None Ei).
      * apply lookup_ge_None in Ei. rewrite lookup_ge_None_2; [done|lia].
    + set (l := match b_transactions b with [] => _ | _ => _ end).
      assert (Hlw : wrap_from 0 l txs = Some (wrapped txs)).
      { replace (wrapped txs) with (drop 0 (wrapped txs)) by done. apply wrap_from_spec.
        - unfold l. destruct (b_transactions b); [now rewrite length_replicate|]. destruct Hl; [done|]. cbn in *. lia.
        - intros j t Hj. unfold l in Hj. destruct (b_transactions b) as [|o k] eqn:Eb; [|now apply Ht].
          apply lookup_replicate in Hj as [? _]. discriminate. }
      rewrite Hlw. cbn [mbind option_bind]. eexists. split; [reflexivity|]. split; [|done]. constructor; cbn; auto.
      * intros i t. unfold wrapped. rewrite list_lookup_imap. fold txs. destruct (txs !! i) as [m|] eqn:E; [|done].
        cbn. now intros [= <-].
      * right. unfold wrapped. now rewrite length_imap.
      * intros _. unfold wrapped. rewrite length_imap. split; [done|]. apply Forall_lookup. intros i o.
        rewrite list_lookup_imap. destruct (txs !! i); cbn; [intros [= <-]; eauto|done].
Qed.

(** A block with two transactions, the second already wrapped. *)
Definition sample_block : Block :=
  MkBlock (MkMsgBlock (sample_header 1) [MkMsgTx 1 [] [] 0; MkMsgTx 2 [] [] 0]) None 7
    [None; Some (MkTx (MkMsgTx 2 [] [] 0) 1)] false.

Example block_caches_witness :
  let w := World (Reader [] EOF) [] None [] [] 0 in
  exists b', Block_Transactions sample_block = Some ([Some (MkTx (MkMsgTx 1 [] [] 0) 0); Some (MkTx (MkMsgTx 2 [] [] 0) 1)], b') /\
    block_ok w b'.
Proof.
  cbv zeta. destruct (block_caches (World (Reader [] EOF) [] None [] [] 0) sample_block) as (_ & _ & b' & H1 & H2 & _).
  - constructor; [discriminate| |right; reflexivity|discriminate].
    intros [|[|i]] t [=]. subst t. split; reflexivity.
  - exists b'. split; [exact H1|exact H2].
Defined.

(** ** appDataDir *)

Definition to_upper (c : ascii) : ascii :=
  let n := nat_of_ascii c in if (97 <=? n)%nat && (n <=? 122)%nat then ascii_of_nat (n - 32) else c.
Definition to_lower (c : ascii) : ascii :=
  let n := nat_of_ascii c in if (65 <=? n)%nat && (n <=? 90)%nat then ascii_of_nat (n + 32) else c.

(** What the function reads of its environment: the user's home directory from
user.Current (or its error), and environment variables, empty when unset. *)
Record os_env := MkEnv { current_home : option string; getenv : string -> string }.

(** [join] is filepath.Join; the name is ASCII.  [None] is the index out of range
that an empty name after the trimmed period would be. *)
Definition appDataDir (join : list string -> string) (env : os_env) (goos appName : string) (roaming : bool) : option string :=
  if bool_decide (appName = ""%string) || bool_decide (appName = "."%string) then Some "."%string
  else
    let appName := match appName with String "." rest => rest | _ => appName end in
    match appName with
    | EmptyString => None
    | String c rest =>
        let appNameUpper := String (to_upper c) rest in
        let appNameLower := String (to_lower c) rest in
        let homeDir := match current_home env with Some h => h | None => ""%string end in
        let homeDir := if bool_decide (homeDir = ""%string) then getenv env "HOME" else homeDir in
        let home path := if bool_decide (homeDir = ""%string) then "."%string else join (homeDir :: path) in
        Some
          (if bool_decide (goos = "windows"%string) then
             let appData := getenv env "LOCALAPPDATA" in
             let appData := if roaming || bool_decide (appData = ""%string) then getenv env "APPDATA" else appData in
             if bool_decide (appData = ""%string) then "."%string else join [appData; appNameUpper]
           else if bool_decide (goos = "darwin"%string) then home ["Library"%string; "Application Support"%string; appNameUpper]
           else if bool_decide (goos = "plan9"%string) then home [appNameLower]
           else home [("." +:+ appNameLower)%string])
    end.

(** No application name makes appDataDir panic: "." alone is caught before. *)
Lemma appDataDir_total join env goos appName roaming : appDataDir join env goos appName roaming <> None.
Proof.
  unfold appDataDir. destruct (bool_decide_reflect (appName = ""%string)); [done|].
  destruct (bool_decide_reflect (appName = "."%string)); [done|]. cbn [orb].
  destruct appName as [|c s]; [done|].
  assert (H : forall a : ascii, a = "."%char \/ a <> "."%char) by (intros; destruct (ascii_dec a "."); auto).
  destruct s as [|c' s]; [|destruct c as [[] [] [] [] [] [] [] []]; done].
  destruct c as [[] [] [] [] [] [] [] []]; done.
Qed.

(** ** weight.go *)

Definition MaxBlockWeight : Z := 4000000.
Definition MaxBlockBaseSize : Z := 1000000.
Definition MaxBlockSigOpsCost : Z := 80000.
Definition WitnessScaleFactor : Z := 4.
Definition MinTxOutputWeight : Z := WitnessScaleFactor * MinTxOutPayload.
Definition MaxOutputsPerBlock : Z := MaxBlockWeight / MinTxOutputWeight.

(** ** chainview.go and chain.go *)

(** The fields of a blockNode that are read: its hash and height. *)
Record blockNode := MkNode { n_hash : bytes; n_height : Z }.

(** [int32(len(c.nodes))] wraps. *)
Definition nodeByHeight (nodes : list blockNode) (height : Z) : option blockNode :=
  if (height <? 0) || (i32 (len nodes) <=? height) then None else nodes !! Z.to_nat height.
(** NodeByHeight holds the lock around nodeByHeight. *)
Definition NodeByHeight := nodeByHeight.

Definition errNotInMainChain (str : string) : string := str.
Definition BlockHashByHeight (bestChain : list blockNode) (blockHeight : Z) : result string bytes :=
  match NodeByHeight bestChain blockHeight with
  | None => Err (errNotInMainChain ("no block at height " +:+ fmt_d blockHeight +:+ " exists")%string)
  | Some node => Ok (n_hash node)
  end.

(** BlockHashByHeight is the height's node, for heights in range only; no index
is out of range as long as the chain is below 2^31 blocks. *)
Lemma BlockHashByHeight_spec nodes h : len nodes < 2 ^ 31 ->
  match BlockHashByHeight nodes h with
  | Ok hash => 0 <= h < len nodes /\ n_hash <$> nodes !! Z.to_nat h = Some hash
  | Err e => ~ (0 <= h < len nodes) /\ e = ("no block at height " +:+ fmt_d h +:+ " exists")%string
  end.
Proof.
  intros Hl. unfold BlockHashByHeight, NodeByHeight, nodeByHeight. pose proof (len_nonneg nodes).
  replace (i32 (len nodes)) with (len nodes) by (unfold i32; rewrite Z.mod_small; lia).
  destruct ((h <? 0) || (len nodes <=? h)) eqn:E.
  - apply orb_true_iff in E. split; [destruct E; lia|done].
  - apply orb_false_iff in E as [E1 E2]. apply Z.ltb_ge in E1. apply Z.leb_gt in E2.
    destruct (lookup_lt_is_Some_2 nodes (Z.to_nat h)) as [n ->]; [unfold len in *; lia|].
    cbn. split; [lia|done].
Qed.
