(* ===== verification/RpcNotify.v ===== *)
(** * Notifications (rpcwebsocket.go: wsNotificationManager)

The two queues a notification goes through, as step relations over the channel
operations of their goroutines; the manager's handler of registrations and the
limit on websocket clients; and the notifications of spent outpoints. *)

From Stdlib Require Import ZArith Lia List.
From Stdlib Require Import Strings.String.
From stdpp Require Import relations.
From S2P Require Import Prelude WireFormat TxFormat JsonTypes AcbcJson AcbcJsonCmds RpcAuth RpcServer.
From S2P Require Import RpcWebsocket.

#[local] Open Scope list_scope.
#[local] Set Warnings "-register-all".

(** ** queueHandler *)

Section queue.
Context {A : Type}.

(** The variables of queueHandler: the queue, whether dequeue and skipQueue are
non-nil, and next.  [received] and [sent] are what went through [in] and [out]. *)
Record queue := MkQueue {
  q : list A; dequeue : bool; skipQueue : bool; next : option A;
  running : bool; received : list A; sent : list A }.

Definition init_queue : queue := MkQueue [] false true None true [] [].

(** The branches of the select.  [ready] tells whether a reader is waiting on
[out]; sending on a nil channel is never ready. *)
Definition on_in (n : A) (ready : bool) (s : queue) : queue :=
  if skipQueue s && ready
  then MkQueue (q s) (dequeue s) (skipQueue s) (next s) (running s) (received s ++ [n]) (sent s ++ [n])
  else
    let q' := q s ++ [n] in
    MkQueue q' true false (q' !! 0%nat) (running s) (received s ++ [n]) (sent s).

(** [copy(q, q[1:]); q[len(q)-1] = nil; q = q[:len(q)-1]]: [None] is a panic on
an empty queue or a nil next. *)
Definition on_dequeue (s : queue) : option queue :=
  if dequeue s then
    match next s, q s with
    | Some n, _ :: q' =>
        Some (match q' with
              | [] => MkQueue q' false true (next s) (running s) (received s) (sent s ++ [n])
              | x :: _ => MkQueue q' (dequeue s) (skipQueue s) (Some x) (running s) (received s) (sent s ++ [n])
              end)
    | _, _ => None
    end
  else Some s.

(** The input closed, or quit: the loop ends and [out] is closed. *)
Definition on_quit (s : queue) : queue :=
  MkQueue (q s) (dequeue s) (skipQueue s) (next s) false (received s) (sent s).

Inductive queue_step : queue -> queue -> Prop :=
  | q_in n ready s : running s = true -> queue_step s (on_in n ready s)
  | q_dequeue s s' : running s = true -> dequeue s = true -> on_dequeue s = Some s' -> queue_step s s'
  | q_quit s : running s = true -> queue_step s (on_quit s).

(** Everything received is sent or queued, in order, and the channel variables
agree with the queue. *)
Record queue_inv (s : queue) : Prop := {
  qi_order : received s = sent s ++ q s;
  qi_dequeue : dequeue s = negb (bool_decide (length (q s) = 0%nat));
  qi_skip : skipQueue s = bool_decide (length (q s) = 0%nat);
  qi_next : dequeue s = true -> next s = q s !! 0%nat
}.

Lemma init_queue_inv : queue_inv init_queue.
Proof. constructor; done. Qed.

Lemma on_in_inv n ready s : queue_inv s -> queue_inv (on_in n ready s).
Proof.
  intros [Ho Hd Hs Hn]. unfold on_in. destruct (skipQueue s && ready) eqn:E.
  - apply andb_true_iff in E as [E _]. rewrite E in Hs. symmetry in Hs. apply bool_decide_eq_true in Hs.
    apply nil_length_inv in Hs. constructor; cbn; auto.
    + rewrite Ho, Hs, !app_nil_r. done.
    + rewrite E, Hs. done.
  - constructor; cbn; auto.
    + now rewrite Ho, app_assoc.
    + rewrite length_app, bool_decide_eq_false_2; [done|cbn; lia].
    + rewrite length_app, bool_decide_eq_false_2; [done|cbn; lia].
Qed.

Lemma on_dequeue_inv s : queue_inv s -> dequeue s = true ->
  exists s' n, on_dequeue s = Some s' /\ queue_inv s' /\ sent s' = sent s ++ [n] /\ received s' = received s /\
    q s = n :: q s' /\ running s' = running s.
Proof.
  intros [Ho Hd Hs Hn] Hdq. unfold on_dequeue. rewrite Hdq, (Hn Hdq). rewrite Hdq in Hd.
  destruct (q s) as [|n l]; [discriminate Hd|]. cbn [lookup list_lookup].
  destruct l as [|x l]; eexists _, n; (split; [reflexivity|]); cbn; split_and!; try done; constructor; cbn; try done.
  all: now rewrite Ho, <- app_assoc.
Qed.

(** C33: the notification queue is a lossless FIFO.  In every reachable state of
queueHandler what was sent on and what is still queued is exactly what was
received, in order; a dequeue never panics; sending directly happens only past
an empty queue; and while the handler runs, a reader that keeps reading gets
everything received so far. *)
Theorem queueHandler_fifo s :
  rtc queue_step init_queue s ->
  received s = sent s ++ q s /\ (dequeue s = true <-> q s <> []) /\ (skipQueue s = true <-> q s = []) /\
  (dequeue s = true -> on_dequeue s <> None) /\
  (running s = true -> exists s', rtc queue_step s s' /\ sent s' = received s /\ received s' = received s /\ q s' = []).
Proof.
  intros Hrun. assert (Hi : queue_inv s).
  { remember init_queue as s0 eqn:E. assert (H0 : queue_inv s0) by (subst; apply init_queue_inv). clear E.
    induction Hrun as [|x y z Hstep _ IH]; [done|]. apply IH. destruct Hstep as [n ready s _|s s' _ Hd Hs|s _].
    - now apply on_in_inv.
    - destruct (on_dequeue_inv s H0 Hd) as (s1 & n & E & Hs1 & _). congruence.
    - destruct H0. now constructor. }
  destruct (Hi) as [Ho Hd Hs Hn]. split_and!; [done| | | |].
  - rewrite Hd. destruct (q s); cbn; split; congruence || done.
  - rewrite Hs. destruct (q s); cbn; split; congruence || done.
  - intros H. destruct (on_dequeue_inv s Hi H) as (s' & n & -> & _). done.
  - intros Hr. clear Hrun Ho Hd Hs Hn. remember (q s) as l eqn:El. revert s Hi El Hr.
    induction l as [|x l IH]; intros s Hi El Hr; destruct (Hi) as [Ho Hd _ _]; rewrite <- El in Ho, Hd.
    + exists s. split_and!; [apply rtc_refl| |done|done]. now rewrite Ho, app_nil_r.
    + destruct (on_dequeue_inv s Hi Hd) as (s1 & n & E & Hs1 & Hsent & Hrec & Hq & Hrun1).
      rewrite <- El in Hq. injection Hq as <- Hq1.
      destruct (IH s1 Hs1 Hq1 ltac:(congruence)) as (s2 & Hr2 & ? & ? & ?).
      exists s2. split_and!; [|congruence|congruence|done].
      eapply rtc_l; [|exact Hr2]. eapply q_dequeue; eauto.
Qed.
End queue.

Example queueHandler_fifo_witness :
  let s := on_in 2 false (on_in 1 false init_queue) in
  rtc queue_step init_queue s /\ received s = sent s ++ q s /\ q s = [1; 2].
Proof.
  assert (H : rtc queue_step init_queue (on_in 2 false (on_in 1 false init_queue))).
  { eapply rtc_l; [apply (q_in 1 false); reflexivity|]. eapply rtc_l; [apply (q_in 2 false); reflexivity|]. apply rtc_refl. }
  split; [exact H|]. split; [|reflexivity]. exact (proj1 (queueHandler_fifo _ H)).
Defined.

(** ** notificationQueueHandler *)

Section ntfn.
Context {A : Type}.

(** pendingNtfns and waiting; [inflight] is the message handed to SendMessage
that outHandler has not reported yet, [reported] the contents of ntfnSentChan
(capacity one), [written] what outHandler wrote, in order; [queued] is what
came through ntfnChan and [given] what was handed to SendMessage. *)
Record ntfn_queue := MkNtfn {
  pending : list A; waiting : bool;
  inflight : list A; reported : nat; written : list A;
  queued : list A; given : list A; n_disconnected : bool; n_running : bool }.

Definition init_ntfn : ntfn_queue := MkNtfn [] false [] 0 [] [] [] false true.

(** SendMessage with ntfnSentChan: a disconnected client reports at once. *)
Definition ntfn_send (m : A) (s : ntfn_queue) : ntfn_queue :=
  if n_disconnected s
  then MkNtfn (pending s) (waiting s) (inflight s) (S (reported s)) (written s) (queued s) (given s ++ [m])
         (n_disconnected s) (n_running s)
  else MkNtfn (pending s) (waiting s) (inflight s ++ [m]) (reported s) (written s) (queued s) (given s ++ [m])
         (n_disconnected s) (n_running s).

Definition set_pending (l : list A) (w : bool) (s : ntfn_queue) : ntfn_queue :=
  MkNtfn l w (inflight s) (reported s) (written s) (queued s) (given s) (n_disconnected s) (n_running s).

Definition on_ntfn (m : A) (s : ntfn_queue) : ntfn_queue :=
  let s := MkNtfn (pending s) (waiting s) (inflight s) (reported s) (written s) (queued s ++ [m]) (given s)
             (n_disconnected s) (n_running s) in
  let s := if negb (waiting s) then ntfn_send m s else set_pending (pending s ++ [m]) (waiting s) s in
  set_pending (pending s) true s.

Definition on_sent (s : ntfn_queue) : ntfn_queue :=
  let s := MkNtfn (pending s) (waiting s) (inflight s) (pred (reported s)) (written s) (queued s) (given s)
             (n_disconnected s) (n_running s) in
  match pending s with
  | [] => set_pending [] false s
  | msg :: rest => ntfn_send msg (set_pending rest (waiting s) s)
  end.

(** outHandler takes one message; it reports after writing, or drains with a
report when the client has quit. *)
Definition on_out (ok : bool) (s : ntfn_queue) : ntfn_queue :=
  match inflight s with
  | [] => s
  | m :: rest => MkNtfn (pending s) (waiting s) rest (S (reported s)) (if ok then written s ++ [m] else written s)
                   (queued s) (given s) (n_disconnected s) (n_running s)
  end.

Inductive ntfn_step : ntfn_queue -> ntfn_queue -> Prop :=
  | n_ntfn m s : n_running s = true -> ntfn_step s (on_ntfn m s)
  | n_sent s : n_running s = true -> (0 < reported s)%nat -> ntfn_step s (on_sent s)
  | n_out s : n_disconnected s = false -> ntfn_step s (on_out true s)
  | n_drain s : n_disconnected s = true -> ntfn_step s (on_out false s)
  | n_disconnect s : ntfn_step s (MkNtfn (pending s) (waiting s) (inflight s) (reported s) (written s) (queued s) (given s) true (n_running s))
  | n_quit s : n_disconnected s = true ->
      ntfn_step s (MkNtfn (pending s) (waiting s) (inflight s) (reported s) (written s) (queued s) (given s) true false).

Record ntfn_inv (s : ntfn_queue) : Prop := {
  ni_order : queued s = given s ++ pending s;
  ni_one : (length (inflight s) + reported s = if waiting s then 1 else 0)%nat;
  ni_idle : waiting s = false -> pending s = [];
  ni_written : n_disconnected s = false -> given s = written s ++ inflight s;
  ni_prefix : exists l, given s = written s ++ l
}.

Lemma ntfn_send_inv m s : queued s = given s ++ m :: pending s -> (length (inflight s) + reported s = 0)%nat ->
  waiting s = true -> (n_disconnected s = false -> given s = written s ++ inflight s) ->
  (exists l, given s = written s ++ l) -> ntfn_inv (ntfn_send m s).
Proof.
  intros Ho H1 Hw Hg [l Hl]. unfold ntfn_send. destruct (n_disconnected s) eqn:Ed; constructor; cbn; rewrite ?Hw; try done.
  - now rewrite Ho, <- app_assoc.
  - lia.
  - rewrite Hl. exists (l ++ [m]). now rewrite app_assoc.
  - now rewrite Ho, <- app_assoc.
  - rewrite length_app. cbn. lia.
  - intros _. rewrite Hg by done. now rewrite app_assoc.
  - rewrite Hl. exists (l ++ [m]). now rewrite app_assoc.
Qed.

Lemma ntfn_step_inv s s' : ntfn_inv s -> ntfn_step s s' -> ntfn_inv s'.
Proof.
  intros [Ho H1 Hi Hg Hp] Hstep. destruct Hstep as [m s Hr|s Hr Hrep|s Hd|s Hd|s|s Hd].
  - unfold on_ntfn. cbn [waiting]. destruct (waiting s) eqn:Ew; cbn [negb].
    + constructor; cbn; try done. now rewrite Ho, app_assoc.
    + assert (H : ntfn_inv (ntfn_send m (MkNtfn (pending s) true (inflight s) (reported s) (written s) (queued s ++ [m])
          (given s) (n_disconnected s) (n_running s)))).
      { apply ntfn_send_inv; cbn; try done. rewrite Ho, (Hi eq_refl), app_nil_r. done. }
      unfold ntfn_send in *. cbn [n_disconnected] in *. now destruct (n_disconnected s).
  - unfold on_sent. cbn [pending]. assert (Ew : waiting s = true) by (destruct (waiting s); [done|lia]). rewrite Ew in H1.
    destruct (pending s) as [|m rest] eqn:Ep.
    + constructor; cbn; try done; try lia.
    + apply ntfn_send_inv; cbn; try done. lia.
  - unfold on_out. destruct (inflight s) as [|m rest] eqn:Ef; [constructor; rewrite ?Ef; done|].
    constructor; cbn; try done.
    + rewrite <- H1. cbn. lia.
    + intros H. rewrite Hg by done. now rewrite <- app_assoc.
    + rewrite Hg by done. exists rest. now rewrite <- app_assoc.
  - unfold on_out. destruct (inflight s) as [|m rest] eqn:Ef; [constructor; rewrite ?Ef; done|].
    constructor; cbn; try done; [rewrite <- H1; cbn; lia|congruence].
  - constructor; cbn; done.
  - constructor; cbn; done.
Qed.

(** A client's notifications go out in order, one at a time.  In every
reachable state of notificationQueueHandler and outHandler, what was handed to
SendMessage and what is pending is what was queued, in order; at most one
message is outstanding, so reporting it never blocks on the channel of capacity
one; waiting is set exactly while one is; nothing is pending otherwise; and what
was written to the connection is a prefix of what was queued. *)
Theorem notificationQueue_fifo s :
  rtc ntfn_step init_ntfn s ->
  queued s = given s ++ pending s /\
  (length (inflight s) + reported s = if waiting s then 1 else 0)%nat /\
  (inflight s <> [] -> reported s = 0%nat) /\
  (waiting s = false -> pending s = []) /\
  (exists l, queued s = written s ++ l).
Proof.
  intros Hrun. assert (Hi : ntfn_inv s).
  { remember init_ntfn as s0 eqn:E. assert (H0 : ntfn_inv s0) by (subst; constructor; try done; exists []; done). clear E.
    induction Hrun as [|x y z Hstep _ IH]; [done|]. apply IH. eapply ntfn_step_inv; eauto. }
  destruct Hi as [Ho H1 Hi Hg [l Hl]]. split_and!; try done.
  - destruct (inflight s); [done|]. cbn in H1. intros _. destruct (waiting s); lia.
  - exists (l ++ pending s). now rewrite Ho, Hl, <- app_assoc.
Qed.
End ntfn.

Example notificationQueue_fifo_witness :
  let s := on_out true (on_ntfn 2 (on_ntfn 1 init_ntfn)) in
  rtc ntfn_step init_ntfn s /\ queued s = given s ++ pending s /\ pending s = [2] /\ written s = [1].
Proof.
  intros s. assert (H : rtc ntfn_step init_ntfn s).
  { eapply rtc_l; [apply (n_ntfn 1); reflexivity|]. eapply rtc_l; [apply (n_ntfn 2); reflexivity|].
    eapply rtc_l; [apply n_out; reflexivity|]. apply rtc_refl. }
  split; [exact H|]. split; [exact (proj1 (notificationQueue_fifo s H))|]. split; reflexivity.
Defined.

(** ** notificationHandler *)

(** What reaches the manager; a client is identified by its quit channel. *)
Inductive notification :=
  | notificationBlockConnected | notificationBlockDisconnected | notificationTxAcceptedByMempool (isNew : bool)
  | notificationRegisterClient (wsc : nat) | notificationUnregisterClient (wsc : nat)
  | notificationRegisterBlocks (wsc : nat) | notificationUnregisterBlocks (wsc : nat)
  | notificationRegisterNewMempoolTxs (wsc : nat) | notificationUnregisterNewMempoolTxs (wsc : nat)
  | notificationRegisterSpent (wsc : nat) | notificationUnregisterSpent (wsc : nat)
  | notificationRegisterAddr (wsc : nat) | notificationUnregisterAddr (wsc : nat).

Record manager := MkManager { m_clients : gset nat; blockNotifications : gset nat; txNotifications : gset nat }.
Definition newManager : manager := MkManager ∅ ∅ ∅.

(** One message; the cases commented out in the source fall to the default. *)
Definition notificationHandler (n : notification) (m : manager) : manager :=
  match n with
  | notificationRegisterBlocks wsc => MkManager (m_clients m) ({[wsc]} ∪ blockNotifications m) (txNotifications m)
  | notificationUnregisterBlocks wsc => MkManager (m_clients m) (blockNotifications m ∖ {[wsc]}) (txNotifications m)
  | notificationRegisterClient wsc => MkManager ({[wsc]} ∪ m_clients m) (blockNotifications m) (txNotifications m)
  | notificationRegisterNewMempoolTxs wsc =>
      MkManager (m_clients m) (blockNotifications m) ({[wsc]} ∪ txNotifications m)
  | notificationUnregisterNewMempoolTxs wsc =>
      MkManager (m_clients m) (blockNotifications m) (txNotifications m ∖ {[wsc]})
  | _ => m
  end.

(** NumClients while the manager runs: [m.numClients <- len(clients)]. *)
Definition NumClients (m : manager) : Z := Z.of_nat (size (m_clients m)).

(** AddClient and RemoveClient, with the manager idle. *)
Definition AddClient (wsc : nat) (m : manager) : manager := notificationHandler (notificationRegisterClient wsc) m.
Definition RemoveClient (wsc : nat) (m : manager) : manager := notificationHandler (notificationUnregisterClient wsc) m.

(** The websocket side of the server: the manager, the number given to the next
connection, and the connections that are open. *)
Record ws_server := MkWs { mgr : manager; next_conn : nat; open : gset nat }.

(** WebsocketHandler up to the point where it waits, and what follows when the
client has shut down. *)
Definition WebsocketHandler_begin (cfg_RPCMaxWebsockets : Z) (s : ws_server) : bool * ws_server :=
  if cfg_RPCMaxWebsockets <? NumClients (mgr s) + 1
  then (false, MkWs (mgr s) (S (next_conn s)) (open s))
  else (true, MkWs (AddClient (next_conn s) (mgr s)) (S (next_conn s)) ({[next_conn s]} ∪ open s)).
Definition WebsocketHandler_end (wsc : nat) (s : ws_server) : ws_server :=
  MkWs (RemoveClient wsc (mgr s)) (next_conn s) (open s ∖ {[wsc]}).

Inductive ws_event := Connect | Leave (wsc : nat).

(** A history of connections: which attempts were accepted. *)
Fixpoint ws_history (max : Z) (evs : list ws_event) (s : ws_server) : list bool * ws_server :=
  match evs with
  | [] => ([], s)
  | Connect :: evs => let '(b, s) := WebsocketHandler_begin max s in
                      let '(l, s) := ws_history max evs s in (b :: l, s)
  | Leave wsc :: evs => ws_history max evs (WebsocketHandler_end wsc s)
  end.

Definition accepted (l : list bool) : Z := Z.of_nat (length (List.filter id l)).

Lemma ws_history_count max evs : forall s, (forall i, i ∈ m_clients (mgr s) -> (i < next_conn s)%nat) ->
  NumClients (mgr s) <= Z.max 0 max ->
  let r := ws_history max evs s in
  NumClients (mgr r.2) = NumClients (mgr s) + accepted r.1 /\ NumClients (mgr r.2) <= Z.max 0 max /\
  (forall i, i ∈ m_clients (mgr r.2) -> (i < next_conn r.2)%nat).
Proof.
  induction evs as [|[|wsc] evs IH]; intros s Hf Hm; cbn [ws_history].
  - cbn [fst snd]. change (accepted []) with 0. split_and!; [lia|done|done].
  - destruct (WebsocketHandler_begin max s) as [b s1] eqn:E.
    assert (H1 : NumClients (mgr s1) = NumClients (mgr s) + (if b then 1 else 0) /\ NumClients (mgr s1) <= Z.max 0 max /\
      (forall i, i ∈ m_clients (mgr s1) -> (i < next_conn s1)%nat)).
    { unfold WebsocketHandler_begin in E. destruct (Z.ltb_spec max (NumClients (mgr s) + 1)); injection E as <- <-;
        unfold NumClients in *; cbn.
      - split_and!; [lia|done|]. intros i Hi%Hf. lia.
      - rewrite size_union, size_singleton; [|intros i Hi%elem_of_singleton Hi'%Hf; subst; lia].
        split_and!; [lia|lia|]. intros i [->%elem_of_singleton|Hi%Hf]%elem_of_union; lia. }
    destruct H1 as (H1 & H2 & H3). specialize (IH s1 H3 H2). destruct (ws_history max evs s1) as [l s2].
    cbn [fst snd] in *. destruct IH as (E1 & E2 & E3). split_and!; try done.
    unfold accepted in *. cbn [List.filter id]. destruct b; cbn [length]; lia.
  - exact (IH (WebsocketHandler_end wsc s) Hf Hm).
Qed.

(** Websocket slots are never given back.  The manager does not handle the
message that unregisters a client, so whatever connections are made and
closed, the count it reports is the number of connections ever accepted: at most
RPCMaxWebsockets over the life of the server, and once that many have been
accepted every further connection is refused, even with none open. *)
Theorem websocket_slots max evs more :
  0 <= max ->
  let s0 := MkWs newManager 0 ∅ in
  let r := ws_history max evs s0 in
  NumClients (mgr r.2) = accepted r.1 /\ accepted r.1 <= max /\
  (accepted r.1 = max -> Forall (fun b => b = false) (ws_history max more r.2).1).
Proof.
  intros Hmax s0 r.
  assert (H0 : NumClients (mgr s0) = 0) by reflexivity.
  assert (Hf0 : forall i, i ∈ m_clients (mgr s0) -> (i < next_conn s0)%nat) by (intros i Hi%elem_of_empty; done).
  destruct (ws_history_count max evs s0 Hf0 ltac:(lia)) as (E1 & E2 & E3). fold r in E1, E2, E3.
  rewrite H0 in E1. split_and!; [lia|lia|]. intros Hfull.
  assert (Hn : NumClients (mgr r.2) = max) by lia. clear E1 E2 E3 Hfull. clearbody r. generalize dependent r.
  intros [l s]. cbn [snd]. revert s. induction more as [|[|wsc] evs' IH]; intros s Hn; cbn [ws_history]; [constructor| |].
  - unfold WebsocketHandler_begin. rewrite (proj2 (Z.ltb_lt _ _)) by lia.
    specialize (IH (MkWs (mgr s) (S (next_conn s)) (open s)) Hn).
    destruct (ws_history max evs' _) as [l' s']. constructor; [done|exact IH].
  - exact (IH (WebsocketHandler_end wsc s) Hn).
Qed.

Example websocket_slots_witness :
  let r := ws_history 1 [Connect; Leave 0] (MkWs newManager 0 ∅) in
  open r.2 = ∅ /\ Forall (fun b => b = false) (ws_history 1 [Connect; Connect] r.2).1.
Proof.
  intros r. split; [vm_compute; reflexivity|].
  destruct (websocket_slots 1 [Connect; Leave 0] [Connect; Connect] ltac:(lia)) as (_ & _ & H).
  apply H. vm_compute. reflexivity.
Defined.
