(* ===== verification/RpcSpent.v ===== *)
(** * Notifications of spent outpoints (rpcwebsocket.go: notifyForTxIns)

The map from watched outpoints to the clients that watch them, shared with each
client's own set of requests; a transaction that spends some of them notifies
every such client once, and in a block ends the watch. *)

From Stdlib Require Import ZArith Lia List.
From Stdlib Require Import Strings.String Strings.Byte.
From S2P Require Import Prelude WireFormat TxFormat WireCommon WireMsgTx WireMsgTxEncode ChainHash WireBlock.
From S2P Require Import AcbcUtil JsonTypes AcbcJson AcbcJsonCmds.

#[local] Open Scope list_scope.
#[local] Set Warnings "-register-all".

(** wire.OutPoint, not the type of the same name in acbcjson. *)
#[local] Abbreviation outpoint := TxFormat.OutPoint.

#[export] Instance OutPoint_countable : Countable outpoint.
Proof. apply (inj_countable' (fun o => (Hash o, Index o)) (fun p => MkOutPoint p.1 p.2)). now intros []. Defined.

(** ** The notification *)

(** A serialization goes to a fresh buffer, with the free list of [w]. *)
Definition txHexString (msg : tx) (w : world) : string :=
  string_of_list_byte (hex_EncodeToString (w_out (Serialize msg (set_writer [] None w)).2)).

(** blockDetails of a block, as the value that is marshalled. *)
Definition blockDetails (block : option Block) (txIndex : Z) (w : world) : option gval :=
  match block with
  | None => None
  | Some b => Some (VStruct [VInt (Height b); VStr (string_of_list_byte (Hash_String (Block_Hash w b).1)); VInt txIndex;
                             VInt (unix_sec (Timestamp (Header (Block_MsgBlock b))))])
  end.

Definition newRedeemingTxNotification (txHex : string) (index : Z) (block : option Block) (w : world) : result jerr json :=
  let ntfn := NewRedeemingTxNtfn txHex (blockDetails block index w) in
  MarshalCmd the_registry RpcVersion1 JNull (Some (TPtr RedeemingTxNtfn, ntfn)).

(** ** The manager's maps *)

(** [ops]: the clients watching each outpoint, by quit channel; [spentRequests]:
each client's requests; [quitting]: the disconnected clients; [queued_ntfns]:
what was queued, in order. *)
Record spent_state := MkSpent {
  ops : gmap outpoint (gset nat); spentRequests : gmap nat (gset outpoint);
  quitting : gset nat; queued_ntfns : list (nat * json) }.

Definition requests_of (s : spent_state) (wsc : nat) : gset outpoint := default ∅ (spentRequests s !! wsc).

Definition removeSpentRequest (wsc : nat) (op : outpoint) (s : spent_state) : spent_state :=
  let reqs := <[wsc := requests_of s wsc ∖ {[op]}]> (spentRequests s) in
  match ops s !! op with
  | None => MkSpent (ops s) reqs (quitting s) (queued_ntfns s)
  | Some notifyMap =>
      let notifyMap := notifyMap ∖ {[wsc]} in
      let ops := <[op := notifyMap]> (ops s) in
      MkSpent (if bool_decide (notifyMap = ∅) then delete op ops else ops) reqs (quitting s) (queued_ntfns s)
  end.

(** QueueNotification: ErrClientQuit for a disconnected client. *)
Definition QueueNotification (wsc : nat) (marshalledJSON : json) (s : spent_state) : spent_state :=
  if bool_decide (wsc ∈ quitting s) then s
  else MkSpent (ops s) (spentRequests s) (quitting s) (queued_ntfns s ++ [(wsc, marshalledJSON)]).

Section notify.
(** The order in which Go visits the keys of a map. *)
Context (range : gset nat -> list nat).

(** The loop over the clients of one outpoint: the ones notified so far. *)
Fixpoint notify_clients (l : list nat) (in_block : bool) (prevOut : outpoint) (ntfn : json)
    (notified : gset nat) (s : spent_state) : gset nat * spent_state :=
  match l with
  | [] => (notified, s)
  | wsc :: rest =>
      let s := if in_block then removeSpentRequest wsc prevOut s else s in
      if bool_decide (wsc ∈ notified) then notify_clients rest in_block prevOut ntfn notified s
      else notify_clients rest in_block prevOut ntfn ({[wsc]} ∪ notified) (QueueNotification wsc ntfn s)
  end.

(** The loop over the inputs.  The deletions of removeSpentRequest are from the
map being visited, and only of the key at hand. *)
Fixpoint notify_inputs (w : world) (t : Tx) (block : option Block) (prevs : list outpoint)
    (notified : gset nat) (s : spent_state) : gset nat * spent_state :=
  match prevs with
  | [] => (notified, s)
  | prevOut :: rest =>
      match ops s !! prevOut with
      | None => notify_inputs w t block rest notified s
      | Some cmap =>
          match newRedeemingTxNotification (txHexString (Tx_MsgTx t) w) (Tx_Index t) block w with
          | Err _ => notify_inputs w t block rest notified s
          | Ok ntfn =>
              let '(notified, s) := notify_clients (range cmap) (bool_decide (is_Some block)) prevOut ntfn notified s in
              notify_inputs w t block rest notified s
          end
      end
  end.

Definition notifyForTxIns (w : world) (t : Tx) (block : option Block) (s : spent_state) : spent_state :=
  if bool_decide (ops s = ∅) then s
  else (notify_inputs w t block (map PreviousOutPoint (TxIns (Tx_MsgTx t))) ∅ s).2.

(** notifyForTx; the body of notifyForTxOuts is commented out. *)
Definition notifyForTxOuts (s : spent_state) : spent_state := s.
Definition notifyForTx (w : world) (addrs : gset string) (t : Tx) (block : option Block) (s : spent_state) : spent_state :=
  let s := if negb (bool_decide (ops s = ∅)) then notifyForTxIns w t block s else s in
  if negb (bool_decide (addrs = ∅)) then notifyForTxOuts s else s.
End notify.

(** ** The notification marshals *)

Lemma redeemingtx_method : concreteTypeToMethod the_registry !! type_string (TPtr RedeemingTxNtfn) = Some "redeemingtx"%string.
Proof. vm_compute. reflexivity. Qed.

Lemma newRedeemingTxNotification_ok txHex index block w :
  newRedeemingTxNotification txHex index block w =
    Ok (request_json (MkRequest RpcVersion1 "redeemingtx"
      (Some (JStr txHex :: match blockDetails block index w with Some d => [Marshal BlockDetails d] | None => [] end)) JNull)).
Proof.
  unfold newRedeemingTxNotification, MarshalCmd, MarshalCmd_request, lookup_method.
  rewrite redeemingtx_method. unfold NewRedeemingTxNtfn. destruct (blockDetails block index w); reflexivity.
Qed.

(** ** The maps stay consistent *)

(** No outpoint without clients, and each client's requests are the outpoints
that list it. *)
Record spent_ok (s : spent_state) : Prop := {
  so_nonempty op m : ops s !! op = Some m -> m <> ∅;
  so_same wsc op : op ∈ requests_of s wsc <-> wsc ∈ default ∅ (ops s !! op)
}.

Definition watchers (s : spent_state) (op : outpoint) : gset nat := default ∅ (ops s !! op).

Lemma watchers_remove wsc op s op' :
  watchers (removeSpentRequest wsc op s) op' = if decide (op' = op) then watchers s op ∖ {[wsc]} else watchers s op'.
Proof.
  unfold watchers, removeSpentRequest. destruct (ops s !! op) as [m|] eqn:E; cbn [ops default].
  - case_bool_decide as Hm; case_decide as Hop; subst; rewrite ?lookup_delete_eq, ?lookup_insert_eq; cbn; try done.
    + rewrite lookup_delete_ne, lookup_insert_ne by congruence. done.
    + rewrite lookup_insert_ne by congruence. done.
  - case_decide as Hop; [subst; rewrite E; cbn; set_solver|done].
Qed.

Lemma requests_remove wsc op s wsc' :
  requests_of (removeSpentRequest wsc op s) wsc' = if decide (wsc' = wsc) then requests_of s wsc ∖ {[op]} else requests_of s wsc'.
Proof.
  assert (H : spentRequests (removeSpentRequest wsc op s) = <[wsc := requests_of s wsc ∖ {[op]}]> (spentRequests s))
    by (unfold removeSpentRequest; now destruct (ops s !! op)).
  unfold requests_of at 1. rewrite H. case_decide; subst; [by rewrite lookup_insert_eq|by rewrite lookup_insert_ne].
Qed.

Lemma spent_ok_remove wsc op s : spent_ok s -> spent_ok (removeSpentRequest wsc op s).
Proof.
  intros [Hn Hs]. constructor.
  - intros op' m. unfold removeSpentRequest. destruct (ops s !! op) as [m0|] eqn:E; cbn [ops]; [|apply Hn].
    case_bool_decide as Hm; [|].
    + destruct (decide (op' = op)) as [->|]; [by rewrite lookup_delete_eq|].
      rewrite lookup_delete_ne, lookup_insert_ne by done. apply Hn.
    + destruct (decide (op' = op)) as [->|]; [rewrite lookup_insert_eq; congruence|].
      rewrite lookup_insert_ne by done. apply Hn.
  - intros wsc' op'. change (default ∅ (ops (removeSpentRequest wsc op s) !! op')) with (watchers (removeSpentRequest wsc op s) op').
    rewrite requests_remove, watchers_remove. specialize (Hs wsc' op') as Hs'. unfold watchers in *.
    repeat case_decide; subst; set_solver.
Qed.

Lemma queued_remove wsc op s : queued_ntfns (removeSpentRequest wsc op s) = queued_ntfns s /\
  quitting (removeSpentRequest wsc op s) = quitting s.
Proof. unfold removeSpentRequest. now destruct (ops s !! op). Qed.

Lemma filter_ext_in {A} (P1 P2 : A -> Prop) `{!forall x, Decision (P1 x)} `{!forall x, Decision (P2 x)} (l : list A) :
  (forall x, x ∈ l -> (P1 x <-> P2 x)) -> filter P1 l = filter P2 l.
Proof.
  induction l as [|x l IH]; intros Hx; [done|]. rewrite !filter_cons.
  rewrite IH by (intros y Hy; apply Hx; by right). pose proof (Hx x ltac:(by left)).
  repeat case_decide; tauto || done.
Qed.

Lemma spent_ok_ext s s' : ops s' = ops s -> spentRequests s' = spentRequests s -> spent_ok s -> spent_ok s'.
Proof. intros Ho Hr [Hn Hs]. constructor; [now rewrite Ho|]. unfold requests_of. now rewrite Hr, Ho. Qed.

Lemma notify_clients_spec in_block op ntfn l : forall N s, NoDup l ->
  let r := notify_clients l in_block op ntfn N s in
  r.1 = N ∪ list_to_set l /\
  queued_ntfns r.2 = queued_ntfns s ++ map (fun c => (c, ntfn)) (filter (fun c => c ∉ N /\ c ∉ quitting s) l) /\
  quitting r.2 = quitting s /\
  (forall op', watchers r.2 op' = if decide (in_block = true /\ op' = op) then watchers s op ∖ list_to_set l else watchers s op') /\
  (spent_ok s -> spent_ok r.2).
Proof.
  induction l as [|c l IH]; intros N s Hnd; cbn [notify_clients].
  - cbn. split_and!; [set_solver|by rewrite app_nil_r|done| |done].
    intros op'. case_decide as H; [|done]. destruct H as [_ ->]. set_solver.
  - apply NoDup_cons in Hnd as [Hc Hnd].
    set (s1 := if in_block then removeSpentRequest c op s else s).
    assert (Hq1 : queued_ntfns s1 = queued_ntfns s /\ quitting s1 = quitting s)
      by (unfold s1; destruct in_block; [apply queued_remove|done]).
    assert (Hok1 : spent_ok s -> spent_ok s1) by (unfold s1; destruct in_block; auto using spent_ok_remove).
    assert (Hw1 : forall op', watchers s1 op' = if decide (in_block = true /\ op' = op) then watchers s op ∖ {[c]} else watchers s op').
    { intros op'. unfold s1. destruct in_block.
      - rewrite watchers_remove. repeat case_decide; tauto || done.
      - case_decide; [naive_solver|done]. }
    destruct Hq1 as [Hq1 Hqu1].
    set (s2 := if bool_decide (c ∈ N) then s1 else QueueNotification c ntfn s1).
    set (N2 := if bool_decide (c ∈ N) then N else {[c]} ∪ N).
    assert (E : (if bool_decide (c ∈ N) then notify_clients l in_block op ntfn N s1
       else notify_clients l in_block op ntfn ({[c]} ∪ N) (QueueNotification c ntfn s1)) = notify_clients l in_block op ntfn N2 s2).
    { unfold N2, s2. now destruct (bool_decide (c ∈ N)). }
    cbv zeta. rewrite E.
    assert (H2 : ops s2 = ops s1 /\ spentRequests s2 = spentRequests s1 /\ quitting s2 = quitting s /\
      queued_ntfns s2 = queued_ntfns s ++ (if decide (c ∉ N /\ c ∉ quitting s) then [(c, ntfn)] else [])).
    { unfold s2, QueueNotification. rewrite Hqu1. destruct (decide (c ∈ N)) as [HN|HN].
      - rewrite (bool_decide_eq_true_2 _ HN), decide_False by tauto. by rewrite app_nil_r.
      - rewrite (bool_decide_eq_false_2 _ HN). destruct (decide (c ∈ quitting s)) as [Hq|Hq].
        + rewrite (bool_decide_eq_true_2 _ Hq), decide_False by tauto. by rewrite app_nil_r.
        + rewrite (bool_decide_eq_false_2 _ Hq), decide_True by tauto. cbn. by rewrite Hq1. }
    destruct H2 as (Ho2 & Hr2 & Hqu2 & Hq2).
    assert (Hw2 : forall op', watchers s2 op' = watchers s1 op') by (intros; unfold watchers; now rewrite Ho2).
    assert (Hok2 : spent_ok s1 -> spent_ok s2) by now apply spent_ok_ext.
    destruct (IH N2 s2 Hnd) as (E1 & E2 & E3 & E4 & E5). split_and!.
    + rewrite E1. unfold N2. case_bool_decide; set_solver.
    + rewrite E2, Hq2, Hqu2, <- app_assoc. f_equal.
      assert (Hf : filter (fun c => c ∉ N2 /\ c ∉ quitting s) l = filter (fun c => c ∉ N /\ c ∉ quitting s) l).
      { apply filter_ext_in. intros x Hx. unfold N2. case_bool_decide; [done|].
        assert (x <> c) by congruence. set_solver. }
      rewrite Hf. rewrite filter_cons. repeat case_decide; done || tauto.
    + congruence.
    + intros op'. rewrite E4, !Hw2, !Hw1. repeat case_decide; try tauto; set_solver.
    + auto.
Qed.

Section notify_props.
Context (range : gset nat -> list nat) (range_elements : forall X, range X ≡ₚ elements X).

(** The document sent to every client. *)
Definition redeeming_doc (w : world) (t : Tx) (block : option Block) : json :=
  request_json (MkRequest RpcVersion1 "redeemingtx"
    (Some (JStr (txHexString (Tx_MsgTx t) w) ::
      match blockDetails block (Tx_Index t) w with Some d => [Marshal BlockDetails d] | None => [] end)) JNull).

Lemma notify_inputs_spec w t block prevs : forall N s, spent_ok s ->
  let r := notify_inputs range w t block prevs N s in
  exists l, queued_ntfns r.2 = queued_ntfns s ++ map (fun c => (c, redeeming_doc w t block)) l /\ NoDup l /\
    (forall c, c ∈ l <-> c ∉ quitting s /\ c ∉ N /\ exists prev, prev ∈ prevs /\ c ∈ watchers s prev) /\
    (forall op, watchers r.2 op = if decide (is_Some block /\ op ∈ prevs) then ∅ else watchers s op) /\
    spent_ok r.2.
Proof.
  induction prevs as [|prev prevs IH]; intros N s Hok; cbn [notify_inputs].
  - exists []. cbn. split_and!; [by rewrite app_nil_r|constructor|set_solver| |done].
    intros op. case_decide; [set_solver|done].
  - destruct (ops s !! prev) as [cmap|] eqn:E.
    + rewrite newRedeemingTxNotification_ok. fold (redeeming_doc w t block).
      assert (Hnd : NoDup (range cmap)) by (rewrite range_elements; apply NoDup_elements).
      assert (Hset : list_to_set (range cmap) = cmap).
      { apply leibniz_equiv. intros x. rewrite elem_of_list_to_set, range_elements, elem_of_elements. done. }
      assert (Hwp : watchers s prev = cmap) by (unfold watchers; now rewrite E).
      destruct (notify_clients_spec (bool_decide (is_Some block)) prev (redeeming_doc w t block) (range cmap) N s Hnd)
        as (E1 & E2 & E3 & E4 & E5).
      destruct (notify_clients _ _ _ _ _ _) as [N1 s1]. cbn [fst snd] in *. specialize (E5 Hok). rewrite Hset in E1, E4.
      assert (Hw1 : forall op, watchers s1 op = if decide (is_Some block /\ op = prev) then ∅ else watchers s op).
      { intros op. rewrite E4. rewrite Hwp. repeat case_decide; try done; rewrite bool_decide_eq_true in *; set_solver. }
      destruct (IH N1 s1 E5) as (l & F1 & F2 & F3 & F4 & F5).
      exists (filter (fun c => c ∉ N /\ c ∉ quitting s) (range cmap) ++ l). split_and!.
      * rewrite F1, E2, map_app, app_assoc. done.
      * apply NoDup_app. split_and!; [by apply NoDup_filter| |done].
        intros c [_ Hc]%list_elem_of_filter [_ [Hc' _]]%F3. rewrite E1 in Hc'. rewrite range_elements, elem_of_elements in Hc.
        set_solver.
      * intros c. rewrite elem_of_app, list_elem_of_filter, F3, E3, E1, range_elements, elem_of_elements. split.
        -- intros [[[? ?] ?]|(? & ? & p & Hp & Hcp)].
           ++ split_and!; [done|done|]. exists prev. rewrite Hwp. set_solver.
           ++ split_and!; [done|set_solver|]. rewrite Hw1 in Hcp. case_decide; [set_solver|]. exists p. set_solver.
        -- intros (? & ? & p & [->|Hp]%elem_of_cons & Hcp).
           ++ left. rewrite <- Hwp. done.
           ++ destruct (decide (c ∈ cmap)) as [?|Hnc]; [by left|]. right. split_and!; [done|set_solver|].
              exists p. split; [done|]. rewrite Hw1.
              destruct (decide (is_Some block /\ p = prev)) as [[_ ->]|]; [now rewrite Hwp in Hcp|exact Hcp].
      * intros op. rewrite F4, Hw1. repeat case_decide; try done; set_solver.
      * done.
    + assert (Hwp : watchers s prev = ∅) by (unfold watchers; now rewrite E).
      destruct (IH N s Hok) as (l & F1 & F2 & F3 & F4 & F5). exists l. split_and!; try done.
      * intros c. rewrite F3. split; intros (? & ? & p & Hp & Hcp).
        -- split_and!; [done|done|]. exists p. set_solver.
        -- split_and!; [done|done|]. exists p. apply elem_of_cons in Hp as [->|Hp]; [set_solver|done].
      * intros op. rewrite F4. repeat case_decide; try done; set_solver.
Qed.

(** C34: spent outpoints are notified once.  Whatever order Go visits its maps in, a
transaction queues exactly one redeemingtx notification, the same for all, for
every client that is still connected and watches some output it spends, and none
for the others; in a block the watches on the spent outputs end and no other
does, without a block none; and the manager's and the clients' maps keep
agreeing. *)
Theorem notifyForTxIns_once w t block s :
  spent_ok s ->
  let prevs := map PreviousOutPoint (TxIns (Tx_MsgTx t)) in
  let s' := notifyForTxIns range w t block s in
  exists l, queued_ntfns s' = queued_ntfns s ++ map (fun c => (c, redeeming_doc w t block)) l /\ NoDup l /\
    (forall c, c ∈ l <-> c ∉ quitting s /\ exists prev, prev ∈ prevs /\ c ∈ watchers s prev) /\
    (forall op, watchers s' op = if decide (is_Some block /\ op ∈ prevs) then ∅ else watchers s op) /\
    spent_ok s'.
Proof.
  intros Hok prevs s'. unfold s', notifyForTxIns. case_bool_decide as He.
  - exists []. cbn. assert (Hw : forall op, watchers s op = ∅) by (intros; unfold watchers; now rewrite He, lookup_empty).
    split_and!; [by rewrite app_nil_r|constructor| |intros op; rewrite Hw; by case_decide|done].
    intros c. setoid_rewrite Hw. set_solver.
  - destruct (notify_inputs_spec w t block prevs ∅ s Hok) as (l & F1 & F2 & F3 & F4 & F5).
    exists l. split_and!; try done. intros c. rewrite F3. set_solver.
Qed.
End notify_props.

Definition sample_op : outpoint := MkOutPoint (replicate 32 x11) 0.
Definition sample_spend : Tx := NewTx (MkMsgTx 1 [MkTxIn sample_op [] [] 0; MkTxIn sample_op [] [] 1] [] 0).
Definition sample_spent : spent_state :=
  MkSpent {[ sample_op := {[ 3%nat; 5%nat ]} ]} (<[3%nat := {[ sample_op ]}]> {[ 5%nat := {[ sample_op ]} ]}) {[ 5%nat ]} [].

Lemma sample_spent_ok : spent_ok sample_spent.
Proof.
  constructor.
  - intros op m. change (ops sample_spent) with ({[ sample_op := {[ 3%nat; 5%nat ]} ]} : gmap outpoint (gset nat)).
    intros [<- <-]%lookup_singleton_Some. set_solver.
  - intros wsc op. change (ops sample_spent) with ({[ sample_op := {[ 3%nat; 5%nat ]} ]} : gmap outpoint (gset nat)).
    unfold requests_of. change (spentRequests sample_spent) with
      (<[3%nat := {[ sample_op ]}]> {[ 5%nat := {[ sample_op ]} ]} : gmap nat (gset outpoint)).
    rewrite lookup_insert, lookup_singleton. destruct (decide (op = sample_op)) as [->|Hop].
    + rewrite lookup_singleton_eq. cbn [default from_option id]. repeat case_decide; subst; cbn; set_solver.
    + rewrite lookup_singleton_ne by done. cbn [default from_option id]. repeat case_decide; subst; cbn; set_solver.
Qed.

Example notifyForTxIns_once_witness :
  let w := World (Reader [] EOF) [] None [] [] 0 in
  exists l, queued_ntfns (notifyForTxIns elements w sample_spend None sample_spent) =
      map (fun c => (c, redeeming_doc w sample_spend None)) l /\ NoDup l /\ 3%nat ∈ l /\ 5%nat ∉ l.
Proof.
  cbv zeta. set (w := World (Reader [] EOF) [] None [] [] 0).
  destruct (notifyForTxIns_once elements (fun X => reflexivity _) w sample_spend None sample_spent sample_spent_ok)
    as (l & H1 & H2 & H3 & _).
  change (queued_ntfns sample_spent) with (@nil (nat * json)) in H1. rewrite app_nil_l in H1.
  exists l. split; [exact H1|]. split; [exact H2|]. split.
  - apply H3. split; [decide_now|]. exists sample_op. split; [left|decide_now].
  - intros [H _]%H3. apply H. decide_now.
Defined.
