(* ===== verification/WsLife.v ===== *)
(** * The goroutines of a websocket client (rpcwebsocket.go)

What Start sets going for a client, running side by side: inHandler and the requests
it starts, notificationQueueHandler, and outHandler, with the channels between them at
their capacities.  A goroutine is the place where it is; a step runs one of them to its
next synchronisation.  What inHandler decides about a message is [in_single] and
[in_batch] of RpcWebsocket. *)

From Stdlib Require Import ZArith Lia List.
From Stdlib Require Import Strings.String.
From stdpp Require Import relations.
From S2P Require Import Prelude WireFormat JsonTypes AcbcJson AcbcJsonCmds RpcAuth RpcServer RpcServerProps.
From S2P Require Import RpcWebsocket RpcWebsocketProps.

#[local] Open Scope list_scope.
#[local] Set Warnings "-register-all".

(** ** The goroutines *)

Abbreviation message := (list chunk).

(** [r_done]: the message has a channel to report to, which is always ntfnSentChan. *)
Record wsResponse := MkResponse { r_msg : message; r_done : bool }.

(** inHandler; [held]: it holds a place of the semaphore for a batch.  [In_returned] is
a return from within a batch, after which nothing else of inHandler is done. *)
Inductive input :=
  | In_top | In_read | In_got (b : body)
  | In_send (m : message) (held : bool) | In_push (m : message) (held : bool) | In_release
  | In_leave | In_done | In_ended | In_returned.

(** A request that inHandler started. *)
Inductive request_run :=
  | Run_serve (r : parsedRPCCmd) | Run_send (m : message) | Run_push (m : message) | Run_release.

(** notificationQueueHandler. *)
Inductive notifier := Ntf_top | Ntf_send (m : message) | Ntf_push (m : message) | Ntf_drain | Ntf_done | Ntf_ended.

(** outHandler; in [Out_report] it sends on the channel of the message it wrote, in
[Out_refuse] on the channel of one that it drains. *)
Inductive output := Out_top | Out_write (r : wsResponse) | Out_report | Out_drain | Out_refuse | Out_done | Out_ended.

(** The client, whether the network broke its connection, the goroutines, the channels,
the variables of notificationQueueHandler, and the wait group.  [caller] is a
notification whose caller is in QueueNotification: only the goroutine of the
notification manager calls it.  [crashed]: a goroutine panicked, and the process is
gone.  [queued], [answers] and [written] record the notifications given to
QueueNotification, the replies that inHandler and the requests have made, and the
messages written to the connection. *)
Record conn_life := MkConn {
  cli : wsClient; broken : bool;
  inp : input; runs : list request_run; ntf : notifier; outp : output;
  sendChan : list wsResponse; ntfnChan : list message; ntfnSentChan : list bool;
  pendingNtfns : list message; waiting : bool;
  wg : Z; caller : option message; crashed : bool;
  queued : list message; written : list wsResponse; answers : list message }.

Definition with_cli (c : wsClient) (s : conn_life) : conn_life :=
  MkConn c (broken s) (inp s) (runs s) (ntf s) (outp s) (sendChan s) (ntfnChan s) (ntfnSentChan s) (pendingNtfns s)
    (waiting s) (wg s) (caller s) (crashed s) (queued s) (written s) (answers s).
Definition with_inp (i : input) (s : conn_life) : conn_life :=
  MkConn (cli s) (broken s) i (runs s) (ntf s) (outp s) (sendChan s) (ntfnChan s) (ntfnSentChan s) (pendingNtfns s)
    (waiting s) (wg s) (caller s) (crashed s) (queued s) (written s) (answers s).
Definition with_runs (l : list request_run) (s : conn_life) : conn_life :=
  MkConn (cli s) (broken s) (inp s) l (ntf s) (outp s) (sendChan s) (ntfnChan s) (ntfnSentChan s) (pendingNtfns s)
    (waiting s) (wg s) (caller s) (crashed s) (queued s) (written s) (answers s).
Definition with_ntf (n : notifier) (s : conn_life) : conn_life :=
  MkConn (cli s) (broken s) (inp s) (runs s) n (outp s) (sendChan s) (ntfnChan s) (ntfnSentChan s) (pendingNtfns s)
    (waiting s) (wg s) (caller s) (crashed s) (queued s) (written s) (answers s).
Definition with_outp (o : output) (s : conn_life) : conn_life :=
  MkConn (cli s) (broken s) (inp s) (runs s) (ntf s) o (sendChan s) (ntfnChan s) (ntfnSentChan s) (pendingNtfns s)
    (waiting s) (wg s) (caller s) (crashed s) (queued s) (written s) (answers s).
Definition with_send (l : list wsResponse) (s : conn_life) : conn_life :=
  MkConn (cli s) (broken s) (inp s) (runs s) (ntf s) (outp s) l (ntfnChan s) (ntfnSentChan s) (pendingNtfns s)
    (waiting s) (wg s) (caller s) (crashed s) (queued s) (written s) (answers s).
Definition with_ntfn (l : list message) (s : conn_life) : conn_life :=
  MkConn (cli s) (broken s) (inp s) (runs s) (ntf s) (outp s) (sendChan s) l (ntfnSentChan s) (pendingNtfns s)
    (waiting s) (wg s) (caller s) (crashed s) (queued s) (written s) (answers s).
Definition with_sent (l : list bool) (s : conn_life) : conn_life :=
  MkConn (cli s) (broken s) (inp s) (runs s) (ntf s) (outp s) (sendChan s) (ntfnChan s) l (pendingNtfns s)
    (waiting s) (wg s) (caller s) (crashed s) (queued s) (written s) (answers s).
Definition with_pending (l : list message) (w : bool) (s : conn_life) : conn_life :=
  MkConn (cli s) (broken s) (inp s) (runs s) (ntf s) (outp s) (sendChan s) (ntfnChan s) (ntfnSentChan s) l
    w (wg s) (caller s) (crashed s) (queued s) (written s) (answers s).
Definition add_wg (n : Z) (s : conn_life) : conn_life :=
  MkConn (cli s) (broken s) (inp s) (runs s) (ntf s) (outp s) (sendChan s) (ntfnChan s) (ntfnSentChan s) (pendingNtfns s)
    (waiting s) (wg s + n) (caller s) (crashed s) (queued s) (written s) (answers s).
Definition with_caller (m : option message) (q : list message) (s : conn_life) : conn_life :=
  MkConn (cli s) (broken s) (inp s) (runs s) (ntf s) (outp s) (sendChan s) (ntfnChan s) (ntfnSentChan s) (pendingNtfns s)
    (waiting s) (wg s) m (crashed s) q (written s) (answers s).
Definition with_written (l : list wsResponse) (s : conn_life) : conn_life :=
  MkConn (cli s) (broken s) (inp s) (runs s) (ntf s) (outp s) (sendChan s) (ntfnChan s) (ntfnSentChan s) (pendingNtfns s)
    (waiting s) (wg s) (caller s) (crashed s) (queued s) l (answers s).
Definition with_answers (l : list message) (s : conn_life) : conn_life :=
  MkConn (cli s) (broken s) (inp s) (runs s) (ntf s) (outp s) (sendChan s) (ntfnChan s) (ntfnSentChan s) (pendingNtfns s)
    (waiting s) (wg s) (caller s) (crashed s) (queued s) (written s) l.
Definition crash (s : conn_life) : conn_life :=
  MkConn (cli s) (broken s) (inp s) (runs s) (ntf s) (outp s) (sendChan s) (ntfnChan s) (ntfnSentChan s) (pendingNtfns s)
    (waiting s) (wg s) (caller s) true (queued s) (written s) (answers s).
Definition break_conn (s : conn_life) : conn_life :=
  MkConn (cli s) true (inp s) (runs s) (ntf s) (outp s) (sendChan s) (ntfnChan s) (ntfnSentChan s) (pendingNtfns s)
    (waiting s) (wg s) (caller s) (crashed s) (queued s) (written s) (answers s).

(** Disconnected; the quit channel and the connection are closed exactly then. *)
Definition Disconnected (s : conn_life) : bool := disconnected (cli s).
Definition disconnect (s : conn_life) : conn_life := with_cli (Disconnect (cli s)) s.

(** Start, on a client from newWebsocketClient. *)
Definition Start (c : wsClient) : conn_life :=
  MkConn c false In_top [] Ntf_top Out_top [] [] [] [] false 3 None false [] [] [].

(** QueueNotification up to its send. *)
Definition QueueNotification_check (m : message) (s : conn_life) : conn_life :=
  if Disconnected s then s else with_caller (Some m) (queued s ++ [m]) s.

(** ** One turn of inHandler

A turn runs on its own copy of the client, which collects what it sends and starts:
only the check of the connection in SendMessage sees what other goroutines do. *)
Definition alone (c : wsClient) : wsClient :=
  MkClient (authenticated c) (isAdmin c) false (sessionID c) (sem_cap c) (sem c) [] [] false.

Definition is_batch (b : body) : bool := match b with BatchBody _ _ => true | SingleBody _ => false end.
Definition run_turn (auth : auth_state) (b : body) (c : wsClient) : result panic (turn * wsClient) :=
  match b with
  | SingleBody doc => in_single auth doc (alone c)
  | BatchBody err entries => in_batch auth err entries (alone c)
  end.

(** Room in the semaphore: for a batch before it is looked at, for a single request
before it is started. *)
Definition room (b : body) (c c' : wsClient) : Prop :=
  if is_batch b then (sem c < sem_cap c)%nat else (sem c' <= sem_cap c)%nat.

(** The place after SendMessage. *)
Definition after_send (held : bool) : input := if held then In_release else In_top.

Definition turn_goes (b : body) (t : turn) (c' : wsClient) (s : conn_life) : conn_life :=
  let held := is_batch b in
  let i := match t, sendq c' with
           | Break, _ => In_leave
           | Return, _ => In_returned
           | Continue, [] => after_send held
           | Continue, m :: _ => In_send m held
           end in
  let c := cli s in
  let n := if held then S (sem c) else sem c' in
  with_runs (runs s ++ map Run_serve (jobs c'))
    (with_inp i (with_answers (answers s ++ sendq c')
      (with_cli (MkClient (authenticated c') (isAdmin c') (disconnected c) (sessionID c) (sem_cap c) n [] [] false) s))).

(** What a request sends: serviceRequest on a copy. *)
Definition serve (r : parsedRPCCmd) (c : wsClient) : result panic request_run :=
  c' ← serviceRequest r (alone c);
  Ok (match sendq c' with [] => Run_release | m :: _ => Run_send m end).

(** The reply a request has made. *)
Definition run_reply (p : request_run) : list message := match p with Run_send m | Run_push m => [m] | _ => [] end.

Definition ntfn_capacity : nat := 1.

(** A message comes through ntfnChan; [next] is the place after it. *)
Definition ntf_queue (msg : message) (s : conn_life) : conn_life :=
  if waiting s then with_pending (pendingNtfns s ++ [msg]) true s
  else with_ntf (Ntf_send msg) (with_pending (pendingNtfns s) true s).
Definition ntf_next (s : conn_life) : conn_life :=
  match pendingNtfns s with
  | [] => with_pending [] false s
  | msg :: rest => with_ntf (Ntf_send msg) (with_pending rest (waiting s) s)
  end.

Section steps.
Context (auth : auth_state).

(** One goroutine takes a step. *)
Inductive goes : conn_life -> conn_life -> Prop :=
  (* inHandler *)
  | in_quit s : inp s = In_top -> Disconnected s = true -> goes s (with_inp In_leave s)
  | in_next s : inp s = In_top -> Disconnected s = false -> goes s (with_inp In_read s)
  | in_error s : inp s = In_read -> Disconnected s = true \/ broken s = true -> goes s (with_inp In_leave s)
  | in_message s b : inp s = In_read -> Disconnected s = false -> goes s (with_inp (In_got b) s)
  | in_turn s b t c' : inp s = In_got b -> run_turn auth b (cli s) = Ok (t, c') -> room b (cli s) c' ->
      goes s (turn_goes b t c' s)
  | in_panic s b e : inp s = In_got b -> run_turn auth b (cli s) = Err e -> room b (cli s) (cli s) -> goes s (crash s)
  | in_send s m held : inp s = In_send m held ->
      goes s (with_inp (if Disconnected s then after_send held else In_push m held) s)
  | in_push s m held : inp s = In_push m held -> (length (sendChan s) < websocketSendBufferSize)%nat ->
      goes s (with_inp (after_send held) (with_send (sendChan s ++ [MkResponse m false]) s))
  | in_release s : inp s = In_release -> (0 < sem (cli s))%nat -> goes s (with_inp In_top (with_cli (release (cli s)) s))
  | in_leave s : inp s = In_leave -> goes s (with_inp In_done (disconnect s))
  | in_done s : inp s = In_done -> goes s (with_inp In_ended (add_wg (-1) s))
  (* the requests it started *)
  | run_serve s r l1 l2 p : runs s = l1 ++ Run_serve r :: l2 -> serve r (cli s) = Ok p ->
      goes s (with_runs (l1 ++ p :: l2) (with_answers (answers s ++ run_reply p) s))
  | run_panic s r l1 l2 e : runs s = l1 ++ Run_serve r :: l2 -> serve r (cli s) = Err e -> goes s (crash s)
  | run_send s m l1 l2 : runs s = l1 ++ Run_send m :: l2 ->
      goes s (with_runs (l1 ++ (if Disconnected s then Run_release else Run_push m) :: l2) s)
  | run_push s m l1 l2 : runs s = l1 ++ Run_push m :: l2 -> (length (sendChan s) < websocketSendBufferSize)%nat ->
      goes s (with_runs (l1 ++ Run_release :: l2) (with_send (sendChan s ++ [MkResponse m false]) s))
  | run_release s l1 l2 : runs s = l1 ++ Run_release :: l2 -> (0 < sem (cli s))%nat ->
      goes s (with_runs (l1 ++ l2) (with_cli (release (cli s)) s))
  (* notificationQueueHandler *)
  | ntf_msg s m rest : ntf s = Ntf_top -> ntfnChan s = m :: rest -> goes s (ntf_queue m (with_ntfn rest s))
  | ntf_sent s d rest : ntf s = Ntf_top -> ntfnSentChan s = d :: rest -> goes s (ntf_next (with_sent rest s))
  | ntf_quit s : ntf s = Ntf_top -> Disconnected s = true -> goes s (with_ntf Ntf_drain s)
  | ntf_send s m : ntf s = Ntf_send m -> Disconnected s = false -> goes s (with_ntf (Ntf_push m) s)
  | ntf_refused s m : ntf s = Ntf_send m -> Disconnected s = true -> (length (ntfnSentChan s) < 1)%nat ->
      goes s (with_ntf Ntf_top (with_sent (ntfnSentChan s ++ [false]) s))
  | ntf_push s m : ntf s = Ntf_push m -> (length (sendChan s) < websocketSendBufferSize)%nat ->
      goes s (with_ntf Ntf_top (with_send (sendChan s ++ [MkResponse m true]) s))
  | ntf_drain_msg s m rest : ntf s = Ntf_drain -> ntfnChan s = m :: rest -> goes s (with_ntfn rest s)
  | ntf_drain_sent s d rest : ntf s = Ntf_drain -> ntfnSentChan s = d :: rest -> goes s (with_sent rest s)
  | ntf_drained s : ntf s = Ntf_drain -> ntfnChan s = [] -> ntfnSentChan s = [] -> goes s (with_ntf Ntf_done s)
  | ntf_done s : ntf s = Ntf_done -> goes s (with_ntf Ntf_ended (add_wg (-1) s))
  (* outHandler *)
  | out_msg s r rest : outp s = Out_top -> sendChan s = r :: rest -> goes s (with_outp (Out_write r) (with_send rest s))
  | out_quit s : outp s = Out_top -> Disconnected s = true -> goes s (with_outp Out_drain s)
  | out_written s r : outp s = Out_write r -> Disconnected s = false ->
      goes s (with_outp (if r_done r then Out_report else Out_top) (with_written (written s ++ [r]) s))
  | out_error s r : outp s = Out_write r -> Disconnected s = true \/ broken s = true -> goes s (with_outp Out_drain (disconnect s))
  | out_report s : outp s = Out_report -> (length (ntfnSentChan s) < 1)%nat ->
      goes s (with_outp Out_top (with_sent (ntfnSentChan s ++ [true]) s))
  | out_drain s r rest : outp s = Out_drain -> sendChan s = r :: rest ->
      goes s (with_outp (if r_done r then Out_refuse else Out_drain) (with_send rest s))
  | out_refuse s : outp s = Out_refuse -> (length (ntfnSentChan s) < 1)%nat ->
      goes s (with_outp Out_drain (with_sent (ntfnSentChan s ++ [false]) s))
  | out_drained s : outp s = Out_drain -> sendChan s = [] -> goes s (with_outp Out_done s)
  | out_done s : outp s = Out_done -> goes s (with_outp Out_ended (add_wg (-1) s))
  (* QueueNotification *)
  | caller_put s m : caller s = Some m -> (length (ntfnChan s) < ntfn_capacity)%nat ->
      goes s (with_caller None (queued s) (with_ntfn (ntfnChan s ++ [m]) s)).

(** While the process lives. *)
Definition live_step (s s' : conn_life) : Prop := crashed s = false /\ goes s s'.

(** A step of the client or of its surroundings: the network breaks, another goroutine
calls Disconnect, or the notification manager calls QueueNotification. *)
Inductive conn_step : conn_life -> conn_life -> Prop :=
  | conn_own s s' : live_step s s' -> conn_step s s'
  | conn_break s : crashed s = false -> conn_step s (break_conn s)
  | conn_disconnect s : crashed s = false -> conn_step s (disconnect s)
  | conn_notify s m : crashed s = false -> caller s = None -> conn_step s (QueueNotification_check m s).
End steps.

(** ** Counting *)

Definition b2n (b : bool) : nat := if b then 1 else 0.

(** Reports that are due or waiting in ntfnSentChan. *)
Definition ntf_due (n : notifier) : nat := match n with Ntf_send _ | Ntf_push _ => 1 | _ => 0 end.
Definition out_due (o : output) : nat := match o with Out_write r => b2n (r_done r) | Out_report | Out_refuse => 1 | _ => 0 end.
Definition reports (s : conn_life) : nat :=
  (length (ntfnSentChan s) + total (fun r => b2n (r_done r)) (sendChan s) + ntf_due (ntf s) + out_due (outp s))%nat.

(** Goroutines that are past the check of SendMessage, before the send. *)
Definition in_pushes (i : input) : nat := match i with In_push _ _ => 1 | _ => 0 end.
Definition ntf_pushes (n : notifier) : nat := match n with Ntf_push _ => 1 | _ => 0 end.
Definition run_pushes (p : request_run) : nat := match p with Run_push _ => 1 | _ => 0 end.
Definition pushers (s : conn_life) : nat := (in_pushes (inp s) + ntf_pushes (ntf s) + total run_pushes (runs s))%nat.

(** The place that inHandler holds in the semaphore, and whether it goes on. *)
Definition holds (i : input) : nat := match i with In_send _ h | In_push _ h => b2n h | In_release => 1 | _ => 0 end.
Definition goes_on (i : input) : bool := match i with In_leave | In_done | In_ended | In_returned => false | _ => true end.

(** The goroutines the wait group counts: inHandler also after it returned early. *)
Definition in_counts (i : input) : nat := match i with In_ended => 0 | _ => 1 end.
Definition ntf_counts (n : notifier) : nat := match n with Ntf_ended => 0 | _ => 1 end.
Definition out_counts (o : output) : nat := match o with Out_ended => 0 | _ => 1 end.

(** Goroutines that have seen the client quit. *)
Definition in_saw_quit (i : input) : bool := match i with In_done | In_ended => true | _ => false end.
Definition ntf_saw_quit (n : notifier) : bool := match n with Ntf_drain | Ntf_done | Ntf_ended => true | _ => false end.
Definition out_saw_quit (o : output) : bool := match o with Out_drain | Out_refuse | Out_done | Out_ended => true | _ => false end.
Definition ntf_drained_b (n : notifier) : bool := match n with Ntf_done | Ntf_ended => true | _ => false end.
Definition out_drained_b (o : output) : bool := match o with Out_done | Out_ended => true | _ => false end.

(** The notifications on their way, from the connection back to the caller. *)
Definition notes (l : list wsResponse) : list message := map r_msg (filter (fun r => r_done r = true) l).
Definition out_note (o : output) : list message := match o with Out_write r => if r_done r then [r_msg r] else [] | _ => [] end.
Definition ntf_note (n : notifier) : list message := match n with Ntf_send m | Ntf_push m => [m] | _ => [] end.
Definition under_way (s : conn_life) : list message :=
  notes (written s) ++ out_note (outp s) ++ notes (sendChan s) ++ ntf_note (ntf s) ++ pendingNtfns s ++ ntfnChan s ++
  option_list (caller s).

(** The replies on their way, from the connection back to inHandler and the requests. *)
Definition replies (l : list wsResponse) : list message := map r_msg (filter (fun r => r_done r = false) l).
Definition out_reply (o : output) : list message := match o with Out_write r => replies [r] | _ => [] end.
Definition in_reply (i : input) : list message := match i with In_send m _ | In_push m _ => [m] | _ => [] end.
Definition replies_due (s : conn_life) : list message :=
  replies (written s) ++ out_reply (outp s) ++ replies (sendChan s) ++ in_reply (inp s) ++ concat (map run_reply (runs s)).

(** ** What holds of every state *)

(** The semaphore: [cap] is RPCMaxConcurrentReqs. *)
Record sem_ok (cap : nat) (s : conn_life) : Prop := {
  so_cap : sem_cap (cli s) = cap;
  so_held : (holds (inp s) + length (runs s) <= sem (cli s) <= cap)%nat;
  so_exact : goes_on (inp s) = true -> sem (cli s) = (holds (inp s) + length (runs s))%nat }.

(** The notifications. *)
Record notes_ok (s : conn_life) : Prop := {
  no_reports : (reports s <= b2n (waiting s))%nat;
  no_idle : waiting s = false -> pendingNtfns s = [];
  no_flow : Disconnected s = false -> under_way s = queued s;
  no_prefix : notes (written s) `prefix_of` queued s }.

(** The replies. *)
Record replies_ok (s : conn_life) : Prop := {
  ro_made : replies_due s ⊆+ answers s;
  ro_kept : Disconnected s = false -> replies_due s ≡ₚ answers s }.

(** The ends of the goroutines. *)
Record ends_ok (cap : nat) (s : conn_life) : Prop := {
  eo_wg : wg s = Z.of_nat (in_counts (inp s) + ntf_counts (ntf s) + out_counts (outp s));
  eo_quit : in_saw_quit (inp s) || ntf_saw_quit (ntf s) || out_saw_quit (outp s) = true -> Disconnected s = true;
  eo_room : out_drained_b (outp s) = true -> (length (sendChan s) + pushers s <= cap + 2)%nat;
  eo_ntfn : ntf_drained_b (ntf s) = true -> (length (ntfnChan s) + length (option_list (caller s)) <= 1)%nat }.

(** *** One turn, one request *)

Lemma run_turn_client auth b c t c' : run_turn auth b c = Ok (t, c') ->
  (t = Return -> is_batch b = true) /\ sem_cap c' = sem_cap c /\
  (if is_batch b then jobs c' = [] else sem c' = (sem c + length (jobs c'))%nat /\ (length (jobs c') <= 1)%nat).
Proof.
  destruct b as [doc|err es]; cbn [run_turn is_batch].
  - intros H. destruct (in_single_frame _ _ _ _ _ H) as ([_ _ F] & R & [[J S]|(_ & _ & S & _ & j & req & cmd & _ & _ & _ & _ & J & _)]).
    + split; [done|]. split; [exact F|]. rewrite J, S. cbn. lia.
    + split; [done|]. split; [exact F|]. rewrite J, S. cbn. lia.
  - intros H. destruct (in_batch_frame _ _ _ _ _ _ H) as ([_ _ F] & J & _). split; [done|]. split; [exact F|exact J].
Qed.

(** A turn sends at most one message, none if it is the last, and a batch that goes on
exactly one. *)
Lemma in_single_sends auth doc c t c' : in_single auth doc c = Ok (t, c') ->
  (length (sendq c') <= match t with Continue => 1 | _ => 0 end + length (sendq c))%nat.
Proof.
  assert (Hr : forall r c0, @Ok panic _ (Continue, send_reply r c0) = Ok (t, c') -> sendq c0 = sendq c ->
    (length (sendq c') <= match t with Continue => 1 | _ => 0 end + length (sendq c))%nat).
  { intros [j|] c0 [= <- <-] <-; cbn [send_reply]; [|lia]. unfold SendMessage. destruct (disconnected c0); cbn; [lia|].
    rewrite length_app. cbn. lia. }
  assert (Hb : @Ok panic _ (Break, c) = Ok (t, c') -> (length (sendq c') <= match t with Continue => 1 | _ => 0 end + length (sendq c))%nat) by (intros [= <- <-]; lia).
  assert (Hc : @Ok panic _ (Continue, c) = Ok (t, c') -> (length (sendq c') <= match t with Continue => 1 | _ => 0 end + length (sendq c))%nat) by (intros [= <- <-]; lia).
  unfold in_single. destruct (match doc with Ok j => _ | Err e => _ end) as [[e|] req].
  { destruct (negb _); [exact Hb|]. intros H. now apply Hr in H. }
  destruct (_ || _); [intros H; now apply Hr in H|].
  destruct (parseCmd_ok req) as [cmd ->]. cbn [mbind result_bind].
  set (rest := match p_err cmd with Some _ => _ | None => _ end).
  assert (HR : rest = Ok (t, c') -> (length (sendq c') <= match t with Continue => 1 | _ => 0 end + length (sendq c))%nat).
  { unfold rest. destruct (p_err cmd); [destruct (negb _); [exact Hb|intros H; now apply Hr in H]|].
    destruct (check_auth_cmd _ _ _); [exact Hb|intros H; now apply Hr in H|].
    destruct (_ && _); [intros H; now apply Hr in H|]. intros [= <- <-]. cbn. lia. }
  destruct (ID req); [destruct (negb _); [exact Hb|exact Hc]|exact HR..].
Qed.

Lemma in_batch_sends auth err es c t c' : disconnected c = false -> sendq c = [] -> in_batch auth err es c = Ok (t, c') ->
  length (sendq c') = match t with Continue => 1%nat | _ => 0%nat end.
Proof.
  intros D Q. assert (Hf : forall n l, @Ok panic _ (finish_batch n l (acquire c)) = Ok (t, c') ->
    length (sendq c') = match t with Continue => 1%nat | _ => 0%nat end).
  { intros n l [= <- <-]. unfold release, SendMessage, acquire. cbn. rewrite D. cbn. now rewrite Q. }
  assert (Hb : @Ok panic _ (Break, acquire c) = Ok (t, c') -> length (sendq c') = match t with Continue => 1%nat | _ => 0%nat end)
    by (intros [= <- <-]; cbn; now rewrite Q).
  unfold in_batch. destruct (match err with Some _ => _ | None => _ end) as [[[] results]|]; [apply Hf| |exact Hb].
  destruct es as [|e es]; [destruct (negb _); [exact Hb|apply Hf]|].
  destruct (ws_entries _ _ _ _) as [[b c1]|] eqn:E; [|discriminate]. apply ws_entries_client in E. subst c1.
  cbn [mbind result_bind]. destruct b; [apply Hf|exact Hb|]. intros [= <- <-]. cbn. now rewrite Q.
Qed.

Lemma run_turn_sends auth b c t c' : run_turn auth b c = Ok (t, c') ->
  if is_batch b then length (sendq c') = match t with Continue => 1%nat | _ => 0%nat end
  else (length (sendq c') <= match t with Continue => 1 | _ => 0 end)%nat.
Proof.
  destruct b; cbn [run_turn is_batch]; intros H; [apply in_single_sends in H; cbn in H; lia|].
  now apply in_batch_sends in H.
Qed.

Lemma after_send_holds h : holds (after_send h) = b2n h.
Proof. now destruct h. Qed.

(** *** The semaphore *)

(** What the invariants look at, computed in a changed state. *)
#[local] Ltac look := unfold Disconnected, disconnect, crash, break_conn, QueueNotification_check,
  reports, pushers, under_way in *;
  cbn [with_cli with_inp with_runs with_ntf with_outp with_send with_ntfn with_sent with_pending add_wg with_caller
       with_written with_answers cli broken inp runs ntf outp sendChan ntfnChan ntfnSentChan pendingNtfns waiting wg caller crashed
       queued written answers] in *.
#[local] Ltac place := repeat match goal with E : inp _ = _ |- _ => rewrite E in *
  | E : ntf _ = _ |- _ => rewrite E in * | E : outp _ = _ |- _ => rewrite E in *
  | E : runs _ = _ |- _ => rewrite E in * | E : sendChan _ = _ :: _ |- _ => rewrite E in *
  | E : sendChan _ = [] |- _ => rewrite E in *
  | E : ntfnChan _ = _ |- _ => rewrite E in * | E : ntfnSentChan _ = _ |- _ => rewrite E in *
  | E : caller _ = _ |- _ => rewrite E in * end.

Lemma Disconnect_sem c : sem (Disconnect c) = sem c.
Proof. unfold Disconnect. now destruct (disconnected c). Qed.
Lemma Disconnect_cap c : sem_cap (Disconnect c) = sem_cap c.
Proof. unfold Disconnect. now destruct (disconnected c). Qed.
Lemma Disconnect_disconnected c : disconnected (Disconnect c) = true.
Proof. unfold Disconnect. now destruct (disconnected c) eqn:E. Qed.
Lemma notes_app l k : notes (l ++ k) = notes l ++ notes k.
Proof. unfold notes. now rewrite filter_app, map_app. Qed.
Create Rewrite HintDb ws.
#[local] Hint Rewrite Disconnect_sem Disconnect_cap Disconnect_disconnected after_send_holds @length_app @total_app notes_app : ws.

Lemma goes_sem auth cap s s' : goes auth s s' -> sem_ok cap s -> sem_ok cap s'.
Proof.
  intros H HS. pose proof HS as [A B C]. destruct H; look; place;
    try (constructor; look; cbn in *; autorewrite with ws in *; cbn in *; done || lia || auto; fail).
  - apply run_turn_client in H0 as (R & F & J). unfold turn_goes, room in *. specialize (C eq_refl). cbn in B, C.
    constructor; look; cbn; autorewrite with ws; rewrite ?length_map; [done|..];
      destruct t, (is_batch b); try destruct (sendq c'); try (now specialize (R eq_refl)); cbn; rewrite ?J; cbn; try done; lia.
  - constructor; look; destruct (disconnected (cli s)); autorewrite with ws; cbn in *; done || lia || auto.
  - constructor; look; cbn in *; autorewrite with ws in *; cbn in *; [done|lia|]. intros G. specialize (C G). lia.
  - unfold ntf_queue. look. destruct (waiting s); constructor; look; done.
  - unfold ntf_next. look. destruct (pendingNtfns s); constructor; look; done.
Qed.

Lemma conn_step_sem auth cap s s' : conn_step auth s s' -> sem_ok cap s -> sem_ok cap s'.
Proof.
  intros [s0 s1 [_ H]|s0 _|s0 _|s0 m _ _]; [now apply goes_sem with auth|intros [A B C]..].
  - constructor; look; done.
  - constructor; look; autorewrite with ws; done.
  - unfold QueueNotification_check. destruct (Disconnected s0); constructor; look; done.
Qed.

(** *** The notifications *)

Definition note (r : wsResponse) : list message := if r_done r then [r_msg r] else [].
Lemma notes_cons r l : notes (r :: l) = note r ++ notes l.
Proof. destruct r as [m []]; reflexivity. Qed.
Lemma out_note_write r : out_note (Out_write r) = note r.
Proof. reflexivity. Qed.
#[local] Hint Rewrite notes_cons out_note_write : ws.
#[local] Arguments notes : simpl never.
#[local] Arguments note : simpl never.

Lemma turn_goes_notes b t c' s : notes_ok s -> notes_ok (turn_goes b t c' s).
Proof. intros [A B C D]. constructor; assumption. Qed.

(** A goroutine that has seen the client quit. *)
#[local] Ltac quit HQ := cbn in HQ; rewrite ?orb_true_r in HQ; cbn in HQ; specialize (HQ eq_refl).

Lemma goes_notes auth cap s s' : goes auth s s' -> ends_ok cap s -> notes_ok s -> notes_ok s'.
Proof.
  intros H [_ HQ _ _] HN. pose proof HN as [A B C D].
  destruct H; try (apply turn_goes_notes; assumption); look; place; try quit HQ; cbn in A, C;
    try (constructor; look; place; cbn; autorewrite with ws in *; cbn;
         [lia|done|intros Hd; first [congruence|rewrite <- (C Hd), <- ?app_assoc; done]|done]; fail).
  - unfold ntf_queue. look. destruct (waiting s) eqn:W; look; cbn in A; [|rewrite (B eq_refl) in C |- *];
      (constructor; look; rewrite ?H, ?W; cbn; [lia|done|intros Hd; rewrite <- (C Hd), <- ?app_assoc; done|done]).
  - unfold ntf_next. look. destruct (waiting s) eqn:W; cbn in A; [|lia].
    destruct (pendingNtfns s); constructor; look; rewrite ?H, ?W; cbn; done || lia.
  - constructor; look; rewrite ?H; cbn in *; autorewrite with ws in *; [|done|..].
    + destruct (r_done r); cbn in *; lia.
    + intros Hd. rewrite <- (C Hd), <- !app_assoc. destruct r as [m []]; done.
    + rewrite <- (C H0). apply prefix_app. destruct r as [m []]; [apply prefix_cons|]; apply prefix_nil.
  - constructor; look; rewrite ?H; cbn in *; [|done|congruence|done]. destruct (r_done r); cbn in *; lia.
Qed.

Lemma conn_step_notes auth cap s s' : conn_step auth s s' -> ends_ok cap s -> notes_ok s -> notes_ok s'.
Proof.
  intros [s0 s1 [_ H]|s0 _|s0 _|s0 m _ HC] HE HN; [now apply (goes_notes _ _ _ _ H HE)|pose proof HN as [A B C D]..].
  - constructor; look; done.
  - constructor; look; autorewrite with ws; done.
  - unfold QueueNotification_check. destruct (Disconnected s0) eqn:E; [done|]. constructor; look; [done..| |].
    + intros _. rewrite <- (C eq_refl), HC. cbn. now rewrite app_nil_r, <- !app_assoc.
    + now apply prefix_app_r.
Qed.

(** A client that is disconnected stays so. *)
Lemma goes_gone auth s s' : goes auth s s' -> Disconnected s = true -> Disconnected s' = true.
Proof.
  intros H D. destruct H; look; autorewrite with ws; try done.
  - unfold ntf_queue. look. now destruct (waiting s).
  - unfold ntf_next. look. now destruct (pendingNtfns s).
Qed.

Lemma conn_step_gone auth s s' : conn_step auth s s' -> Disconnected s = true -> Disconnected s' = true.
Proof.
  intros [s0 s1 [_ H]|s0 _|s0 _|s0 m _ _] D.
  - now apply (goes_gone _ _ _ H).
  - done.
  - look. autorewrite with ws. done.
  - unfold QueueNotification_check. now rewrite D.
Qed.

(** *** The replies *)

Lemma replies_kept s s' made : replies_due s' ≡ₚ replies_due s ++ made -> answers s' = answers s ++ made ->
  (Disconnected s' = false -> Disconnected s = false) -> replies_ok s -> replies_ok s'.
Proof.
  intros HD HA HC [M K]. split.
  - rewrite HD, HA. now apply submseteq_app.
  - intros D. now rewrite HD, HA, (K (HC D)).
Qed.

Lemma replies_same s s' : replies_due s' ≡ₚ replies_due s -> answers s' = answers s ->
  (Disconnected s' = false -> Disconnected s = false) -> replies_ok s -> replies_ok s'.
Proof. intros HD HA. apply (replies_kept _ _ []); now rewrite app_nil_r. Qed.

Lemma replies_dropped s s' : replies_due s' ⊆+ replies_due s -> answers s' = answers s -> Disconnected s' = true ->
  replies_ok s -> replies_ok s'.
Proof. intros HD HA HC [M _]. split; [rewrite HA; by etransitivity|congruence]. Qed.

Lemma replies_app l k : replies (l ++ k) = replies l ++ replies k.
Proof. unfold replies. now rewrite filter_app, map_app. Qed.
Lemma replies_serve l : concat (map run_reply (map Run_serve l)) = [].
Proof. induction l; done. Qed.

(** What a turn sends is what inHandler sends next. *)
Lemma turn_reply auth b c t c' : run_turn auth b c = Ok (t, c') ->
  in_reply (match t, sendq c' with
            | Break, _ => In_leave | Return, _ => In_returned
            | Continue, [] => after_send (is_batch b) | Continue, m :: _ => In_send m (is_batch b) end) = sendq c'.
Proof.
  intros H%run_turn_sends. destruct t, (is_batch b), (sendq c') as [|m [|]]; cbn in *; done || lia.
Qed.

Lemma replies_cons r l : replies (r :: l) = replies [r] ++ replies l.
Proof. exact (replies_app [r] l). Qed.
Lemma replies_one m : replies [MkResponse m false] = [m].
Proof. reflexivity. Qed.
Lemma replies_note m : replies [MkResponse m true] = [].
Proof. reflexivity. Qed.
#[local] Arguments replies : simpl never.
Create Rewrite HintDb ws_replies.
#[local] Hint Rewrite replies_app replies_one replies_note replies_serve map_app concat_app @app_nil_r : ws_replies.

(** The replies on their way, in a changed state. *)
#[local] Ltac due := unfold replies_due; look; place; cbn; rewrite ?(replies_cons _ (_ :: _)); autorewrite with ws_replies; cbn;
  rewrite ?app_nil_r.

Lemma goes_replies auth cap s s' : goes auth s s' -> ends_ok cap s -> (Disconnected s' = false -> Disconnected s = false) -> replies_ok s -> replies_ok s'.
Proof.
  intros H [_ HQ _ _] HC. destruct H.
  all: try (apply replies_same; [|done|exact HC]; due; try done; solve_Permutation; fail).
  - apply (replies_kept _ _ (sendq c')); [|done|exact HC]. unfold replies_due, turn_goes. look. place.
    rewrite (turn_reply _ _ _ _ _ H0). cbn. autorewrite with ws_replies. solve_Permutation.
  - destruct (Disconnected s) eqn:D; [apply replies_dropped|apply replies_same]; try done; due; [|done].
    destruct held; cbn; solve_submseteq.
  - apply replies_same; [|done|exact HC]. due. destruct held; cbn; solve_Permutation.
  - apply (replies_kept _ _ (run_reply p)); [|done|exact HC]. due. solve_Permutation.
  - destruct (Disconnected s) eqn:D; [apply replies_dropped|apply replies_same]; try done; due; [|done].
    repeat apply submseteq_skips_l. now constructor.
  - apply replies_same; [|by unfold ntf_queue; look; destruct (waiting s)|exact HC]. unfold ntf_queue. look. destruct (waiting s); due; done.
  - apply replies_same; [|by unfold ntf_next; look; destruct (pendingNtfns s)|exact HC]. unfold ntf_next. look. destruct (pendingNtfns s); due; done.
  - apply replies_same; [|done|exact HC]. unfold replies_due. look. place. cbn. now rewrite (replies_cons r rest), <- app_assoc.
  - apply replies_same; [|done|exact HC]. unfold replies_due. look. place. rewrite replies_app. destruct (r_done r); cbn; now rewrite <- app_assoc.
  - apply replies_dropped; [|done|look; now autorewrite with ws]. unfold replies_due. look. place. cbn. solve_submseteq.
  - place. quit HQ. apply replies_dropped; [|done|exact HQ]. unfold replies_due. look. place. rewrite (replies_cons r rest).
    destruct (r_done r); cbn; solve_submseteq.
Qed.

Lemma conn_step_replies auth cap s s' : conn_step auth s s' -> ends_ok cap s -> replies_ok s -> replies_ok s'.
Proof.
  intros HS HE. assert (HC : Disconnected s' = false -> Disconnected s = false).
  { destruct (Disconnected s) eqn:D; [|done]. now rewrite (conn_step_gone _ _ _ HS D). }
  destruct HS as [s0 s1 [_ H]|s0 _|s0 _|s0 m _ _].
  - now apply (goes_replies auth cap).
  - now apply replies_same.
  - now apply replies_same.
  - unfold QueueNotification_check. now destruct (Disconnected s0); [|apply replies_same].
Qed.

(** As long as the client is connected no report is lost. *)
Definition exact (s : conn_life) : Prop := Disconnected s = false -> reports s = b2n (waiting s).

Lemma goes_exact auth cap s s' : goes auth s s' -> ends_ok cap s -> notes_ok s -> exact s -> exact s'.
Proof.
  intros H [_ HQ _ _] [_ B _ _] HX. unfold exact in *. destruct H; try exact HX; look; place; try quit HQ; cbn in HX;
    try (intros D; try specialize (HX D); autorewrite with ws in *; cbn in *; congruence || lia).
  - unfold ntf_queue. look. destruct (waiting s) eqn:W; look; rewrite ?H, ?W; cbn; intros D; specialize (HX D); cbn in HX; lia.
  - unfold ntf_next. look. destruct (pendingNtfns s); look; rewrite ?H; cbn; intros D; specialize (HX D); cbn in HX; [|lia].
    destruct (waiting s); cbn in HX; lia.
  - intros D. specialize (HX D). cbn in HX. destruct (r_done r); cbn in *; lia.
Qed.

Lemma conn_step_exact auth cap s s' : conn_step auth s s' -> ends_ok cap s -> notes_ok s -> exact s -> exact s'.
Proof.
  intros [s0 s1 [_ H]|s0 _|s0 _|s0 m _ HC] HE HN HX; [now apply (goes_exact _ _ _ _ H HE HN)|exact HX|..].
  - unfold exact. look. autorewrite with ws. done.
  - unfold QueueNotification_check. destruct (Disconnected s0) eqn:D; [|intros _; exact (HX D)]. intros D'. look. congruence.
Qed.

(** *** The ends *)

Lemma run_pushes_le p : (run_pushes p <= 1)%nat.
Proof. destruct p; cbn; lia. Qed.
Lemma run_pushes_serve l : total run_pushes (map Run_serve l) = 0%nat.
Proof. induction l; cbn; done. Qed.
#[local] Hint Rewrite run_pushes_serve : ws.

Lemma pushers_le cap s : sem_ok cap s -> (pushers s <= cap + 2)%nat.
Proof.
  intros [_ B _]. pose proof (total_bound run_pushes 1 (runs s) run_pushes_le). unfold pushers.
  assert (in_pushes (inp s) <= 1)%nat by (destruct (inp s); cbn; lia).
  assert (ntf_pushes (ntf s) <= 1)%nat by (destruct (ntf s); cbn; lia). lia.
Qed.

Lemma serve_pushes r c p : serve r c = Ok p -> run_pushes p = 0%nat.
Proof. unfold serve. destruct (serviceRequest _ _) as [c'|]; [|done]. cbn. intros [= <-]. now destruct (sendq c'). Qed.

(** A client that is not disconnected: nobody has seen it quit. *)
Lemma ends_running cap s : ends_ok cap s -> Disconnected s = false -> out_drained_b (outp s) = false.
Proof.
  intros [_ Q _ _] D. destruct (outp s); try done; rewrite !orb_true_r, D in Q; now specialize (Q eq_refl).
Qed.

Lemma goes_ends auth cap s s' : goes auth s s' -> sem_ok cap s -> ends_ok cap s -> ends_ok cap s'.
Proof.
  intros H HS HE. pose proof (pushers_le _ _ HS) as HP. pose proof HE as [W Q R N].
  destruct H; look; place; try quit Q; cbn in W, R, N, HP; autorewrite with ws in *; cbn in *;
    try (constructor; look; place; cbn; autorewrite with ws; cbn;
         first [done|lia|congruence|(intros; auto; fail)|(intros E; specialize (R E); autorewrite with ws in *; cbn in *; lia)|
                (intros E; specialize (N E); autorewrite with ws in *; cbn in *; lia)|idtac]; fail).
  - unfold turn_goes. constructor; look; cbn; autorewrite with ws; cbn; try done; [rewrite W|intros E; apply Q; revert E|];
      destruct t; try destruct (sendq c'); try destruct (is_batch b); cbn; done || (intros E; specialize (R E); lia).
  - pose proof (ends_running _ _ HE) as HD. look. destruct (disconnected (cli s)) eqn:D.
    + constructor; look; destruct held; cbn; done || (intros E; specialize (R E); lia).
    + rewrite HD in R by done. constructor; look; rewrite ?D; cbn; try done. rewrite HD; done.
  - constructor; look; destruct held; cbn; autorewrite with ws; cbn; done || (intros E; specialize (R E); lia).
  - apply serve_pushes in H0. constructor; look; autorewrite with ws; cbn; done || (intros E; specialize (R E); lia).
  - pose proof (ends_running _ _ HE) as HD. look. destruct (disconnected (cli s)) eqn:D.
    + constructor; look; autorewrite with ws; cbn; done || (intros E; specialize (R E); lia).
    + constructor; look; rewrite ?D; cbn; try done. rewrite HD; done.
  - unfold ntf_queue. look. destruct (waiting s); constructor; look; place; cbn; done || (intros E; specialize (R E); lia).
  - unfold ntf_next. look. destruct (pendingNtfns s); constructor; look; place; cbn; done || (intros E; specialize (R E); lia).
  - pose proof (ends_running _ _ HE) as HD. constructor; look; cbn; try done. rewrite HD; done.
  - constructor; look; place; cbn; try done. intros _. destruct (caller s); cbn; lia.
  - constructor; look; place; destruct (r_done r); cbn; done || lia || congruence.
  - constructor; look; place; destruct (r_done r); cbn; done || lia || congruence.
Qed.

Lemma conn_step_ends auth cap s s' : conn_step auth s s' -> sem_ok cap s -> ends_ok cap s -> ends_ok cap s'.
Proof.
  intros [s0 s1 [_ H]|s0 _|s0 _|s0 m _ HC] HS HE; [now apply (goes_ends _ _ _ _ H HS)|pose proof HE as [W Q R N]..].
  - constructor; look; done.
  - constructor; look; autorewrite with ws; done.
  - unfold QueueNotification_check. destruct (Disconnected s0) eqn:E; [done|]. constructor; look; try done; [now rewrite E|].
    intros G. discriminate Q. destruct (ntf s0); try done; cbn; now rewrite orb_true_r.
Qed.

(** *** Every state of a client *)

Record conn_ok (cap : nat) (s : conn_life) : Prop := {
  ok_sem : sem_ok cap s; ok_notes : notes_ok s; ok_exact : exact s; ok_ends : ends_ok cap s; ok_replies : replies_ok s }.

Lemma conn_step_ok auth cap s s' : conn_step auth s s' -> conn_ok cap s -> conn_ok cap s'.
Proof.
  intros H [A B X C R]. constructor; [eapply conn_step_sem|eapply conn_step_notes|eapply conn_step_exact|eapply conn_step_ends|eapply conn_step_replies]; eassumption.
Qed.

Lemma Start_ok random cap a adm c : newWebsocketClient random cap a adm = Ok c -> conn_ok cap (Start c).
Proof.
  unfold newWebsocketClient. destruct random as [id|]; [|done]. intros [= <-].
  constructor; [..|done| |]; constructor; cbn; try done; lia.
Qed.

Lemma conn_runs_ok auth cap s s' : rtc (conn_step auth) s s' -> conn_ok cap s -> conn_ok cap s'.
Proof. induction 1 as [|x y z H _ IH]; [done|]. intros HO. apply IH. eapply conn_step_ok; eassumption. Qed.

(** ** After a disconnection *)

Definition in_weight (i : input) : nat :=
  match i with
  | In_top | In_read => 3 | In_got _ => 19 | In_send _ _ => 10 | In_push _ _ => 9 | In_release => 4
  | In_leave => 2 | In_done => 1 | In_ended | In_returned => 0
  end.
Definition run_weight (p : request_run) : nat :=
  match p with Run_serve _ => 8 | Run_send _ => 7 | Run_push _ => 6 | Run_release => 1 end.
Definition ntf_weight (n : notifier) : nat :=
  match n with Ntf_top => 3 | Ntf_send _ => 5 | Ntf_push _ => 8 | Ntf_drain => 2 | Ntf_done => 1 | Ntf_ended => 0 end.
Definition out_weight (o : output) : nat :=
  match o with Out_top => 5 | Out_write _ => 8 | Out_report => 7 | Out_drain => 2 | Out_refuse => 4 | Out_done => 1 | Out_ended => 0 end.

(** The steps that are left, at most. *)
Definition conn_measure (s : conn_life) : nat :=
  if crashed s then 0
  else (in_weight (inp s) + total run_weight (runs s) + ntf_weight (ntf s) + out_weight (outp s) +
        4 * length (sendChan s) + 3 * length (ntfnChan s) + length (ntfnSentChan s) + 2 * length (pendingNtfns s) +
        4 * length (option_list (caller s)))%nat.

Lemma run_weight_serve l : total run_weight (map Run_serve l) = (8 * length l)%nat.
Proof. induction l; cbn; lia. Qed.
#[local] Hint Rewrite run_weight_serve : ws.

Lemma serve_weight r c p : serve r c = Ok p -> (run_weight p < 8)%nat.
Proof. unfold serve. destruct (serviceRequest _ _) as [c'|]; [|done]. cbn. intros [= <-]. destruct (sendq c'); cbn; lia. Qed.

Lemma conn_goes_down auth s s' : goes auth s s' -> crashed s = false -> Disconnected s = true ->
  Disconnected s' = true /\ (conn_measure s' < conn_measure s)%nat.
Proof.
  intros H C D. unfold conn_measure. rewrite C. destruct H; try congruence.
  all: try (look; place; split; [autorewrite with ws; done|]; cbn; rewrite ?C, ?D; cbn; autorewrite with ws; cbn; lia || (destruct held; cbn; lia); fail).
  - apply run_turn_client in H0 as (_ & _ & J). unfold turn_goes. look. place. split; [done|]. rewrite C. autorewrite with ws. cbn.
    destruct t, (is_batch b); try rewrite J; try destruct (sendq c'); cbn; lia.
  - look. split; [done|]. rewrite C, H. apply serve_weight in H0. autorewrite with ws. cbn. lia.
  - unfold ntf_queue. look. destruct (waiting s); look; place; rewrite C; autorewrite with ws; cbn; split; done || lia.
  - unfold ntf_next. look. destruct (pendingNtfns s); look; place; rewrite C; cbn; split; done || lia.
  - look. split; [done|]. place. rewrite C. destruct (r_done r); cbn; lia.
Qed.

(** Everything has returned, or inHandler is gone for good. *)
Definition all_ended (s : conn_life) : Prop :=
  (inp s = In_ended \/ inp s = In_returned) /\ runs s = [] /\ ntf s = Ntf_ended /\ outp s = Out_ended /\ caller s = None.

Section progress.
Context (auth : auth_state) (cap : nat) (s : conn_life).
Context (Hok : conn_ok cap s) (HD : Disconnected s = true) (Hcap : (0 < cap <= 48)%nat).

Lemma out_progress : outp s <> Out_ended -> exists s', goes auth s s'.
Proof.
  intros H. pose proof (no_reports _ (ok_notes _ _ Hok)) as HR. unfold reports in HR.
  destruct (outp s) as [|r| | | | |] eqn:E; try done; cbn in HR.
  - eexists. apply out_quit; done.
  - eexists. apply out_error with r; auto.
  - eexists. apply out_report; [done|]. destruct (waiting s); cbn in HR; lia.
  - destruct (sendChan s) as [|r rest] eqn:F; eexists; [apply out_drained|eapply out_drain]; done.
  - eexists. apply out_refuse; [done|]. destruct (waiting s); cbn in HR; lia.
  - eexists. apply out_done; done.
Qed.

(** outHandler has drained sendChan: there is room for all who still send. *)
Lemma push_room : outp s = Out_ended -> (0 < pushers s)%nat -> (length (sendChan s) < websocketSendBufferSize)%nat.
Proof.
  intros E H. pose proof (eo_room _ _ (ok_ends _ _ Hok)) as R. rewrite E in R. specialize (R eq_refl).
  unfold websocketSendBufferSize. lia.
Qed.

Lemma run_progress p l : outp s = Out_ended -> runs s = p :: l -> exists s', goes auth s s'.
Proof.
  intros E H. pose proof (so_held _ _ (ok_sem _ _ Hok)) as HS. rewrite H in HS. cbn in HS. destruct p as [r|m|m|].
  - destruct (serve r (cli s)) as [p|e] eqn:F; eexists; [eapply (run_serve _ _ _ [])|eapply (run_panic _ _ _ [])]; done.
  - eexists. eapply (run_send _ _ _ []). done.
  - eexists. eapply (run_push _ _ _ []); [done|]. apply push_room; [done|]. unfold pushers. rewrite H. cbn. lia.
  - eexists. apply (run_release _ _ [] l); [done|lia].
Qed.

Lemma in_progress : outp s = Out_ended -> runs s = [] -> inp s <> In_ended -> inp s <> In_returned -> exists s', goes auth s s'.
Proof.
  intros E HR H1 H2. destruct (ok_sem _ _ Hok) as [HC HS HX]. rewrite HR in HS, HX.
  destruct (inp s) as [| |b|m held|m held| | | | |] eqn:F; try done; cbn in HS, HX.
  - eexists. apply in_quit; done.
  - eexists. apply in_error; auto.
  - specialize (HX eq_refl). destruct (run_turn auth b (cli s)) as [[t c']|e] eqn:G; eexists.
    + eapply in_turn; [done|exact G|]. apply run_turn_client in G as (_ & _ & G). unfold room. rewrite HC, HX. destruct (is_batch b); lia.
    + eapply in_panic; [done|exact G|]. unfold room. rewrite HC, HX. destruct (is_batch b); lia.
  - eexists. eapply in_send. done.
  - eexists. eapply in_push; [done|]. apply push_room; [done|]. unfold pushers. rewrite F. cbn. lia.
  - eexists. apply in_release; [done|lia].
  - eexists. apply in_leave. done.
  - eexists. apply in_done. done.
Qed.

Lemma ntf_progress : outp s = Out_ended -> ntf s <> Ntf_ended -> exists s', goes auth s s'.
Proof.
  intros E H. pose proof (no_reports _ (ok_notes _ _ Hok)) as HR. unfold reports in HR.
  destruct (ntf s) as [|m|m| | |] eqn:F; try done; cbn in HR.
  - eexists. apply ntf_quit; done.
  - eexists. apply ntf_refused with m; [done..|]. destruct (waiting s); cbn in HR; lia.
  - eexists. eapply ntf_push; [done|]. apply push_room; [done|]. unfold pushers. rewrite F. cbn. lia.
  - destruct (ntfnChan s) as [|m rest] eqn:G; [|eexists; eapply ntf_drain_msg; done].
    destruct (ntfnSentChan s) as [|d rest] eqn:G'; eexists; [apply ntf_drained|eapply ntf_drain_sent]; done.
  - eexists. apply ntf_done. done.
Qed.

Lemma conn_progress : all_ended s \/ exists s', goes auth s s'.
Proof.
  destruct (decide (out_weight (outp s) = 0%nat)) as [E|E]; [|right; apply out_progress; intros F; now rewrite F in E].
  assert (EO : outp s = Out_ended) by (destruct (outp s); done).
  destruct (runs s) as [|p l] eqn:ER; [|right; now apply run_progress with p l].
  destruct (decide (in_weight (inp s) = 0%nat)) as [EI|EI].
  2: right; apply in_progress; [done..| |]; intros F; now rewrite F in EI.
  destruct (decide (ntf_weight (ntf s) = 0%nat)) as [EN|EN]; [|right; apply ntf_progress; [done|]; intros F; now rewrite F in EN].
  assert (EN' : ntf s = Ntf_ended) by (destruct (ntf s); done).
  destruct (caller s) as [m|] eqn:EC.
  - right. eexists. eapply caller_put; [exact EC|]. pose proof (eo_ntfn _ _ (ok_ends _ _ Hok)) as N. rewrite EN', EC in N.
    specialize (N eq_refl). cbn in N. unfold ntfn_capacity. lia.
  - left. unfold all_ended. destruct (inp s); done || tauto.
Qed.
End progress.

(** ** While it is connected *)

(** inHandler reads a message. *)
Definition reads (s s' : conn_life) : Prop := inp s = In_read /\ exists b, inp s' = In_got b.

Definition in_work (i : input) : nat :=
  match i with In_top => 2 | In_read => 1 | In_got _ => 18 | In_send _ _ => 9 | In_push _ _ => 8 | In_release => 3 | _ => 0 end.
Definition ntf_work (n : notifier) : nat := match n with Ntf_send _ => 6 | Ntf_push _ => 5 | _ => 0 end.
Definition out_work (o : output) : nat := match o with Out_write _ => 3 | Out_report => 2 | _ => 0 end.

(** The steps that are left, at most, before the next message. *)
Definition conn_work (s : conn_life) : nat :=
  (in_work (inp s) + total run_weight (runs s) + ntf_work (ntf s) + out_work (outp s) +
   4 * length (sendChan s) + 7 * length (ntfnChan s) + length (ntfnSentChan s) + 6 * length (pendingNtfns s) +
   8 * length (option_list (caller s)))%nat.

Lemma goes_work auth cap s s' : goes auth s s' -> ends_ok cap s -> Disconnected s' = false -> crashed s' = false -> ~ reads s s' ->
  (conn_work s' < conn_work s)%nat.
Proof.
  intros H [_ HQ _ _] D C HN. unfold conn_work. destruct H; look; try congruence; place; try quit HQ.
  all: try congruence; try (autorewrite with ws in D; discriminate).
  all: try (cbn; autorewrite with ws; cbn; lia || (destruct held; cbn; lia); fail).
  - exfalso. apply HN. split; [done|]. now exists b.
  - apply run_turn_client in H0 as (_ & _ & J). unfold turn_goes. look. autorewrite with ws.
    destruct t, (is_batch b); try rewrite J; try destruct (sendq c'); cbn; lia.
  - rewrite D. cbn. lia.
  - apply serve_weight in H0. autorewrite with ws. cbn. lia.
  - rewrite D. autorewrite with ws. cbn. lia.
  - unfold ntf_queue. look. destruct (waiting s); look; place; autorewrite with ws; cbn; lia.
  - unfold ntf_next. look. destruct (pendingNtfns s); look; place; cbn; lia.
  - destruct (r_done r); cbn; lia.
Qed.

(** What a connected client can still do but read. *)
Section connected.
Context (auth : auth_state) (cap : nat) (s : conn_life).
Context (Hok : conn_ok cap s) (HD : Disconnected s = false) (Hcap : (0 < cap)%nat).
#[local] Abbreviation moves := (exists s', goes auth s s' /\ ~ reads s s').

Lemma same_input s' : inp s' = inp s -> ~ reads s s'.
Proof. intros E [H (b & H')]. congruence. Qed.

Lemma out_moves : moves \/ outp s = Out_top /\ sendChan s = [].
Proof.
  pose proof (no_reports _ (ok_notes _ _ Hok)) as HR. unfold reports in HR.
  pose proof (eo_quit _ _ (ok_ends _ _ Hok)) as HQ.
  destruct (outp s) as [|r| | | | |] eqn:E; try (exfalso; rewrite !orb_true_r in HQ; specialize (HQ eq_refl); congruence).
  - destruct (sendChan s) as [|r rest] eqn:F; [by right|left]. eexists. split; [eapply out_msg; eassumption|now apply same_input].
  - left. eexists. split; [eapply out_written; eassumption|now apply same_input].
  - left. eexists. split; [apply out_report; [done|]|now apply same_input]. destruct (waiting s); cbn in HR; lia.
Qed.

Lemma run_moves p l : sendChan s = [] -> runs s = p :: l -> moves.
Proof.
  intros F H. pose proof (so_held _ _ (ok_sem _ _ Hok)) as HS. rewrite H in HS. cbn in HS. destruct p as [r|m|m|].
  - destruct (serve r (cli s)) as [p|e] eqn:G; eexists;
      [split; [eapply (run_serve _ _ _ []); done|now apply same_input]|split; [eapply (run_panic _ _ _ []); done|now apply same_input]].
  - eexists. split; [eapply (run_send _ _ _ []); done|now apply same_input].
  - eexists. split; [eapply (run_push _ _ _ []); [done|]|now apply same_input]. rewrite F. cbn. unfold websocketSendBufferSize. lia.
  - eexists. split; [apply (run_release _ _ [] l); [done|lia]|now apply same_input].
Qed.

Lemma in_moves : sendChan s = [] -> runs s = [] -> moves \/ inp s = In_read \/ inp s = In_returned.
Proof.
  intros F HR. destruct (ok_sem _ _ Hok) as [HC HS HX]. rewrite HR in HS, HX.
  pose proof (eo_quit _ _ (ok_ends _ _ Hok)) as HQ.
  assert (HN : inp s <> In_read -> forall s', ~ reads s s') by (intros H s' [H' _]; congruence).
  destruct (inp s) as [| |b|m held|m held| | | | |] eqn:E; cbn in HS, HX, HQ; try (specialize (HQ eq_refl); congruence); auto; left.
  - eexists. split; [apply in_next; done|now apply HN].
  - specialize (HX eq_refl). destruct (run_turn auth b (cli s)) as [[t c']|e] eqn:G; eexists; (split; [|now apply HN]).
    + eapply in_turn; [done|exact G|]. apply run_turn_client in G as (_ & _ & G). unfold room. rewrite HC, HX. destruct (is_batch b); lia.
    + eapply in_panic; [done|exact G|]. unfold room. rewrite HC, HX. destruct (is_batch b); lia.
  - eexists. split; [eapply in_send; done|now apply HN].
  - eexists. split; [eapply in_push; [done|]|now apply HN]. rewrite F. cbn. unfold websocketSendBufferSize. lia.
  - eexists. split; [apply in_release; [done|lia]|now apply HN].
  - eexists. split; [apply in_leave; done|now apply HN].
Qed.

Lemma ntf_moves : outp s = Out_top -> sendChan s = [] ->
  moves \/ caller s = None /\ ntfnChan s = [] /\ pendingNtfns s = [] /\ ntf s = Ntf_top.
Proof.
  intros EO F. pose proof (eo_quit _ _ (ok_ends _ _ Hok)) as HQ. pose proof (ok_exact _ _ Hok HD) as HR. unfold reports in HR.
  rewrite F, EO in HR. cbn in HR.
  destruct (ntf s) as [|m|m| | |] eqn:E; try (exfalso; rewrite orb_true_r in HQ; specialize (HQ eq_refl); congruence); cbn in HR.
  - destruct (ntfnChan s) as [|m rest] eqn:G; [|left; eexists; split; [eapply ntf_msg; eassumption|apply same_input; unfold ntf_queue; cbn; now destruct (waiting s)]].
    destruct (ntfnSentChan s) as [|d rest] eqn:G'; [|left; eexists; split; [eapply ntf_sent; eassumption|apply same_input; unfold ntf_next; cbn; now destruct (pendingNtfns s)]].
    destruct (caller s) as [m|] eqn:EC.
    + left. eexists. split; [eapply caller_put; [exact EC|]|now apply same_input]. rewrite G. cbn. unfold ntfn_capacity. lia.
    + right. split_and!; try done. apply (no_idle _ (ok_notes _ _ Hok)). destruct (waiting s); [discriminate HR|done].
  - left. eexists. split; [eapply ntf_send; eassumption|now apply same_input].
  - left. eexists. split; [eapply ntf_push; [eassumption|]|now apply same_input]. rewrite F. cbn. unfold websocketSendBufferSize. lia.
Qed.

Lemma connected_moves : moves \/
  (outp s = Out_top /\ sendChan s = [] /\ runs s = [] /\ (inp s = In_read \/ inp s = In_returned) /\ notes (written s) = queued s /\ caller s = None /\
   replies (written s) ≡ₚ answers s).
Proof.
  destruct out_moves as [H|[EO F]]; [by left|]. destruct (runs s) as [|p l] eqn:ER; [|left; now apply run_moves with p l].
  destruct (in_moves F ER) as [H|EI]; [by left|]. destruct (ntf_moves EO F) as [H|(EC & EN & EP & ET)]; [by left|right].
  split_and!; try done.
  - pose proof (no_flow _ (ok_notes _ _ Hok) HD) as HF. unfold under_way in HF.
    rewrite EO, F, ET, EP, EN, EC in HF. cbn in HF. now rewrite app_nil_r in HF.
  - pose proof (ro_kept _ (ok_replies _ _ Hok) HD) as HF. unfold replies_due in HF. rewrite EO, F, ER in HF.
    rewrite <- HF. destruct EI as [-> | ->]; cbn; now rewrite app_nil_r.
Qed.
End connected.

(** ** Theorems *)

(** WaitForShutdown: the wait group is at zero. *)
Definition WaitForShutdown_returns (s : conn_life) : bool := bool_decide (wg s = 0).

Section theorems.
Context (auth : auth_state).

Lemma live_settled cap s s' : live_step auth s s' -> conn_ok cap s /\ Disconnected s = true ->
  conn_ok cap s' /\ Disconnected s' = true.
Proof.
  intros H [HO HD]. split; [eapply conn_step_ok; [apply conn_own, H|exact HO]|]. destruct H as [HC H]. now apply (conn_goes_down _ _ _ H).
Qed.

Lemma live_runs_out cap s : (0 < cap <= 48)%nat -> conn_ok cap s /\ Disconnected s = true ->
  exists s', rtc (live_step auth) s s' /\ forall s'', ~ live_step auth s' s''.
Proof.
  intros HC. remember (conn_measure s) as n eqn:E. revert s E. induction n as [n IH] using lt_wf_ind. intros s -> HS.
  destruct (crashed s) eqn:EC; [exists s; split; [done|]; intros s'' [? _]; congruence|].
  destruct HS as [HO HD]. destruct (conn_progress auth cap s HO HD HC) as [HE|[s1 H]].
  - exists s. split; [done|]. intros s'' [_ H]. destruct HE as (EI & ER & EN & EO & ECa).
    destruct H; try (destruct EI; congruence); rewrite ER in *; now destruct l1.
  - assert (HL : live_step auth s s1) by (split; done).
    destruct (IH (conn_measure s1)) with (s := s1) as (s' & R & St); [now apply (conn_goes_down _ _ _ H)|done|now apply live_settled with s|].
    exists s'. split; [eapply rtc_l; [exact HL|exact R]|exact St].
Qed.

Lemma live_bounded cap n s s' : conn_ok cap s -> Disconnected s = true -> nsteps (live_step auth) n s s' -> (n <= conn_measure s)%nat.
Proof.
  intros HO HD R. revert HO HD. induction R as [s|n s s1 s' H R IH]; [lia|]. intros HO HD.
  destruct (live_settled cap _ _ H (conj HO HD)) as [HO1 HD1]. specialize (IH HO1 HD1).
  destruct H as [EC H]. apply conn_goes_down in H as [_ H]; [lia|done..].
Qed.

(** C17: a websocket client that is disconnected comes to an end.  Whatever it had been
doing when it was disconnected, by the network, by its own handler or by the
notification manager, if RPCMaxConcurrentReqs is between 1 and 48, its goroutines take a
bounded number of further steps and never block one another for good: they stop only
when all have returned, the requests it started included, and the notification manager
is not left waiting in QueueNotification; or because a command panicked.  The client's
WaitForShutdown then returns, except when inHandler returned from within a batch. *)
Theorem ws_client_ends random cap a adm c s :
  newWebsocketClient random cap a adm = Ok c -> (0 < cap <= 48)%nat ->
  rtc (conn_step auth) (Start c) s -> Disconnected s = true ->
  (forall n s', nsteps (live_step auth) n s s' -> (n <= conn_measure s)%nat) /\
  (forall s', rtc (live_step auth) s s' -> (forall s'', ~ live_step auth s' s'') ->
     crashed s' = true \/ (all_ended s' /\ (WaitForShutdown_returns s' = true <-> inp s' <> In_returned))) /\
  exists s', rtc (live_step auth) s s' /\ forall s'', ~ live_step auth s' s''.
Proof.
  intros Hnew HC HR HD. pose proof (conn_runs_ok _ _ _ _ HR (Start_ok _ _ _ _ _ Hnew)) as HO. clear HR Hnew. split_and!.
  - intros n s'. now apply (live_bounded cap).
  - intros s' R St. assert (HS : conn_ok cap s' /\ Disconnected s' = true).
    { generalize (conj HO HD). clear -R. induction R; [done|]. intros HS. apply IHR. eapply live_settled; eassumption. }
    destruct (crashed s') eqn:EC; [by left|right]. destruct HS as [HO' HD'].
    destruct (conn_progress auth cap s' HO' HD' HC) as [HE|[s'' H]]; [|now destruct (St s'')].
    split; [done|]. destruct HE as (EI & _ & EN & EO & _). unfold WaitForShutdown_returns.
    rewrite bool_decide_eq_true, (eo_wg _ _ (ok_ends _ _ HO')), EN, EO. destruct EI as [-> | ->]; split; done.
  - eapply live_runs_out; [exact HC|done].
Qed.

(** C18: notifications reach the connection in order.  In every state of a client the
notifications written to its connection are the first of those given to
QueueNotification, in order; as long as it is not disconnected, those written and those
on their way, in outHandler, in sendChan, in notificationQueueHandler, pending, and in
ntfnChan, are all that were given, none lost and none doubled; at most one of them is
past notificationQueueHandler's queue at a time, so that notifications take at most one
of the places of sendChan; and no goroutine ever waits to report on ntfnSentChan. *)
Theorem ws_notifications random cap a adm c s :
  newWebsocketClient random cap a adm = Ok c -> rtc (conn_step auth) (Start c) s ->
  notes (written s) `prefix_of` queued s /\
  (Disconnected s = false ->
     queued s = notes (written s) ++ out_note (outp s) ++ notes (sendChan s) ++ ntf_note (ntf s) ++ pendingNtfns s ++
                ntfnChan s ++ option_list (caller s)) /\
  (length (out_note (outp s) ++ notes (sendChan s) ++ ntf_note (ntf s)) + length (ntfnSentChan s) <= 1)%nat /\
  (outp s = Out_report \/ outp s = Out_refuse -> ntfnSentChan s = []).
Proof.
  intros Hnew HR. destruct (conn_runs_ok _ _ _ _ HR (Start_ok _ _ _ _ _ Hnew)) as [_ [A B C D] _ _ _].
  assert (HN : forall l, length (notes l) = total (fun r => b2n (r_done r)) l).
  { induction l as [|r l IH]; [done|]. rewrite notes_cons, length_app, IH. destruct r as [m []]; reflexivity. }
  assert (HW : (reports s <= 1)%nat) by (destruct (waiting s); cbn in A; lia). unfold reports in HW. split_and!.
  - done.
  - intros E. symmetry. exact (C E).
  - rewrite !length_app, HN. assert (H1 : (length (out_note (outp s)) <= out_due (outp s))%nat) by (destruct (outp s) as [|[m []]| | | | |]; cbn; lia).
    assert (H2 : (length (ntf_note (ntf s)) <= ntf_due (ntf s))%nat) by (destruct (ntf s); cbn; lia). lia.
  - intros [E|E]; rewrite E in HW; cbn in HW; destruct (ntfnSentChan s); done || (cbn in HW; lia).
Qed.

(** The steps of a client that stays connected and reads nothing. *)
Definition quiet_step (s s' : conn_life) : Prop :=
  live_step auth s s' /\ Disconnected s' = false /\ crashed s' = false /\ ~ reads s s'.

(** C19: a connected client leaves nothing behind.  However it got where it is, a client
that stays connected and reads nothing further takes a bounded number of steps; when it
can do nothing but read, every request is done; every message has been written, for
sendChan is empty, the replies written are those that inHandler and the requests have
made, each as often as it was made, and the notifications written are those given to
QueueNotification, in order; its caller is not waiting, and inHandler waits for the next
message, or returned from within a batch.  At no time was a reply written that was not
made. *)
Theorem ws_client_flushes random cap a adm c s :
  newWebsocketClient random cap a adm = Ok c -> (0 < cap)%nat -> rtc (conn_step auth) (Start c) s ->
  (forall n s', nsteps quiet_step n s s' -> (n <= conn_work s)%nat) /\
  (Disconnected s = false -> crashed s = false -> forall s', rtc quiet_step s s' -> (forall s'', live_step auth s' s'' -> reads s' s'') ->
     outp s' = Out_top /\ sendChan s' = [] /\ runs s' = [] /\ (inp s' = In_read \/ inp s' = In_returned) /\
     notes (written s') = queued s' /\ caller s' = None /\
     map r_msg (filter (fun r => r_done r = false) (written s')) ≡ₚ answers s') /\
  map r_msg (filter (fun r => r_done r = false) (written s)) ⊆+ answers s.
Proof.
  intros Hnew HC HR. pose proof (conn_runs_ok _ _ _ _ HR (Start_ok _ _ _ _ _ Hnew)) as HO. clear HR Hnew. split_and!.
  - intros n s' R. revert HO. induction R as [s|n s s1 s' (H & D & C & N) R IH]; [lia|]. intros HO.
    specialize (IH (conn_step_ok _ _ _ _ (conn_own _ _ _ H) HO)). pose proof (goes_work _ _ _ _ (proj2 H) (ok_ends _ _ HO) D C N). lia.
  - intros D C s' R St. assert (HX : conn_ok cap s' /\ Disconnected s' = false /\ crashed s' = false).
    { generalize (conj HO (conj D C)). clear -R. induction R as [|x y z (H & D & C & _) _ IH]; [done|]. intros (A & _ & _). apply IH.
      split; [exact (conn_step_ok _ _ _ _ (conn_own _ _ _ H) A)|done]. }
    destruct HX as (A & B & E). destruct (connected_moves auth cap s' A B HC) as [(s'' & H & N)|H]; [|exact H].
    destruct N. apply St. now split.
  - etransitivity; [|exact (ro_made _ (ok_replies _ _ HO))]. apply submseteq_inserts_r. done.
Qed.
End theorems.

(** ** Too many requests *)

Section wedge.
Context (auth : auth_state) (id : Z) (cap : nat).

Definition a_request : json := request_json (MkRequest "1.0" "getblockhash" (Some [JInt 1]) (JInt 1)).
Definition a_malformed : json := JObj [("jsonrpc", JStr "1.0"); ("id", JInt 1)]%string.
Definition a_client (n : nat) (gone : bool) : wsClient := MkClient true true gone id cap n [] [] false.
(** What is sent for a message that inHandler refuses, and for [a_request]. *)
Definition refusal : message :=
  match run_turn auth (SingleBody (Ok (a_malformed))) (a_client 0 false) with Ok (_, c) => match sendq c with m :: _ => m | [] => [] end | Err _ => [] end.
Definition a_command : parsedRPCCmd :=
  match run_turn auth (SingleBody (Ok a_request)) (a_client 0 false) with
  | Ok (_, c) => match jobs c with r :: _ => r | [] => MkParsed "" JNull "" None None end
  | Err _ => MkParsed "" JNull "" None None
  end.
Definition an_answer : message := match serve a_command (a_client 0 false) with Ok (Run_send m) => m | _ => [] end.

Lemma answer_value : an_answer = [CJson (JObj [("jsonrpc", JStr "1.0");
  ("result", JStr "0000000000000000000000000000000000000000000000000000000000000001"); ("error", JNull); ("id", JInt 1)])]%string.
Proof. vm_compute. reflexivity. Qed.
Lemma refusal_value : refusal = [CJson (JObj [("jsonrpc", JStr "1.0"); ("result", JNull);
  ("error", JObj [("code", JInt (-32600)); ("message", JStr "Invalid request: malformed")]); ("id", JInt 1)])]%string.
Proof. vm_compute. reflexivity. Qed.

(** [n] requests that are about to send. *)
Definition sending (n : nat) : conn_life :=
  MkConn (a_client n false) false In_top (replicate n (Run_push an_answer)) Ntf_top Out_top [] [] [] [] false 3 None false [] []
    (replicate n an_answer).

Lemma live_conn s s' : crashed s = false -> goes auth s s' -> conn_step auth s s'.
Proof. intros C H. apply conn_own. now split. Qed.

Lemma one_more n : (S n <= cap)%nat -> rtc (conn_step auth) (sending n) (sending (S n)).
Proof.
  intros H.
  eapply rtc_l; [apply live_conn; [done|now apply in_next]|].
  eapply rtc_l; [apply live_conn; [done|apply in_message with (b := SingleBody (Ok a_request)); done]|].
  eapply rtc_l; [apply live_conn; [done|eapply in_turn; [reflexivity|vm_compute; reflexivity|exact H]]|].
  eapply rtc_l; [apply live_conn; [done|eapply (run_serve _ _ _ (replicate n (Run_push an_answer)) []); [reflexivity|vm_compute; reflexivity]]|].
  eapply rtc_l; [apply live_conn; [done|eapply (run_send _ _ _ (replicate n (Run_push an_answer)) []); reflexivity]|].
  apply reflexive_eq. unfold sending. rewrite !replicate_S_end, <- answer_value. unfold turn_goes. cbn. rewrite app_nil_r. reflexivity.
Qed.

Lemma all_sending n : (n <= cap)%nat -> rtc (conn_step auth) (sending 0) (sending n).
Proof. induction n as [|n IH]; intros H; [done|]. etransitivity; [apply IH; lia|now apply one_more]. Qed.

Definition a_note : message := [CJson JNull].

(** inHandler and notificationQueueHandler are about to send as well, the client is
disconnected, and outHandler has returned; [k] requests have sent since, and [made] are
the replies made. *)
Definition wedging (made : list message) (n k : nat) : conn_life :=
  MkConn (a_client n true) false (In_push refusal false) (replicate n (Run_push an_answer)) (Ntf_push a_note) Out_ended
    (replicate k (MkResponse an_answer false)) [] [] [] true 2 None false [a_note] [] made.
(** notificationQueueHandler has sent and returned. *)
Definition full (made : list message) (n k : nat) : conn_life :=
  MkConn (a_client n true) false (In_push refusal false) (replicate n (Run_push an_answer)) Ntf_ended Out_ended
    (replicate k (MkResponse an_answer false) ++ [MkResponse a_note true]) [] [] [] true 1 None false [a_note] [] made.

Lemma one_refused n : (n <= cap)%nat -> rtc (conn_step auth) (sending n) (with_inp (In_push refusal false) (with_answers (replicate n an_answer ++ [refusal]) (sending n))).
Proof.
  intros H.
  eapply rtc_l; [apply live_conn; [done|now apply in_next]|].
  eapply rtc_l; [apply live_conn; [done|apply in_message with (b := SingleBody (Ok (a_malformed))); done]|].
  eapply rtc_l; [apply live_conn; [done|eapply in_turn; [reflexivity|vm_compute; reflexivity|exact H]]|].
  eapply rtc_l; [apply live_conn; [done|eapply in_send; reflexivity]|].
  apply reflexive_eq. unfold sending. rewrite <- refusal_value. unfold turn_goes. cbn. rewrite app_nil_r. reflexivity.
Qed.

(** A step, with the state after it computed. *)
#[local] Ltac runs tac :=
  eapply rtc_l; [tac|];
  lazymatch goal with |- rtc _ ?a _ => let b := eval cbv -[replicate an_answer refusal a_note] in a in change a with b end.

Lemma all_wedging n : (n <= cap)%nat -> rtc (conn_step auth) (sending n) (wedging (replicate n an_answer ++ [refusal]) n 0).
Proof.
  intros H. etransitivity; [now apply one_refused|].
  runs ltac:(apply (conn_notify _ _ a_note); done).
  runs ltac:(apply live_conn; [done|eapply caller_put; [done|cbn; unfold ntfn_capacity; lia]]).
  runs ltac:(apply live_conn; [done|eapply ntf_msg; reflexivity]).
  runs ltac:(apply live_conn; [done|eapply ntf_send; reflexivity]).
  runs ltac:(apply conn_disconnect; done).
  runs ltac:(apply live_conn; [done|apply out_quit; done]).
  runs ltac:(apply live_conn; [done|apply out_drained; done]).
  runs ltac:(apply live_conn; [done|apply out_done; done]).
  reflexivity.
Qed.

Lemma wedging_sends made n k : (k < websocketSendBufferSize)%nat -> rtc (conn_step auth) (wedging made (S n) k) (wedging made n (S k)).
Proof.
  intros H.
  eapply rtc_l; [apply live_conn; [done|eapply (run_push _ _ _ []); [reflexivity|]]|].
  { unfold wedging. look. now rewrite length_replicate. }
  eapply rtc_l; [apply live_conn; [done|eapply (run_release _ _ []); [reflexivity|]]|]; [cbn; lia|].
  apply reflexive_eq. unfold wedging. rewrite (replicate_S_end k). reflexivity.
Qed.

Lemma wedging_full made n k j : (k + j <= websocketSendBufferSize)%nat -> rtc (conn_step auth) (wedging made (j + n) k) (wedging made n (k + j)).
Proof.
  revert n k. induction j as [|j IH]; intros n k H; [now rewrite Nat.add_0_r|].
  etransitivity; [apply (wedging_sends made (j + n) k); lia|]. rewrite Nat.add_succ_r. apply (IH n (S k)). lia.
Qed.

Lemma wedging_ends made n : rtc (conn_step auth) (wedging made n 49) (full made n 49).
Proof.
  eapply rtc_l; [apply live_conn; [done|eapply ntf_push; [reflexivity|cbn; unfold websocketSendBufferSize; lia]]|].
  eapply rtc_l; [apply live_conn; [done|apply ntf_quit; done]|].
  eapply rtc_l; [apply live_conn; [done|apply ntf_drained; done]|].
  eapply rtc_l; [apply live_conn; [done|apply ntf_done; done]|]. reflexivity.
Qed.

(** Nothing changes any more. *)
Definition is_push (p : request_run) : Prop := match p with Run_push _ => True | _ => False end.
Record wedged (m : message) (l : list request_run) (q : list wsResponse) (s : conn_life) : Prop := {
  we_gone : Disconnected s = true; we_chan : sendChan s = q; we_full : length q = websocketSendBufferSize;
  we_in : inp s = In_push m false; we_runs : runs s = l; we_push : Forall is_push l;
  we_ntf : ntf s = Ntf_ended; we_out : outp s = Out_ended; we_caller : caller s = None; we_wg : wg s = 1 }.

Lemma wedged_stuck m l q s s' : goes auth s s' -> ~ wedged m l q s.
Proof.
  intros H [G E F I R P N O C W]. destruct H; try congruence;
    try (rewrite <- R, H in P; apply Forall_app in P as [_ P]; now inversion P);
    rewrite E, F in *; unfold websocketSendBufferSize in *; lia.
Qed.

Lemma wedged_step m l q s s' : conn_step auth s s' -> wedged m l q s -> wedged m l q s'.
Proof.
  intros [s0 s1 [_ H]|s0 _|s0 _|s0 m' _ _] HW; [now apply (wedged_stuck m l q) in H|pose proof HW as [G E F I R P N O C W]..].
  - constructor; look; eauto.
  - constructor; look; autorewrite with ws; eauto.
  - unfold QueueNotification_check. now rewrite G.
Qed.

Lemma wedged_for_ever m l q s s' : rtc (conn_step auth) s s' -> wedged m l q s -> wedged m l q s'.
Proof. induction 1 as [|x y z H _ IH]; [done|]. intros HW. apply IH. now apply wedged_step with x. Qed.

Lemma full_wedged made n : wedged refusal (replicate n (Run_push an_answer)) (replicate 49 (MkResponse an_answer false) ++ [MkResponse a_note true]) (full made n 49).
Proof. constructor; try done. now apply Forall_replicate. Qed.

(** A client with room for 49 requests gets there. *)
Lemma full_reached : (49 <= cap)%nat -> rtc (conn_step auth) (sending 0) (full (replicate cap an_answer ++ [refusal]) (cap - 49) 49).
Proof.
  intros HC. etransitivity; [exact (all_sending cap (le_n _))|]. etransitivity; [now apply all_wedging|].
  etransitivity; [|apply wedging_ends].
  pose proof (wedging_full (replicate cap an_answer ++ [refusal]) (cap - 49) 0 49 ltac:(unfold websocketSendBufferSize; lia)) as H.
  replace (49 + (cap - 49))%nat with cap in H by lia. exact H.
Qed.
End wedge.

(** A client that is disconnected and whose goroutines have not all returned, though none
of them can take a step. *)
Definition blocked (auth : auth_state) (s : conn_life) : Prop :=
  Disconnected s = true /\ crashed s = false /\ ~ all_ended s /\ forall s', ~ live_step auth s s'.

(** C20: with room for 49 requests at a time a client may never end, and with less it
always does, so that the bound of [ws_client_ends] is exact: the goroutines of a client
can block one another after a disconnection if and only if RPCMaxConcurrentReqs is 49
or more.  Then there is a run of a client that is disconnected, whose outHandler and
notificationQueueHandler have returned, while inHandler, in no batch, has a message to
send, and 49 requests and one notification have filled the 50 places of sendChan; all
others that were under way are to send as well.  That stays so whatever happens later:
whoever waits for the client waits for ever. *)
Theorem ws_client_wedged auth random cap c :
  newWebsocketClient random cap true true = Ok c -> (0 < cap)%nat ->
  ((49 <= cap)%nat <-> exists s, rtc (conn_step auth) (Start c) s /\ blocked auth s) /\
  ((49 <= cap)%nat -> exists s, rtc (conn_step auth) (Start c) s /\ blocked auth s /\
    forall s', rtc (conn_step auth) s s' ->
      ntf s' = Ntf_ended /\ outp s' = Out_ended /\ (exists m, inp s' = In_push m false) /\
      length (sendChan s') = 50%nat /\ length (notes (sendChan s')) = 1%nat /\
      length (runs s') = (cap - 49)%nat /\ Forall is_push (runs s') /\ WaitForShutdown_returns s' = false).
Proof.
  intros Hnew H0. assert (W : (49 <= cap)%nat -> exists s made id, s = full auth id cap made (cap - 49) 49 /\
    rtc (conn_step auth) (Start c) s /\ blocked auth s).
  { intros HC. unfold newWebsocketClient in Hnew. destruct random as [id|]; [|done]. injection Hnew as <-.
    eexists _, _, id. split; [reflexivity|]. split; [exact (full_reached auth id cap HC)|]. split_and!; try done.
    - now intros ([|] & _).
    - intros s' [_ H]. exact (wedged_stuck _ _ _ _ _ _ H (full_wedged auth id cap _ _)). }
  split; [split|].
  - intros HC. destruct (W HC) as (s & _ & _ & _ & H). now exists s.
  - intros (s & R & D & C & NE & St). destruct (decide (49 <= cap)%nat) as [|N]; [done|exfalso].
    pose proof (conn_runs_ok _ _ _ _ R (Start_ok _ _ _ _ _ Hnew)) as HO.
    destruct (conn_progress auth cap s HO D ltac:(lia)) as [HE|[s' H]]; [done|]. now apply (St s').
  - intros HC. destruct (W HC) as (s & made & id & -> & R & B). eexists. split; [exact R|]. split; [exact B|].
    intros s' R'. destruct (wedged_for_ever _ _ _ _ _ _ R' (full_wedged auth id cap made (cap - 49))) as [G E F I RR P N O C WG].
    split_and!; try done; [now exists (refusal auth id cap)|now rewrite E|now rewrite E|now rewrite RR, length_replicate|now rewrite RR|].
    unfold WaitForShutdown_returns. now rewrite WG.
Qed.

(** A client of the default size, disconnected while it waits for its first message. *)
Lemma ws_client_ends_witness : exists s',
  rtc (live_step (newRPCServer_auth sample_credentials)) (disconnect (Start (MkClient true true false 7 20 0 [] [] false))) s' /\
  (crashed s' = true \/ (all_ended s' /\ (WaitForShutdown_returns s' = true <-> inp s' <> In_returned))).
Proof.
  destruct (ws_client_ends (newRPCServer_auth sample_credentials) (Ok 7) 20 true true (MkClient true true false 7 20 0 [] [] false)
    (disconnect (Start (MkClient true true false 7 20 0 [] [] false)))) as (_ & H & s' & R & St).
  - reflexivity.
  - lia.
  - apply rtc_once, conn_disconnect. reflexivity.
  - reflexivity.
  - exists s'. split; [exact R|]. exact (H s' R St).
Defined.

(** Two notifications, of which the first is written. *)
Lemma ws_notifications_witness :
  let auth := newRPCServer_auth sample_credentials in
  let c := MkClient true true false 7 20 0 [] [] false in
  exists s, rtc (conn_step auth) (Start c) s /\ queued s = [[CJson (JInt 1)]; [CJson (JInt 2)]] /\
    notes (written s) = [[CJson (JInt 1)]] /\ notes (written s) `prefix_of` queued s /\ ntfnSentChan s = [].
Proof.
  intros auth c. set (m1 := [CJson (JInt 1)]). set (m2 := [CJson (JInt 2)]).
  eassert (R : rtc (conn_step auth) (Start c) _).
  { eapply rtc_l; [apply (conn_notify _ _ m1); reflexivity|].
    eapply rtc_l; [apply live_conn; [reflexivity|eapply caller_put; [reflexivity|cbn; unfold ntfn_capacity; lia]]|].
    eapply rtc_l; [apply live_conn; [reflexivity|eapply ntf_msg; reflexivity]|].
    eapply rtc_l; [apply live_conn; [reflexivity|eapply ntf_send; reflexivity]|].
    eapply rtc_l; [apply live_conn; [reflexivity|eapply ntf_push; [reflexivity|cbn; unfold websocketSendBufferSize; lia]]|].
    eapply rtc_l; [apply live_conn; [reflexivity|eapply out_msg; reflexivity]|].
    eapply rtc_l; [apply (conn_notify _ _ m2); reflexivity|].
    eapply rtc_l; [apply live_conn; [reflexivity|eapply out_written; reflexivity]|]. reflexivity. }
  destruct (ws_notifications auth (Ok 7) 20 true true c _ eq_refl R) as (HP & _ & _ & HS).
  eexists. split; [exact R|]. split; [reflexivity|]. split; [reflexivity|]. split; [exact HP|]. exact (HS (or_introl eq_refl)).
Defined.

(** One notification, which is written; inHandler waits for a message. *)
Lemma ws_client_flushes_witness :
  let auth := newRPCServer_auth sample_credentials in
  exists s, rtc (conn_step auth) (Start (MkClient true true false 7 1 0 [] [] false)) s /\
    notes (written s) = [[CJson JNull]] /\ notes (written s) = queued s /\ inp s = In_read /\ caller s = None /\
    forall n s', nsteps (quiet_step auth) n s s' -> (n <= 1)%nat.
Proof.
  intros auth. set (c := MkClient true true false 7 1 0 [] [] false).
  set (s := MkConn c false In_read [] Ntf_top Out_top [] [] [] [] false 3 None false [[CJson JNull]] [MkResponse [CJson JNull] true] []).
  assert (R : rtc (conn_step auth) (Start c) s).
  { eapply rtc_l; [apply (conn_notify _ _ [CJson JNull]); reflexivity|].
    eapply rtc_l; [apply live_conn; [reflexivity|eapply caller_put; [reflexivity|cbn; unfold ntfn_capacity; lia]]|].
    eapply rtc_l; [apply live_conn; [reflexivity|eapply ntf_msg; reflexivity]|].
    eapply rtc_l; [apply live_conn; [reflexivity|eapply ntf_send; reflexivity]|].
    eapply rtc_l; [apply live_conn; [reflexivity|eapply ntf_push; [reflexivity|cbn; unfold websocketSendBufferSize; lia]]|].
    eapply rtc_l; [apply live_conn; [reflexivity|eapply out_msg; reflexivity]|].
    eapply rtc_l; [apply live_conn; [reflexivity|eapply out_written; reflexivity]|].
    eapply rtc_l; [apply live_conn; [reflexivity|eapply out_report; [reflexivity|cbn; lia]]|].
    eapply rtc_l; [apply live_conn; [reflexivity|eapply ntf_sent; reflexivity]|].
    eapply rtc_l; [apply live_conn; [reflexivity|now apply in_next]|].
    apply reflexive_eq. reflexivity. }
  destruct (ws_client_flushes auth (Ok 7) 1 true true c s eq_refl ltac:(lia) R) as (HB & HF & _).
  exists s. split; [exact R|]. split; [reflexivity|]. clear R.
  destruct (HF eq_refl eq_refl s (rtc_refl _ _)) as (_ & _ & _ & _ & HN & HC & _).
  { clear HB HF. intros s'' [_ H]. split; [reflexivity|]. inversion H; cbn in *;
      first [eexists; reflexivity | discriminate | intuition discriminate | now destruct l1]. }
  split; [exact HN|]. split; [reflexivity|]. split; [exact HC|].
  exact HB.
Defined.

Lemma ws_client_wedged_witness : exists s,
  rtc (conn_step (newRPCServer_auth sample_credentials)) (Start (MkClient true true false 7 49 0 [] [] false)) s /\
  Disconnected s = true /\ length (sendChan s) = 50%nat /\ WaitForShutdown_returns s = false.
Proof.
  destruct (ws_client_wedged (newRPCServer_auth sample_credentials) (Ok 7) 49 (MkClient true true false 7 49 0 [] [] false)
    eq_refl ltac:(lia)) as [_ H].
  destruct (H ltac:(lia)) as (s & R & (D & _) & F). destruct (F s (rtc_refl _ _)) as (_ & _ & _ & L & _ & _ & _ & W). now exists s.
Defined.
