(* ===== verification/WsRefine.v ===== *)
(** * The goroutines of a websocket client against its turns

WsLife runs the goroutines of a client side by side; RpcWebsocketProps takes a turn of
inHandler and a request that it started as one step each ([ws_step]).  Every run of the
goroutines is a run of these larger steps, so what holds of them (who gets a request
executed, and how many run at a time) holds of the goroutines. *)

From Stdlib Require Import ZArith Lia List.
From Stdlib Require Import Strings.String.
From stdpp Require Import relations.
From S2P Require Import Prelude WireFormat JsonTypes AcbcJson AcbcJsonProps AcbcJsonCmds RpcAuth RpcServer RpcServerProps.
From S2P Require Import RpcWebsocket RpcWebsocketProps WsLife.

#[local] Open Scope list_scope.
#[local] Set Warnings "-register-all".

#[local] Opaque the_registry.

(** ** A turn does not depend on what was sent and started before *)

(** Two clients with the same rights. *)
Definition same_rights (c c0 : wsClient) : Prop := authenticated c = authenticated c0 /\ isAdmin c = isAdmin c0.

(** A turn of [c0], as one of [c]. *)
Record like (c c0 c' c0' : wsClient) : Prop := {
  lk_rights : same_rights c' c0'; lk_cap : sem_cap c' = sem_cap c; lk_gone : disconnected c' = disconnected c;
  lk_sem : sem c = sem c0 -> sem c' = sem c0'; lk_jobs : jobs c0 = [] -> jobs c' = jobs c ++ jobs c0' }.

Lemma like_refl c c0 : same_rights c c0 -> like c c0 c c0.
Proof. intros H. constructor; auto. intros ->. now rewrite app_nil_r. Qed.
Lemma like_send r c c0 : same_rights c c0 -> like c c0 (send_reply r c) (send_reply r c0).
Proof.
  intros [H1 H2]. unfold send_reply, SendMessage. destruct r; [|now apply like_refl].
  destruct (disconnected c) eqn:D1, (disconnected c0) eqn:D2; (constructor; [split; assumption|..]); cbn; auto;
    intros ->; now rewrite app_nil_r.
Qed.

Lemma in_single_like auth doc c c0 t c0' : same_rights c c0 -> in_single auth doc c0 = Ok (t, c0') ->
  exists c', in_single auth doc c = Ok (t, c') /\ like c c0 c' c0'.
Proof.
  intros HS. pose proof HS as [HA HD]. unfold in_single.
  destruct (match doc with Ok j => _ | Err e => _ end) as [[e|] req].
  { rewrite HA. destruct (negb _); intros [= <- <-]; eexists; (split; [reflexivity|]); [now apply like_refl|now apply like_send]. }
  destruct (_ || _); [intros [= <- <-]; eexists; (split; [reflexivity|]); now apply like_send|].
  destruct (parseCmd_ok req) as [cmd Hcmd]. rewrite Hcmd. cbn [mbind result_bind].
  rewrite HA, HD, (check_auth_parsed auth (authenticated c0) req cmd Hcmd). clear Hcmd.
  destruct (authenticated c0), (p_err cmd), (isAdmin c0), (bool_decide (Method req ∈ rpcLimited)), (ID req); cbn [negb andb];
    (intros [= <- <-]; eexists; (split; [reflexivity|])); (apply like_refl, HS) || (apply like_send, HS) || (constructor; cbn; auto; now intros ->).
Qed.

(** A batch changes nothing but the semaphore and the queue of messages. *)
Lemma ws_entry_same auth e c c0 : same_rights c c0 ->
  ws_entry auth e c = match ws_entry auth e c0 with Ok (r, _) => Ok (r, c) | Err p => Err p end.
Proof.
  intros [HA HD]. unfold ws_entry, ws_entry_request, json_Marshal. destruct (UnmarshalRequest e) as [[err|] req]; [rewrite HA; now destruct (negb _)|].
  destruct (_ || _); [done|]. destruct (parseCmd_ok req) as [cmd Hcmd]. rewrite Hcmd. cbn [mbind result_bind].
  rewrite HA, HD, (check_auth_parsed auth (authenticated c0) req cmd Hcmd). clear Hcmd.
  destruct (p_err cmd); [destruct (ID req), (authenticated c0); reflexivity|].
  destruct (authenticated c0); [|destruct (ID req); reflexivity].
  destruct (isAdmin c0), (bool_decide (Method req ∈ rpcLimited)); cbn [negb andb]; [..|destruct (ID req); reflexivity];
    (destruct (command_result cmd) as [x|]; cbn [mbind result_bind];
     [destruct (createMarshalledReply (p_jsonrpc cmd) (p_id cmd) x.1 x.2)|]; destruct (ID req); reflexivity).
Qed.

Lemma ws_entries_same auth es c c0 : same_rights c c0 -> forall results,
  ws_entries auth es results c = match ws_entries auth es results c0 with Ok (r, _) => Ok (r, c) | Err p => Err p end.
Proof.
  intros HS. induction es as [|e es IH]; intros results; cbn [ws_entries]; [done|]. rewrite (ws_entry_same auth e c c0 HS).
  destruct (ws_entry auth e c0) as [[r c1]|] eqn:E; cbn [mbind result_bind]; [|done].
  apply ws_entry_client in E as ->. destruct r; [done|apply IH].
Qed.

Lemma like_finish n l c c0 : same_rights c c0 ->
  like c c0 (finish_batch n l (acquire c)).2 (finish_batch n l (acquire c0)).2.
Proof.
  intros [H1 H2]. unfold finish_batch, SendMessage, release, acquire. cbn.
  destruct (disconnected c) eqn:D1, (disconnected c0) eqn:D2; (constructor; [split; assumption|..]); cbn; auto; intros ->; now rewrite app_nil_r.
Qed.
Lemma like_acquire c c0 : same_rights c c0 -> like c c0 (acquire c) (acquire c0).
Proof. intros [H1 H2]. constructor; [split; assumption|..]; cbn; auto. intros ->. now rewrite app_nil_r. Qed.

Lemma in_batch_like auth err es c c0 t c0' : same_rights c c0 -> in_batch auth err es c0 = Ok (t, c0') ->
  exists c', in_batch auth err es c = Ok (t, c') /\ like c c0 c' c0'.
Proof.
  intros HS. pose proof HS as [HA HD]. unfold in_batch. change (authenticated (acquire c)) with (authenticated c).
  change (authenticated (acquire c0)) with (authenticated c0). rewrite HA.
  assert (HF : forall n l, Ok (finish_batch n l (acquire c0)) = @Ok panic _ (t, c0') ->
    exists c', Ok (finish_batch n l (acquire c)) = @Ok panic _ (t, c') /\ like c c0 c' c0').
  { intros n l E. pose proof (like_finish n l c c0 HS) as HL. exists (finish_batch n l (acquire c)).2. injection E as <- <-. split; [reflexivity|exact HL]. }
  assert (HB : forall t1, Ok (t1, acquire c0) = @Ok panic _ (t, c0') -> exists c', Ok (t1, acquire c) = @Ok panic _ (t, c') /\ like c c0 c' c0').
  { intros t1 [= <- <-]. eexists. split; [reflexivity|]. now apply like_acquire. }
  destruct (match err with Some _ => _ | None => _ end) as [[[] results]|]; [apply HF| |apply HB].
  destruct es as [|e es]; [destruct (negb _); [apply HB|apply HF]|].
  rewrite (ws_entries_same auth (e :: es) (acquire c) (acquire c0)) by done.
  destruct (ws_entries auth (e :: es) results (acquire c0)) as [[r c1]|] eqn:E; cbn [mbind result_bind]; [|done].
  apply ws_entries_client in E as ->. destruct r; [apply HF|apply HB|apply HB].
Qed.

(** What in_message does with a message, from what the turn does on a copy. *)
Lemma run_turn_message auth b c c0 t c0' : same_rights c c0 -> disconnected c = false -> run_turn auth b c0 = Ok (t, c0') ->
  exists c', RpcWebsocket.in_message auth (Some b) c = Ok (t, match t with Break => leave c' | _ => c' end) /\ like c (alone c0) c' c0'.
Proof.
  intros HS HD H. unfold RpcWebsocket.in_message. rewrite HD.
  assert (HX : exists c', match b with SingleBody doc => in_single auth doc c | BatchBody err entries => in_batch auth err entries c end = Ok (t, c') /\
    like c (alone c0) c' c0').
  { destruct b; cbn [run_turn] in H; [eapply in_single_like|eapply in_batch_like]; eassumption || exact HS. }
  destruct HX as (c' & -> & HL). exists c'. split; [now destruct t|done].
Qed.

(** ** The goroutines and the turns *)

(** A request that was served has a result. *)
Definition served (p : request_run) (r : parsedRPCCmd) : Prop :=
  match p with Run_serve r' => r' = r | _ => exists x, command_result r = Ok x end.

Record related (s : conn_life) (st : wsClient * bool) : Prop := {
  re_rights : same_rights st.1 (cli s); re_cap : sem_cap st.1 = sem_cap (cli s);
  re_sem : sem (cli s) = (sem st.1 + holds (inp s))%nat; re_jobs : Forall2 served (runs s) (jobs st.1);
  re_running : st.2 = goes_on (inp s); re_connected : st.2 = true -> disconnected st.1 = false }.

Lemma related_same s s' st : related s st -> same_rights (cli s) (cli s') -> sem_cap (cli s') = sem_cap (cli s) ->
  (sem (cli s') + holds (inp s) = sem (cli s) + holds (inp s'))%nat -> (forall l, Forall2 served (runs s) l -> Forall2 served (runs s') l) ->
  goes_on (inp s') = goes_on (inp s) -> related s' st.
Proof.
  intros [[R1 R2] C S J G D] [S1 S2] HC HS HJ HG. constructor; auto; [split; congruence|congruence|lia|congruence].
Qed.

Lemma served_service r x : command_result r = Ok x -> forall c1, exists c1', serviceRequest r c1 = Ok c1' /\
  frame c1 c1' /\ jobs c1' = jobs c1 /\ sem c1' = sem c1 /\ disconnected c1' = disconnected c1.
Proof.
  intros E c1. unfold serviceRequest. rewrite E. cbn [mbind result_bind].
  destruct (createMarshalledReply _ _ _ _) as [reply|]; eexists; (split; [reflexivity|]).
  - destruct (send_frame [CJson reply] c1) as (F & J & S). split_and!; try done. unfold SendMessage. now destruct (disconnected c1) eqn:D.
  - split_and!; done.
Qed.

#[local] Arguments leave : simpl never.

Section simulation.
Context (auth : auth_state).

Lemma turn_followed cap s b t c' st : sem_ok cap s -> inp s = In_got b -> run_turn auth b (cli s) = Ok (t, c') -> room b (cli s) c' ->
  related s st -> exists st', ws_step auth st st' /\ related (turn_goes b t c' s) st'.
Proof.
  intros HS HI HT HR [HRi C SE J G D]. rewrite HI in *. cbn in G, SE. destruct st as [c running]. cbn [fst snd] in *. subst running. specialize (D eq_refl).
  destruct (run_turn_message auth b c (cli s) t c' HRi D HT) as (c1 & HM & [L1 L2 L3 L4 L5]).
  rewrite Nat.add_0_r in SE. specialize (L4 (eq_sym SE)). specialize (L5 eq_refl).
  pose proof (run_turn_client _ _ _ _ _ HT) as (RT & FC & RJ).
  assert (BS : is_batch b = true -> sem c' = match t with Continue => sem (cli s) | _ => S (sem (cli s)) end).
  { intros EB. destruct b as [|err es]; [done|]. now apply in_batch_frame in HT as (_ & _ & ?). }
  assert (HL : forall c, sem (leave c) = sem c /\ sem_cap (leave c) = sem_cap c /\ jobs (leave c) = jobs c /\ authenticated (leave c) = authenticated c
    /\ isAdmin (leave c) = isAdmin c) by (intros c2; unfold leave, Disconnect; now destruct (disconnected c2)).
  destruct (HL c1) as (K1 & K2 & K3 & K4 & K5).
  exists (match t with Break => leave c1 | _ => c1 end, match t with Continue => true | _ => false end). split.
  - apply (ws_turn auth (Some b) c t _ HM). unfold room in HR. unfold has_room.
    destruct b; cbn [is_batch] in HR; [|lia]. destruct t; rewrite ?K1; lia.
  - destruct L1 as [L1 L1']. constructor; unfold turn_goes; cbn.
    + destruct t; split; cbn; congruence.
    + destruct t; congruence.
    + destruct t; rewrite ?K1, L4; [|destruct (is_batch b); [rewrite BS by done|]; cbn; lia..].
      destruct (is_batch b); [rewrite BS by done|]; destruct (sendq c'); cbn; lia.
    + replace (jobs match t with Break => leave c1 | _ => c1 end) with (jobs c ++ jobs c') by (destruct t; congruence).
      apply Forall2_app; [exact J|]. apply Forall2_fmap_l, Forall_Forall2_diag, Forall_true. done.
    + destruct t; [|done..]. destruct (sendq c'), (is_batch b); done.
    + destruct t; [|done..]. intros _. congruence.
Qed.

(** inHandler ends without a message. *)
Lemma quit_followed cap s st : sem_ok cap s -> goes_on (inp s) = true -> holds (inp s) = 0%nat -> related s st ->
  exists st', ws_step auth st st' /\ related (with_inp In_leave s) st'.
Proof.
  intros HS HI HH [HRi C SE J G D]. destruct st as [c running]. cbn [fst snd] in *. rewrite G in *. specialize (D HI). rewrite HH in SE.
  destruct (leave_frame c) as (K1 & K2 & K3 & K4 & _). exists (leave c, false). split.
  - rewrite HI. apply (ws_turn auth None c Break (leave c)); [unfold RpcWebsocket.in_message; now rewrite D|].
    cbn. rewrite K3, C, (so_cap _ _ HS). pose proof (so_held _ _ HS). lia.
  - assert (K5 : isAdmin (leave c) = isAdmin c) by (unfold leave, Disconnect; now destruct (disconnected c)).
    destruct HRi as [R1 R2]. constructor; cbn; try done; [split; congruence|congruence|lia|now rewrite K2].
Qed.

(** A request is done. *)
Lemma release_followed cap s l1 l2 st : sem_ok cap s -> runs s = l1 ++ Run_release :: l2 -> related s st ->
  exists st', ws_step auth st st' /\ related (with_runs (l1 ++ l2) (with_cli (release (cli s)) s)) st'.
Proof.
  intros HO E [HRi C SE J G D]. pose proof (so_held _ _ HO) as HH. rewrite E, length_app in HH. destruct st as [c running]. cbn [fst snd] in *. rewrite E in J.
  apply Forall2_app_inv_l in J as (k1 & k' & J1 & J2 & EJ). apply Forall2_cons_inv_l in J2 as (r & k2 & Hr & J2 & ->).
  cbn in Hr. destruct Hr as [x Hx].
  destruct (served_service r x Hx (set_jobs (delete (length k1) (jobs c)) c)) as (c1 & HS & [F1 F2 F3] & HJ & HSem & HD).
  assert (EL : jobs c !! length k1 = Some r) by (rewrite EJ; now apply list_lookup_middle).
  assert (ED : delete (length k1) (jobs c) = k1 ++ k2) by (rewrite EJ; apply delete_middle).
  exists (release c1, running). split.
  - eapply ws_service with (i := length k1). unfold service_step. rewrite EL, HS. reflexivity.
  - cbn in *. destruct HRi as [R1 R2]. constructor; cbn; try done.
    + split; cbn; congruence.
    + congruence.
    + rewrite HSem, SE. apply (f_equal length) in EJ. rewrite length_app in EJ. pose proof (Forall2_length _ _ _ J1). cbn in *. lia.
    + rewrite HJ, ED. now apply Forall2_app.
    + intros Hr. rewrite HD. auto.
Qed.

Lemma rights_refl c : same_rights c c.
Proof. done. Qed.
Lemma rights_disconnect c : same_rights c (Disconnect c).
Proof. unfold Disconnect. now destruct (disconnected c). Qed.
Lemma stutter s s' st : related s st -> related s' st -> exists st', rtc (ws_step auth) st st' /\ related s' st'.
Proof. intros _ H. now exists st. Qed.
Lemma one_step s' st : (exists st', ws_step auth st st' /\ related s' st') -> exists st', rtc (ws_step auth) st st' /\ related s' st'.
Proof. intros (st' & H & R). exists st'. split; [now apply rtc_once|done]. Qed.

Lemma served_replace l1 l2 p q l : (forall r, served p r -> served q r) -> Forall2 served (l1 ++ p :: l2) l -> Forall2 served (l1 ++ q :: l2) l.
Proof.
  intros H (k1 & k' & J1 & J2 & ->)%Forall2_app_inv_l. apply Forall2_cons_inv_l in J2 as (r & k2 & Hr & J2 & ->).
  apply Forall2_app; [done|]. constructor; auto.
Qed.
Lemma serve_served r c p : serve r c = Ok p -> forall r', served (Run_serve r) r' -> served p r'.
Proof.
  unfold serve, serviceRequest. destruct (command_result r) as [x|] eqn:E; [|done]. cbn [mbind result_bind]. intros H r' ->.
  destruct (createMarshalledReply _ _ _ _) as [reply|]; cbn in H; injection H as <-; cbn; eauto.
Qed.

Lemma conn_goes_followed cap s s' st : goes auth s s' -> sem_ok cap s -> related s st ->
  exists st', rtc (ws_step auth) st st' /\ related s' st'.
Proof.
  intros H HO HR. destruct H; try (apply one_step; solve [eapply quit_followed; [exact HO|now rewrite H|now rewrite H|exact HR] |
     eapply turn_followed; eassumption | eapply release_followed; eassumption]).
  all: apply (stutter s); [exact HR|].
  all: try (eapply related_same; [exact HR|..]; cbn; rewrite ?H; try done; fail).
  - destruct (Disconnected s); [destruct held|]; (eapply related_same; [exact HR|..]; cbn; rewrite ?H; done).
  - destruct held; (eapply related_same; [exact HR|..]; cbn; rewrite ?H; done).
  - eapply related_same; [exact HR|..]; cbn; rewrite ?H; try done. cbn. lia.
  - eapply related_same; [exact HR|apply rights_disconnect|apply Disconnect_cap|..]; cbn; rewrite ?H, ?Disconnect_sem; done.
  - eapply related_same; [exact HR|..]; cbn; try done. intros l. rewrite H. apply served_replace. eapply serve_served, H0.
  - eapply related_same; [exact HR|..]; cbn; try done. intros l. rewrite H. apply served_replace. intros r. now destruct (Disconnected s).
  - eapply related_same; [exact HR|..]; cbn; try done. intros l. rewrite H. now apply served_replace.
  - unfold ntf_queue. cbn. destruct (waiting s); (eapply related_same; [exact HR|..]; done).
  - unfold ntf_next. cbn. destruct (pendingNtfns s); (eapply related_same; [exact HR|..]; done).
  - eapply related_same; [exact HR|apply rights_disconnect|apply Disconnect_cap|..]; cbn; rewrite ?Disconnect_sem; done.
Qed.

Lemma conn_step_followed cap s s' st : conn_step auth s s' -> sem_ok cap s -> related s st ->
  exists st', rtc (ws_step auth) st st' /\ related s' st'.
Proof.
  intros H HO HR. revert HO HR. destruct H as [s s' [_ H]|s _|s _|s m _ _]; intros HO HR; [now apply (conn_goes_followed cap s)|..].
  - exists st. split; [done|]. eapply related_same; [exact HR|..]; done.
  - exists st. split; [done|]. eapply related_same; [exact HR|apply rights_disconnect|apply Disconnect_cap|..]; cbn; rewrite ?Disconnect_sem; done.
  - exists st. split; [done|]. unfold QueueNotification_check. destruct (Disconnected s); [done|]. eapply related_same; [exact HR|..]; done.
Qed.

Lemma conn_runs_followed cap s s' st : rtc (conn_step auth) s s' -> conn_ok cap s -> related s st ->
  exists st', rtc (ws_step auth) st st' /\ related s' st'.
Proof.
  intros H. revert st. induction H as [s|s s1 s' H _ IH]; intros st HO HR; [now exists st|].
  destruct (conn_step_followed cap _ _ _ H (ok_sem _ _ HO) HR) as (st1 & R1 & HR1).
  destruct (IH st1 (conn_step_ok _ _ _ _ H HO) HR1) as (st2 & R2 & HR2). exists st2. split; [etransitivity; eassumption|done].
Qed.

(** C10: the goroutines of a websocket client keep the limits of its turns.  However
inHandler, the requests it started, outHandler, notificationQueueHandler and the rest
interleave, there is a run of whole turns and whole requests ([ws_step]) that ends with
the same rights, the same requests and the same places taken.  So at most
RPCMaxConcurrentReqs requests are under way at any time, each one that is not served yet
is for a method that the rights of the client allow, the rights never change, and a
client that connected without authentication never has a request under way. *)
Theorem ws_client_refines random cap a adm c0 s :
  newWebsocketClient random cap a adm = Ok c0 -> rtc (conn_step auth) (Start c0) s ->
  (exists c running, rtc (ws_step auth) (c0, true) (c, running) /\ running = goes_on (inp s) /\
     sem (cli s) = (sem c + holds (inp s))%nat /\ Forall2 served (runs s) (jobs c)) /\
  (length (runs s) <= cap)%nat /\ (sem (cli s) <= cap)%nat /\
  authenticated (cli s) = a /\ isAdmin (cli s) = adm /\ (a = false -> runs s = []) /\
  Forall (fun p => match p with Run_serve r => job_ok adm r | _ => True end) (runs s).
Proof.
  intros Hnew HR. pose proof (Start_ok _ _ _ _ _ Hnew) as HO.
  assert (H0 : related (Start c0) (c0, true)).
  { unfold newWebsocketClient in Hnew. destruct random as [id|]; [|done]. injection Hnew as <-. constructor; done. }
  destruct (conn_runs_followed cap _ _ _ HR HO H0) as ([c running] & R & [[RA RD] C SE J G D]).
  pose proof (ws_runs_inv _ _ _ _ _ _ _ Hnew R) as [IA ID IC IS _ IJ IX]. cbn [fst snd] in *.
  pose proof (so_held _ _ (ok_sem _ _ (conn_runs_ok _ _ _ _ HR HO))) as HH. split_and!.
  - exists c, running. auto.
  - lia.
  - lia.
  - congruence.
  - congruence.
  - intros Ha. rewrite (IX Ha) in J. now apply Forall2_nil_inv_r in J.
  - apply Forall_lookup. intros i p Hi. destruct (Forall2_lookup_l _ _ _ _ _ J Hi) as (r & Hr & HS).
    destruct p; try done. cbn in HS. subst. eapply Forall_lookup_1; eassumption.
Qed.
End simulation.

(** A limited client with one request under way. *)
Lemma ws_client_refines_witness :
  let auth := newRPCServer_auth sample_credentials in
  let msg := request_json (MkRequest "1.0" "getblockhash" (Some [JInt 1]) (JInt 1)) in
  exists s, rtc (conn_step auth) (Start (MkClient true false false 7 20 0 [] [] false)) s /\ length (runs s) = 1%nat /\
    (sem (cli s) <= 20)%nat /\ Forall (fun p => match p with Run_serve r => job_ok false r | _ => True end) (runs s).
Proof.
  intros auth msg.
  eassert (R : rtc (conn_step auth) (Start (MkClient true false false 7 20 0 [] [] false)) _).
  { eapply rtc_l; [apply conn_own; split; [reflexivity|now apply in_next]|].
    eapply rtc_l; [apply conn_own; split; [reflexivity|apply (in_message _ _ (SingleBody (Ok msg))); reflexivity]|].
    eapply rtc_l; [apply conn_own; split; [reflexivity|eapply in_turn; [reflexivity|vm_compute; reflexivity|vm_compute; lia]]|]. reflexivity. }
  destruct (ws_client_refines auth (Ok 7) 20 true false _ _ eq_refl R) as (_ & _ & HS & _ & _ & _ & HF).
  eexists. split; [exact R|]. split; [reflexivity|]. split; [exact HS|exact HF].
Defined.
