(* ===== verification/WsAnswers.v ===== *)
(** * What a websocket client is answered (rpcwebsocket.go)

A request that is sent over a websocket gets the answer that processRequest, the HTTP
side, gives to the same request, or none.  For a client that is logged in, and sends
single well-formed requests, every message on its way to the connection is such an
answer or a notification, wherever its goroutines are. *)

From Stdlib Require Import ZArith Lia List.
From Stdlib Require Import Strings.String.
From stdpp Require Import relations.
From S2P Require Import Prelude WireFormat JsonTypes AcbcJson AcbcJsonProps AcbcJsonCmds RpcAuth RpcServer RpcServerProps.
From S2P Require Import RpcWebsocket RpcWebsocketProps WsLife.

#[local] Open Scope list_scope.
#[local] Set Warnings "-register-all".

#[local] Opaque the_registry.

(** ** One request *)

(** The requests of a client: with a method, parameters and a number as the id. *)
Definition plain (req : Request) : Prop :=
  Method req <> ""%string /\ (exists ps, Params req = Some ps) /\ exists id, ID req = JInt id.

(** The answer that processRequest gives an administrator. *)
Definition answers (req : Request) (reply : json) : Prop := processRequest req true = Ok (Some reply).

Lemma plain_read req : plain req -> UnmarshalRequest (request_json req) = (None, req).
Proof. intros (_ & [ps E] & _). destruct req as [v m p i]. cbn in E. subst p. reflexivity. Qed.
Lemma plain_well_formed req : plain req -> is_malformed req = false /\ is_null (ID req) = false.
Proof.
  intros (M & [ps E] & [id I]). unfold is_malformed. rewrite E, I. split; [|done].
  now rewrite bool_decide_eq_false_2.
Qed.

(** A method that is executed and is not getblockhash has no handler. *)
Lemma standardCmdResult_no_other p res msg : standardCmdResult p <> Ok (res, Some (GOther msg)).
Proof.
  unfold standardCmdResult, rpcHandlers. destruct (decide (p_method p = "getblockhash"%string)) as [->|Hne].
  - rewrite lookup_singleton_eq. generalize (p_cmd p). intros cmd. unfold handleGetBlockHash. repeat case_match; congruence.
  - rewrite lookup_singleton_ne by congruence. unfold handleAskWallet, handleUnimplemented. repeat case_match; congruence.
Qed.

(** The command of a request that may be executed, and what it is answered with. *)
Definition job_of (adm : bool) (req : Request) (cmd : parsedRPCCmd) : Prop :=
  parseCmd req = Ok cmd /\ p_err cmd = None /\ (adm = true \/ Method req ∈ rpcLimited).

Lemma job_answers adm req cmd c p : plain req -> job_of adm req cmd -> serve cmd c = Ok p ->
  p = Run_release \/ exists reply, p = Run_send [CJson reply] /\ answers req reply.
Proof.
  intros HP (HC & HE & HL) H. destruct (plain_well_formed _ HP) as [HM HN]. unfold serve, serviceRequest, command_result in H.
  replace (wsHandlers !! p_method cmd) with (@None commandHandler) in H by (symmetry; apply lookup_empty).
  destruct (standardCmdResult cmd) as [[res e]|] eqn:ES; [|discriminate]. cbn [mbind result_bind fst snd] in H.
  destruct (createMarshalledReply _ _ _ _) as [reply|] eqn:ER; [|left; cbn in H; congruence]. right. exists reply.
  cbn in H. split; [congruence|]. unfold answers. rewrite processRequest_eq, HM, HN.
  cbn [negb andb].
  rewrite parseCmd_spec in HC. destruct (UnmarshalCmd the_registry req); injection HC as <-; [|discriminate HE].
  rewrite ES. cbn [mbind result_bind fst snd p_jsonrpc p_id] in *.
  destruct e as [[e|msg]|]; [|now destruct (standardCmdResult_no_other _ _ _ ES)|]; now rewrite ER.
Qed.

(** A turn with such a request: it is answered at once, or started, or dropped. *)
Lemma turn_answers auth c req t c' : plain req -> authenticated c = true -> run_turn auth (SingleBody (Ok (request_json req))) c = Ok (t, c') ->
  authenticated c' = true /\ isAdmin c' = isAdmin c /\
  (sendq c' = [] \/ exists reply, sendq c' = [[CJson reply]] /\ answers req reply) /\
  (jobs c' = [] \/ exists cmd, jobs c' = [cmd] /\ job_of (isAdmin c) req cmd).
Proof.
  intros HP HA. destruct (plain_well_formed _ HP) as [HM HN]. pose proof HP as (_ & _ & [id HI]).
  cbn [run_turn]. unfold in_single. rewrite plain_read by done. fold (is_malformed req). rewrite HM, HI.
  destruct (parseCmd_ok req) as [cmd Hcmd]. rewrite Hcmd. cbn [mbind result_bind].
  change (authenticated (alone c)) with (authenticated c). change (isAdmin (alone c)) with (isAdmin c).
  rewrite (check_auth_parsed auth _ req cmd Hcmd), HA. cbn [negb].
  destruct (p_err cmd) as [e|] eqn:EP.
  - intros [= <- <-]. rewrite parseCmd_spec in Hcmd.
    destruct (createMarshalledReply _ _ _ _) as [reply|] eqn:ER; cbn [send_reply]; [|split_and!; auto].
    unfold SendMessage. cbn. split_and!; auto. right. exists reply. split; [done|]. unfold answers.
    rewrite processRequest_eq, HM. cbn [negb andb]. unfold error_reply. rewrite HI. cbn [is_null].
    destruct (UnmarshalCmd the_registry req) as [|[code desc|]]; injection Hcmd as <-; [discriminate EP|..]; injection EP as <-;
      unfold createMarshalledReply in ER; cbn [p_jsonrpc p_id] in ER; rewrite HI in ER; unfold NewRPCError in ER; [destruct code|]; cbn in *; now rewrite ER.
  - destruct (_ && _) eqn:EL.
    + unfold createMarshalledReply, MarshalResponse. cbn. intros [= <- <-]. split_and!; auto.
    + intros [= <- <-]. cbn. split_and!; auto. right. exists cmd. split; [done|]. split_and!; [done..|].
      apply andb_false_iff in EL as [EL|EL]; apply negb_false_iff in EL; [now left|right]. now apply bool_decide_eq_true in EL.
Qed.

(** ** On the way to the connection *)

Section carries.
Context (auth : auth_state) (adm : bool) (note : message -> Prop).

(** A notification, or the answer to one of the requests. *)
Definition owed (Req : Request -> Prop) (m : message) : Prop :=
  note m \/ exists req reply, Req req /\ answers req reply /\ m = [CJson reply].

Definition inp_owed (Req : Request -> Prop) (i : input) : Prop :=
  match i with
  | In_got b => exists req, Req req /\ b = SingleBody (Ok (request_json req))
  | In_send m _ | In_push m _ => owed Req m
  | _ => True
  end.
Definition run_owed (Req : Request -> Prop) (p : request_run) : Prop :=
  match p with
  | Run_serve cmd => exists req, Req req /\ job_of adm req cmd
  | Run_send m | Run_push m => owed Req m
  | Run_release => True
  end.
Definition ntf_owed (Req : Request -> Prop) (n : notifier) : Prop :=
  match n with Ntf_send m | Ntf_push m => owed Req m | _ => True end.
Definition out_owed (Req : Request -> Prop) (o : output) : Prop :=
  match o with Out_write r => owed Req (r_msg r) | _ => True end.

(** The client is logged in, and carries what it owes. *)
Record carries (Req : Request -> Prop) (s : conn_life) : Prop := {
  ca_rights : authenticated (cli s) = true /\ isAdmin (cli s) = adm;
  ca_inp : inp_owed Req (inp s); ca_runs : Forall (run_owed Req) (runs s);
  ca_ntf : ntf_owed Req (ntf s); ca_out : out_owed Req (outp s);
  ca_send : Forall (fun r => owed Req (r_msg r)) (sendChan s);
  ca_notes : Forall (owed Req) (ntfnChan s ++ pendingNtfns s ++ option_list (caller s));
  ca_written : Forall (fun r => owed Req (r_msg r)) (written s) }.

Lemma Start_carries Req c : authenticated c = true -> isAdmin c = adm -> carries Req (Start c).
Proof. intros. constructor; cbn; auto. Qed.

Lemma owed_mono (R1 R2 : Request -> Prop) m : (forall r, R1 r -> R2 r) -> owed R1 m -> owed R2 m.
Proof. intros H [N|(req & reply & A & B)]; [now left|right]. exists req, reply. auto. Qed.

Lemma carries_mono (R1 R2 : Request -> Prop) s : (forall r, R1 r -> R2 r) -> carries R1 s -> carries R2 s.
Proof.
  intros H []. assert (HO := fun m => owed_mono R1 R2 m H). constructor; try done.
  - destruct (inp s); cbn in *; auto. destruct ca_inp0 as (q & A & B). eauto.
  - eapply Forall_impl; [exact ca_runs0|]. intros [] G; cbn in *; auto. destruct G as (q & A & B). eauto.
  - destruct (ntf s); cbn in *; auto.
  - destruct (outp s); cbn in *; auto.
  - eapply Forall_impl; [exact ca_send0|]. auto.
  - eapply Forall_impl; [exact ca_notes0|]. auto.
  - eapply Forall_impl; [exact ca_written0|]. auto.
Qed.

(** A step of the client that is not the arrival of a message. *)
Lemma goes_carries Req s s' : (forall r, Req r -> plain r) -> goes auth s s' -> ~ reads s s' -> carries Req s -> carries Req s'.
Proof.
  intros HP H HN [[A B] C D E F G I J].
  destruct H; repeat match goal with E : inp _ = _ |- _ => rewrite E in * | E : ntf _ = _ |- _ => rewrite E in *
    | E : outp _ = _ |- _ => rewrite E in * | E : runs _ = _ |- _ => rewrite E in * | E : sendChan _ = _ |- _ => rewrite E in *
    | E : ntfnChan _ = _ |- _ => rewrite E in * | E : caller _ = _ |- _ => rewrite E in * end.
  (* the arrival of a message, and a turn *)
  4: { destruct HN. split; [done|]. now exists b. }
  4: { destruct C as (req & Hreq & ->). destruct (turn_answers _ _ _ _ _ (HP _ Hreq) A H0) as (T1 & T2 & T3 & T4).
       unfold turn_goes. cbn [is_batch]. constructor; cbn; auto; [split; [done|congruence]| |].
       - destruct T3 as [-> | (reply & -> & HR)]; destruct t; cbn; try done. right. eauto.
       - rewrite Forall_app. split; [done|]. destruct T4 as [-> | (cmd & -> & HJ)]; cbn; [constructor|]. constructor; [|done].
         exists req. rewrite <- B. eauto. }
  (* a request is served *)
  10: { apply Forall_app in D as [D1 D2]. apply Forall_cons in D2 as [(req & Hreq & HJ) D2].
        constructor; cbn; auto. rewrite Forall_app, Forall_cons. split_and!; auto.
        destruct (job_answers _ _ _ _ _ (HP _ Hreq) HJ H0) as [-> | (reply & -> & HR)]; cbn; [done|]. right. eauto. }
  all: unfold disconnect, ntf_queue, ntf_next, Disconnect, after_send, crash in *;
    repeat match goal with |- context [if ?b then _ else _] => destruct b eqn:? | |- context [match ?l with [] => _ | _ => _ end] => destruct l eqn:? end.
  all: constructor; cbn in *; repeat match goal with
    | E : inp ?x = _ |- context [inp ?x] => rewrite E | E : runs ?x = _ |- context [runs ?x] => rewrite E
    | E : ntf ?x = _ |- context [ntf ?x] => rewrite E | E : outp ?x = _ |- context [outp ?x] => rewrite E
    | E : sendChan ?x = _ |- context [sendChan ?x] => rewrite E | E : ntfnChan ?x = _ |- context [ntfnChan ?x] => rewrite E
    | E : pendingNtfns ?x = _, G : context [pendingNtfns ?x] |- _ => rewrite E in G end;
    rewrite ?Forall_app, ?Forall_cons, ?app_nil_r in *; cbn in *; rewrite ?Forall_app, ?Forall_cons in *; intuition auto.
Qed.

(** What happens to it from outside. *)
Lemma disconnect_carries Req s : carries Req s -> carries Req (disconnect s).
Proof. intros [[A B] ? ? ? ? ? ? ?]. unfold disconnect, Disconnect. constructor; cbn; auto. destruct (disconnected (cli s)); cbn; auto. Qed.
Lemma break_carries Req s : carries Req s -> carries Req (break_conn s).
Proof. now intros []. Qed.
Lemma notify_carries Req m s : note m -> caller s = None -> carries Req s -> carries Req (QueueNotification_check m s).
Proof.
  intros HN HC []. unfold QueueNotification_check. rewrite HC in *. destruct (Disconnected s); [now constructor; rewrite ?HC|].
  constructor; cbn; auto. cbn in ca_notes0. rewrite !Forall_app in *. intuition auto. constructor; [now left|constructor].
Qed.
Lemma message_carries (Req : Request -> Prop) req s : Req req -> carries Req s -> carries Req (with_inp (In_got (SingleBody (Ok (request_json req)))) s).
Proof. intros HR []. constructor; cbn; eauto. Qed.
End carries.
