(* ===== verification/RpcServerLife.v ===== *)
(** * The life of the RPC server (rpcserver.go, rpcwebsocket.go)

The goroutines of the server beside those of its HTTP requests: the listeners, the two
goroutines of the notification manager, one WebsocketHandler for every websocket, the
clients with their own goroutines (WsLife), and the caller of Stop.  Unbuffered channels
are steps of sender and receiver together. *)

From Stdlib Require Import ZArith Lia List.
From Stdlib Require Import Strings.String.
From stdpp Require Import relations.
From S2P Require Import Prelude WireFormat JsonTypes AcbcJson AcbcJsonCmds RpcAuth RpcServer RpcServerProps RpcHttp.
From S2P Require Import RpcWebsocket RpcWebsocketProps RpcNotify WsLife.

#[local] Open Scope list_scope.
#[local] Set Warnings "-register-all".

(** ** The goroutines *)

(** WebsocketHandler: NumClients, newWebsocketClient, AddClient, Start, WaitForShutdown,
RemoveClient.  A client is known by its number. *)
Inductive handler :=
  | H_limit (a adm : bool) | H_new (a adm : bool) | H_add (i : nat) | H_start (i : nat) | H_wait (i : nat)
  | H_remove (i : nat) | H_done.

(** queueHandler of the manager, and notificationHandler: [N_leaving] are the clients
that it has still to disconnect. *)
Inductive queuer := Q_runs | Q_stopped | Q_ended.
Inductive notified := N_loop | N_leaving (l : list nat) | N_ended.

(** A listener of Start, and the caller of Stop. *)
Inductive serving := L_serves | L_returned | L_ended.
Inductive stopping := S_none | S_listeners | S_manager | S_wait | S_quit | S_wg | S_returned | S_failed.

(** [conns] are the clients, with whether their Start was called; [queue_of] and
[mgr_of] the state of the manager's two goroutines; [quit] its quit channel and [mwg]
its wait group; [closed] tells that the listeners are closed, [squit] that the quit
channel of the server is, and [swg] is its wait group. *)
Record server_life := MkLife {
  handlers : list handler; conns : gmap nat (bool * conn_life); next_id : nat;
  queue_of : queue (A := notification); qplace : queuer; mgr_of : manager; nplace : notified; quit : bool; mwg : Z;
  servings : list serving; closed : bool; stopper : stopping; squit : bool; swg : Z }.

Definition with_handlers (l : list handler) (s : server_life) : server_life :=
  MkLife l (conns s) (next_id s) (queue_of s) (qplace s) (mgr_of s) (nplace s) (quit s) (mwg s)
    (servings s) (closed s) (stopper s) (squit s) (swg s).
Definition with_conns (m : gmap nat (bool * conn_life)) (n : nat) (s : server_life) : server_life :=
  MkLife (handlers s) m n (queue_of s) (qplace s) (mgr_of s) (nplace s) (quit s) (mwg s)
    (servings s) (closed s) (stopper s) (squit s) (swg s).
Definition with_queue (q : queue) (p : queuer) (n : Z) (s : server_life) : server_life :=
  MkLife (handlers s) (conns s) (next_id s) q p (mgr_of s) (nplace s) (quit s) (mwg s + n)
    (servings s) (closed s) (stopper s) (squit s) (swg s).
Definition with_mgr (m : manager) (p : notified) (n : Z) (s : server_life) : server_life :=
  MkLife (handlers s) (conns s) (next_id s) (queue_of s) (qplace s) m p (quit s) (mwg s + n)
    (servings s) (closed s) (stopper s) (squit s) (swg s).
Definition with_quit (s : server_life) : server_life :=
  MkLife (handlers s) (conns s) (next_id s) (queue_of s) (qplace s) (mgr_of s) (nplace s) true (mwg s)
    (servings s) (closed s) (stopper s) (squit s) (swg s).
Definition with_servings (l : list serving) (n : Z) (s : server_life) : server_life :=
  MkLife (handlers s) (conns s) (next_id s) (queue_of s) (qplace s) (mgr_of s) (nplace s) (quit s) (mwg s)
    l (closed s) (stopper s) (squit s) (swg s + n).
Definition with_stop (p : stopping) (c q : bool) (s : server_life) : server_life :=
  MkLife (handlers s) (conns s) (next_id s) (queue_of s) (qplace s) (mgr_of s) (nplace s) (quit s) (mwg s)
    (servings s) c p q (swg s).

(** newWsNotificationManager and Start of the manager; Start of the server. *)
Definition newWsNotificationManager : server_life :=
  MkLife [] ∅ 0 init_queue Q_runs newManager N_loop false 0 [] false S_none false 0.
Definition ntfnMgr_Start (s : server_life) : server_life :=
  with_queue (queue_of s) Q_runs 2 s.
Definition Start_life (listeners : nat) : server_life :=
  ntfnMgr_Start (with_servings (replicate listeners L_serves) (Z.of_nat listeners) newWsNotificationManager).

(** A message is handed to notificationHandler. *)
Definition notify_handler (n : notification) (s : server_life) : server_life :=
  with_mgr (notificationHandler n (mgr_of s)) (nplace s) 0 s.
(** A message arrives at queueHandler; [ready]: notificationHandler takes it at once. *)
Definition arrives (n : notification) (ready : bool) (s : server_life) : server_life :=
  let direct := skipQueue (queue_of s) && ready in
  let s := with_queue (on_in n ready (queue_of s)) (qplace s) 0 s in
  if direct then notify_handler n s else s.

(** The place after NumClients gave [n]. *)
Definition limited (max n : Z) (a adm : bool) : handler := if (max <? n + 1)%Z then H_done else H_new a adm.

(** Disconnect on the client with number [i]. *)
Definition disconnect_client (i : nat) (s : server_life) : server_life :=
  with_conns (alter (fun e : bool * conn_life => (e.1, disconnect e.2)) i (conns s)) (next_id s) s.

Section steps.
Context (auth : auth_state) (max : Z) (reqs : nat) (closing : list (option string)).

(** WebsocketHandler takes a step: the server, and what becomes of the handler. *)
Inductive handler_goes (s : server_life) : handler -> handler -> server_life -> Prop :=
  | h_count a adm : nplace s = N_loop -> handler_goes s (H_limit a adm) (limited max (NumClients (mgr_of s)) a adm) s
  | h_count_quit a adm : quit s = true -> handler_goes s (H_limit a adm) (limited max 0 a adm) s
  | h_no_client a adm err : newWebsocketClient (Err err) reqs a adm = Err err -> handler_goes s (H_new a adm) H_done s
  | h_client a adm id c : newWebsocketClient (Ok id) reqs a adm = Ok c ->
      handler_goes s (H_new a adm) (H_add (next_id s)) (with_conns (<[next_id s := (false, WsLife.Start c)]> (conns s)) (S (next_id s)) s)
  | h_add i ready : qplace s = Q_runs -> (ready = true -> nplace s = N_loop) ->
      handler_goes s (H_add i) (H_start i) (arrives (notificationRegisterClient i) ready s)
  | h_start i c : conns s !! i = Some (false, c) ->
      handler_goes s (H_start i) (H_wait i) (with_conns (<[i := (true, c)]> (conns s)) (next_id s) s)
  | h_wait i c : conns s !! i = Some (true, c) -> WsLife.WaitForShutdown_returns c = true -> handler_goes s (H_wait i) (H_remove i) s
  | h_remove i ready : qplace s = Q_runs -> (ready = true -> nplace s = N_loop) ->
      handler_goes s (H_remove i) H_done (arrives (notificationUnregisterClient i) ready s)
  | h_remove_quit i : quit s = true -> handler_goes s (H_remove i) H_done s.

(** The goroutines of the manager, the listeners and the caller of Stop. *)
Inductive manager_goes : server_life -> server_life -> Prop :=
  | m_dequeue s n q' : qplace s = Q_runs -> nplace s = N_loop -> dequeue (queue_of s) = true -> next (queue_of s) = Some n ->
      on_dequeue (queue_of s) = Some q' -> manager_goes s (notify_handler n (with_queue q' Q_runs 0 s))
  | m_queue_quit s : qplace s = Q_runs -> quit s = true -> manager_goes s (with_queue (on_quit (queue_of s)) Q_stopped 0 s)
  | m_queue_done s : qplace s = Q_stopped -> manager_goes s (with_queue (queue_of s) Q_ended (-1) s)
  | m_closed s : nplace s = N_loop -> qplace s <> Q_runs ->
      manager_goes s (with_mgr (mgr_of s) (N_leaving (elements (m_clients (mgr_of s)))) 0 s)
  | m_quit s : nplace s = N_loop -> quit s = true ->
      manager_goes s (with_mgr (mgr_of s) (N_leaving (elements (m_clients (mgr_of s)))) 0 s)
  | m_leave s i l : nplace s = N_leaving (i :: l) -> manager_goes s (with_mgr (mgr_of s) (N_leaving l) 0 (disconnect_client i s))
  | m_done s : nplace s = N_leaving [] -> manager_goes s (with_mgr (mgr_of s) N_ended (-1) s)
  | l_closed s l1 l2 : servings s = l1 ++ L_serves :: l2 -> closed s = true -> manager_goes s (with_servings (l1 ++ L_returned :: l2) 0 s)
  | l_done s l1 l2 : servings s = l1 ++ L_returned :: l2 -> manager_goes s (with_servings (l1 ++ L_ended :: l2) (-1) s)
  | st_listeners s k : stopper s = S_listeners -> close_listeners closing 0 = (k, None) -> manager_goes s (with_stop S_manager true (squit s) s)
  | st_failed s k err : stopper s = S_listeners -> close_listeners closing 0 = (k, Some err) -> manager_goes s (with_stop S_failed (closed s) (squit s) s)
  | st_manager s : stopper s = S_manager -> manager_goes s (with_stop S_wait (closed s) (squit s) (with_quit s))
  | st_wait s : stopper s = S_wait -> mwg s = 0 -> manager_goes s (with_stop S_quit (closed s) (squit s) s)
  | st_quit s : stopper s = S_quit -> manager_goes s (with_stop S_wg (closed s) true s)
  | st_wg s : stopper s = S_wg -> swg s = 0 -> manager_goes s (with_stop S_returned (closed s) (squit s) s).

(** Their steps, and the steps of the clients. *)
Inductive server_goes : server_life -> server_life -> Prop :=
  | own_handler s s1 h h' l1 l2 : handlers s = l1 ++ h :: l2 -> handler_goes s h h' s1 -> server_goes s (with_handlers (l1 ++ h' :: l2) s1)
  | own_manager s s' : manager_goes s s' -> server_goes s s'.
Inductive client_goes : server_life -> server_life -> Prop :=
  | client_step s i c c' : conns s !! i = Some (true, c) -> live_step auth c c' ->
      client_goes s (with_conns (<[i := (true, c')]> (conns s)) (next_id s) s).

(** No goroutine has panicked. *)
Definition alive (s : server_life) : Prop := map_Forall (fun _ e => crashed e.2 = false) (conns s).

(** A step of the server or of its surroundings: a request for a websocket, a connection
that breaks, a listener that fails, a call of Stop: the first one is the one that
matters. *)
Inductive server_step : server_life -> server_life -> Prop :=
  | s_own s s' : alive s -> server_goes s s' -> server_step s s'
  | s_client s s' : alive s -> client_goes s s' -> server_step s s'
  | s_request s (srv : rpcServer) r a adm : alive s -> RpcHttp.auth srv = auth -> serve_ws srv r None = Upgraded a adm ->
      server_step s (with_handlers (handlers s ++ [H_limit a adm]) s)
  | s_break s i b c : alive s -> conns s !! i = Some (b, c) ->
      server_step s (with_conns (<[i := (b, break_conn c)]> (conns s)) (next_id s) s)
  | s_listener s l1 l2 : alive s -> servings s = l1 ++ L_serves :: l2 -> server_step s (with_servings (l1 ++ L_returned :: l2) 0 s)
  | s_stop s : alive s -> stopper s = S_none -> server_step s (with_stop S_listeners (closed s) (squit s) s).
End steps.

(** ** What holds of every state *)

Definition q_counts (p : queuer) : nat := match p with Q_ended => 0 | _ => 1 end.
Definition n_counts (p : notified) : nat := match p with N_ended => 0 | _ => 1 end.
Definition l_counts (p : serving) : nat := match p with L_ended => 0 | _ => 1 end.

Definition gone (s : server_life) (i : nat) : Prop := exists b c, conns s !! i = Some (b, c) /\ Disconnected c = true.

(** The clients that the handlers have. *)
Definition client_of (h : handler) : list nat :=
  match h with H_add i | H_start i | H_wait i | H_remove i => [i] | _ => [] end.
Definition handler_ok (m : gmap nat (bool * conn_life)) (h : handler) : Prop :=
  match h with
  | H_add i | H_start i => exists c, m !! i = Some (false, c)
  | H_wait i => exists c, m !! i = Some (true, c)
  | H_remove i => is_Some (m !! i)
  | _ => True
  end.

(** Registrations in the queue. *)
Definition registers (n : notification) : list nat := match n with notificationRegisterClient i => [i] | _ => [] end.
Definition registered (s : server_life) (i : nat) : Prop :=
  i ∈ m_clients (mgr_of s) \/ Exists (fun n => i ∈ registers n) (q (queue_of s)).

Definition stop_closed (p : stopping) : bool := match p with S_manager | S_wait | S_quit | S_wg | S_returned => true | _ => false end.
Definition stop_quit (p : stopping) : bool := match p with S_wait | S_quit | S_wg | S_returned => true | _ => false end.
Definition stop_waited (p : stopping) : bool := match p with S_quit | S_wg | S_returned => true | _ => false end.

Record life_ok (auth : auth_state) (reqs : nat) (s : server_life) : Prop := {
  lo_mwg : mwg s = Z.of_nat (q_counts (qplace s) + n_counts (nplace s));
  lo_queue : queue_inv (queue_of s);
  lo_swg : swg s = Z.of_nat (total l_counts (servings s));
  lo_closed : stop_closed (stopper s) = true -> closed s = true;
  lo_quit : stop_quit (stopper s) = true -> quit s = true;
  lo_waited : stop_waited (stopper s) = true -> qplace s = Q_ended /\ nplace s = N_ended;
  lo_fresh i : is_Some (conns s !! i) -> (i < next_id s)%nat;
  lo_registered i : registered s i -> is_Some (conns s !! i);
  lo_leaving i : i ∈ m_clients (mgr_of s) ->
    match nplace s with N_loop => True | N_leaving l => i ∈ l \/ gone s i | N_ended => gone s i end;
  lo_handlers : Forall (handler_ok (conns s)) (handlers s);
  lo_nodup : NoDup (concat (map client_of (handlers s)));
  lo_conns i b c : conns s !! i = Some (b, c) ->
    exists id a adm c0, newWebsocketClient (Ok id) reqs a adm = Ok c0 /\ rtc (conn_step auth) (WsLife.Start c0) c }.

Lemma Start_life_ok auth reqs n : life_ok auth reqs (Start_life n).
Proof.
  constructor; cbn; try done; try set_solver.
  - induction n as [|n IH]; [done|]. cbn [replicate total l_counts]. lia.
  - intros i [c H]. set_solver.
  - intros i [H|H]; [set_solver|]. now apply Exists_nil in H.
  - constructor.
Qed.

(** The clients take steps. *)
Definition evolves (auth : auth_state) (m m' : gmap nat (bool * conn_life)) : Prop := forall i,
  match m !! i, m' !! i with
  | Some (b, c), Some (b', c') => b' = b /\ rtc (conn_step auth) c c'
  | None, None => True
  | _, _ => False
  end.

Section invariant.
Context (auth : auth_state) (reqs : nat).
#[local] Abbreviation ok := (life_ok auth reqs).

Lemma evolves_some m m' i b c : evolves auth m m' -> m !! i = Some (b, c) ->
  exists c', m' !! i = Some (b, c') /\ rtc (conn_step auth) c c'.
Proof. intros H E. specialize (H i). rewrite E in H. destruct (m' !! i) as [[b' c']|]; [destruct H as [-> H]; eauto|done]. Qed.
Lemma evolves_back m m' i b c : evolves auth m m' -> m' !! i = Some (b, c) ->
  exists c', m !! i = Some (b, c') /\ rtc (conn_step auth) c' c.
Proof. intros H E. specialize (H i). rewrite E in H. destruct (m !! i) as [[b' c']|]; [destruct H as [-> H]; eauto|done]. Qed.
Lemma gone_runs c c' : rtc (conn_step auth) c c' -> Disconnected c = true -> Disconnected c' = true.
Proof. induction 1 as [|x y z H _ IH]; [done|]. intros D. apply IH. now apply conn_step_gone with auth x. Qed.

Lemma life_ok_evolves m s : evolves auth (conns s) m -> ok s -> ok (with_conns m (next_id s) s).
Proof.
  intros HE []. constructor; cbn; try done.
  - intros i [[b c] E]. apply (evolves_back _ _ _ _ _ HE) in E as (c' & E & _). eauto.
  - intros i H. destruct (lo_registered0 i H) as [[b c] E]. apply (evolves_some _ _ _ _ _ HE) in E as (c' & E & _). eauto.
  - intros i H. specialize (lo_leaving0 i H).
    assert (HG : gone s i -> gone (with_conns m (next_id s) s) i).
    { intros (b & c & E & D). apply (evolves_some _ _ _ _ _ HE) in E as (c' & E & R). exists b, c'. split; [done|]. now apply gone_runs with c. }
    destruct (nplace s); [done| |auto]. destruct lo_leaving0; auto.
  - eapply Forall_impl; [exact lo_handlers0|]. intros [] H; cbn in *; try done;
      try (destruct H as [c E]; apply (evolves_some _ _ _ _ _ HE) in E as (c' & E & _); eauto; fail).
    destruct H as [[b c] E]. apply (evolves_some _ _ _ _ _ HE) in E as (c' & E & _). eauto.
  - intros i b c E. apply (evolves_back _ _ _ _ _ HE) in E as (c' & E & R).
    destruct (lo_conns0 _ _ _ E) as (id & a & adm & c0 & E0 & R0). exists id, a, adm, c0. split; [done|]. etransitivity; eassumption.
Qed.

Lemma evolves_one m i b c c' : m !! i = Some (b, c) -> rtc (conn_step auth) c c' -> evolves auth m (<[i := (b, c')]> m).
Proof.
  intros E R j. destruct (decide (i = j)) as [<-|N].
  - rewrite E, lookup_insert_eq. done.
  - rewrite lookup_insert_ne by done. destruct (m !! j) as [[b' c'']|]; done.
Qed.
Lemma evolves_disconnect m i : map_Forall (fun _ e => crashed e.2 = false) m ->
  evolves auth m (alter (fun e : bool * conn_life => (e.1, disconnect e.2)) i m).
Proof.
  intros HA j. destruct (decide (i = j)) as [<-|N].
  - rewrite lookup_alter_eq. destruct (m !! i) as [[b c]|] eqn:E; cbn; [|done]. split; [done|]. apply rtc_once, conn_disconnect.
    exact (HA _ _ E).
  - rewrite lookup_alter_ne by done. destruct (m !! j) as [[b' c'']|]; done.
Qed.

(** A handler takes a step that changes nothing else. *)
Lemma life_ok_handler s h h' l1 l2 : handlers s = l1 ++ h :: l2 -> handler_ok (conns s) h' ->
  client_of h' = client_of h \/ client_of h' = [] -> ok s -> ok (with_handlers (l1 ++ h' :: l2) s).
Proof.
  intros E HH HC []. rewrite E in *. constructor; cbn; try done.
  - apply Forall_app in lo_handlers0 as [F1 F2]. apply Forall_cons in F2 as [_ F2]. apply Forall_app. split; [done|]. now constructor.
  - rewrite map_app, concat_app in *. cbn [map concat] in *. destruct HC as [-> | ->]; [done|]. cbn [app].
    rewrite (Permutation_app_swap_app (concat (map client_of l1)) (client_of h)) in lo_nodup0.
    now apply NoDup_app in lo_nodup0 as (_ & _ & ?).
Qed.

(** A message arrives. *)
Lemma life_ok_notify n s : nplace s = N_loop -> (forall i, i ∈ registers n -> is_Some (conns s !! i)) -> ok s -> ok (notify_handler n s).
Proof.
  intros EN HR []. unfold notify_handler. constructor; cbn; try done.
  - lia.
  - intros i [H|H]; [|apply lo_registered0; now right].
    assert (HM : i ∈ registers n \/ i ∈ m_clients (mgr_of s)) by (destruct n; cbn in *; set_solver).
    destruct HM; [auto|apply lo_registered0; now left].
  - intros i _. now rewrite EN.
Qed.

Lemma life_ok_queue q' p n s : queue_inv q' -> mwg s + n = Z.of_nat (q_counts p + n_counts (nplace s)) ->
  (stop_waited (stopper s) = true -> p = Q_ended) ->
  (forall i, Exists (fun n => i ∈ registers n) (q q') -> is_Some (conns s !! i)) -> ok s -> ok (with_queue q' p n s).
Proof.
  intros HQ HW HS HR []. constructor; cbn; try done.
  - intros E. split; [auto|]. now apply lo_waited0.
  - intros i [H|H]; [apply lo_registered0; now left|auto].
Qed.

Lemma life_ok_arrives n ready s : qplace s = Q_runs -> (ready = true -> nplace s = N_loop) ->
  (forall i, i ∈ registers n -> is_Some (conns s !! i)) -> ok s -> ok (arrives n ready s).
Proof.
  intros EQ HR HN HO. pose proof HO as []. unfold arrives.
  assert (H1 : ok (with_queue (on_in n ready (queue_of s)) (qplace s) 0 s)).
  { apply life_ok_queue; [now apply on_in_inv|lia| | |done].
    - intros E. apply lo_waited0 in E as [E _]. congruence.
    - intros i H. assert (HX : Exists (fun n => i ∈ registers n) (q (queue_of s)) \/ i ∈ registers n).
      { unfold on_in in H. destruct (_ && _); [by left|]. cbn in H. apply Exists_app in H as [H|H]; [by left|right].
        now apply Exists_cons in H as [H|H%Exists_nil]. }
      destruct HX; [apply lo_registered0; now right|auto]. }
  destruct (skipQueue (queue_of s) && ready) eqn:D; [|done]. apply andb_true_iff in D as [_ ->].
  apply life_ok_notify; [now apply HR|exact HN|exact H1].
Qed.

Lemma elem_of_clients i l : i ∈ concat (map client_of l) <-> exists h, h ∈ l /\ i ∈ client_of h.
Proof.
  induction l as [|h l IH]; cbn; [set_solver|]. rewrite elem_of_app, IH. setoid_rewrite elem_of_cons. split.
  - intros [H|(h' & H & Hi)]; [exists h|exists h']; auto.
  - intros (h' & [->|H] & Hi); [by left|right; eauto].
Qed.

(** A new client. *)
Lemma life_ok_client s a adm id c l1 l2 : handlers s = l1 ++ H_new a adm :: l2 ->
  newWebsocketClient (Ok id) reqs a adm = Ok c -> ok s ->
  ok (with_handlers (l1 ++ H_add (next_id s) :: l2) (with_conns (<[next_id s := (false, WsLife.Start c)]> (conns s)) (S (next_id s)) s)).
Proof.
  intros E HN []. rewrite E in *.
  assert (HF : conns s !! next_id s = None).
  { destruct (conns s !! next_id s) eqn:EF; [|done]. assert (next_id s < next_id s)%nat by (apply lo_fresh0; now rewrite EF). lia. }
  assert (HI : forall i, is_Some (conns s !! i) -> <[next_id s := (false, WsLife.Start c)]> (conns s) !! i = conns s !! i).
  { intros i [e Ei]. apply lookup_insert_ne. intros <-. congruence. }
  assert (HK : forall h, handler_ok (conns s) h -> handler_ok (<[next_id s := (false, WsLife.Start c)]> (conns s)) h).
  { intros [] H; cbn in *; try done; rewrite HI; try done; destruct H as [? ->]; eauto. }
  constructor; cbn; try done.
  - intros i Hi. destruct (decide (next_id s = i)) as [<-|N]; [lia|]. rewrite lookup_insert_ne in Hi by done. apply lo_fresh0 in Hi. lia.
  - intros i Hi. rewrite HI; auto.
  - intros i Hi. specialize (lo_leaving0 i Hi). assert (HG : gone s i -> gone (with_handlers (l1 ++ H_add (next_id s) :: l2)
      (with_conns (<[next_id s := (false, WsLife.Start c)]> (conns s)) (S (next_id s)) s)) i).
    { intros (b & c' & Ei & D). exists b, c'. cbn. rewrite HI; eauto. }
    destruct (nplace s); [done| |auto]. destruct lo_leaving0; auto.
  - apply Forall_app in lo_handlers0 as [F1 F2]. apply Forall_cons in F2 as [_ F2]. apply Forall_app. split; [|constructor].
    + eapply Forall_impl; [exact F1|exact HK].
    + cbn. rewrite lookup_insert_eq. eauto.
    + eapply Forall_impl; [exact F2|exact HK].
  - rewrite map_app, concat_app in *. cbn [map concat client_of app] in *. rewrite <- Permutation_middle. constructor; [|done].
    intros H. assert (HX : is_Some (conns s !! next_id s)); [|rewrite HF in HX; now apply is_Some_None in HX].
    rewrite elem_of_app in H. apply Forall_app in lo_handlers0 as [F1 F2]. apply Forall_cons in F2 as [_ F2].
    assert (HC : forall l, Forall (handler_ok (conns s)) l -> next_id s ∈ concat (map client_of l) -> is_Some (conns s !! next_id s)).
    { clear. intros l F H. apply elem_of_clients in H as (h & Hh & Hx). rewrite Forall_forall in F. specialize (F h Hh).
      destruct h; cbn in *; try set_solver; apply list_elem_of_singleton in Hx as ->; try (destruct F as [? ->]; eauto); done. }
    destruct H; [now apply (HC l1)|now apply (HC l2)].
  - intros i b c' Ei. destruct (decide (next_id s = i)) as [<-|N]; [|rewrite lookup_insert_ne in Ei by done; eauto].
    rewrite lookup_insert_eq in Ei. injection Ei as <- <-. exists id, a, adm, c. done.
Qed.

(** A client is started. *)
Lemma life_ok_started s i c l1 l2 : handlers s = l1 ++ H_start i :: l2 -> conns s !! i = Some (false, c) -> ok s ->
  ok (with_handlers (l1 ++ H_wait i :: l2) (with_conns (<[i := (true, c)]> (conns s)) (next_id s) s)).
Proof.
  intros E HC []. rewrite E in *.
  assert (HS : forall j, is_Some (conns s !! j) <-> is_Some (<[i := (true, c)]> (conns s) !! j)).
  { intros j. destruct (decide (i = j)) as [<-|N]; [rewrite lookup_insert_eq, HC; split; eauto|now rewrite lookup_insert_ne]. }
  rewrite map_app, concat_app in lo_nodup0. cbn [map concat client_of app] in lo_nodup0. pose proof lo_nodup0 as HD.
  rewrite <- Permutation_middle, <- concat_app, <- map_app in HD. apply NoDup_cons in HD as [HD _].
  assert (HK : forall l h, h ∈ l -> i ∉ concat (map client_of l) -> handler_ok (conns s) h -> handler_ok (<[i := (true, c)]> (conns s)) h).
  { intros l h Hh Hi. assert (HN : i ∉ client_of h).
    { intros Hx. apply Hi, elem_of_clients. eauto. }
    destruct h; cbn in *; try done; rewrite list_elem_of_singleton in HN; rewrite lookup_insert_ne; done. }
  constructor; cbn; try done.
  - intros j Hj. apply lo_fresh0. now apply HS.
  - intros j Hj. apply HS, lo_registered0. exact Hj.
  - intros j Hj. specialize (lo_leaving0 j Hj).
    assert (HG : gone s j -> gone (with_handlers (l1 ++ H_wait i :: l2) (with_conns (<[i := (true, c)]> (conns s)) (next_id s) s)) j).
    { intros (b & c' & Ei & D). unfold gone. cbn. destruct (decide (i = j)) as [<-|N]; [rewrite lookup_insert_eq|rewrite lookup_insert_ne by done; eauto].
      exists true, c. split; [done|congruence]. }
    destruct (nplace s); [done| |auto]. destruct lo_leaving0; auto.
  - assert (HA : Forall (handler_ok (conns s)) (l1 ++ l2)).
    { apply Forall_app in lo_handlers0 as [F1 F2]. apply Forall_cons in F2 as [_ F2]. now apply Forall_app. }
    assert (HB : Forall (handler_ok (<[i := (true, c)]> (conns s))) (l1 ++ l2)).
    { rewrite Forall_forall in HA |- *. intros h Hh. eapply HK; eauto. }
    apply Forall_app in HB as [B1 B2]. apply Forall_app. split; [done|]. constructor; [|done]. cbn. rewrite lookup_insert_eq. eauto.
  - rewrite map_app, concat_app. exact lo_nodup0.
  - intros j b c' Ej. destruct (decide (i = j)) as [<-|N]; [|rewrite lookup_insert_ne in Ej by done; eauto].
    rewrite lookup_insert_eq in Ej. injection Ej as <- <-. eauto.
Qed.
Lemma arrives_frame n ready s : handlers (arrives n ready s) = handlers s /\ conns (arrives n ready s) = conns s.
Proof. unfold arrives, notify_handler. destruct (_ && _); done. Qed.

Lemma handler_step_ok max s s1 h h' l1 l2 : handlers s = l1 ++ h :: l2 -> handler_goes max reqs s h h' s1 -> ok s ->
  ok (with_handlers (l1 ++ h' :: l2) s1).
Proof.
  intros E H HO. pose proof (lo_handlers _ _ _ HO) as HH. rewrite E in HH. apply Forall_app in HH as [_ HH].
  apply Forall_cons in HH as [HH _].
  assert (HA : forall n ready, qplace s = Q_runs -> (ready = true -> nplace s = N_loop) ->
    (forall i, i ∈ registers n -> is_Some (conns s !! i)) -> handler_ok (conns s) h' ->
    client_of h' = client_of h \/ client_of h' = [] -> ok (with_handlers (l1 ++ h' :: l2) (arrives n ready s))).
  { intros n ready HQ HR HN HK HC. destruct (arrives_frame n ready s) as [F1 F2].
    eapply life_ok_handler; [rewrite F1; exact E|now rewrite F2|exact HC|now apply life_ok_arrives]. }
  destruct H as [a adm _|a adm _|a adm err _|a adm id c Hc|i ready HQ HR|i c Hc|i c Hc _|i ready HQ HR|i _].
  - unfold limited. destruct (_ <? _); (eapply life_ok_handler; [exact E|done|by right|done]).
  - unfold limited. destruct (_ <? _); (eapply life_ok_handler; [exact E|done|by right|done]).
  - eapply life_ok_handler; [exact E|done|by right|done].
  - eapply life_ok_client; eassumption.
  - apply HA; try done; [|by left]. intros j ->%list_elem_of_singleton. destruct HH as [c ->]. eauto.
  - eapply life_ok_started; eassumption.
  - eapply life_ok_handler; [exact E|cbn; rewrite Hc; eauto|by left|done].
  - apply HA; try done; [|by right]. intros j Hj. set_solver.
  - eapply life_ok_handler; [exact E|done|by right|done].
Qed.

(** notificationHandler, the listeners and the caller of Stop. *)
Lemma life_ok_mgr p n s : ok s -> mwg s + n = Z.of_nat (q_counts (qplace s) + n_counts p) ->
  (stop_waited (stopper s) = true -> p = N_ended) ->
  (forall i, i ∈ m_clients (mgr_of s) -> match p with N_loop => True | N_leaving l => i ∈ l \/ gone s i | N_ended => gone s i end) ->
  ok (with_mgr (mgr_of s) p n s).
Proof.
  intros [] HW HS HL. constructor; cbn; try done. intros E. split; [now apply lo_waited0|auto].
Qed.
Lemma life_ok_servings l n s : ok s -> swg s + n = Z.of_nat (total l_counts l) -> ok (with_servings l n s).
Proof. intros [] H. constructor; done. Qed.
Lemma life_ok_stop p c sq s : ok s -> (stop_closed p = true -> c = true) -> (stop_quit p = true -> quit s = true) ->
  (stop_waited p = true -> qplace s = Q_ended /\ nplace s = N_ended) -> ok (with_stop p c sq s).
Proof. intros [] H1 H2 H3. constructor; done. Qed.

Lemma manager_step_ok closing s s' : alive s -> manager_goes closing s s' -> ok s -> ok s'.
Proof.
  intros HL H HO. pose proof HO as []. destruct H.
  - destruct (on_dequeue_inv _ lo_queue0 H1) as (s' & n' & E & HQ & _ & _ & Eq & _). rewrite H3 in E. injection E as <-.
    assert (n' = n) as -> by (rewrite (qi_next _ lo_queue0 H1), Eq in H2; now injection H2).
    apply life_ok_notify; [done| |].
    + intros i Hi. apply lo_registered0. right. rewrite Eq. now left.
    + apply life_ok_queue; [done|rewrite H in lo_mwg0; lia| | |done].
      * intros E. apply lo_waited0 in E as [E _]. congruence.
      * intros i Hi. apply lo_registered0. right. rewrite Eq. now right.
  - apply life_ok_queue; [destruct lo_queue0; now constructor|rewrite H in lo_mwg0; cbn in *; lia| | |done].
    + intros E. apply lo_waited0 in E as [E _]. congruence.
    + intros i Hi. apply lo_registered0. by right.
  - apply life_ok_queue; [done|rewrite H in lo_mwg0; cbn in *; lia|done| |done]. intros i Hi. apply lo_registered0. by right.
  - apply life_ok_mgr; [done|rewrite H in lo_mwg0; cbn in *; lia| |].
    + intros E. apply lo_waited0 in E as [_ E]. congruence.
    + intros i Hi. left. now apply elem_of_elements.
  - apply life_ok_mgr; [done|rewrite H in lo_mwg0; cbn in *; lia| |].
    + intros E. apply lo_waited0 in E as [_ E]. congruence.
    + intros i Hi. left. now apply elem_of_elements.
  - pose proof (evolves_disconnect (conns s) i HL) as HE.
    assert (HO' : ok (disconnect_client i s)) by (apply life_ok_evolves; [exact HE|done]).
    apply (life_ok_mgr (N_leaving l) 0 (disconnect_client i s)); [done|rewrite H in lo_mwg0; cbn in *; lia| |].
    + intros E. apply lo_waited0 in E as [_ E]. congruence.
    + intros j Hj. cbn in Hj. specialize (lo_leaving0 j Hj). rewrite H in lo_leaving0.
      destruct (decide (j = i)) as [->|N].
      * right. destruct (lo_registered0 i) as [[b c] E]; [by left|]. exists b, (disconnect c). unfold disconnect_client. cbn.
        rewrite lookup_alter_eq, E. split; [done|]. unfold Disconnected, disconnect. cbn. apply Disconnect_disconnected.
      * destruct lo_leaving0 as [[->|HI]%elem_of_cons|(b & c & E & D)]; [done|by left|].
        right. destruct (evolves_some _ _ _ _ _ HE E) as (c' & E' & R). exists b, c'. split; [exact E'|]. now apply gone_runs with c.
  - apply life_ok_mgr; [done|rewrite H in lo_mwg0; cbn in *; lia|done|].
    intros i Hi. specialize (lo_leaving0 i Hi). rewrite H in lo_leaving0. destruct lo_leaving0 as [HN|HG]; [set_solver|done].
  - apply life_ok_servings; [done|]. rewrite H, total_app in lo_swg0. rewrite total_app. cbn in *. lia.
  - apply life_ok_servings; [done|]. rewrite H, total_app in lo_swg0. rewrite total_app. cbn in *. lia.
  - apply life_ok_stop; done.
  - apply life_ok_stop; done.
  - apply (life_ok_stop S_wait (closed s) (squit s) (with_quit s)); [constructor; done| |done|done].
    intros _. apply lo_closed0. now rewrite H.
  - apply life_ok_stop; [done| | |].
    + intros _. apply lo_closed0. now rewrite H.
    + intros _. apply lo_quit0. now rewrite H.
    + intros _. rewrite H0 in lo_mwg0. destruct (qplace s), (nplace s); done || (cbn in lo_mwg0; lia).
  - rewrite H in *. apply life_ok_stop; auto.
  - rewrite H in *. apply life_ok_stop; auto.
Qed.
End invariant.

(** *** Every step *)

Section reachable.
Context (auth : auth_state) (max : Z) (reqs : nat) (closing : list (option string)).
#[local] Abbreviation step := (server_step auth max reqs closing).

Lemma server_step_ok s s' : step s s' -> life_ok auth reqs s -> life_ok auth reqs s'.
Proof.
  intros [x x' HL H|x x' HL H|x srv r a adm HL _ _|x i b c HL E|x l1 l2 HL E|x HL E] HO.
  - destruct H as [x s1 h h' l1 l2 E H|x x' H]; [eapply handler_step_ok|eapply manager_step_ok]; eassumption.
  - destruct H as [x i c c' E H]. apply life_ok_evolves; [|done]. eapply evolves_one; [exact E|]. apply rtc_once, conn_own, H.
  - destruct HO. constructor; cbn; try done.
    + apply Forall_app. split; [done|]. now constructor.
    + rewrite map_app, concat_app. cbn. now rewrite app_nil_r.
  - apply life_ok_evolves; [|done]. eapply evolves_one; [exact E|]. apply rtc_once, conn_break. exact (HL _ _ E).
  - apply life_ok_servings; [done|]. pose proof (lo_swg _ _ _ HO) as HW. rewrite E, total_app in HW. rewrite total_app. cbn in *. lia.
  - apply life_ok_stop; done.
Qed.

Lemma server_runs_ok n s : rtc step (Start_life n) s -> life_ok auth reqs s.
Proof.
  intros H. pattern s. refine (rtc_ind_r _ _ _ _ s H); [apply Start_life_ok|]. intros x y _ Hs HO. eapply server_step_ok; eassumption.
Qed.

(** When Stop has returned, the server's quit channel is closed and the goroutines of its
listeners have returned. *)
Record returned_ok (s : server_life) : Prop := {
  re_quit : stopper s = S_wg \/ stopper s = S_returned -> squit s = true;
  re_servings : stopper s = S_returned -> total l_counts (servings s) = 0%nat }.

Lemma arrives_stopper n ready s : stopper (arrives n ready s) = stopper s /\ squit (arrives n ready s) = squit s /\
  servings (arrives n ready s) = servings s.
Proof. unfold arrives, notify_handler. now destruct (_ && _). Qed.

Lemma handler_stopper s h h' s1 : handler_goes max reqs s h h' s1 ->
  stopper s1 = stopper s /\ squit s1 = squit s /\ servings s1 = servings s.
Proof. intros H. destruct H; try done; apply arrives_stopper. Qed.

Lemma server_step_returned s s' : step s s' -> life_ok auth reqs s -> returned_ok s -> returned_ok s'.
Proof.
  assert (Go : forall x p l1 l2 q n, returned_ok x -> servings x = l1 ++ p :: l2 -> l_counts p <> 0%nat -> returned_ok (with_servings (l1 ++ q :: l2) n x)).
  { intros x p l1 l2 q n [A B] E N. constructor; cbn; [done|]. intros F. specialize (B F). rewrite E, total_app in B. cbn in B. lia. }
  intros [x x' HL H|x x' HL H|x srv r a adm HL _ _|x i b c HL E|x l1 l2 HL E|x HL E] HO HR.
  - revert HO HR. destruct H as [x s1 h h' l1 l2 E H|x x' H]; intros HO [A B].
    + destruct (handler_stopper _ _ _ _ H) as (E1 & E2 & E3). constructor; cbn; rewrite E1, ?E2, ?E3; done.
    + revert HO A B. destruct H; intros HO A B; try (constructor; cbn; auto; fail).
      all: try (eapply Go; [now constructor|eassumption|done]; fail).
      all: constructor; cbn; try done; try (intros [F|F]; discriminate F); auto.
      intros _. pose proof (lo_swg _ _ _ HO). lia.
  - revert HR. destruct H. intros [A B]. now constructor.
  - destruct HR. now constructor.
  - destruct HR. now constructor.
  - eapply Go; [done|exact E|done].
  - constructor; cbn; [intros [F|F]; discriminate F|discriminate].
Qed.

Lemma server_runs_returned n s : rtc step (Start_life n) s -> returned_ok s.
Proof.
  intros H. enough (life_ok auth reqs s /\ returned_ok s) by tauto. pattern s. refine (rtc_ind_r _ _ _ _ s H).
  - split; [apply Start_life_ok|]. constructor; cbn; [intros [F|F]; discriminate F|discriminate].
  - intros x y _ Hs [HO HR]. split; [eapply server_step_ok|eapply server_step_returned]; eassumption.
Qed.

(** ** The end of the server *)

Definition h_weight (h : handler) : nat :=
  match h with H_limit _ _ => 10 | H_new _ _ => 9 | H_add _ => 8 | H_start _ => 5 | H_wait _ => 4 | H_remove _ => 3 | H_done => 0 end.
Definition q_weight (p : queuer) (l : list notification) : nat :=
  match p with Q_runs => 2 + 2 * length l | Q_stopped => 1 | Q_ended => 0 end.
Definition n_weight (p : notified) (m : manager) : nat :=
  match p with N_loop => 3 + size (m_clients m) | N_leaving l => 2 + length l | N_ended => 0 end.
Definition l_weight (p : serving) : nat := match p with L_serves => 2 | L_returned => 1 | L_ended => 0 end.
Definition s_weight (p : stopping) : nat :=
  match p with S_none | S_returned | S_failed => 0 | S_listeners => 5 | S_manager => 4 | S_wait => 3 | S_quit => 2 | S_wg => 1 end.

(** The steps of the server that are left, at most, as long as no websocket comes. *)
Definition server_measure (s : server_life) : nat :=
  (total h_weight (handlers s) + q_weight (qplace s) (q (queue_of s)) + n_weight (nplace s) (mgr_of s) +
   total l_weight (servings s) + s_weight (stopper s))%nat.

Lemma notified_size n m : (size (m_clients (notificationHandler n m)) <= S (size (m_clients m)))%nat.
Proof.
  destruct n; cbn; try lia. destruct (decide (wsc ∈ m_clients m)).
  - replace ({[wsc]} ∪ m_clients m) with (m_clients m) by set_solver. lia.
  - rewrite size_union, size_singleton by set_solver. lia.
Qed.
Lemma on_in_length (n : notification) ready s : skipQueue s && ready = false -> length (q (on_in n ready s)) = S (length (q s)).
Proof. unfold on_in. intros ->. cbn. rewrite length_app. cbn. lia. Qed.

Lemma arrives_measure n ready s : qplace s = Q_runs -> (ready = true -> nplace s = N_loop) ->
  (server_measure (arrives n ready s) <= server_measure s + 2)%nat.
Proof.
  intros HQ HR. unfold arrives, server_measure. destruct (skipQueue (queue_of s) && ready) eqn:E.
  - pose proof (notified_size n (mgr_of s)). unfold on_in. rewrite E. apply andb_true_iff in E as [_ ->]. cbn. rewrite HQ, HR by done. cbn. lia.
  - cbn [with_queue handlers qplace queue_of nplace mgr_of servings stopper]. rewrite HQ. cbn [q_weight]. rewrite on_in_length by done. lia.
Qed.

Lemma handlers_measure s l1 h h' l2 : handlers s = l1 ++ h :: l2 ->
  (server_measure (with_handlers (l1 ++ h' :: l2) s) + h_weight h = server_measure s + h_weight h')%nat.
Proof. intros E. unfold server_measure. cbn. rewrite E, !total_app. cbn. lia. Qed.

Lemma server_goes_down s s' : life_ok auth reqs s -> server_goes max reqs closing s s' -> (server_measure s' < server_measure s)%nat.
Proof.
  intros HO H. revert HO. destruct H as [x x1 h h' l1 l2 E H|x x' H]; intros HO.
  - assert (HX : handlers x1 = handlers x /\ (server_measure x1 + h_weight h' < server_measure x + h_weight h)%nat).
    { destruct H; try (split; [reflexivity|]; unfold server_measure, limited; try destruct (_ <? _); cbn; lia);
        (split; [apply arrives_frame|]); pose proof (fun n => arrives_measure n ready _ H H0) as HA;
        [specialize (HA (notificationRegisterClient i))|specialize (HA (notificationUnregisterClient i))]; cbn; lia. }
    destruct HX as [EH HX]. rewrite <- EH in E. pose proof (handlers_measure _ _ _ h' _ E). lia.
  - revert HO. destruct H; intros HO; unfold server_measure; cbn; rewrite ?H, ?H0, ?total_app; cbn; try lia.
    + destruct (on_dequeue_inv _ (lo_queue _ _ _ HO) H1) as (q'' & n' & E & _ & _ & _ & Eq & _). rewrite H3 in E. injection E as <-.
      pose proof (notified_size n (mgr_of s)). rewrite Eq. cbn. lia.
    + change (length (elements (m_clients (mgr_of s)))) with (size (m_clients (mgr_of s))). lia.
    + change (length (elements (m_clients (mgr_of s)))) with (size (m_clients (mgr_of s))). lia.
Qed.

(** The steps of the server's own goroutines, and those of its clients too. *)
Definition own (s s' : server_life) : Prop := alive s /\ server_goes max reqs closing s s'.
Definition inner (s s' : server_life) : Prop := alive s /\ (server_goes max reqs closing s s' \/ client_goes auth s s').

Lemma own_step_of s s' : own s s' -> step s s'.
Proof. intros [HL H]. now apply s_own. Qed.

Lemma Disconnect_keeps s i : alive s -> alive (disconnect_client i s).
Proof.
  intros HL j e E. unfold disconnect_client in E. cbn in E. destruct (decide (i = j)) as [<-|N].
  - rewrite lookup_alter_eq in E. destruct (conns s !! i) as [e0|] eqn:E0; [|done]. injection E as <-. exact (HL _ _ E0).
  - rewrite lookup_alter_ne in E by done. exact (HL _ _ E).
Qed.

Lemma own_alive s s' : own s s' -> alive s'.
Proof.
  intros [HL H]. revert HL. destruct H as [x x1 h h' l1 l2 E H|x x' H]; intros HL.
  - assert (HI : forall i b c, crashed c = false -> map_Forall (fun _ e => crashed e.2 = false) (<[i := (b, c)]> (conns x))).
    { intros i b c HC. apply map_Forall_insert_2; done. }
    unfold alive. cbn [with_handlers conns]. revert HL HI. destruct H; intros HL HI; try exact HL;
      try (rewrite (proj2 (arrives_frame _ _ _)); exact HL).
    + apply HI. done.
    + apply HI. exact (HL _ _ H).
  - revert HL. destruct H; intros HL; try exact HL. apply Disconnect_keeps, HL.
Qed.

Lemma own_closed s s' : own s s' -> stop_closed (stopper s) = true -> stop_closed (stopper s') = true.
Proof.
  intros [_ [x x1 h h' l1 l2 E H|x x' H]].
  - assert (stopper x1 = stopper x) as EQ by (destruct H; try done; unfold arrives, notify_handler; destruct (_ && _); done).
    cbn. now rewrite EQ.
  - destruct H; cbn; try done. now rewrite H.
Qed.

Lemma listeners_progress s : closed s = true -> total l_counts (servings s) = 0%nat \/ exists s', manager_goes closing s s'.
Proof.
  intros HC. assert (HX : forall l, total l_counts l = 0%nat \/ exists l1 p l2, l = l1 ++ p :: l2 /\ p <> L_ended).
  { induction l as [|p l [IH|(l1 & p' & l2 & -> & IH)]]; [by left| |right; now exists (p :: l1), p', l2].
    destruct (decide (l_counts p = 0%nat)) as [E|E]; [left; cbn; lia|right]. exists [], p, l. split; [done|]. intros ->. done. }
  destruct (HX (servings s)) as [E|(l1 & p & l2 & E & N)]; [by left|right]. destruct p; [|..|done].
  - eexists. eapply l_closed; eassumption.
  - eexists. eapply l_done; eassumption.
Qed.

Lemma stop_progress s : life_ok auth reqs s -> stop_closed (stopper s) = true ->
  stopper s = S_returned \/ exists s', manager_goes closing s s'.
Proof.
  intros HO HC. pose proof HO as []. destruct (stopper s) eqn:E; try discriminate HC.
  - right. eexists. now apply st_manager.
  - right. specialize (lo_quit0 eq_refl). destruct (qplace s) eqn:EQ.
    + eexists. now apply m_queue_quit.
    + eexists. now apply m_queue_done.
    + destruct (nplace s) as [|[|i l]|] eqn:EN.
      * eexists. now apply m_quit.
      * eexists. now apply m_done.
      * eexists. eapply m_leave. exact EN.
      * eexists. apply st_wait; [exact E|]. rewrite lo_mwg0. done.
  - right. eexists. now apply st_quit.
  - right. destruct (listeners_progress s (lo_closed0 eq_refl)) as [EL|H]; [|exact H].
    eexists. apply st_wg; [exact E|]. rewrite lo_swg0, EL. done.
  - by left.
Qed.

Lemma stop_runs_out s : life_ok auth reqs s -> alive s -> stop_closed (stopper s) = true ->
  exists s', rtc own s s' /\ stopper s' = S_returned.
Proof.
  remember (server_measure s) as n eqn:E. revert s E. induction n as [n IH] using lt_wf_ind. intros s -> HO HL HC.
  destruct (stop_progress s HO HC) as [HS|[s' HM]]; [now exists s|].
  assert (H : own s s') by (split; [done|now apply own_manager]).
  destruct (IH (server_measure s')) with (s := s') as (s'' & R & St);
    [apply server_goes_down; [done|apply H]|done|exact (server_step_ok _ _ (own_step_of _ _ H) HO)|exact (own_alive _ _ H)|exact (own_closed _ _ H HC)|].
  exists s''. split; [eapply rtc_l; [exact H|exact R]|exact St].
Qed.

(** C21: Stop comes to an end, and not before what it waits for.  Whatever listeners,
websockets, clients and the notification manager do, and however their steps interleave:
when Stop has returned, both quit channels are closed, the two goroutines of the
notification manager and those of all listeners have returned, and both wait groups are
at zero.  And it does return: once Stop has closed the listeners the server's goroutines
take no more than [server_measure] steps as long as no new websocket comes, and get stuck
only when it has. *)
Theorem rpc_server_stops n s : rtc step (Start_life n) s ->
  (stopper s = S_returned ->
     closed s = true /\ quit s = true /\ squit s = true /\ qplace s = Q_ended /\ nplace s = N_ended /\ mwg s = 0 /\
     Forall (fun p => p = L_ended) (servings s) /\ swg s = 0) /\
  (alive s -> stop_closed (stopper s) = true ->
     (forall k s', nsteps own k s s' -> (k <= server_measure s)%nat) /\
     (forall s', rtc own s s' -> (forall s'', ~ own s' s'') -> stopper s' = S_returned) /\
     exists s', rtc own s s' /\ stopper s' = S_returned).
Proof.
  intros HR. pose proof (server_runs_ok _ _ HR) as HO. pose proof (server_runs_returned _ _ HR) as [RQ RS]. clear HR. split.
  { intros E. specialize (RS E). destruct (lo_waited _ _ _ HO) as [EQ EN]; [now rewrite E|]. split_and!; try done.
    - apply (lo_closed _ _ _ HO). now rewrite E.
    - apply (lo_quit _ _ _ HO). now rewrite E.
    - apply RQ. now right.
    - now rewrite (lo_mwg _ _ _ HO), EQ, EN.
    - clear - RS. induction (servings s) as [|p l IH]; constructor; cbn in RS; [destruct p; done || lia|apply IH; lia].
    - now rewrite (lo_swg _ _ _ HO), RS. }
  intros HL HC. split_and!.
  - intros k s' R. clear RQ RS. revert HO HL HC. induction R as [s|k s s1 s' H R IH]; [lia|]. intros HO HL HC.
    pose proof (server_goes_down s s1 HO (proj2 H)). specialize (IH (server_step_ok _ _ (own_step_of _ _ H) HO) (own_alive _ _ H) (own_closed _ _ H HC)).
    lia.
  - intros s' R St. assert (HX : life_ok auth reqs s' /\ alive s' /\ stop_closed (stopper s') = true).
    { generalize (conj HO (conj HL HC)). clear -R. induction R as [|x y z H _ IH]; [done|]. intros (A & B & C). apply IH. split_and!.
      - exact (server_step_ok _ _ (own_step_of _ _ H) A).
      - exact (own_alive _ _ H).
      - exact (own_closed _ _ H C). }
    destruct HX as (A & B & C). destruct (stop_progress s' A C) as [E|[s'' H]]; [done|]. destruct (St s''). split; [done|now apply own_manager].
  - now apply stop_runs_out.
Qed.

(** C22: a stopped server takes its clients with it.  When Stop has returned, or only
waits for the listeners any more, and RPCMaxConcurrentReqs is between 1 and 48, every
websocket client that was registered with the notification manager is disconnected; the
goroutines of each have a bounded number of steps left; and when nothing in the server
can take a step any more, though no goroutine has panicked, no WebsocketHandler is still busy with one of them, unless its
inHandler returned from within a batch. *)
Theorem stopped_server_clients n s i :
  rtc step (Start_life n) s -> stop_waited (stopper s) = true -> (0 < reqs <= 48)%nat -> i ∈ m_clients (mgr_of s) ->
  exists b c, conns s !! i = Some (b, c) /\ Disconnected c = true /\
    (forall k c', nsteps (live_step auth) k c c' -> (k <= conn_measure c)%nat) /\
    (alive s -> (forall s', ~ inner s s') -> inp c <> In_returned ->
       (H_start i ∉ handlers s) /\ (H_wait i ∉ handlers s) /\ (H_remove i ∉ handlers s)).
Proof.
  intros HR HS HQ Hi. pose proof (server_runs_ok _ _ HR) as HO. clear HR. pose proof HO as [].
  destruct (lo_waited0 HS) as [EQ EN]. specialize (lo_leaving0 i Hi). rewrite EN in lo_leaving0.
  destruct lo_leaving0 as (b & c & E & D). exists b, c. destruct (lo_conns0 _ _ _ E) as (id & a & adm & c0 & N0 & R0).
  pose proof (conn_runs_ok _ _ _ _ R0 (Start_ok _ _ _ _ _ N0)) as HC. split_and!; [done|done|intros k c2; now apply (live_bounded auth reqs)|].
  intros HL St HI.
  assert (HN : forall h h' s1, handler_goes max reqs s h h' s1 -> h ∉ handlers s).
  { intros h h' s1 H Hh. apply list_elem_of_split in Hh as (l1 & l2 & Eh). eapply (St _). split; [done|]. left. eapply own_handler; eassumption. }
  assert (HH : forall h, h ∈ handlers s -> handler_ok (conns s) h) by (now apply Forall_forall). split_and!; intros Hh.
  - destruct (HH _ Hh) as [c1 Ec]. eapply HN; [|exact Hh]. now apply (h_start _ _ _ i c1).
  - destruct (HH _ Hh) as [c1 Ec]. rewrite Ec in E. injection E as <- <-.
    destruct (conn_progress auth reqs c1 HC D HQ) as [HE|[c' H]].
    + eapply HN; [|exact Hh]. apply (h_wait _ _ _ i c1); [done|]. destruct HE as (EI & _ & E2 & E3 & _).
      unfold WsLife.WaitForShutdown_returns. rewrite (eo_wg _ _ (ok_ends _ _ HC)), E2, E3. now destruct EI as [-> |].
    + eapply (St _). split; [done|]. right. eapply client_step; [exact Ec|]. split; [exact (HL _ _ Ec)|exact H].
  - eapply HN; [|exact Hh]. apply h_remove_quit. apply lo_quit0. now destruct (stopper s).
Qed.

(** AddClient waits for queueHandler only, and not for the manager to quit: a
WebsocketHandler that comes to it when queueHandler has stopped waits for ever. *)
Theorem AddClient_blocks s s' i : qplace s <> Q_runs -> H_add i ∈ handlers s -> rtc step s s' -> H_add i ∈ handlers s'.
Proof.
  intros HQ HH H. revert HQ HH. cut (qplace s <> Q_runs -> H_add i ∈ handlers s -> qplace s' <> Q_runs /\ H_add i ∈ handlers s'); [tauto|].
  induction H as [|x y z H _ IH]; [done|]. intros HQ HH. cut (qplace y <> Q_runs /\ H_add i ∈ handlers y); [intros [A B]; auto|].
  clear IH. revert HQ HH. destruct H as [x y HL H|x y HL H|x srv r a adm HL _ _|x j b c HL E|x l1 l2 HL E|x HL E]; intros HQ HH.
  - revert HQ HH. destruct H as [x s1 h h' l1 l2 E H|x y H]; intros HQ HH.
    + rewrite E in HH. assert (HX : h <> H_add i -> H_add i ∈ l1 ++ h' :: l2) by (set_solver).
      cbn [with_handlers handlers qplace]. destruct H; try (split; [done|apply HX; done]); congruence.
    + destruct H; try done; congruence.
  - now destruct H.
  - split; [done|]. cbn. set_solver.
  - done.
  - done.
  - done.
Qed.
End reachable.

(** ** More websockets than RPCMaxWebsockets *)

Section race.
Context (auth : auth_state) (max : Z) (reqs : nat) (closing : list (option string)).
#[local] Abbreviation step := (server_step auth max reqs closing).

(** A request for a websocket without credentials. *)
Definition ws_request : http_request := MkHttpRequest (Err ""%string) [] (1, 1) true None None.
Definition with_auth : rpcServer := MkServer 0 0 0 auth ∅ false 0.

(** The manager is idle and the clients are well. *)
Record idle (s : server_life) : Prop := {
  id_queue : qplace s = Q_runs /\ skipQueue (queue_of s) = true; id_loop : nplace s = N_loop;
  id_below i : i ∈ m_clients (mgr_of s) -> (i < next_id s)%nat;
  id_well : map_Forall (fun _ e => crashed e.2 = false /\ Disconnected e.2 = false) (conns s) }.

Lemma idle_alive s : idle s -> alive s.
Proof. intros [_ _ _ H]. eapply map_Forall_impl; [exact H|]. now intros i e [A _]. Qed.
Lemma idle_handlers s l : idle s -> idle (with_handlers l s).
Proof. intros []. constructor; done. Qed.

Lemma one_admitted s l1 l2 : handlers s = l1 ++ H_new false false :: l2 -> idle s ->
  exists s', rtc step s s' /\ idle s' /\ handlers s' = l1 ++ H_start (next_id s) :: l2 /\
    size (m_clients (mgr_of s')) = S (size (m_clients (mgr_of s))).
Proof.
  intros E HI. pose proof HI as [[Q1 Q2] L B W].
  set (c := MkClient false false false 7 reqs 0 [] [] false).
  set (s1 := with_handlers (l1 ++ H_add (next_id s) :: l2) (with_conns (<[next_id s := (false, WsLife.Start c)]> (conns s)) (S (next_id s)) s)).
  assert (W1 : map_Forall (fun _ e => crashed e.2 = false /\ Disconnected e.2 = false) (conns s1)) by (apply map_Forall_insert_2; done).
  exists (with_handlers (l1 ++ H_start (next_id s) :: l2) (arrives (notificationRegisterClient (next_id s)) true s1)).
  assert (EA : arrives (notificationRegisterClient (next_id s)) true s1 =
    notify_handler (notificationRegisterClient (next_id s)) (with_queue (on_in (notificationRegisterClient (next_id s)) true (queue_of s1)) (qplace s1) 0 s1)).
  { unfold arrives. cbn [s1 with_handlers with_conns queue_of]. now rewrite Q2. }
  split_and!.
  - eapply rtc_l; [|apply rtc_once].
    + apply s_own; [now apply idle_alive|]. eapply own_handler; [exact E|]. now apply (h_client max reqs s false false 7 c).
    + apply s_own; [eapply map_Forall_impl; [exact W1|now intros i e [A _]]|]. eapply (own_handler _ _ _ s1); [reflexivity|].
      now apply h_add.
  - rewrite EA. constructor; unfold s1; cbn; try done.
    + unfold on_in. now rewrite Q2.
    + intros i [->%elem_of_singleton|H%B]%elem_of_union; lia.
  - done.
  - rewrite EA. unfold s1. cbn. rewrite size_union, size_singleton; [done|]. intros i ->%elem_of_singleton H%B. lia.
Qed.

Lemma all_admitted n : forall s l, handlers s = l ++ replicate n (H_new false false) -> idle s ->
  exists s', rtc step s s' /\ idle s' /\ size (m_clients (mgr_of s')) = (n + size (m_clients (mgr_of s)))%nat.
Proof.
  induction n as [|n IH]; intros s l E HI; [now exists s|].
  destruct (one_admitted s l (replicate n (H_new false false)) E HI) as (s1 & R1 & I1 & E1 & S1).
  destruct (IH s1 (l ++ [H_start (next_id s)])) as (s2 & R2 & I2 & S2); [now rewrite E1, <- app_assoc|done|].
  exists s2. split; [etransitivity; eassumption|]. split; [done|lia].
Qed.

Lemma all_counted listeners n : 1 <= max ->
  rtc step (Start_life listeners) (with_handlers (replicate n (H_new false false)) (Start_life listeners)).
Proof.
  intros HM. assert (HI : idle (Start_life listeners)) by (constructor; cbn; try done; set_solver).
  induction n as [|n IH]; [reflexivity|]. etransitivity; [exact IH|].
  eapply rtc_l; [apply (s_request _ _ _ _ _ with_auth ws_request false false); [now apply idle_alive, idle_handlers|done|reflexivity]|].
  eapply rtc_l; [apply s_own; [now apply idle_alive, idle_handlers, idle_handlers|]; eapply (own_handler _ _ _ _ _ _ _ _ []); [reflexivity|now apply h_count]|].
  apply reflexive_eq. rewrite replicate_S_end. unfold limited. cbn.
  change (NumClients newManager + 1) with 1. replace (max <? 1) with false by (symmetry; apply Z.ltb_ge; lia). reflexivity.
Qed.

(** C23: the limit on websockets does not hold.  WebsocketHandler asks for the number of
clients and registers its own later, and nothing keeps two handlers apart: whatever
RPCMaxWebsockets is, if it lets anyone in, any number of clients can be registered and
connected at the same time, all of them without credentials. *)
Theorem websockets_unlimited listeners n : 1 <= max ->
  exists s, rtc step (Start_life listeners) s /\ alive s /\ NumClients (mgr_of s) = Z.of_nat n /\
    forall i b c, conns s !! i = Some (b, c) -> Disconnected c = false.
Proof.
  intros HM. assert (HI : idle (with_handlers (replicate n (H_new false false)) (Start_life listeners)))
    by (constructor; cbn; try done; set_solver).
  destruct (all_admitted n (with_handlers (replicate n (H_new false false)) (Start_life listeners)) [] eq_refl HI) as (s & R & I & S). exists s. split_and!.
  - etransitivity; [now apply all_counted|exact R].
  - now apply idle_alive.
  - unfold NumClients. rewrite S. cbn. now rewrite Nat.add_0_r.
  - intros i b c E. exact (proj2 (id_well _ I _ _ E)).
Qed.
End race.

Lemma websockets_unlimited_witness : exists s,
  rtc (server_step (newRPCServer_auth sample_credentials) 25 20 [None]) (Start_life 1) s /\ NumClients (mgr_of s) = 1000.
Proof.
  destruct (websockets_unlimited (newRPCServer_auth sample_credentials) 25 20 [None] 1 1000 ltac:(lia)) as (s & R & _ & N & _).
  exists s. split; [exact R|exact N].
Defined.

(** A server with one listener and one websocket, stopped: its Stop has returned, and
the client is still to be waited for. *)
Section witnesses.
#[local] Abbreviation wstep := (server_step (newRPCServer_auth sample_credentials) 25 20 [None]).
#[local] Ltac run tac :=
  eapply rtc_l; [tac|];
  lazymatch goal with |- rtc _ ?a _ => let b := eval vm_compute in a in change a with b end.
#[local] Ltac lives := apply (bool_decide_unpack _); vm_compute; exact I.
#[local] Ltac does tac := run ltac:(apply s_own; [lives|tac]).

Lemma closing_run : exists s, rtc wstep (Start_life 1) s /\ stopper s = S_manager /\ alive s.
Proof.
  eexists. split; [|split].
  - run ltac:(apply s_stop; [lives|reflexivity]).
    does ltac:(apply own_manager; eapply st_listeners; reflexivity). reflexivity.
  - reflexivity.
  - lives.
Defined.

Lemma stopped_run : exists s, rtc wstep (Start_life 1) s /\ stopper s = S_returned /\ 0%nat ∈ m_clients (mgr_of s).
Proof.
  eexists. split; [|split].
  - run ltac:(apply (s_request _ _ _ _ _ (with_auth (newRPCServer_auth sample_credentials)) ws_request false false); [lives|reflexivity|reflexivity]).
    does ltac:(eapply (own_handler _ _ _ _ _ _ _ [] []); [reflexivity|apply h_count; reflexivity]).
    does ltac:(eapply (own_handler _ _ _ _ _ _ _ [] []); [reflexivity|apply (h_client 25 20 _ false false 7); reflexivity]).
    does ltac:(eapply (own_handler _ _ _ _ _ _ _ [] []); [reflexivity|apply (h_add 25 20 _ 0 true); reflexivity]).
    does ltac:(eapply (own_handler _ _ _ _ _ _ _ [] []); [reflexivity|eapply h_start; reflexivity]).
    run ltac:(apply s_stop; [lives|reflexivity]).
    does ltac:(apply own_manager; eapply st_listeners; reflexivity).
    does ltac:(apply own_manager; apply st_manager; reflexivity).
    does ltac:(apply own_manager; apply m_queue_quit; reflexivity).
    does ltac:(apply own_manager; apply m_queue_done; reflexivity).
    does ltac:(apply own_manager; apply m_quit; reflexivity).
    does ltac:(apply own_manager; eapply m_leave; reflexivity).
    does ltac:(apply own_manager; apply m_done; reflexivity).
    does ltac:(apply own_manager; apply st_wait; reflexivity).
    does ltac:(apply own_manager; apply st_quit; reflexivity).
    does ltac:(apply own_manager; apply (l_closed _ _ [] []); reflexivity).
    does ltac:(apply own_manager; apply (l_done _ _ [] []); reflexivity).
    does ltac:(apply own_manager; apply st_wg; reflexivity). reflexivity.
  - reflexivity.
  - lives.
Defined.
End witnesses.

Lemma rpc_server_stops_witness : exists s s', rtc (own 25 20 [None]) s s' /\ stopper s = S_manager /\ stopper s' = S_returned.
Proof.
  destruct closing_run as (s & R & E & HL).
  destruct (rpc_server_stops (newRPCServer_auth sample_credentials) 25 20 [None] 1 s R) as [_ H].
  destruct (H HL ltac:(now rewrite E)) as (_ & _ & s' & R' & E').
  exists s, s'. split; [exact R'|]. split; [exact E|exact E'].
Defined.

Lemma stopped_server_clients_witness : exists s b c, stopper s = S_returned /\
  conns s !! 0%nat = Some (b, c) /\ Disconnected c = true.
Proof.
  destruct stopped_run as (s & R & E & Hi).
  destruct (stopped_server_clients (newRPCServer_auth sample_credentials) 25 20 [None] 1 s 0 R) as (b & c & Ec & D & _); [now rewrite E|lia|exact Hi|].
  exists s, b, c. split; [exact E|]. split; [exact Ec|exact D].
Defined.
