(* ===== verification/RpcClientNtfn.v ===== *)
(** * The notifications of rpcclient (rpcclient/notify.go)

What a client makes of a notification from the server: the parsers of the
parameters and the dispatch to the handlers the caller registered. *)

From Stdlib Require Import ZArith Lia List.
From Stdlib Require Import Strings.String Strings.Byte.
From S2P Require Import Prelude WireFormat TxFormat WireCommon WireMsgTx ChainHash WireBlock JsonTypes AcbcJson AcbcJsonCmds.
From S2P Require Import GoFloat Amount AcbcUtil.

#[local] Open Scope list_scope.
#[local] Set Warnings "-register-all".

(** ** Errors *)

(** The errors of the package and those it passes on; [CParams] is
wrongNumParams, [CHexByte] and [CHexLength] those of encoding/hex. *)
Inductive cerr :=
  | ErrInvalidAuth | ErrInvalidEndpoint | ErrClientNotConnected | ErrClientDisconnect | ErrClientShutdown
  | ErrWebsocketsRequired
  | CRpc (e : RPCError) | CCmd (e : jerr) | CJson (e : uerr) | CHash (e : herr) | CWire (e : werr)
  | CHexByte (b : byte) | CHexLength | CParams (n : Z) | CAmount | COther (msg : string).

Definition wrongNumParams (n : nat) : cerr := CParams (Z.of_nat n).
Definition wrongNumParams_Error (n : Z) : string := ("wrong number of parameters (" +:+ fmt_d n +:+ ")")%string.

Definition map_err {E E' A} (f : E -> E') (r : result E A) : result E' A :=
  match r with Ok a => Ok a | Err e => Err (f e) end.

(** ** json.Unmarshal into variables *)

Definition unmarshal_new (t : gtype) (j : json) : result cerr gval := map_err CJson (Unmarshal t (zero t) j).

Definition json_string (j : json) : result cerr string :=
  v ← unmarshal_new (TBase KindString) j; mret (match v with VStr s => s | _ => ""%string end).
Definition json_bool (j : json) : result cerr bool :=
  v ← unmarshal_new (TBase KindBool) j; mret (match v with VBool b => b | _ => false end).
Definition json_int (k : gkind) (j : json) : result cerr Z :=
  v ← unmarshal_new (TBase k) j; mret (match v with VInt z => z | _ => 0 end).
Definition json_strings (j : json) : result cerr (list string) :=
  v ← unmarshal_new (TSlice (TBase KindString)) j;
  mret (match v with VSlice (Some l) => map (fun x => match x with VStr s => s | _ => ""%string end) l | _ => [] end).
(** A number out of the range of float64 does not unmarshal. *)
Definition json_float (j : json) : result cerr float64 :=
  v ← unmarshal_new (TBase KindFloat64) j;
  match v with
  | VFloat lit => match f64_of_json lit with
                  | Some f => mret f
                  | None => Err (CJson (UnmarshalTypeError "float64" (value_string (TBase KindFloat64) lit)))
                  end
  | _ => mret f64_zero
  end.

(** hex.DecodeString: pairs of digits, then the length. *)
Fixpoint hex_DecodeString (src : bytes) : result cerr bytes :=
  match src with
  | p :: q :: rest =>
      match fromHexChar p, fromHexChar q with
      | None, _ => Err (CHexByte p)
      | _, None => Err (CHexByte q)
      | Some a, Some b => bs ← hex_DecodeString rest; mret (byte_of (Z.lor (Z.shiftl a 4) b) :: bs)
      end
  | [p] => match fromHexChar p with None => Err (CHexByte p) | Some _ => Err CHexLength end
  | [] => mret []
  end.

(** ** The parsers *)

Definition new_hash (s : string) : result cerr bytes := map_err CHash (NewHashFromStr (list_byte_of_string s)).
Definition time_Unix (sec : Z) : gotime := Time sec 0.

Definition parseChainNtfnParams (params : list json) : result cerr (bytes * Z * gotime) :=
  match params with
  | [p0; p1; p2] =>
      blockHashStr ← json_string p0;
      blockHeight ← json_int KindInt32 p1;
      blockTimeUnix ← json_int KindInt64 p2;
      blockHash ← new_hash blockHashStr;
      mret (blockHash, blockHeight, time_Unix blockTimeUnix)
  | _ => Err (wrongNumParams (length params))
  end.

Definition parseHexParam (param : json) : result cerr bytes :=
  s ← json_string param; hex_DecodeString (list_byte_of_string s).

Section parsers.
(** The free list the decoders work with, and int64(f) out of range. *)
Context (w : world) (other : float64 -> Z).

Definition deserialize_header (b : bytes) : result cerr BlockHeader :=
  map_err CWire (Deserialize_header (set_rd (Reader b EOF) w)).1.

(** The loop over the transactions. *)
Fixpoint hex_transactions (hexTransactions : list string) : result cerr (list Tx) :=
  match hexTransactions with
  | [] => mret []
  | hexTx :: rest =>
      transaction ← hex_DecodeString (list_byte_of_string hexTx);
      t ← map_err CWire (NewTxFromBytes transaction w);
      ts ← hex_transactions rest; mret (t :: ts)
  end.

Definition parseFilteredBlockConnectedParams (params : list json) : result cerr (Z * BlockHeader * list Tx) :=
  match params with
  | p0 :: p1 :: p2 :: _ =>
      blockHeight ← json_int KindInt32 p0;
      blockHeaderBytes ← parseHexParam p1;
      blockHeader ← deserialize_header blockHeaderBytes;
      hexTransactions ← json_strings p2;
      transactions ← hex_transactions hexTransactions;
      mret (blockHeight, blockHeader, transactions)
  | _ => Err (wrongNumParams (length params))
  end.

Definition parseFilteredBlockDisconnectedParams (params : list json) : result cerr (Z * BlockHeader) :=
  match params with
  | p0 :: p1 :: _ =>
      blockHeight ← json_int KindInt32 p0;
      blockHeaderBytes ← parseHexParam p1;
      blockHeader ← deserialize_header blockHeaderBytes;
      mret (blockHeight, blockHeader)
  | _ => Err (wrongNumParams (length params))
  end.

Definition parseRelevantTxAcceptedParams (params : list json) : result cerr bytes :=
  match params with
  | p0 :: _ => parseHexParam p0
  | [] => Err (wrongNumParams 0)
  end.

(** The block is a pointer: nil when it is absent or null. *)
Definition parseChainTxNtfnParams (params : list json) : result cerr (Tx * option gval) :=
  match params with
  | [] | _ :: _ :: _ :: _ => Err (wrongNumParams (length params))
  | p0 :: rest =>
      txHex ← json_string p0;
      block ← match rest with
              | p1 :: _ => v ← unmarshal_new (TPtr BlockDetails) p1; mret (match v with VPtr b => b | _ => None end)
              | [] => mret None
              end;
      serializedTx ← hex_DecodeString (list_byte_of_string txHex);
      msgTx ← map_err CWire (Deserialize (set_rd (Reader serializedTx EOF) w)).1;
      mret (NewTx msgTx, block)
  end.

Definition parseRescanProgressParams (params : list json) : result cerr (bytes * Z * gotime) :=
  match params with
  | [p0; p1; p2] =>
      hashStr ← json_string p0;
      height ← json_int KindInt32 p1;
      blkTime ← json_int KindInt64 p2;
      hash ← new_hash hashStr;
      mret (hash, height, time_Unix blkTime)
  | _ => Err (wrongNumParams (length params))
  end.

Definition new_amount (f : float64) : result cerr Z :=
  match NewAmount other f with Some a => mret a | None => Err CAmount end.

Definition parseTxAcceptedNtfnParams (params : list json) : result cerr (bytes * Z) :=
  match params with
  | [p0; p1] =>
      txHashStr ← json_string p0;
      famt ← json_float p1;
      amt ← new_amount famt;
      txHash ← new_hash txHashStr;
      mret (txHash, amt)
  | _ => Err (wrongNumParams (length params))
  end.

Definition parseTxAcceptedVerboseNtfnParams (params : list json) : result cerr gval :=
  match params with
  | [p0] => unmarshal_new TxRawResult p0
  | _ => Err (wrongNumParams (length params))
  end.

Definition parseBtcdConnectedNtfnParams (params : list json) : result cerr bool :=
  match params with
  | [p0] => json_bool p0
  | _ => Err (wrongNumParams (length params))
  end.

Definition parseAccountBalanceNtfnParams (params : list json) : result cerr (string * Z * bool) :=
  match params with
  | [p0; p1; p2] =>
      account ← json_string p0;
      fbal ← json_float p1;
      confirmed ← json_bool p2;
      bal ← new_amount fbal;
      mret (account, bal, confirmed)
  | _ => Err (wrongNumParams (length params))
  end.

Definition parseWalletLockStateNtfnParams (params : list json) : result cerr (string * bool) :=
  match params with
  | [p0; p1] => account ← json_string p0; locked ← json_bool p1; mret (account, locked)
  | _ => Err (wrongNumParams (length params))
  end.
End parsers.

(** ** The handlers *)

(** Which of the callbacks are set. *)
Record NotificationHandlers := MkHandlers {
  OnClientConnected : bool; OnBlockConnected : bool; OnFilteredBlockConnected : bool; OnBlockDisconnected : bool;
  OnFilteredBlockDisconnected : bool; OnRecvTx : bool; OnRedeemingTx : bool; OnRelevantTxAccepted : bool;
  OnRescanFinished : bool; OnRescanProgress : bool; OnTxAccepted : bool; OnTxAcceptedVerbose : bool;
  OnBtcdConnected : bool; OnAccountBalance : bool; OnWalletLockState : bool; OnUnknownNotification : bool }.

(** A call of one of them, with its arguments. *)
Inductive ntfn_call :=
  | CallBlockConnected (hash : bytes) (height : Z) (t : gotime)
  | CallFilteredBlockConnected (height : Z) (header : BlockHeader) (txs : list Tx)
  | CallBlockDisconnected (hash : bytes) (height : Z) (t : gotime)
  | CallFilteredBlockDisconnected (height : Z) (header : BlockHeader)
  | CallRecvTx (transaction : Tx) (details : option gval)
  | CallRedeemingTx (transaction : Tx) (details : option gval)
  | CallRelevantTxAccepted (transaction : bytes)
  | CallRescanFinished (hash : bytes) (height : Z) (blkTime : gotime)
  | CallRescanProgress (hash : bytes) (height : Z) (blkTime : gotime)
  | CallTxAccepted (hash : bytes) (amount : Z)
  | CallTxAcceptedVerbose (txDetails : gval)
  | CallBtcdConnected (connected : bool)
  | CallAccountBalance (account : string) (balance : Z) (confirmed : bool)
  | CallWalletLockState (locked : bool)
  | CallUnknownNotification (method : string) (params : list json).

Definition BlockConnectedNtfnMethod : string := "blockconnected".
Definition BlockDisconnectedNtfnMethod : string := "blockdisconnected".
Definition FilteredBlockConnectedNtfnMethod : string := "filteredblockconnected".
Definition FilteredBlockDisconnectedNtfnMethod : string := "filteredblockdisconnected".
Definition RecvTxNtfnMethod : string := "recvtx".
Definition RedeemingTxNtfnMethod : string := "redeemingtx".
Definition RescanFinishedNtfnMethod : string := "rescanfinished".
Definition RescanProgressNtfnMethod : string := "rescanprogress".
Definition TxAcceptedNtfnMethod : string := "txaccepted".
Definition TxAcceptedVerboseNtfnMethod : string := "txacceptedverbose".
Definition RelevantTxAcceptedNtfnMethod : string := "relevanttxaccepted".
Definition AccountBalanceNtfnMethod : string := "accountbalance".
Definition BtcdConnectedNtfnMethod : string := "btcdconnected".
Definition WalletLockStateNtfnMethod : string := "walletlockstate".

(** The cases of the switch: the method, whether its handler is set, and the
call its parameters give. *)
Definition case_of {A} (handler : bool) (parse : list json -> result cerr A) (call : A -> ntfn_call)
    (params : list json) : option ntfn_call :=
  if handler then match parse params with Ok a => Some (call a) | Err _ => None end else None.

Section handle.
Context (w : world) (other : float64 -> Z).

(** The notifications of a chain server about blocks and watched outputs. *)
Definition handle_block_ntfn (h : NotificationHandlers) (method : string) (params : list json) : option (option ntfn_call) :=
  if bool_decide (method = BlockConnectedNtfnMethod) then
    Some (case_of (OnBlockConnected h) parseChainNtfnParams (fun '(a, b, c) => CallBlockConnected a b c) params)
  else if bool_decide (method = FilteredBlockConnectedNtfnMethod) then
    Some (case_of (OnFilteredBlockConnected h) (parseFilteredBlockConnectedParams w)
            (fun '(a, b, c) => CallFilteredBlockConnected a b c) params)
  else if bool_decide (method = BlockDisconnectedNtfnMethod) then
    Some (case_of (OnBlockDisconnected h) parseChainNtfnParams (fun '(a, b, c) => CallBlockDisconnected a b c) params)
  else if bool_decide (method = FilteredBlockDisconnectedNtfnMethod) then
    Some (case_of (OnFilteredBlockDisconnected h) (parseFilteredBlockDisconnectedParams w)
            (fun '(a, b) => CallFilteredBlockDisconnected a b) params)
  else if bool_decide (method = RecvTxNtfnMethod) then
    Some (case_of (OnRecvTx h) (parseChainTxNtfnParams w) (fun '(a, b) => CallRecvTx a b) params)
  else if bool_decide (method = RedeemingTxNtfnMethod) then
    Some (case_of (OnRedeemingTx h) (parseChainTxNtfnParams w) (fun '(a, b) => CallRedeemingTx a b) params)
  else None.

(** The others. *)
Definition handle_other_ntfn (h : NotificationHandlers) (method : string) (params : list json) : option ntfn_call :=
  if bool_decide (method = RelevantTxAcceptedNtfnMethod) then
    case_of (OnRelevantTxAccepted h) parseRelevantTxAcceptedParams CallRelevantTxAccepted params
  else if bool_decide (method = RescanFinishedNtfnMethod) then
    case_of (OnRescanFinished h) parseRescanProgressParams (fun '(a, b, c) => CallRescanFinished a b c) params
  else if bool_decide (method = RescanProgressNtfnMethod) then
    case_of (OnRescanProgress h) parseRescanProgressParams (fun '(a, b, c) => CallRescanProgress a b c) params
  else if bool_decide (method = TxAcceptedNtfnMethod) then
    case_of (OnTxAccepted h) (parseTxAcceptedNtfnParams other) (fun '(a, b) => CallTxAccepted a b) params
  else if bool_decide (method = TxAcceptedVerboseNtfnMethod) then
    case_of (OnTxAcceptedVerbose h) parseTxAcceptedVerboseNtfnParams CallTxAcceptedVerbose params
  else if bool_decide (method = BtcdConnectedNtfnMethod) then
    case_of (OnBtcdConnected h) parseBtcdConnectedNtfnParams CallBtcdConnected params
  else if bool_decide (method = AccountBalanceNtfnMethod) then
    case_of (OnAccountBalance h) (parseAccountBalanceNtfnParams other) (fun '(a, b, c) => CallAccountBalance a b c) params
  else if bool_decide (method = WalletLockStateNtfnMethod) then
    case_of (OnWalletLockState h) parseWalletLockStateNtfnParams (fun '(_, b) => CallWalletLockState b) params
  else if OnUnknownNotification h then Some (CallUnknownNotification method params) else None.

(** handleNotification: the call it makes, if any. *)
Definition handleNotification (handlers : option NotificationHandlers) (method : string) (params : list json) : option ntfn_call :=
  match handlers with
  | None => None
  | Some h => match handle_block_ntfn h method params with
              | Some c => c
              | None => handle_other_ntfn h method params
              end
  end.
End handle.
