(* ===== verification/RpcClient.v ===== *)
(** * The client's requests (rpcclient/infrastructure.go)

A client of the RPC server: requests are numbered and tracked until a response
with their number comes, the client is disconnected or it is shut down; requests
still tracked are sent again after a reconnection.  Each operation is a function
on the state of the client; [client_step] interleaves them the way the locks of
the code let them. *)

From Stdlib Require Import ZArith Lia List.
From Stdlib Require Import Strings.String.
From S2P Require Import Prelude WireFormat WireCommon JsonTypes AcbcJson AcbcJsonCmds GoFloat RpcClientNtfn.

#[local] Open Scope list_scope.
#[local] Set Warnings "-register-all".

(** ** Messages *)

(** A response on its way to a caller; [None] is a nil slice or a nil error. *)
Record Response := MkResponse { r_result : option json; r_err : option cerr }.
Definition error_response (e : cerr) : Response := MkResponse None (Some e).

Record jsonRequest := MkJsonRequest {
  j_id : Z; j_method : string; j_cmd : command; j_json : json;
  j_chan : nat  (** its response channel, which has room for one response *) }.

(** inMessage with its two embedded structs, which are allocated beforehand. *)
Record inMessage := MkIn {
  in_ID : option float64; in_Method : string; in_Params : option (list json);
  in_Result : option json; in_Error : option RPCError }.
Definition empty_in : inMessage := MkIn None "" None None None.

Definition RPCError_type : gtype := TStruct "acbcjson.RPCError"
  [(Field "Code" false false "code" true None, TBase KindInt);
   (Field "Message" false false "message" true None, TBase KindString)].

(** json.Unmarshal into an *RPCError that holds [cur]. *)
Definition unmarshal_rpc_error (cur : option RPCError) (j : json) : result uerr (option RPCError) :=
  let held := match cur with Some e => Some (VStruct [VInt (Code e); VStr (Message e)]) | None => None end in
  v ← Unmarshal (TPtr RPCError_type) (VPtr held) j;
  mret (match v with VPtr (Some (VStruct [VInt c; VStr m])) => Some (MkRPCError c m) | _ => None end).

(** One member of the message; [false] is an error to report. *)
Definition in_member (acc : bool * inMessage) (member : string * json) : bool * inMessage :=
  let '(ok, i) := acc in
  let '(name, j) := member in
  if EqualFold name "id" then
    match j with
    | JNull => (ok, MkIn None (in_Method i) (in_Params i) (in_Result i) (in_Error i))
    | JInt _ | JDec _ =>
        match f64_of_json j with
        | Some f => (ok, MkIn (Some f) (in_Method i) (in_Params i) (in_Result i) (in_Error i))
        | None => (false, i)
        end
    | _ => (false, i)
    end
  else if EqualFold name "method" then
    match j with
    | JStr s => (ok, MkIn (in_ID i) s (in_Params i) (in_Result i) (in_Error i))
    | JNull => (ok, i)
    | _ => (false, i)
    end
  else if EqualFold name "params" then
    match j with
    | JArr l => (ok, MkIn (in_ID i) (in_Method i) (Some l) (in_Result i) (in_Error i))
    | JNull => (ok, MkIn (in_ID i) (in_Method i) None (in_Result i) (in_Error i))
    | _ => (false, i)
    end
  else if EqualFold name "result" then
    (ok, MkIn (in_ID i) (in_Method i) (in_Params i) (Some j) (in_Error i))
  else if EqualFold name "error" then
    match unmarshal_rpc_error (in_Error i) j with
    | Ok e => (ok, MkIn (in_ID i) (in_Method i) (in_Params i) (in_Result i) e)
    | Err _ => (false, i)
    end
  else (ok, i).

(** json.Unmarshal of a message; [None] is an error. *)
Definition unmarshal_in (j : json) : option inMessage :=
  match j with
  | JNull => Some empty_in
  | JObj ms => match fold_left in_member ms (true, empty_in) with (true, i) => Some i | _ => None end
  | _ => None
  end.

(** (r rawResponse) result. *)
Definition rawResponse_result (res : option json) (err : option RPCError) : Response :=
  match err with
  | Some e => MkResponse None (Some (CRpc e))
  | None => MkResponse res None
  end.

(** ** The client *)

(** What was registered with the server, to be registered again. *)
Record notificationState := MkNtfnState {
  notifyBlocks : bool; notifyNewTx : bool; notifyNewTxVerbose : bool;
  notifyReceived : gset string; notifySpent : gset (string * Z) }.
Definition newNotificationState : notificationState := MkNtfnState false false false ∅ ∅.

(** An element of requestList or, in batch mode, of batchList. *)
Record element := MkElement { e_no : nat; e_batch : bool; e_req : jsonRequest }.

(** [next_elem] and [next_chan] name the elements and channels made so far;
[responses] is what was sent to the response channels and [calls] the handlers
called, oldest first. *)
Record Client := MkClient {
  c_id : Z; next_elem : nat; next_chan : nat;
  HTTPPostMode : bool; DisableAutoReconnect : bool;
  connEstablished : bool; disconnected : bool; shutdown : bool;
  batch : bool; batchList : list element;
  requestMap : gmap Z element; requestList : list element;
  ntfnHandlers : option NotificationHandlers; ntfnState : notificationState;
  sendChan : list json; sendPostChan : list jsonRequest;
  responses : list (nat * Response); calls : list ntfn_call }.

Definition set_id (z : Z) (c : Client) : Client :=
  MkClient z (next_elem c) (next_chan c) (HTTPPostMode c) (DisableAutoReconnect c) (connEstablished c) (disconnected c)
    (shutdown c) (batch c) (batchList c) (requestMap c) (requestList c) (ntfnHandlers c) (ntfnState c) (sendChan c)
    (sendPostChan c) (responses c) (calls c).
Definition set_conn (d s : bool) (c : Client) : Client :=
  MkClient (c_id c) (next_elem c) (next_chan c) (HTTPPostMode c) (DisableAutoReconnect c) (connEstablished c) d
    s (batch c) (batchList c) (requestMap c) (requestList c) (ntfnHandlers c) (ntfnState c) (sendChan c)
    (sendPostChan c) (responses c) (calls c).
Definition set_requests (m : gmap Z element) (l : list element) (c : Client) : Client :=
  MkClient (c_id c) (next_elem c) (next_chan c) (HTTPPostMode c) (DisableAutoReconnect c) (connEstablished c) (disconnected c)
    (shutdown c) (batch c) (batchList c) m l (ntfnHandlers c) (ntfnState c) (sendChan c)
    (sendPostChan c) (responses c) (calls c).
Definition set_ntfnState (n : notificationState) (c : Client) : Client :=
  MkClient (c_id c) (next_elem c) (next_chan c) (HTTPPostMode c) (DisableAutoReconnect c) (connEstablished c) (disconnected c)
    (shutdown c) (batch c) (batchList c) (requestMap c) (requestList c) (ntfnHandlers c) n (sendChan c)
    (sendPostChan c) (responses c) (calls c).
Definition set_queues (q : list json) (p : list jsonRequest) (c : Client) : Client :=
  MkClient (c_id c) (next_elem c) (next_chan c) (HTTPPostMode c) (DisableAutoReconnect c) (connEstablished c) (disconnected c)
    (shutdown c) (batch c) (batchList c) (requestMap c) (requestList c) (ntfnHandlers c) (ntfnState c) q
    p (responses c) (calls c).
Definition add_call (o : option ntfn_call) (c : Client) : Client :=
  MkClient (c_id c) (next_elem c) (next_chan c) (HTTPPostMode c) (DisableAutoReconnect c) (connEstablished c) (disconnected c)
    (shutdown c) (batch c) (batchList c) (requestMap c) (requestList c) (ntfnHandlers c) (ntfnState c) (sendChan c)
    (sendPostChan c) (responses c) (calls c ++ match o with Some x => [x] | None => [] end).

(** [responseChan <- &Response{..}]. *)
Definition deliver (ch : nat) (r : Response) (c : Client) : Client :=
  MkClient (c_id c) (next_elem c) (next_chan c) (HTTPPostMode c) (DisableAutoReconnect c) (connEstablished c) (disconnected c)
    (shutdown c) (batch c) (batchList c) (requestMap c) (requestList c) (ntfnHandlers c) (ntfnState c) (sendChan c)
    (sendPostChan c) (responses c ++ [(ch, r)]) (calls c).
(** [make(chan *Response, 1)]. *)
Definition make_chan (c : Client) : nat * Client :=
  (next_chan c,
   MkClient (c_id c) (next_elem c) (S (next_chan c)) (HTTPPostMode c) (DisableAutoReconnect c) (connEstablished c)
     (disconnected c) (shutdown c) (batch c) (batchList c) (requestMap c) (requestList c) (ntfnHandlers c) (ntfnState c)
     (sendChan c) (sendPostChan c) (responses c) (calls c)).
(** PushBack on the list that [batch] selects, and the entry of the map. *)
Definition push_request (r : jsonRequest) (c : Client) : Client :=
  let e := MkElement (next_elem c) (batch c) r in
  MkClient (c_id c) (S (next_elem c)) (next_chan c) (HTTPPostMode c) (DisableAutoReconnect c) (connEstablished c)
    (disconnected c) (shutdown c) (batch c) (if batch c then batchList c ++ [e] else batchList c)
    (<[j_id r := e]> (requestMap c)) (if batch c then requestList c else requestList c ++ [e])
    (ntfnHandlers c) (ntfnState c) (sendChan c) (sendPostChan c) (responses c) (calls c).

(** ** Sending *)

Definition NextID (c : Client) : Z * Client := let id := u64 (c_id c + 1) in (id, set_id id c).

Definition addRequest (jReq : jsonRequest) (c : Client) : option cerr * Client :=
  if shutdown c then (Some ErrClientShutdown, c) else (None, push_request jReq c).

(** sendPostRequest: a client that is shutting down answers, and queues the
request all the same. *)
Definition sendPostRequest (jReq : jsonRequest) (c : Client) : Client :=
  let c := if shutdown c then deliver (j_chan jReq) (error_response ErrClientShutdown) c else c in
  set_queues (sendChan c) (sendPostChan c ++ [jReq]) c.

(** sendRequest up to its call of sendMessage: the message to send, if any. *)
Definition sendRequest (jReq : jsonRequest) (c : Client) : option json * Client :=
  if HTTPPostMode c then
    (None, if batch c then (addRequest jReq c).2 else sendPostRequest jReq c)
  else if negb (connEstablished c) then
    (None, deliver (j_chan jReq) (error_response ErrClientNotConnected) c)
  else
    match addRequest jReq c with
    | (Some err, c) => (None, deliver (j_chan jReq) (error_response err) c)
    | (None, c) => (Some (j_json jReq), c)
    end.

Definition sendBufferSize : nat := 50.
Definition sendPostBufferSize : nat := 100.

(** sendMessage: the select may take either branch that is ready, the send
([drop = false]) or the closed disconnect channel. *)
Definition sendMessage_ready (drop : bool) (c : Client) : bool :=
  if drop then disconnected c else (length (sendChan c) <? sendBufferSize)%nat.
Definition sendMessage (drop : bool) (m : json) (c : Client) : Client :=
  if drop then c else set_queues (sendChan c ++ [m]) (sendPostChan c) c.

Definition newFutureError (err : cerr) (c : Client) : nat * Client :=
  let '(ch, c) := make_chan c in (ch, deliver ch (error_response err) c).
Definition newNilFutureResult (c : Client) : nat * Client :=
  let '(ch, c) := make_chan c in (ch, deliver ch (MkResponse None None) c).

Section commands.
Context (reg : registry).

(** SendCmd up to its call of sendRequest: the channel it returns and the
request, if the command can be sent. *)
Definition SendCmd_request (cmd : command) (c : Client) : nat * option jsonRequest * Client :=
  let rpcVersion := if batch c then RpcVersion2 else RpcVersion1 in
  match CmdMethod reg cmd with
  | Err e => let '(ch, c) := newFutureError (CCmd e) c in (ch, None, c)
  | Ok method =>
      let '(id, c) := NextID c in
      match MarshalCmd reg rpcVersion (JInt id) cmd with
      | Err e => let '(ch, c) := newFutureError (CCmd e) c in (ch, None, c)
      | Ok marshalledJSON =>
          let '(ch, c) := make_chan c in
          (ch, Some (MkJsonRequest id method cmd marshalledJSON ch), c)
      end
  end.

(** SendCmd run alone: the channel and the message to send. *)
Definition SendCmd (cmd : command) (c : Client) : nat * option json * Client :=
  match SendCmd_request cmd c with
  | (ch, None, c) => (ch, None, c)
  | (ch, Some jReq, c) => let '(m, c) := sendRequest jReq c in (ch, m, c)
  end.
End commands.

(** ReceiveFuture: the response waiting on the channel, [None] while there is none. *)
Definition ReceiveFuture (ch : nat) (c : Client) : option (result cerr (option json)) :=
  match List.find (fun p => (p.1 =? ch)%nat) (responses c) with
  | Some (_, r) => Some (match r_err r with Some e => Err e | None => Ok (r_result r) end)
  | None => None
  end.

(** ** Receiving *)

(** list.Remove: only an element of this list is taken out. *)
Definition list_Remove (e : element) (l : list element) : list element :=
  if e_batch e then l else List.filter (fun x => negb (e_no x =? e_no e)%nat) l.

Definition removeRequest (id : Z) (c : Client) : option jsonRequest * Client :=
  match requestMap c !! id with
  | Some e => (Some (e_req e), set_requests (delete id (requestMap c)) (list_Remove e (requestList c)) c)
  | None => (None, c)
  end.

Definition strings_of (v : gval) : list string :=
  match v with VSlice (Some l) => omap (fun x => match x with VStr s => Some s | _ => None end) l | _ => [] end.
Definition outpoints_of (v : gval) : list (string * Z) :=
  match v with
  | VSlice (Some l) => omap (fun x => match x with VStruct [VStr h; VInt i] => Some (h, i) | _ => None end) l
  | _ => []
  end.

(** trackRegisteredNtfns: a switch on the type of the command. *)
Definition track_cmd (cmd : command) (n : notificationState) : notificationState :=
  match cmd with
  | Some (TPtr t, VPtr (Some (VStruct vs))) =>
      if bool_decide (type_string t = type_string NotifyBlocksCmd) then
        MkNtfnState true (notifyNewTx n) (notifyNewTxVerbose n) (notifyReceived n) (notifySpent n)
      else if bool_decide (type_string t = type_string NotifyNewTransactionsCmd) then
        match vs with
        | [VPtr (Some (VBool true))] =>
            MkNtfnState (notifyBlocks n) (notifyNewTx n) true (notifyReceived n) (notifySpent n)
        | _ => MkNtfnState (notifyBlocks n) true (notifyNewTxVerbose n) (notifyReceived n) (notifySpent n)
        end
      else if bool_decide (type_string t = type_string NotifySpentCmd) then
        match vs with
        | [v] => MkNtfnState (notifyBlocks n) (notifyNewTx n) (notifyNewTxVerbose n) (notifyReceived n)
                   (notifySpent n ∪ list_to_set (outpoints_of v))
        | _ => n
        end
      else if bool_decide (type_string t = type_string NotifyReceivedCmd) then
        match vs with
        | [v] => MkNtfnState (notifyBlocks n) (notifyNewTx n) (notifyNewTxVerbose n)
                   (notifyReceived n ∪ list_to_set (strings_of v)) (notifySpent n)
        | _ => n
        end
      else n
  | _ => n
  end.
Definition trackRegisteredNtfns (cmd : command) (c : Client) : Client :=
  match ntfnHandlers c with None => c | Some _ => set_ntfnState (track_cmd cmd (ntfnState c)) c end.

Section receiving.
(** The free list of the decoders, and what float64 to uint64 and to int64 give
out of range. *)
Context (w : world) (other_uint64 other_int64 : float64 -> Z).

Definition handleMessage (msg : result string json) (c : Client) : Client :=
  match msg with
  | Err _ => c
  | Ok doc =>
      match unmarshal_in doc with
      | None => c
      | Some i =>
          match in_ID i with
          | None =>
              if bool_decide (in_Method i = ""%string) then c
              else match in_Params i with
                   | None => c
                   | Some params => add_call (handleNotification w other_int64 (ntfnHandlers c) (in_Method i) params) c
                   end
          | Some f =>
              if f64_ltb f f64_zero || negb (is_integral f) then c
              else
                match removeRequest (to_uint64 other_uint64 f) c with
                | (None, c) => c
                | (Some request, c) =>
                    let c := trackRegisteredNtfns (j_cmd request) c in
                    deliver (j_chan request) (rawResponse_result (in_Result i) (in_Error i)) c
                end
          end
      end
  end.
End receiving.

(** ** Disconnecting and shutting down *)

Definition doDisconnect (c : Client) : bool * Client :=
  if HTTPPostMode c then (false, c)
  else if disconnected c then (false, c)
  else (true, set_conn true (shutdown c) c).

(** Disconnected: not before the connection was established. *)
Definition Disconnected (c : Client) : bool := connEstablished c && disconnected c.

Definition removeAllRequests (c : Client) : Client := set_requests ∅ [] c.

Definition doShutdown (c : Client) : bool * Client :=
  if shutdown c then (false, c) else (true, set_conn (disconnected c) true c).

(** The loop that sends an error to every pending request. *)
Definition fail_all (err : cerr) (c : Client) : Client :=
  fold_left (fun c e => deliver (j_chan (e_req e)) (error_response err) c) (requestList c) c.

(** The rest of Disconnect, once doDisconnect has disconnected the client. *)
Definition finish_disconnect (c : Client) : Client :=
  if DisableAutoReconnect c then (doShutdown (removeAllRequests (fail_all ErrClientDisconnect c))).2 else c.

Definition Disconnect (c : Client) : Client :=
  match doDisconnect c with (true, c) => finish_disconnect c | (false, c) => c end.

Definition Shutdown (c : Client) : Client :=
  match doShutdown c with
  | (false, c) => c
  | (true, c) => (doDisconnect (removeAllRequests (fail_all ErrClientShutdown c))).2
  end.

(** ** Reconnecting *)

Definition ignoreResends : gset string := {[ "rescan"%string ]}.

(** resendRequests, its part under the lock: the requests to send again and the
ones it forgets. *)
Definition resendRequests (c : Client) : list jsonRequest * list jsonRequest * Client :=
  let ignored := List.filter (fun e => bool_decide (j_method (e_req e) ∈ ignoreResends)) (requestList c) in
  let kept := List.filter (fun e => negb (bool_decide (j_method (e_req e) ∈ ignoreResends))) (requestList c) in
  (map e_req kept, map e_req ignored,
   set_requests (fold_left (fun m e => delete (j_id (e_req e)) m) ignored (requestMap c)) kept c).

(** wsReconnectHandler after a successful dial. *)
Definition reconnected (c : Client) : Client := set_conn false (shutdown c) c.

(** wsOutHandler: one message of sendChan, written or not; the drain at its end. *)
Definition wsOut (ok : bool) (c : Client) : bool * Client :=
  match sendChan c with
  | [] => (false, c)
  | _ :: rest =>
      let c := set_queues rest (sendPostChan c) c in
      if ok then (false, c) else doDisconnect c
  end.
Definition wsOut_drain (c : Client) : Client := set_queues [] (sendPostChan c) c.
