(* ===== verification/RpcClientProps.v ===== *)
(** * Every request of the client is answered once

The calls a client has made, as an abstract machine: a call is issued, and then
answered once, or forgotten.  The requests of RpcClient, interleaved in any
order, refine it, and the calls still waiting are the ones the client still
tracks or is about to. *)

From Stdlib Require Import ZArith Lia List.
From Stdlib Require Import Strings.String.
From stdpp Require Import relations sets fin_maps.
From S2P Require Import Prelude WireFormat WireCommon JsonTypes AcbcJson AcbcJsonProps AcbcJsonCmds GoFloat.
From S2P Require Import RpcClientNtfn RpcClient.

#[local] Open Scope list_scope.
#[local] Set Warnings "-register-all".

(** ** The abstract machine *)

Inductive call := Waiting | Answered (r : Response) | Forgotten.

Inductive call_step : gmap nat call -> gmap nat call -> Prop :=
  | call_issue m ch : m !! ch = None -> call_step m (<[ch := Waiting]> m)
  | call_answer m ch r : m !! ch = Some Waiting -> call_step m (<[ch := Answered r]> m)
  | call_forget m ch : m !! ch = Some Waiting -> call_step m (<[ch := Forgotten]> m).

(** The calls after [n] channels were made, [R] was answered and [F] forgotten. *)
Definition calls_of (R : list (nat * Response)) (F : list nat) (n : nat) : gmap nat call :=
  (Answered <$> (list_to_map R : gmap nat Response)) ∪ gset_to_gmap Forgotten (list_to_set F) ∪
  gset_to_gmap Waiting (set_seq 0 n).

Lemma lookup_calls R F n ch : calls_of R F n !! ch =
  match (list_to_map R : gmap nat Response) !! ch with
  | Some r => Some (Answered r)
  | None => if decide (ch ∈ F) then Some Forgotten else if decide (ch < n)%nat then Some Waiting else None
  end.
Proof.
  unfold calls_of. rewrite !lookup_union, lookup_fmap, !lookup_gset_to_gmap.
  destruct ((list_to_map R : gmap nat Response) !! ch) as [r|]; cbn.
  { repeat case_guard; try done; destruct (guard _); done. }
  repeat case_decide; repeat case_guard; try done; set_solver by lia.
Qed.

(** Every channel made is waiting, answered or forgotten, once. *)
Definition accounted (W : list nat) (R : list (nat * Response)) (F : list nat) (n : nat) : Prop :=
  W ++ R.*1 ++ F ≡ₚ seq 0 n.

Lemma accounted_NoDup W R F n : accounted W R F n -> NoDup (W ++ R.*1 ++ F).
Proof. intros H. rewrite H. apply NoDup_seq. Qed.

Lemma accounted_lt W R F n ch : accounted W R F n -> (ch ∈ W ++ R.*1 ++ F <-> (ch < n)%nat).
Proof. intros H. rewrite H, elem_of_seq. lia. Qed.

(** The waiting calls of the abstract state. *)
Lemma accounted_waiting W R F n ch : accounted W R F n -> (calls_of R F n !! ch = Some Waiting <-> ch ∈ W).
Proof.
  intros H. pose proof (accounted_NoDup _ _ _ _ H) as Hn. pose proof (accounted_lt _ _ _ _ ch H) as Hl.
  rewrite lookup_calls. apply NoDup_app in Hn as (_ & Hw & Hn).
  destruct ((list_to_map R : gmap nat Response) !! ch) as [r|] eqn:E.
  - split; [discriminate|]. intros Hc. destruct (Hw ch Hc). apply elem_of_list_to_map_2 in E.
    apply elem_of_app. left. apply (list_elem_of_fmap_2 fst) in E. exact E.
  - apply not_elem_of_list_to_map_2 in E. rewrite !elem_of_app in Hl. case_decide as Hf.
    + split; [discriminate|]. intros Hc. destruct (Hw ch Hc). apply elem_of_app. by right.
    + case_decide; split; intros; try done; tauto.
Qed.

Lemma call_steps_insert R F n ch x :
  calls_of R F n !! ch = Some Waiting -> (exists r, x = Answered r) \/ x = Forgotten ->
  call_step (calls_of R F n) (<[ch := x]> (calls_of R F n)).
Proof. intros Hw [[r ->]| ->]; now constructor. Qed.

Lemma accounted_issue W R F n : accounted W R F n ->
  accounted (W ++ [n]) R F (S n) /\ call_step (calls_of R F n) (calls_of R F (S n)).
Proof.
  intros H. split.
  - unfold accounted. rewrite seq_S, <- H, <- !app_assoc. apply Permutation_app_head.
    cbn [app]. rewrite (app_assoc (R.*1)), <- Permutation_cons_append. done.
  - assert (E : calls_of R F (S n) = <[n := Waiting]> (calls_of R F n)).
    { pose proof (accounted_lt _ _ _ _ n H) as Hl. rewrite !elem_of_app in Hl.
      assert (Hr : n ∉ R.*1) by (intros ?; assert (n < n)%nat by tauto; lia).
      assert (Hf : n ∉ F) by (intros ?; assert (n < n)%nat by tauto; lia).
      apply map_eq. intros i. rewrite lookup_calls. destruct (decide (i = n)) as [->|Hi].
      - rewrite lookup_insert_eq, not_elem_of_list_to_map_1 by tauto. rewrite decide_False by tauto. rewrite decide_True by lia. done.
      - rewrite lookup_insert_ne by done. rewrite lookup_calls. destruct (_ !! i); [done|]. repeat case_decide; done || lia. }
    rewrite E. constructor. rewrite lookup_calls. pose proof (accounted_lt _ _ _ _ n H) as Hl. rewrite !elem_of_app in Hl.
    rewrite not_elem_of_list_to_map_1 by (intros ?; assert (n < n)%nat by tauto; lia).
    rewrite decide_False by (intros ?; assert (n < n)%nat by tauto; lia). now rewrite decide_False by lia.
Qed.

Lemma accounted_answer ch W R F n r : accounted (ch :: W) R F n ->
  accounted W (R ++ [(ch, r)]) F n /\ call_step (calls_of R F n) (calls_of (R ++ [(ch, r)]) F n).
Proof.
  intros H. split.
  - unfold accounted in *. rewrite <- H, fmap_app. cbn. rewrite <- !app_assoc. cbn.
    rewrite !app_assoc. rewrite <- Permutation_middle. done.
  - assert (Hw : calls_of R F n !! ch = Some Waiting) by (apply (accounted_waiting _ _ _ _ ch H); left).
    enough (E : calls_of (R ++ [(ch, r)]) F n = <[ch := Answered r]> (calls_of R F n)) by (rewrite E; now constructor).
    assert (Hr : ch ∉ R.*1).
    { apply accounted_NoDup in H. cbn in H. apply NoDup_cons in H as [H _]. rewrite !elem_of_app in H. tauto. }
    apply map_eq. intros i. rewrite lookup_calls, list_to_map_app, lookup_union. destruct (decide (i = ch)) as [->|Hi].
    + rewrite lookup_insert_eq, not_elem_of_list_to_map_1 by done. cbn. now rewrite lookup_insert_eq.
    + rewrite lookup_insert_ne, lookup_calls by done. cbn. rewrite lookup_insert_ne, lookup_empty by done.
      destruct (list_to_map R !! i); done.
Qed.

Lemma accounted_forget ch W R F n : accounted (ch :: W) R F n ->
  accounted W R (F ++ [ch]) n /\ call_step (calls_of R F n) (calls_of R (F ++ [ch]) n).
Proof.
  intros H. split.
  - unfold accounted in *. rewrite <- H. rewrite !app_assoc, <- Permutation_cons_append. done.
  - assert (Hw : calls_of R F n !! ch = Some Waiting) by (apply (accounted_waiting _ _ _ _ ch H); left).
    enough (E : calls_of R (F ++ [ch]) n = <[ch := Forgotten]> (calls_of R F n)) by (rewrite E; now constructor).
    assert (Hr : ch ∉ R.*1).
    { apply accounted_NoDup in H. cbn in H. apply NoDup_cons in H as [H _]. rewrite !elem_of_app in H. tauto. }
    apply map_eq. intros i. rewrite lookup_calls. destruct (decide (i = ch)) as [->|Hi].
    + rewrite lookup_insert_eq, not_elem_of_list_to_map_1 by done. rewrite decide_True; [done|]. apply elem_of_app. right. left.
    + rewrite lookup_insert_ne, lookup_calls by done. destruct (list_to_map R !! i); [done|].
      repeat case_decide; try done; set_solver.
Qed.

Lemma accounted_perm W W' R F n : W ≡ₚ W' -> accounted W R F n -> accounted W' R F n.
Proof. intros Hp H. unfold accounted in *. now rewrite <- Hp. Qed.

Lemma accounted_answers chs W R F n r : accounted (chs ++ W) R F n ->
  accounted W (R ++ map (fun ch => (ch, r)) chs) F n /\
  rtc call_step (calls_of R F n) (calls_of (R ++ map (fun ch => (ch, r)) chs) F n).
Proof.
  revert R. induction chs as [|ch chs IH]; intros R H; cbn [map].
  - rewrite app_nil_r. split; [exact H|reflexivity].
  - destruct (accounted_answer ch (chs ++ W) R F n r H) as [H1 S1]. destruct (IH _ H1) as [H2 S2].
    rewrite <- app_assoc in H2, S2. split; [exact H2|]. eapply rtc_l; [exact S1|exact S2].
Qed.

Lemma accounted_forgets chs W R F n : accounted (chs ++ W) R F n ->
  accounted W R (F ++ chs) n /\ rtc call_step (calls_of R F n) (calls_of R (F ++ chs) n).
Proof.
  revert F. induction chs as [|ch chs IH]; intros F H.
  - rewrite app_nil_r. split; [exact H|reflexivity].
  - destruct (accounted_forget ch (chs ++ W) R F n H) as [H1 S1]. destruct (IH _ H1) as [H2 S2].
    rewrite <- app_assoc in H2, S2. split; [exact H2|]. eapply rtc_l; [exact S1|exact S2].
Qed.

(** ** The client as a step relation *)

(** The client, the requests between NextID and sendRequest's lock, the messages
being handed to sendMessage, how many callers of Disconnect are between its two
parts, and the requests resendRequests forgot. *)
Record system := MkSystem {
  cl : Client; in_flight : list jsonRequest; sending : list json; disconnecting : nat; forgotten : list jsonRequest }.

Section system.
Context (reg : registry) (w : world) (other_uint64 other_int64 : float64 -> Z).

(** A message may be dropped, and the output handler may drain, though the client is
connected: the disconnect channel they look at can be that of a connection before; and
the client can be reconnected though it was shut down while it was dialing. *)
Inductive client_step : system -> system -> Prop :=
  | step_cmd s cmd ch jr c' : SendCmd_request reg cmd (cl s) = (ch, jr, c') ->
      client_step s (MkSystem c' (in_flight s ++ option_list jr) (sending s) (disconnecting s) (forgotten s))
  | step_future s e : client_step s
      (MkSystem (newFutureError e (cl s)).2 (in_flight s) (sending s) (disconnecting s) (forgotten s))
  | step_nil_future s : client_step s
      (MkSystem (newNilFutureResult (cl s)).2 (in_flight s) (sending s) (disconnecting s) (forgotten s))
  | step_request s jr rest m c' : in_flight s ≡ₚ jr :: rest -> sendRequest jr (cl s) = (m, c') ->
      client_step s (MkSystem c' rest (sending s ++ option_list m) (disconnecting s) (forgotten s))
  | step_send s drop m l1 l2 : sending s = l1 ++ m :: l2 -> drop = true \/ sendMessage_ready drop (cl s) = true ->
      client_step s (MkSystem (sendMessage drop m (cl s)) (in_flight s) (l1 ++ l2) (disconnecting s) (forgotten s))
  | step_out s ok b c' : wsOut ok (cl s) = (b, c') ->
      client_step s (MkSystem c' (in_flight s) (sending s) (if b then S (disconnecting s) else disconnecting s) (forgotten s))
  | step_drain s :
      client_step s (MkSystem (wsOut_drain (cl s)) (in_flight s) (sending s) (disconnecting s) (forgotten s))
  | step_message s msg :
      client_step s (MkSystem (handleMessage w other_uint64 other_int64 msg (cl s)) (in_flight s) (sending s) (disconnecting s) (forgotten s))
  | step_disconnect s c' : doDisconnect (cl s) = (true, c') ->
      client_step s (MkSystem c' (in_flight s) (sending s) (S (disconnecting s)) (forgotten s))
  | step_finish s n : disconnecting s = S n ->
      client_step s (MkSystem (finish_disconnect (cl s)) (in_flight s) (sending s) n (forgotten s))
  | step_shutdown s : client_step s
      (MkSystem (Shutdown (cl s)) (in_flight s) (sending s) (disconnecting s) (forgotten s))
  | step_reconnect s : disconnected (cl s) = true -> DisableAutoReconnect (cl s) = false ->
      client_step s (MkSystem (reconnected (cl s)) (in_flight s) (sending s) (disconnecting s) (forgotten s))
  | step_resend s again ignored c' : resendRequests (cl s) = (again, ignored, c') ->
      client_step s (MkSystem c' (in_flight s) (sending s ++ map j_json again) (disconnecting s) (forgotten s ++ ignored)).

(** The state of the abstract machine, and the channels it waits on. *)
Definition abstract (s : system) : gmap nat call :=
  calls_of (responses (cl s)) (map j_chan (forgotten s)) (next_chan (cl s)).
Definition tracked (c : Client) : list jsonRequest := map e_req (requestList c).
Definition waiting (s : system) : list nat := map j_chan (in_flight s ++ tracked (cl s)).

(** The two structures of the tracked requests agree, in websocket mode. *)
Record client_ok (c : Client) : Prop := {
  co_mode : HTTPPostMode c = false /\ batch c = false;
  co_map id e : requestMap c !! id = Some e <-> e ∈ requestList c /\ j_id (e_req e) = id;
  co_elems : NoDup (map e_no (requestList c)) /\
    Forall (fun e => (e_no e < next_elem c)%nat /\ e_batch e = false) (requestList c);
  co_shutdown : shutdown c = true -> requestList c = [];
  co_id : 0 <= c_id c <= Z.of_nat (next_chan c) }.

Record system_ok (s : system) : Prop := {
  so_client : client_ok (cl s);
  so_account : accounted (waiting s) (responses (cl s)) (map j_chan (forgotten s)) (next_chan (cl s));
  so_ids : NoDup (map j_id (in_flight s ++ tracked (cl s))) /\
    Forall (fun jr => 0 < j_id jr <= c_id (cl s) /\ CmdMethod reg (j_cmd jr) = Ok (j_method jr)) (in_flight s ++ tracked (cl s));
  so_forgotten : Forall (fun jr => j_method jr ∈ ignoreResends /\ CmdMethod reg (j_cmd jr) = Ok (j_method jr)) (forgotten s) }.

(** A client as New makes it in websocket mode. *)
Definition new_client (auto established : bool) (h : option NotificationHandlers) : Client :=
  MkClient 0 0 0 false auto established false false false [] ∅ [] h newNotificationState [] [] [] [].
Definition init_system (auto established : bool) (h : option NotificationHandlers) : system :=
  MkSystem (new_client auto established h) [] [] 0 [].

Lemma init_system_ok auto established h : system_ok (init_system auto established h) /\ abstract (init_system auto established h) = ∅.
Proof.
  split; [|reflexivity]. constructor; cbn.
  - constructor; cbn; try done; try lia; [|split; [apply NoDup_nil_2|apply Forall_nil_2]].
    intros id e. rewrite lookup_empty. split; [done|]. intros [H _]. now apply elem_of_nil in H.
  - unfold accounted. reflexivity.
  - split; [apply NoDup_nil_2|apply Forall_nil_2].
  - apply Forall_nil_2.
Qed.

(** What a step has to keep: the invariant, and that the abstract machine can follow. *)
Definition simulates (s s' : system) : Prop :=
  system_ok s' /\ rtc call_step (abstract s) (abstract s').

Lemma simulates_trans s1 s2 s3 : simulates s1 s2 -> (system_ok s2 -> simulates s2 s3) -> simulates s1 s3.
Proof. intros [H1 R1] H2. destruct (H2 H1) as [H3 R2]. split; [done|]. now transitivity (abstract s2). Qed.

(** A step that leaves what the invariant reads. *)
Lemma simulates_same s s' : system_ok s ->
  client_ok (cl s') -> in_flight s' = in_flight s -> requestList (cl s') = requestList (cl s) ->
  responses (cl s') = responses (cl s) -> next_chan (cl s') = next_chan (cl s) -> c_id (cl s) <= c_id (cl s') ->
  forgotten s' = forgotten s -> simulates s s'.
Proof.
  intros [H1 H2 [H3 H4] H5] Hc Ei Er Ep En Ed Ef. split.
  - constructor; [done| | |]; unfold waiting, tracked in *; rewrite ?Ei, ?Er, ?Ep, ?En, ?Ef; try done.
    split; [done|]. eapply Forall_impl; [exact H4|]. cbn. intros ? []. split; [lia|done].
  - unfold abstract. now rewrite Ep, Ef, En.
Qed.

(** A response that is there at once. *)
Lemma simulates_future s r : system_ok s ->
  let c := (make_chan (cl s)).2 in
  simulates s (MkSystem (deliver (next_chan (cl s)) r c) (in_flight s) (sending s) (disconnecting s) (forgotten s)).
Proof.
  intros [H1 H2 H3 H5] c. destruct (accounted_issue _ _ _ _ H2) as [A1 S1].
  assert (A2 : accounted (next_chan (cl s) :: waiting s) (responses (cl s)) (map j_chan (forgotten s)) (S (next_chan (cl s)))).
  { eapply accounted_perm; [|exact A1]. now rewrite <- Permutation_cons_append. }
  destruct (accounted_answer _ _ _ _ _ r A2) as [A3 S3]. split.
  - constructor; [|exact A3|exact H3|exact H5]. destruct H1; constructor; cbn in *; auto. lia.
  - unfold abstract. cbn. eapply rtc_l; [exact S1|]. eapply rtc_l; [exact S3|reflexivity].
Qed.

Lemma simulates_cmd s cmd ch jr c' : system_ok s -> SendCmd_request reg cmd (cl s) = (ch, jr, c') ->
  Z.of_nat (next_chan c') < 2 ^ 64 ->
  simulates s (MkSystem c' (in_flight s ++ option_list jr) (sending s) (disconnecting s) (forgotten s)).
Proof.
  intros Hok H Hn. unfold SendCmd_request in H. destruct (CmdMethod reg cmd) as [method|e] eqn:Em.
  2: { inv H. rewrite app_nil_r. now apply simulates_future. }
  cbn [NextID] in H.
  assert (Hc : next_chan c' = S (next_chan (cl s))) by (destruct (MarshalCmd _ _ _ _); now inv H).
  pose proof (co_id _ (so_client _ Hok)) as Hid.
  assert (Hu : u64 (c_id (cl s) + 1) = c_id (cl s) + 1) by (apply u64_small; unfold in_u64; lia).
  rewrite Hu in H.
  destruct (MarshalCmd reg _ _ cmd) as [doc|e].
  - inv H. destruct Hok as [[] H2 [H3 H4] H5]. destruct (accounted_issue _ _ _ _ H2) as [A1 S1]. split.
    + constructor; cbn.
      * constructor; cbn; auto. lia.
      * eapply accounted_perm; [|exact A1]. unfold waiting. cbn. rewrite !map_app, <- !app_assoc.
        apply Permutation_app_head. now rewrite Permutation_app_comm.
      * assert (Hp : (in_flight s ++ [MkJsonRequest (c_id (cl s) + 1) method cmd doc (next_chan (cl s))]) ++ tracked (cl s) ≡ₚ
            MkJsonRequest (c_id (cl s) + 1) method cmd doc (next_chan (cl s)) :: in_flight s ++ tracked (cl s)).
        { rewrite <- app_assoc. cbn. now rewrite <- Permutation_middle. }
        unfold tracked in *. cbn. rewrite Hp. cbn. split.
        -- apply NoDup_cons. split; [|done]. rewrite list_elem_of_fmap. intros (jr & E & Hjr).
           rewrite Forall_forall in H4. destruct (H4 jr Hjr). lia.
        -- constructor; [cbn; split; [lia|done]|]. eapply Forall_impl; [exact H4|]. cbn. intros ? []. split; [lia|done].
      * done.
    + unfold abstract. cbn. eapply rtc_l; [exact S1|reflexivity].
  - inv H. rewrite app_nil_r. eapply simulates_trans; [apply (simulates_future s (error_response (CCmd e)) Hok)|].
    intros Hok1. apply simulates_same; try done; [|cbn; lia].
    destruct Hok1 as [[] ? ? ?]; constructor; cbn in *; auto; lia.
Qed.

(** Answering one waiting call. *)
Lemma simulates_answer s s' ch r : system_ok s -> client_ok (cl s') ->
  waiting s ≡ₚ ch :: waiting s' -> responses (cl s') = responses (cl s) ++ [(ch, r)] ->
  next_chan (cl s') = next_chan (cl s) -> c_id (cl s') = c_id (cl s) -> forgotten s' = forgotten s ->
  (exists jr, in_flight s ++ tracked (cl s) ≡ₚ jr :: in_flight s' ++ tracked (cl s')) -> simulates s s'.
Proof.
  intros [H1 H2 [H3 H4] H5] Hc Hw Hr Hn Hi Hf [jr Hp].
  destruct (accounted_answer ch (waiting s') _ _ _ r (accounted_perm _ _ _ _ _ Hw H2)) as [A1 S1]. split.
  - constructor; [done| | |]; rewrite ?Hr, ?Hf, ?Hn, ?Hi; try done.
    rewrite Hp in H3, H4. cbn in H3. apply NoDup_cons in H3 as [_ H3]. apply Forall_cons in H4 as [_ H4]. done.
  - unfold abstract. rewrite Hr, Hf, Hn. eapply rtc_l; [exact S1|reflexivity].
Qed.

Lemma tracked_unique c e e' : client_ok c -> e ∈ requestList c -> e' ∈ requestList c ->
  j_id (e_req e) = j_id (e_req e') -> e = e'.
Proof.
  intros Hc H1 H2 E.
  assert (A : requestMap c !! j_id (e_req e) = Some e) by (apply (co_map _ Hc); done).
  assert (B : requestMap c !! j_id (e_req e) = Some e') by (apply (co_map _ Hc); done). congruence.
Qed.

Lemma client_ok_push c jr : client_ok c -> shutdown c = false -> j_id jr ∉ map j_id (tracked c) -> client_ok (push_request jr c).
Proof.
  intros [[Hm Hb] H2 [H3 H4] H5 H6] Hs Hid. unfold push_request. rewrite Hb. constructor; cbn; auto.
  - intros i e. rewrite elem_of_app, list_elem_of_singleton. destruct (decide (i = j_id jr)) as [->|Hi].
    + rewrite lookup_insert_eq. split; [intros [= <-]; cbn; auto|]. intros [[He| ->] Ei]; [|done].
      destruct Hid. rewrite <- Ei. apply list_elem_of_fmap. exists (e_req e). split; [done|]. apply list_elem_of_fmap. eauto.
    + rewrite lookup_insert_ne by done. rewrite H2. split; [tauto|]. intros [[He| ->] Ei]; [done|]. cbn in Ei; congruence.
  - split.
    + rewrite map_app. apply NoDup_app. split_and!; [done| |apply NoDup_singleton].
      intros x Hx ->%list_elem_of_singleton. cbn in Hx. apply list_elem_of_fmap in Hx as (e & Ee & He).
      rewrite Forall_forall in H4. destruct (H4 e He). lia.
    + apply Forall_app. split; [|constructor; [cbn; lia|constructor]]. eapply Forall_impl; [exact H4|]. cbn. intros ? []. split; [lia|done].
  - congruence.
Qed.

Lemma simulates_request s jr rest m c' : system_ok s -> in_flight s ≡ₚ jr :: rest -> sendRequest jr (cl s) = (m, c') ->
  simulates s (MkSystem c' rest (sending s ++ option_list m) (disconnecting s) (forgotten s)).
Proof.
  intros Hok Hp H. pose proof Hok as [Hc Ha [Hi Hr] Hf]. destruct (co_mode _ Hc) as [Hm Hb].
  assert (Hpt : in_flight s ++ tracked (cl s) ≡ₚ jr :: rest ++ tracked (cl s)) by now rewrite Hp.
  unfold sendRequest, addRequest in H. rewrite Hm in H.
  assert (Hanswer : forall r c1, deliver (j_chan jr) r (cl s) = c1 ->
    simulates s (MkSystem c1 rest (sending s ++ option_list None) (disconnecting s) (forgotten s))).
  { intros r c1 <-. apply (simulates_answer _ _ (j_chan jr) r); try done.
    - destruct Hc; constructor; cbn; auto.
    - unfold waiting. cbn. now rewrite Hpt.
    - exists jr. exact Hpt. }
  destruct (connEstablished (cl s)); cbn in H; [|inv H; now eapply Hanswer].
  destruct (shutdown (cl s)) eqn:Es; [inv H; now eapply Hanswer|]. inv H.
  assert (Hid : j_id jr ∉ map j_id (tracked (cl s))).
  { rewrite Hpt in Hi. cbn in Hi. apply NoDup_cons in Hi as [Hi _]. rewrite map_app, elem_of_app in Hi. tauto. }
  assert (Hpt' : rest ++ tracked (push_request jr (cl s)) ≡ₚ in_flight s ++ tracked (cl s)).
  { unfold tracked, push_request. rewrite Hb. cbn [requestList]. rewrite map_app. cbn [map e_req].
    rewrite app_assoc, <- Permutation_cons_append. symmetry. exact Hpt. }
  split.
  - constructor; cbn [cl in_flight forgotten].
    + now apply client_ok_push.
    + eapply accounted_perm; [|exact Ha]. unfold waiting. cbn [in_flight cl]. now rewrite Hpt'.
    + rewrite Hpt'. done.
    + done.
  - reflexivity.
Qed.

Lemma list_Remove_split l1 e l2 : NoDup (map e_no (l1 ++ e :: l2)) -> e_batch e = false ->
  list_Remove e (l1 ++ e :: l2) = l1 ++ l2.
Proof.
  intros Hn Hb. unfold list_Remove. rewrite Hb.
  assert (Hk : forall l, e_no e ∉ map e_no l -> List.filter (fun x => negb (e_no x =? e_no e)%nat) l = l).
  { induction l as [|x l IH]; intros Hx; [done|]. cbn in Hx. apply not_elem_of_cons in Hx as [Hx Hl]. cbn.
    rewrite (proj2 (Nat.eqb_neq _ _)) by congruence. cbn. f_equal. auto. }
  rewrite map_app in Hn. cbn in Hn. apply NoDup_app in Hn as (_ & Hd & Hn). apply NoDup_cons in Hn as [Hn _].
  rewrite List.filter_app. cbn [List.filter]. rewrite Nat.eqb_refl. cbn [negb]. rewrite !Hk; [done|done|].
  intros H. destruct (Hd _ H). left.
Qed.

(** Taking a tracked request out. *)
Lemma removeRequest_ok c id request c' : client_ok c -> removeRequest id c = (Some request, c') ->
  client_ok c' /\ tracked c ≡ₚ request :: tracked c' /\ j_id request = id /\
  c' = set_requests (requestMap c') (requestList c') c.
Proof.
  intros Hc H. unfold removeRequest in H. destruct (requestMap c !! id) as [e|] eqn:E; [|discriminate]. inv H.
  pose proof Hc as [H1 H2 [H3 H4] H5 H6]. pose proof (proj1 (H2 id e) E) as [He Hid].
  pose proof (list_elem_of_split _ _ He) as (l1 & l2 & El).
  assert (Hb : e_batch e = false) by (rewrite Forall_forall in H4; now apply H4).
  assert (Hrem : list_Remove e (requestList c) = l1 ++ l2) by (rewrite El; apply list_Remove_split; [now rewrite <- El|done]).
  rewrite Hrem. assert (Hp : requestList c ≡ₚ e :: l1 ++ l2) by (rewrite El; symmetry; apply Permutation_middle).
  split_and!; try done.
  - constructor; cbn; auto.
    + intros i x. destruct (decide (i = id)) as [->|Hi].
      * rewrite lookup_delete_eq. split; [done|]. intros [Hx Ei].
        assert (x = e) as ->.
        { apply (tracked_unique c); [done| |done|congruence]. rewrite Hp. right. exact Hx. }
        rewrite Hp in H3. cbn in H3. apply NoDup_cons in H3 as [H3 _]. destruct H3. apply list_elem_of_fmap. eauto.
      * rewrite lookup_delete_ne, H2, Hp, elem_of_cons by done. split; [|tauto]. intros [[->|Hx] Ei]; [congruence|done].
    + rewrite Hp in H3, H4. cbn in H3. apply NoDup_cons in H3 as [_ H3]. apply Forall_cons in H4 as [_ H4]. done.
    + intros Hs. rewrite (H5 Hs) in He. now apply elem_of_nil in He.
  - unfold tracked. cbn [requestList set_requests]. rewrite Hp. reflexivity.
Qed.

Lemma simulates_message s msg : system_ok s ->
  simulates s (MkSystem (handleMessage w other_uint64 other_int64 msg (cl s)) (in_flight s) (sending s) (disconnecting s) (forgotten s)).
Proof.
  intros Hok. pose proof (so_client _ Hok) as Hc.
  assert (Hsame : forall c, client_ok c -> requestList c = requestList (cl s) -> responses c = responses (cl s) ->
      next_chan c = next_chan (cl s) -> c_id c = c_id (cl s) ->
      simulates s (MkSystem c (in_flight s) (sending s) (disconnecting s) (forgotten s))).
  { intros c H1 H2 H3 H4 H5. apply simulates_same; try done. cbn. lia. }
  unfold handleMessage. destruct msg as [doc|e]; [|now apply Hsame]. destruct (unmarshal_in doc) as [i|]; [|now apply Hsame].
  destruct (in_ID i) as [f|].
  - destruct (_ || _); [now apply Hsame|].
    destruct (removeRequest (to_uint64 other_uint64 f) (cl s)) as [[request|] c'] eqn:E.
    + destruct (removeRequest_ok _ _ _ _ Hc E) as (Hc' & Hp & _ & Ec).
      set (c2 := trackRegisteredNtfns (j_cmd request) c').
      assert (E2 : c2 = set_ntfnState (ntfnState c2) c') by (unfold c2, trackRegisteredNtfns; destruct (ntfnHandlers c') eqn:En; [done|now destruct c']).
      apply (simulates_answer _ _ (j_chan request) (rawResponse_result (in_Result i) (in_Error i))); try done; rewrite E2.
      * destruct Hc'; constructor; cbn; auto.
      * unfold waiting, tracked in *. cbn. rewrite Hp. cbn. rewrite !map_app. cbn. rewrite <- Permutation_middle. done.
      * cbn. now rewrite Ec.
      * cbn. now rewrite Ec.
      * cbn. now rewrite Ec.
      * exists request. unfold tracked in *. cbn. rewrite Hp, <- Permutation_middle. done.
    + unfold removeRequest in E. destruct (requestMap (cl s) !! _); inv E. now apply Hsame.
  - destruct (bool_decide _); [now apply Hsame|]. destruct (in_Params i); [|now apply Hsame].
    apply Hsame; try done. destruct Hc; constructor; cbn; auto.
Qed.

(** Errors to all pending requests. *)
Definition with_responses (R : list (nat * Response)) (c : Client) : Client :=
  MkClient (c_id c) (next_elem c) (next_chan c) (HTTPPostMode c) (DisableAutoReconnect c) (connEstablished c) (disconnected c)
    (shutdown c) (batch c) (batchList c) (requestMap c) (requestList c) (ntfnHandlers c) (ntfnState c) (sendChan c)
    (sendPostChan c) R (calls c).

Lemma fail_all_eq err c :
  fail_all err c = with_responses (responses c ++ map (fun ch => (ch, error_response err)) (map j_chan (tracked c))) c.
Proof.
  unfold fail_all, tracked. generalize (requestList c) as l. intros l. revert c.
  induction l as [|e l IH]; intros c; cbn.
  - rewrite app_nil_r. now destruct c.
  - rewrite IH. unfold with_responses, deliver. cbn. now rewrite <- app_assoc.
Qed.

Lemma simulates_fail_all s err c' n : system_ok s -> client_ok c' -> requestList c' = [] ->
  responses c' = responses (fail_all err (cl s)) -> next_chan c' = next_chan (cl s) -> c_id c' = c_id (cl s) ->
  simulates s (MkSystem c' (in_flight s) (sending s) n (forgotten s)).
Proof.
  intros [H1 H2 [H3 H4] H5] Hc Hl Hr Hn Hi. rewrite fail_all_eq in Hr. cbn in Hr.
  assert (Ha : accounted (map j_chan (tracked (cl s)) ++ map j_chan (in_flight s)) (responses (cl s)) (map j_chan (forgotten s)) (next_chan (cl s))).
  { eapply accounted_perm; [|exact H2]. unfold waiting. rewrite map_app. apply Permutation_app_comm. }
  destruct (accounted_answers _ _ _ _ _ (error_response err) Ha) as [A1 S1]. split.
  - constructor; [done| | |]; unfold waiting, tracked in *; cbn [cl in_flight forgotten]; rewrite ?Hl, ?Hr, ?Hn, ?Hi; cbn [map]; rewrite ?app_nil_r; try done.
    rewrite map_app in H3. apply NoDup_app in H3 as [H3 _]. apply Forall_app in H4 as [H4 _]. done.
  - unfold abstract. cbn [cl in_flight forgotten]. rewrite Hr, Hn. exact S1.
Qed.

Lemma client_ok_cleared c c' : client_ok c -> requestMap c' = ∅ -> requestList c' = [] ->
  HTTPPostMode c' = HTTPPostMode c -> batch c' = batch c -> next_chan c' = next_chan c -> c_id c' = c_id c -> client_ok c'.
Proof.
  intros [H1 H2 H3 H4 H5] Em El E1 E2 E3 E4. constructor; rewrite ?Em, ?El, ?E1, ?E2, ?E3, ?E4; try done.
  - intros i e. rewrite lookup_empty. split; [done|]. intros [H _]. now apply elem_of_nil in H.
  - split; [apply NoDup_nil_2|apply Forall_nil_2].
Qed.

Lemma simulates_finish s n : system_ok s ->
  simulates s (MkSystem (finish_disconnect (cl s)) (in_flight s) (sending s) n (forgotten s)).
Proof.
  intros Hok. pose proof (so_client _ Hok) as Hc. unfold finish_disconnect. destruct (DisableAutoReconnect (cl s)).
  - unfold doShutdown. cbn [shutdown removeAllRequests set_requests].
    destruct (shutdown (fail_all ErrClientDisconnect (cl s))) eqn:E; cbn [snd];
      (apply (simulates_fail_all s ErrClientDisconnect); [done| |done|done| |]);
      try (eapply client_ok_cleared; [exact Hc|..]); rewrite ?fail_all_eq; reflexivity.
  - apply simulates_same; try done.
Qed.

Lemma simulates_shutdown s : system_ok s ->
  simulates s (MkSystem (Shutdown (cl s)) (in_flight s) (sending s) (disconnecting s) (forgotten s)).
Proof.
  intros Hok. pose proof (so_client _ Hok) as Hc. destruct (co_mode _ Hc) as [Hm _].
  unfold Shutdown, doShutdown. destruct (shutdown (cl s)); [now apply simulates_same|].
  unfold doDisconnect. rewrite fail_all_eq. cbn [HTTPPostMode removeAllRequests set_requests with_responses set_conn disconnected].
  rewrite Hm. destruct (disconnected (cl s)); cbn [snd];
    (apply (simulates_fail_all s ErrClientShutdown); [done| |done| |done|done]);
    try (eapply client_ok_cleared; [exact Hc|..]); rewrite ?fail_all_eq; reflexivity.
Qed.

Lemma filter_split {A} (f : A -> bool) l : l ≡ₚ List.filter (fun x => negb (f x)) l ++ List.filter f l.
Proof.
  induction l as [|x l IH]; [done|]. cbn. destruct (f x); cbn.
  - rewrite <- Permutation_middle. now rewrite <- IH.
  - now rewrite <- IH.
Qed.

Lemma lookup_deletes l (m : gmap Z element) id : fold_left (fun m e => delete (j_id (e_req e)) m) l m !! id =
  (if decide (id ∈ map (fun e => j_id (e_req e)) l) then None else m !! id : option element).
Proof.
  revert m. induction l as [|e l IH]; intros m; cbn [fold_left map].
  - case_decide as H; [now apply elem_of_nil in H|done].
  - rewrite IH. destruct (decide (id = j_id (e_req e))) as [->|Hi].
    + rewrite lookup_delete_eq. rewrite (decide_True (P := _ ∈ _ :: _)) by left. now case_decide.
    + rewrite lookup_delete_ne by done. repeat case_decide; try done; rewrite elem_of_cons in *; tauto.
Qed.

Lemma simulates_resend s again ignored c' : system_ok s -> resendRequests (cl s) = (again, ignored, c') ->
  simulates s (MkSystem c' (in_flight s) (sending s ++ map j_json again) (disconnecting s) (forgotten s ++ ignored)).
Proof.
  intros Hok H. unfold resendRequests in H.
  set (f := fun e => bool_decide (j_method (e_req e) ∈ ignoreResends)) in *.
  change (fun e => negb (bool_decide (j_method (e_req e) ∈ ignoreResends))) with (fun e => negb (f e)) in H.
  set (ign := List.filter f (requestList (cl s))) in *. set (kept := List.filter (fun e => negb (f e)) (requestList (cl s))) in *.
  assert (Hp : requestList (cl s) ≡ₚ kept ++ ign) by apply filter_split.
  inv H. pose proof Hok as [Hc Ha [Hi Hr] Hf]. pose proof Hc as [H1 H2 [H3 H4] H5 H6].
  assert (Hw : waiting s ≡ₚ map j_chan (map e_req ign) ++ map j_chan (in_flight s ++ map e_req kept)).
  { unfold waiting, tracked. rewrite Hp, !map_app, app_assoc. apply Permutation_app_comm. }
  destruct (accounted_forgets _ _ _ _ _ (accounted_perm _ _ _ _ _ Hw Ha)) as [A1 S1]. split.
  - constructor; unfold waiting, tracked in *; cbn [cl in_flight forgotten set_requests requestList responses next_chan c_id].
    + constructor; cbn; auto.
      * intros i e. rewrite lookup_deletes. case_decide as Hd.
        -- split; [done|]. intros [He Ei]. apply list_elem_of_fmap in Hd as (x & Ex & Hx).
           assert (x = e) as ->.
           { apply (tracked_unique (cl s)); [done| | |congruence]; rewrite Hp; apply elem_of_app; auto. }
           unfold ign, kept in *. apply list_elem_of_In, filter_In in Hx as [_ Hx], He as [_ He]. cbn in He. rewrite Hx in He. discriminate.
        -- rewrite H2, Hp, elem_of_app. split; [|tauto]. intros [[He|He] Ei]; [done|]. destruct Hd. apply list_elem_of_fmap. eauto.
      * rewrite Hp in H3, H4. rewrite map_app in H3. apply NoDup_app in H3 as [H3 _]. apply Forall_app in H4 as [H4 _]. done.
      * intros Hs. specialize (H5 Hs). unfold kept. now rewrite H5.
    + rewrite (map_app j_chan (forgotten s)). exact A1.
    + rewrite Hp, (map_app e_req), app_assoc in Hi, Hr. rewrite map_app in Hi. apply NoDup_app in Hi as [Hi _].
      apply Forall_app in Hr as [Hr _]. done.
    + apply Forall_app. split; [done|]. apply Forall_forall. intros jr Hj. apply list_elem_of_fmap in Hj as (e & -> & He).
      pose proof He as He'. apply list_elem_of_In, filter_In in He as [_ He]. apply bool_decide_eq_true in He. split; [done|].
      rewrite Forall_forall in Hr. apply Hr. apply elem_of_app. right. apply list_elem_of_fmap. exists e. split; [done|].
      rewrite Hp. apply elem_of_app. auto.
  - unfold abstract. cbn [cl forgotten set_requests responses next_chan]. rewrite map_app. exact S1.
Qed.

Lemma step_simulates s s' : system_ok s -> client_step s s' -> Z.of_nat (next_chan (cl s')) < 2 ^ 64 -> simulates s s'.
Proof.
  intros Hok H Hn. pose proof (so_client _ Hok) as Hc. inv H; cbn [cl] in Hn.
  - eapply simulates_cmd; eassumption.
  - apply (simulates_future s (error_response e) Hok).
  - apply (simulates_future s (MkResponse None None) Hok).
  - eapply simulates_request; eassumption.
  - destruct drop; (apply simulates_same; try done; try (cbn; lia); destruct Hc; constructor; cbn; auto).
  - unfold wsOut in H0. destruct (sendChan (cl s)) as [|m rest]; [inv H0; now apply simulates_same|].
    unfold doDisconnect in H0. destruct ok; [|cbn [HTTPPostMode set_queues disconnected] in H0; destruct (HTTPPostMode (cl s)), (disconnected (cl s))];
      inv H0; (apply simulates_same; try done; destruct Hc; constructor; cbn; auto).
  - apply simulates_same; try done. destruct Hc; constructor; cbn; auto.
  - now apply simulates_message.
  - unfold doDisconnect in H0. destruct (HTTPPostMode (cl s)), (disconnected (cl s)); inv H0.
    apply simulates_same; try done. destruct Hc; constructor; cbn; auto.
  - now apply simulates_finish.
  - now apply simulates_shutdown.
  - apply simulates_same; try done. destruct Hc; constructor; cbn; auto.
  - now apply simulates_resend.
Qed.

Lemma step_chans s s' : client_step s s' -> (next_chan (cl s) <= next_chan (cl s'))%nat.
Proof.
  intros H. inv H; cbn [cl in_flight wsOut_drain reconnected set_queues set_conn next_chan]; try lia.
  - unfold SendCmd_request, newFutureError, make_chan, NextID in H0. cbv beta iota zeta in H0.
    destruct (CmdMethod reg cmd); [destruct (MarshalCmd _ _ _ _)|]; inv H0; cbn; lia.
  - cbn. lia.
  - cbn. lia.
  - unfold sendRequest, addRequest, sendPostRequest in H1.
    destruct (HTTPPostMode (cl s)), (batch (cl s)), (connEstablished (cl s)), (shutdown (cl s)); inv H1; cbn; lia.
  - destruct drop; cbn; lia.
  - unfold wsOut, doDisconnect in H0. destruct (sendChan (cl s)), ok; [inv H0; lia|inv H0; lia|inv H0; cbn; lia|].
    cbn in H0. destruct (HTTPPostMode (cl s)), (disconnected (cl s)); inv H0; cbn; lia.
  - unfold handleMessage, removeRequest, trackRegisteredNtfns. repeat case_match; simplify_eq; cbn; lia.
  - unfold doDisconnect in H0. destruct (HTTPPostMode (cl s)), (disconnected (cl s)); inv H0; cbn; lia.
  - unfold finish_disconnect, doShutdown. rewrite fail_all_eq. repeat case_match; simplify_eq; cbn; lia.
  - unfold Shutdown, doShutdown, doDisconnect. destruct (shutdown (cl s)); [lia|]. rewrite fail_all_eq. cbn.
    destruct (HTTPPostMode (cl s)), (disconnected (cl s)); cbn; lia.
  - unfold resendRequests in H0. inv H0. cbn. lia.
Qed.

Lemma steps_chans s s' : rtc client_step s s' -> (next_chan (cl s) <= next_chan (cl s'))%nat.
Proof. induction 1 as [|s s1 s' Hs _ IH]; [lia|]. apply step_chans in Hs. lia. Qed.

Lemma steps_simulate s s' : rtc client_step s s' -> system_ok s -> Z.of_nat (next_chan (cl s')) < 2 ^ 64 -> simulates s s'.
Proof.
  intros H. induction H as [s|s s1 s' Hs Hr IH]; intros Hok Hn; [split; [done|reflexivity]|].
  pose proof (steps_chans _ _ Hr). eapply simulates_trans; [apply step_simulates; [done|exact Hs|lia]|]. auto.
Qed.

(** C11: every call of the client is answered at most once.  However commands,
messages from the server, disconnections, reconnections and the shutdown
interleave, the calls go through the abstract machine that issues a call and then
answers or forgets it; the calls that wait are those in flight or tracked, no
response channel is sent to twice (a second send would block under a lock), only
requests of a method that is not resent are forgotten, and nothing stays tracked
once the client is shut down. *)
Theorem client_refines_calls auto established h s :
  rtc client_step (init_system auto established h) s -> Z.of_nat (next_chan (cl s)) < 2 ^ 64 ->
  rtc call_step ∅ (abstract s) /\
  (forall ch, abstract s !! ch = Some Waiting <-> ch ∈ waiting s) /\
  NoDup ((responses (cl s)).*1) /\
  Forall (fun jr => j_method jr ∈ ignoreResends) (forgotten s) /\
  (shutdown (cl s) = true -> tracked (cl s) = []).
Proof.
  intros H Hn. destruct (init_system_ok auto established h) as [Hi Ei].
  destruct (steps_simulate _ _ H Hi Hn) as [Hok Hr]. rewrite Ei in Hr. pose proof Hok as [Hc Ha [H1 H2] Hf].
  split_and!; [done| | | |].
  - intros ch. apply (accounted_waiting _ _ _ _ ch Ha).
  - apply accounted_NoDup, NoDup_app in Ha as (_ & _ & Ha). now apply NoDup_app in Ha as [Ha _].
  - eapply Forall_impl; [exact Hf|]. now intros ? [].
  - intros Hs. unfold tracked. now rewrite (co_shutdown _ Hc Hs).
Qed.
(** ** Shutting down *)

Lemma responses_Shutdown c : client_ok c -> responses (Shutdown c) =
  responses c ++ map (fun ch => (ch, error_response ErrClientShutdown)) (map j_chan (tracked c)).
Proof.
  intros Hc. unfold Shutdown, doShutdown, doDisconnect. destruct (shutdown c) eqn:E.
  - unfold tracked. rewrite (co_shutdown _ Hc E). cbn. now rewrite app_nil_r.
  - rewrite fail_all_eq. cbn. now destruct (HTTPPostMode c), (disconnected c).
Qed.

Lemma Shutdown_keeps c : shutdown (Shutdown c) = true /\ HTTPPostMode (Shutdown c) = HTTPPostMode c /\
  connEstablished (Shutdown c) = connEstablished c.
Proof.
  unfold Shutdown, doShutdown, doDisconnect. destruct (shutdown c) eqn:E; [done|]. rewrite fail_all_eq. cbn.
  destruct (HTTPPostMode c) eqn:Hm, (disconnected c); cbn; by rewrite ?Hm.
Qed.

(** The error a client that is shut down answers a request with. *)
Definition closed_error (c : Client) : cerr := if connEstablished c then ErrClientShutdown else ErrClientNotConnected.

Lemma sendRequest_shutdown jr c : HTTPPostMode c = false -> shutdown c = true ->
  sendRequest jr c = (None, deliver (j_chan jr) (error_response (closed_error c)) c).
Proof. intros Hm Hs. unfold sendRequest, addRequest, closed_error. rewrite Hm, Hs. now destruct (connEstablished c). Qed.

(** All the requests in flight reach sendRequest. *)
Definition drain (l : list jsonRequest) (c : Client) : Client := fold_left (fun c jr => (sendRequest jr c).2) l c.

Lemma drain_spec l c : HTTPPostMode c = false -> shutdown c = true ->
  shutdown (drain l c) = true /\ requestList (drain l c) = requestList c /\
  responses (drain l c) = responses c ++ map (fun ch => (ch, error_response (closed_error c))) (map j_chan l).
Proof.
  revert c. induction l as [|jr l IH]; intros c Hm Hs; cbn; [now rewrite app_nil_r|].
  rewrite sendRequest_shutdown by done. cbn. destruct (IH (deliver (j_chan jr) (error_response (closed_error c)) c)) as (H1 & H2 & H3); [done..|].
  unfold drain in *. rewrite H1, H2, H3. cbn. now rewrite <- app_assoc.
Qed.

Lemma drain_steps l s : HTTPPostMode (cl s) = false -> shutdown (cl s) = true -> in_flight s = l ->
  rtc client_step s (MkSystem (drain l (cl s)) [] (sending s) (disconnecting s) (forgotten s)).
Proof.
  revert s. induction l as [|jr l IH]; intros s Hm Hs Hl; [destruct s; cbn in *; subst; reflexivity|].
  eapply rtc_l; [eapply (step_request _ jr l None); [now rewrite Hl|now apply sendRequest_shutdown]|].
  cbn. rewrite sendRequest_shutdown by done. rewrite app_nil_r.
  apply (IH (MkSystem (deliver (j_chan jr) (error_response (closed_error (cl s))) (cl s)) l _ _ _)); done.
Qed.

Lemma ReceiveFuture_app ch c c' R : responses c' = responses c ++ R ->
  ReceiveFuture ch c' = match ReceiveFuture ch c with
                        | Some r => Some r
                        | None => match List.find (fun p => (p.1 =? ch)%nat) R with
                                  | Some (_, r) => Some (match r_err r with Some e => Err e | None => Ok (r_result r) end)
                                  | None => None
                                  end
                        end.
Proof.
  intros E. unfold ReceiveFuture. rewrite E. clear E. induction (responses c) as [|[x r] l IH]; cbn; [done|].
  destruct (x =? ch)%nat; [done|exact IH].
Qed.

(** The error responses of a shutdown. *)
Definition closing (p : nat * Response) : Prop :=
  exists e, p.2 = error_response e /\ (e = ErrClientShutdown \/ e = ErrClientNotConnected).

Lemma closing_map e chs : e = ErrClientShutdown \/ e = ErrClientNotConnected ->
  Forall closing (map (fun ch => (ch, error_response e)) chs).
Proof. intros He. apply Forall_map, Forall_true. intros ch. exists e. auto. Qed.

Lemma fst_answers (r : Response) chs : (map (fun ch : nat => (ch, r)) chs).*1 = chs.
Proof. induction chs as [|ch chs IH]; [done|]. cbn. by f_equal. Qed.

Lemma find_closing ch R : Forall closing R -> ch ∈ R.*1 ->
  exists e, List.find (fun p => (p.1 =? ch)%nat) R = Some (ch, error_response e) /\
    (e = ErrClientShutdown \/ e = ErrClientNotConnected).
Proof.
  intros HR H. induction HR as [|[x r] R (e & Hr & He) HR IH]; [now apply elem_of_nil in H|]. cbn in *. subst r.
  destruct (Nat.eqb_spec x ch) as [->|Hx]; [eauto|]. apply IH. apply elem_of_cons in H as [->|H]; done.
Qed.

Lemma ReceiveFuture_waiting ch s : system_ok s -> ch ∈ waiting s -> ReceiveFuture ch (cl s) = None.
Proof.
  intros Hok Hw. pose proof (accounted_NoDup _ _ _ _ (so_account _ Hok)) as (_ & Hd & _)%NoDup_app.
  specialize (Hd ch Hw). rewrite elem_of_app in Hd. unfold ReceiveFuture.
  destruct (List.find _ _) as [[x r]|] eqn:E; [|done]. apply List.find_some in E as [E Ex]. apply Nat.eqb_eq in Ex as <-.
  destruct Hd. left. apply list_elem_of_fmap. exists (x, r). split; [done|]. now apply list_elem_of_In.
Qed.

(** C12: Shutdown leaves no caller waiting.  From every state the client reaches,
Shutdown followed by nothing but the sendRequest of the commands in flight (each
of which answers at once) leads to a state where no call waits: every call that
did is answered with an error, ErrClientShutdown or, when the client was never
connected, ErrClientNotConnected, and the answers there were stay. *)
Theorem shutdown_answers auto established h s :
  rtc client_step (init_system auto established h) s -> Z.of_nat (next_chan (cl s)) < 2 ^ 64 ->
  exists s', client_step s (MkSystem (Shutdown (cl s)) (in_flight s) (sending s) (disconnecting s) (forgotten s)) /\
    rtc client_step (MkSystem (Shutdown (cl s)) (in_flight s) (sending s) (disconnecting s) (forgotten s)) s' /\
    cl s' = drain (in_flight s) (Shutdown (cl s)) /\ waiting s' = [] /\
    (forall ch, ch ∈ waiting s -> exists e, ReceiveFuture ch (cl s') = Some (Err e) /\
       (e = ErrClientShutdown \/ e = ErrClientNotConnected)) /\
    (forall ch r, ReceiveFuture ch (cl s) = Some r -> ReceiveFuture ch (cl s') = Some r).
Proof.
  intros H Hn. destruct (init_system_ok auto established h) as [Hi _].
  destruct (steps_simulate _ _ H Hi Hn) as [Hok _]. pose proof (so_client _ Hok) as Hc.
  destruct (co_mode _ Hc) as [Hm _]. destruct (Shutdown_keeps (cl s)) as (K1 & K2 & K3). rewrite Hm in K2.
  destruct (drain_spec (in_flight s) (Shutdown (cl s)) K2 K1) as (D1 & D2 & D3).
  rewrite responses_Shutdown, <- app_assoc in D3 by done.
  set (s1 := MkSystem (Shutdown (cl s)) (in_flight s) (sending s) (disconnecting s) (forgotten s)).
  exists (MkSystem (drain (in_flight s) (Shutdown (cl s))) [] (sending s) (disconnecting s) (forgotten s)).
  split; [constructor|]. split; [exact (drain_steps _ s1 K2 K1 eq_refl)|]. cbn [cl]. split; [done|]. split; [|split].
  - unfold waiting, tracked. cbn [in_flight cl app]. rewrite D2.
    destruct (simulates_shutdown s Hok) as [Hok1 _]. pose proof (co_shutdown _ (so_client _ Hok1) K1) as Hl. cbn [cl] in Hl. now rewrite Hl.
  - intros ch Hw. rewrite (ReceiveFuture_app _ _ _ _ D3), (ReceiveFuture_waiting _ _ Hok Hw).
    destruct (find_closing ch (map (fun ch => (ch, error_response ErrClientShutdown)) (map j_chan (tracked (cl s))) ++
      map (fun ch => (ch, error_response (closed_error (Shutdown (cl s))))) (map j_chan (in_flight s)))) as (e & Hfind & He).
    + apply Forall_app. split; apply closing_map; [auto|]. unfold closed_error. destruct (connEstablished _); auto.
    + rewrite fmap_app, !fst_answers, elem_of_app. unfold waiting in Hw. rewrite map_app, elem_of_app in Hw. tauto.
    + rewrite Hfind. eauto.
  - intros ch r Hr. now rewrite (ReceiveFuture_app _ _ _ _ D3), Hr.
Qed.
End system.

(** A client that asks for a block hash and gets it, and asks for another one
while it is shut down. *)
Definition sample_command (index : Z) : command := Some (TPtr GetBlockHashCmd, NewGetBlockHashCmd index).
Definition sample_world : world := World (Reader [] EOF) [] None [] [] 0.
Definition sample_reply : json := JObj [("result", JStr "05"); ("error", JNull); ("id", JInt 1)]%string.
Definition sample_steps : Client -> system := fun c =>
  match SendCmd_request the_registry (sample_command 5) c with
  | (_, Some jr, c) =>
      let '(m, c) := sendRequest jr c in
      let c := handleMessage sample_world (fun _ => 0) (fun _ => 0) (Ok sample_reply) c in
      let '(_, jr, c) := SendCmd_request the_registry (sample_command 6) c in
      MkSystem (Shutdown c) (option_list jr) (option_list m) 0 []
  | (_, None, c) => MkSystem c [] [] 0 []
  end.
Definition sample_system : system := sample_steps (new_client true true None).

Lemma sample_run :
  rtc (client_step the_registry sample_world (fun _ => 0) (fun _ => 0)) (init_system true true None) sample_system.
Proof.
  eapply rtc_l; [eapply (step_cmd _ _ _ _ _ (sample_command 5)); vm_compute; reflexivity|].
  eapply rtc_l; [eapply step_request; [cbv [in_flight option_list option_rect app init_system]; reflexivity|vm_compute; reflexivity]|].
  eapply rtc_l; [apply (step_message _ _ _ _ _ (Ok sample_reply))|].
  eapply rtc_l; [eapply (step_cmd _ _ _ _ _ (sample_command 6)); vm_compute; reflexivity|].
  eapply rtc_l; [apply step_shutdown|].
  match goal with |- rtc _ ?a ?b => replace a with b by (vm_compute; reflexivity) end. reflexivity.
Qed.

Example shutdown_answers_witness :
  exists s', rtc (client_step the_registry sample_world (fun _ => 0) (fun _ => 0)) sample_system s' /\
    ReceiveFuture 0 (cl s') = Some (Ok (Some (JStr "05"))) /\ ReceiveFuture 1 (cl s') = Some (Err ErrClientShutdown).
Proof.
  assert (Hn : Z.of_nat (next_chan (cl sample_system)) < 2 ^ 64) by (vm_compute; reflexivity).
  destruct (shutdown_answers the_registry sample_world (fun _ => 0) (fun _ => 0) true true None sample_system sample_run Hn)
    as (s' & H1 & H2 & H3 & _ & _ & H4).
  exists s'. split; [eapply rtc_l; eassumption|]. split; [apply H4; vm_compute; reflexivity|].
  rewrite H3. vm_compute. reflexivity.
Defined.

Example client_refines_calls_witness :
  shutdown (cl sample_system) = true /\ responses (cl sample_system) = [(0%nat, MkResponse (Some (JStr "05")) None)] /\
  waiting sample_system = [1%nat] /\ abstract sample_system !! 1%nat = Some Waiting.
Proof.
  split_and!; [vm_compute; reflexivity..|].
  assert (Hn : Z.of_nat (next_chan (cl sample_system)) < 2 ^ 64) by (vm_compute; reflexivity).
  apply (client_refines_calls the_registry sample_world (fun _ => 0) (fun _ => 0) true true None sample_system sample_run Hn).
  vm_compute. left.
Defined.
