(* ===== verification/RpcClientApi.v ===== *)
(** * The client's API (rpcclient/notify.go, chain.go, infrastructure.go)

The requests a caller makes: subscriptions, rescans and getblockhash, and the
registration of the subscriptions after a reconnection.  The commands of the
subscriptions are not in the registry, so all of them fail; what the client
would track is proved not to change. *)

From Stdlib Require Import ZArith Lia List.
From Stdlib Require Import Strings.String Strings.Byte.
From stdpp Require Import relations sets fin_maps.
From S2P Require Import Prelude WireFormat TxFormat WireCommon ChainHash JsonTypes AcbcJson AcbcJsonProps AcbcJsonCmds GoFloat.
From S2P Require Import RpcClientNtfn RpcClient RpcClientProps.

#[local] Open Scope list_scope.
#[local] Set Warnings "-register-all".

(** ** Arguments *)

Definition hash_string (h : bytes) : string := string_of_list_byte (Hash_String h).
(** (op wire.OutPoint) as acbcjson has it. *)
Definition newOutPointFromWire (op : TxFormat.OutPoint) : string * Z := (hash_string (Hash op), Index op).
(** An acbcjson.OutPoint as reflection sees it. *)
Definition outpoint_gval (op : string * Z) : gval := VStruct [VStr op.1; VInt op.2].

Definition cmd_of (t : gtype) (v : gval) : command := Some (TPtr t, v).

Section api.
(** The registry, and an implementation of acbcutil.Address. *)
Context (reg : registry) {Address : Type} (addr_String addr_EncodeAddress : Address -> string).

(** What a method of the API does: the channel of the future, the message to
hand to sendMessage, the client. *)
Definition api : Type := Client -> nat * option json * Client.

(** The checks the methods begin with. *)
Definition websocket_only (k : api) : api := fun c =>
  if HTTPPostMode c then let '(ch, c) := newFutureError ErrWebsocketsRequired c in (ch, None, c)
  else match ntfnHandlers c with
       | None => let '(ch, c) := newNilFutureResult c in (ch, None, c)
       | Some _ => k c
       end.

Definition NotifyBlocksAsync : api :=
  websocket_only (SendCmd reg (cmd_of NotifyBlocksCmd NewNotifyBlocksCmd)).

Definition notifySpentInternal (outpoints : list (string * Z)) : api :=
  websocket_only (SendCmd reg (cmd_of NotifySpentCmd (NewNotifySpentCmd (Some (map outpoint_gval outpoints))))).

Definition NotifySpentAsync (outpoints : list TxFormat.OutPoint) : api :=
  websocket_only (fun c =>
    let ops := map newOutPointFromWire outpoints in
    SendCmd reg (cmd_of NotifySpentCmd (NewNotifySpentCmd (Some (map outpoint_gval ops)))) c).

Definition NotifyNewTransactionsAsync (verbose : bool) : api :=
  websocket_only (SendCmd reg (cmd_of NotifyNewTransactionsCmd (NewNotifyNewTransactionsCmd (Some verbose)))).

Definition notifyReceivedInternal (addresses : list string) : api :=
  websocket_only (SendCmd reg (cmd_of NotifyReceivedCmd (NewNotifyReceivedCmd (Some addresses)))).

Definition NotifyReceivedAsync (addresses : list Address) : api :=
  websocket_only (fun c =>
    let addrs := map addr_String addresses in
    SendCmd reg (cmd_of NotifyReceivedCmd (NewNotifyReceivedCmd (Some addrs))) c).

Definition block_string (block : option bytes) : string := match block with Some h => hash_string h | None => "" end.

Definition RescanAsync (startBlock : option bytes) (addresses : list Address) (outpoints : list TxFormat.OutPoint) : api :=
  websocket_only (fun c =>
    let startBlockHashStr := block_string startBlock in
    let addrs := map addr_String addresses in
    let ops := map newOutPointFromWire outpoints in
    SendCmd reg (cmd_of RescanCmd (NewRescanCmd startBlockHashStr (Some addrs) (Some (map outpoint_gval ops)) None)) c).

(** A nil end block is sent as an empty string. *)
Definition RescanEndBlockAsync (startBlock : option bytes) (addresses : list Address) (outpoints : list TxFormat.OutPoint)
    (endBlock : option bytes) : api :=
  websocket_only (fun c =>
    let startBlockHashStr := block_string startBlock in
    let endBlockHashStr := block_string endBlock in
    let addrs := map addr_String addresses in
    let ops := map newOutPointFromWire outpoints in
    SendCmd reg (cmd_of RescanCmd
      (NewRescanCmd startBlockHashStr (Some addrs) (Some (map outpoint_gval ops)) (Some endBlockHashStr))) c).

(** LoadTxFilterAsync makes neither of the checks. *)
Definition LoadTxFilterAsync (reload : bool) (addresses : list Address) (outPoints : list TxFormat.OutPoint) : api :=
  let addrStrs := map addr_EncodeAddress addresses in
  let outPointObjects := map newOutPointFromWire outPoints in
  SendCmd reg (cmd_of LoadTxFilterCmd (NewLoadTxFilterCmd reload (Some addrStrs) (Some (map outpoint_gval outPointObjects)))).

Definition GetBlockHashAsync (blockHeight : Z) : api :=
  SendCmd reg (cmd_of GetBlockHashCmd (NewGetBlockHashCmd blockHeight)).

(** The part of (r FutureGetBlockHashResult) Receive behind ReceiveFuture. *)
Definition hash_result (res : result cerr (option json)) : result cerr bytes :=
  res ← res;
  match res with
  | None => Err (CJson (OtherError "unexpected end of JSON input"))
  | Some j => txHashStr ← json_string j; new_hash txHashStr
  end.
(** (r FutureGetBlockHashResult) Receive; [None] while no response has come. *)
Definition GetBlockHash_Receive (ch : nat) (c : Client) : option (result cerr bytes) :=
  res ← ReceiveFuture ch c; Some (hash_result res).

(** GetBlockHash waits for the response: [receive] is the rest of the system while it
waits.  It sends the message and ends with what ReceiveFuture returns and the client at
that time. *)
Definition waiting_for : Type := nat -> option json -> Client -> result cerr (option json) * Client.
Definition GetBlockHash (receive : waiting_for) (blockHeight : Z) (c : Client) : result cerr bytes * Client :=
  let '(ch, m, c) := GetBlockHashAsync blockHeight c in
  let '(res, c) := receive ch m c in (hash_result res, c).

(** ** The methods that wait for the response *)

(** The Receive methods that return the error only. *)
Definition receive_error (r : result cerr (option json)) : option cerr := match r with Err err => Some err | Ok _ => None end.
Definition FutureNotifyBlocksResult_Receive := receive_error.
Definition FutureNotifySpentResult_Receive := receive_error.
Definition FutureNotifyNewTransactionsResult_Receive := receive_error.
Definition FutureNotifyReceivedResult_Receive := receive_error.
Definition FutureRescanResult_Receive := receive_error.
Definition FutureLoadTxFilterResult_Receive := receive_error.

Definition wait_for (call : api) (Receive : result cerr (option json) -> option cerr) (receive : waiting_for) (c : Client) :
    option cerr * Client :=
  let '(ch, m, c) := call c in let '(res, c) := receive ch m c in (Receive res, c).

Definition NotifyBlocks := wait_for NotifyBlocksAsync FutureNotifyBlocksResult_Receive.
Definition NotifySpent (outpoints : list TxFormat.OutPoint) := wait_for (NotifySpentAsync outpoints) FutureNotifySpentResult_Receive.
Definition NotifyNewTransactions (verbose : bool) :=
  wait_for (NotifyNewTransactionsAsync verbose) FutureNotifyNewTransactionsResult_Receive.
Definition NotifyReceived (addresses : list Address) := wait_for (NotifyReceivedAsync addresses) FutureNotifyReceivedResult_Receive.
Definition Rescan (startBlock : option bytes) (addresses : list Address) (outpoints : list TxFormat.OutPoint) :=
  wait_for (RescanAsync startBlock addresses outpoints) FutureRescanResult_Receive.
Definition RescanEndHeight (startBlock : option bytes) (addresses : list Address) (outpoints : list TxFormat.OutPoint) (endBlock : option bytes) :=
  wait_for (RescanEndBlockAsync startBlock addresses outpoints endBlock) FutureRescanResult_Receive.
Definition LoadTxFilter (reload : bool) (addresses : list Address) (outPoints : list TxFormat.OutPoint) :=
  wait_for (LoadTxFilterAsync reload addresses outPoints) FutureLoadTxFilterResult_Receive.

(** ** After a reconnection *)

(** (s notificationState) Copy: maps are values here. *)
Definition Copy (s : notificationState) : notificationState :=
  MkNtfnState (notifyBlocks s) (notifyNewTx s) (notifyNewTxVerbose s)
    (list_to_set (elements (notifyReceived s))) (list_to_set (elements (notifySpent s))).

(** The calls reregisterNtfns makes for a state, in order.  [order] and [order'] are the
orders in which the maps are iterated. *)
Definition reregister_calls (order : gset (string * Z) -> list (string * Z)) (order' : gset string -> list string)
    (stateCopy : notificationState) : list (waiting_for -> Client -> option cerr * Client) :=
  (if notifyBlocks stateCopy then [NotifyBlocks] else []) ++
  (if notifyNewTx stateCopy || notifyNewTxVerbose stateCopy
   then [NotifyNewTransactions (notifyNewTxVerbose stateCopy)] else []) ++
  (if (0 <? size (notifySpent stateCopy))%nat
   then [wait_for (notifySpentInternal (order (notifySpent stateCopy))) FutureNotifySpentResult_Receive] else []) ++
  (if (0 <? size (notifyReceived stateCopy))%nat
   then [wait_for (notifyReceivedInternal (order' (notifyReceived stateCopy))) FutureNotifyReceivedResult_Receive] else []).

(** One after the other, up to the first error. *)
Fixpoint run_calls (receive : waiting_for) (calls : list (waiting_for -> Client -> option cerr * Client)) (c : Client) :
    option cerr * Client :=
  match calls with
  | [] => (None, c)
  | call :: rest =>
      match call receive c with
      | (Some err, c) => (Some err, c)
      | (None, c) => run_calls receive rest c
      end
  end.

Definition reregisterNtfns receive order order' (c : Client) : option cerr * Client :=
  match ntfnHandlers c with
  | None => (None, c)
  | Some _ => let stateCopy := Copy (ntfnState c) in run_calls receive (reregister_calls order order' stateCopy) c
  end.

(** resendRequests up to its loop that sends: the requests to send again, if the
notifications are registered again. *)
Definition resend receive order order' (c : Client) : list jsonRequest * list jsonRequest * Client :=
  match reregisterNtfns receive order order' c with
  | (Some _, c) => ([], [], Disconnect c)
  | (None, c) => resendRequests c
  end.
End api.

(** ** Subscriptions are refused *)

Definition failed (err : cerr) : api := fun c => let '(ch, c) := newFutureError err c in (ch, None, c).

Lemma SendCmd_unregistered reg cmd c : lookup_method reg cmd = None ->
  SendCmd reg cmd c = failed (CCmd (notRegistered "")) c.
Proof. intros H. unfold SendCmd, SendCmd_request, CmdMethod, failed. rewrite H. now destruct newFutureError. Qed.

Lemma websocket_lookup t v : In t websocket_commands -> lookup_method the_registry (cmd_of t v) = None.
Proof.
  intros Ht. destruct (websocket_commands_unregistered t v RpcVersion1 JNull Ht) as (H & _ & _).
  unfold CmdMethod, cmd_of in *. now destruct (lookup_method _ _).
Qed.

Lemma SendCmd_websocket t v c : In t websocket_commands ->
  SendCmd the_registry (cmd_of t v) c = failed (CCmd (notRegistered "")) c.
Proof. intros Ht. now apply SendCmd_unregistered, websocket_lookup. Qed.

Section refused.
Context {Address : Type} (addr_String addr_EncodeAddress : Address -> string).

(** The methods that make both checks first. *)
Definition checked_calls verbose outpoints strings addresses startBlock endBlock : list api :=
  [NotifyBlocksAsync the_registry; NotifySpentAsync the_registry outpoints;
   notifySpentInternal the_registry (map newOutPointFromWire outpoints);
   NotifyNewTransactionsAsync the_registry verbose; NotifyReceivedAsync the_registry addr_String addresses;
   notifyReceivedInternal the_registry strings; RescanAsync the_registry addr_String startBlock addresses outpoints;
   RescanEndBlockAsync the_registry addr_String startBlock addresses outpoints endBlock].

Lemma checked_calls_answer verbose outpoints strings addresses startBlock endBlock call c :
  In call (checked_calls verbose outpoints strings addresses startBlock endBlock) ->
  call c = (if HTTPPostMode c then failed ErrWebsocketsRequired c
            else match ntfnHandlers c with
                 | None => let '(ch, c) := newNilFutureResult c in (ch, None, c)
                 | Some _ => failed (CCmd (notRegistered "")) c
                 end).
Proof.
  intros Hin.
  unfold checked_calls in Hin. cbn [In] in Hin.
  assert (Hw : forall t, In t [NotifyBlocksCmd; NotifySpentCmd; NotifyNewTransactionsCmd; NotifyReceivedCmd; RescanCmd] ->
    In t websocket_commands) by (unfold websocket_commands; cbn [In]; intros t; tauto).
  destruct_or! Hin; subst; try done; unfold NotifyBlocksAsync, NotifySpentAsync, notifySpentInternal,
    NotifyNewTransactionsAsync, NotifyReceivedAsync, notifyReceivedInternal, RescanAsync, RescanEndBlockAsync, websocket_only;
    (destruct (HTTPPostMode c), (ntfnHandlers c); [done|done| |done]; apply SendCmd_websocket, Hw; cbn [In]; tauto).
Qed.

(** The methods that wait, but for LoadTxFilter. *)
Definition checked_waits verbose outpoints addresses startBlock endBlock : list (waiting_for -> Client -> option cerr * Client) :=
  [NotifyBlocks the_registry; NotifySpent the_registry outpoints; NotifyNewTransactions the_registry verbose;
   NotifyReceived the_registry addr_String addresses; Rescan the_registry addr_String startBlock addresses outpoints;
   RescanEndHeight the_registry addr_String startBlock addresses outpoints endBlock].

Lemma checked_waits_calls verbose outpoints strings addresses startBlock endBlock wait :
  In wait (checked_waits verbose outpoints addresses startBlock endBlock) ->
  exists call, In call (checked_calls verbose outpoints strings addresses startBlock endBlock) /\ wait = wait_for call receive_error.
Proof.
  unfold checked_waits, checked_calls. cbn [In]. intros Hin.
  destruct_or! Hin; try done; subst; eexists; (split; [|reflexivity]); tauto.
Qed.

(** Waiting for a response that is there. *)
Definition ready_receive (receive : waiting_for) : Prop :=
  forall ch m c r, ReceiveFuture ch c = Some r -> receive ch m c = (r, c).

Lemma ReceiveFuture_new c r : next_chan c ∉ (responses c).*1 ->
  ReceiveFuture (next_chan c) (deliver (next_chan c) r (make_chan c).2) = Some (match r_err r with Some e => Err e | None => Ok (r_result r) end).
Proof.
  intros Hn. rewrite (ReceiveFuture_app _ c _ [(next_chan c, r)]) by done.
  unfold ReceiveFuture at 1. destruct (List.find _ (responses c)) as [[ch r']|] eqn:E.
  - exfalso. apply find_some in E as [Hin E%Nat.eqb_eq]. cbn in E. subst ch. apply Hn.
    apply list_elem_of_fmap. exists (next_chan c, r'). split; [done|]. now apply list_elem_of_In.
  - cbn. now rewrite Nat.eqb_refl.
Qed.

(** No subscription can be made.  Whatever its arguments, a method that
subscribes or rescans returns a future that is answered already, with
ErrWebsocketsRequired in HTTP POST mode, with a nil result (as if it had worked)
when there are no handlers, and otherwise with the error that its command is not
registered; LoadTxFilterAsync always gives the last.  The methods that wait for the
response return just that.  No request is numbered, tracked or sent. *)
Theorem subscriptions_refused verbose outpoints strings addresses startBlock endBlock reload call c :
  In call (checked_calls verbose outpoints strings addresses startBlock endBlock) ->
  call c = (if HTTPPostMode c then failed ErrWebsocketsRequired c
            else match ntfnHandlers c with
                 | None => let '(ch, c) := newNilFutureResult c in (ch, None, c)
                 | Some _ => failed (CCmd (notRegistered "")) c
                 end) /\
  LoadTxFilterAsync the_registry addr_EncodeAddress reload addresses outpoints c = failed (CCmd (notRegistered "")) c /\
  (forall err, let '(ch, m, c') := failed err c in
    m = None /\ c_id c' = c_id c /\ requestMap c' = requestMap c /\ requestList c' = requestList c /\
    sendChan c' = sendChan c /\ responses c' = responses c ++ [(ch, error_response err)]) /\
  (forall wait receive, In wait (checked_waits verbose outpoints addresses startBlock endBlock) -> ready_receive receive ->
    next_chan c ∉ (responses c).*1 ->
    (wait receive c).1 = (if HTTPPostMode c then Some ErrWebsocketsRequired
                          else match ntfnHandlers c with None => None | Some _ => Some (CCmd (notRegistered "")) end)).
Proof.
  intros Hin. split_and!.
  - now apply (checked_calls_answer verbose outpoints strings addresses startBlock endBlock).
  - apply SendCmd_websocket. unfold websocket_commands. cbn [In]. tauto.
  - intros err. unfold failed, newFutureError, make_chan, deliver. cbn. done.
  - intros wait receive Hw Hr Hn. destruct (checked_waits_calls _ _ strings _ _ _ _ Hw) as (call' & Hc & ->).
    unfold wait_for. rewrite (checked_calls_answer _ _ _ _ _ _ _ c Hc). unfold failed, newFutureError, newNilFutureResult, make_chan.
    pose proof (ReceiveFuture_new c) as R. unfold make_chan in R. cbn [snd] in R.
    destruct (HTTPPostMode c), (ntfnHandlers c); rewrite (Hr _ _ _ _ (R _ Hn)); done.
Qed.
End refused.

Example subscriptions_refused_witness :
  NotifyBlocksAsync the_registry (new_client true true None) =
    (0%nat, None, (newNilFutureResult (new_client true true None)).2).
Proof.
  destruct (subscriptions_refused (fun s : string => s) (fun s => s) true [] [] [] None None false
    (NotifyBlocksAsync the_registry) (new_client true true None) ltac:(now left)) as [H _].
  rewrite H. reflexivity.
Defined.

(** ** Nothing is tracked *)

#[local] Opaque the_registry.

Lemma CmdMethod_lookup reg cmd m : CmdMethod reg cmd = Ok m ->
  exists rt v, cmd = Some (rt, v) /\ concreteTypeToMethod reg !! type_string rt = Some m.
Proof.
  unfold CmdMethod, lookup_method. destruct cmd as [[rt v]|]; [|discriminate].
  destruct (concreteTypeToMethod reg !! _) eqn:E; [|discriminate]. intros [= <-]. eauto.
Qed.

Lemma no_method reg cmd m (bad : string) :
  forallb (fun p => negb (p.2 =? bad)%string) (map_to_list (concreteTypeToMethod reg)) = true ->
  CmdMethod reg cmd = Ok m -> m <> bad.
Proof.
  intros Hall (rt & v & _ & E)%CmdMethod_lookup ->. apply elem_of_map_to_list, list_elem_of_In in E.
  rewrite forallb_forall in Hall. apply Hall in E. cbn in E. now rewrite String.eqb_refl in E.
Qed.

Lemma registered_not_ignored cmd m : CmdMethod the_registry cmd = Ok m -> m ∉ ignoreResends.
Proof.
  intros H Hm%elem_of_singleton. revert H Hm. apply no_method. vm_compute. reflexivity.
Qed.

Lemma track_cmd_other cmd n :
  (forall t t' v, cmd = Some (TPtr t, v) -> In t' websocket_commands -> type_string t <> type_string t') ->
  track_cmd cmd n = n.
Proof.
  intros H. unfold track_cmd. destruct cmd as [[[| |t|] v]|]; try done. destruct v as [| | | | |[[]|]| |]; try done.
  rewrite !bool_decide_eq_false_2; [done|..]; apply (H _ _ _ eq_refl); unfold websocket_commands; cbn [In]; tauto.
Qed.

Lemma other_type reg t t' v m : lookup_method reg (cmd_of t' VOther) = None ->
  CmdMethod reg (Some (TPtr t, v)) = Ok m -> type_string t <> type_string t'.
Proof.
  intros Hl (rt & v' & [= <- <-] & H)%CmdMethod_lookup E. unfold lookup_method, cmd_of in Hl.
  cbn [type_string] in *. rewrite <- E, H in Hl. discriminate.
Qed.

Lemma registered_not_tracked cmd m n : CmdMethod the_registry cmd = Ok m -> track_cmd cmd n = n.
Proof.
  intros H. apply track_cmd_other. intros t t' v -> Ht. revert H. apply other_type. now apply websocket_lookup.
Qed.

Section untracked.
Context (w : world) (other_uint64 other_int64 : float64 -> Z).
#[local] Abbreviation step := (client_step the_registry w other_uint64 other_int64).

Definition nothing_tracked (s : system) : Prop := ntfnState (cl s) = newNotificationState /\ forgotten s = [].

Lemma handleMessage_ntfnState msg c :
  (forall jr, jr ∈ map e_req (requestList c) -> CmdMethod the_registry (j_cmd jr) = Ok (j_method jr)) -> client_ok c ->
  ntfnState (handleMessage w other_uint64 other_int64 msg c) = ntfnState c.
Proof.
  intros Hr Hc. unfold handleMessage. destruct msg as [doc|]; [|done]. destruct (unmarshal_in doc) as [i|]; [|done].
  destruct (in_ID i) as [f|].
  - destruct (_ || _); [done|]. destruct (removeRequest _ c) as [[request|] c'] eqn:E; [|].
    + destruct (removeRequest_ok _ _ _ _ Hc E) as (_ & Hp & _ & Ec). rewrite Ec.
      unfold trackRegisteredNtfns. cbn. destruct (ntfnHandlers c); [|done]. cbn. eapply registered_not_tracked, Hr.
      unfold tracked in Hp. rewrite Hp. left.
    + unfold removeRequest in E. destruct (_ !! _); now inv E.
  - destruct (bool_decide _); [done|]. now destruct (in_Params i).
Qed.

Lemma none_ignored s : system_ok the_registry s ->
  List.filter (fun e => bool_decide (j_method (e_req e) ∈ ignoreResends)) (requestList (cl s)) = [].
Proof.
  intros Hok. destruct (so_ids _ _ Hok) as [_ Hi]. rewrite Forall_app in Hi. destruct Hi as [_ Hi]. unfold tracked in Hi.
  rewrite Forall_map in Hi. apply elem_of_nil_inv. intros e He. apply list_elem_of_In, filter_In in He as [He Hb].
  apply bool_decide_eq_true in Hb. rewrite Forall_forall in Hi. apply list_elem_of_In in He. destruct (Hi e He) as [_ Hm].
  revert Hb. eapply registered_not_ignored, Hm.
Qed.

Lemma step_nothing_tracked s s' : system_ok the_registry s -> step s s' -> nothing_tracked s -> nothing_tracked s'.
Proof.
  intros Hok H [Hn Hf]. destruct (so_ids _ _ Hok) as [_ Hi]. rewrite Forall_app in Hi. destruct Hi as [_ Hi].
  assert (Hr : forall jr, jr ∈ map e_req (requestList (cl s)) -> CmdMethod the_registry (j_cmd jr) = Ok (j_method jr)).
  { intros jr Hj. rewrite Forall_forall in Hi. now apply (Hi jr). }
  destruct H; (split; [|try exact Hf]); cbn [cl forgotten]; rewrite <- ?Hn; try done.
  - unfold SendCmd_request, newFutureError, make_chan, NextID in H. cbv beta iota zeta in H.
    destruct (CmdMethod _ _); [destruct (MarshalCmd _ _ _ _)|]; now inv H.
  - unfold sendRequest, addRequest, sendPostRequest in H0.
    destruct (HTTPPostMode (cl s)), (batch (cl s)), (connEstablished (cl s)), (shutdown (cl s)); now inv H0.
  - now destruct drop.
  - unfold wsOut, doDisconnect in H. destruct (sendChan (cl s)), ok; try (now inv H).
    cbn in H. destruct (HTTPPostMode (cl s)), (disconnected (cl s)); now inv H.
  - apply handleMessage_ntfnState; [exact Hr|apply Hok].
  - unfold doDisconnect in H. destruct (HTTPPostMode (cl s)), (disconnected (cl s)); now inv H.
  - unfold finish_disconnect, doShutdown. rewrite fail_all_eq. cbn. destruct (DisableAutoReconnect (cl s)), (shutdown (cl s)); done.
  - unfold Shutdown, doShutdown, doDisconnect. destruct (shutdown (cl s)); [done|]. rewrite fail_all_eq. cbn.
    now destruct (HTTPPostMode (cl s)), (disconnected (cl s)).
  - now inv H.
  - unfold resendRequests in H. inv H. now rewrite Hf, none_ignored.
Qed.

Lemma steps_untracked s s' : rtc step s s' -> Z.of_nat (next_chan (cl s')) < 2 ^ 64 ->
  system_ok the_registry s -> nothing_tracked s -> system_ok the_registry s' /\ nothing_tracked s'.
Proof.
  intros H Hn Hs Ht. revert Hn. pattern s'. refine (rtc_ind_r _ _ _ _ s' H); clear s' H; [done|].
  intros s1 s' Hr Hst IH Hn. pose proof (step_chans _ _ _ _ _ _ Hst). destruct IH as [IH1 IH2]; [lia|].
  split; [|now apply (step_nothing_tracked s1)]. eapply step_simulates; eassumption.
Qed.

(** With the commands the package registers the client never has anything to
register again.  In every state the client reaches, by any interleaving of
commands, messages, disconnections and reconnections, its notification state is
the empty one, reregisterNtfns does nothing, and no request is dropped on a
reconnection. *)
Theorem nothing_to_reregister auto established h s receive order order' :
  rtc step (init_system auto established h) s -> Z.of_nat (next_chan (cl s)) < 2 ^ 64 ->
  ntfnState (cl s) = newNotificationState /\
  reregisterNtfns the_registry receive order order' (cl s) = (None, cl s) /\
  (resend the_registry receive order order' (cl s)).1.2 = [] /\
  Permutation (resend the_registry receive order order' (cl s)).1.1 (tracked (cl s)).
Proof.
  intros H Hn.
  destruct (steps_untracked _ _ H Hn (proj1 (init_system_ok _ _ _ _))) as [Hok [Hnt Hf]]; [done|].
  assert (Hre : reregisterNtfns the_registry receive order order' (cl s) = (None, cl s)).
  { unfold reregisterNtfns. rewrite Hnt. destruct (ntfnHandlers (cl s)); [|done]. reflexivity. }
  split_and!; [done|done| |]; unfold resend; rewrite Hre; unfold resendRequests, tracked; cbn [fst snd];
    pose proof (none_ignored s Hok) as Hnone; [now rewrite Hnone|].
  rewrite (filter_split (fun e => bool_decide (j_method (e_req e) ∈ ignoreResends)) (requestList (cl s))) at 2.
  now rewrite Hnone, app_nil_r.
Qed.
End untracked.

(** ** What is registered again *)

Lemma outpoints_of_map l : outpoints_of (VSlice (Some (map outpoint_gval l))) = l.
Proof. cbn. induction l as [|[h i] l IH]; [done|]. cbn. now rewrite IH. Qed.
Lemma strings_of_map l : strings_of (VSlice (Some (map VStr l))) = l.
Proof. cbn. induction l as [|a l IH]; [done|]. cbn. now rewrite IH. Qed.

Lemma Copy_id s : Copy s = s.
Proof. destruct s. unfold Copy. cbn. f_equal; apply list_to_set_elements_L. Qed.

(** A call that, once it passes the checks, sends [cmd] and waits. *)
Definition sends_cmd (reg : registry) (call : waiting_for -> Client -> option cerr * Client) (cmd : command) : Prop :=
  forall receive c, HTTPPostMode c = false -> ntfnHandlers c <> None ->
    call receive c = wait_for (SendCmd reg cmd) receive_error receive c.

Lemma websocket_only_sends reg cmd : sends_cmd reg (wait_for (websocket_only (SendCmd reg cmd)) receive_error) cmd.
Proof. intros receive c Hm Hh. unfold wait_for, websocket_only. rewrite Hm. now destruct (ntfnHandlers c). Qed.

(** The commands of [reregister_calls]. *)
Definition reregister_cmds (order : gset (string * Z) -> list (string * Z)) (order' : gset string -> list string)
    (n : notificationState) : list command :=
  (if notifyBlocks n then [cmd_of NotifyBlocksCmd NewNotifyBlocksCmd] else []) ++
  (if notifyNewTx n || notifyNewTxVerbose n
   then [cmd_of NotifyNewTransactionsCmd (NewNotifyNewTransactionsCmd (Some (notifyNewTxVerbose n)))] else []) ++
  (if (0 <? size (notifySpent n))%nat
   then [cmd_of NotifySpentCmd (NewNotifySpentCmd (Some (map outpoint_gval (order (notifySpent n)))))] else []) ++
  (if (0 <? size (notifyReceived n))%nat
   then [cmd_of NotifyReceivedCmd (NewNotifyReceivedCmd (Some (order' (notifyReceived n))))] else []).

Lemma track_blocks n : track_cmd (cmd_of NotifyBlocksCmd NewNotifyBlocksCmd) n =
  MkNtfnState true (notifyNewTx n) (notifyNewTxVerbose n) (notifyReceived n) (notifySpent n).
Proof. reflexivity. Qed.
Lemma track_newtx v n : track_cmd (cmd_of NotifyNewTransactionsCmd (NewNotifyNewTransactionsCmd (Some v))) n =
  MkNtfnState (notifyBlocks n) (if v then notifyNewTx n else true) (v || notifyNewTxVerbose n) (notifyReceived n) (notifySpent n).
Proof. destruct v; reflexivity. Qed.
Lemma track_spent l n : track_cmd (cmd_of NotifySpentCmd (NewNotifySpentCmd (Some (map outpoint_gval l)))) n =
  MkNtfnState (notifyBlocks n) (notifyNewTx n) (notifyNewTxVerbose n) (notifyReceived n) (notifySpent n ∪ list_to_set l).
Proof. transitivity (track_cmd (cmd_of NotifySpentCmd (VPtr (Some (VStruct [VSlice (Some (map outpoint_gval l))])))) n); [done|].
  unfold track_cmd, cmd_of. cbn -[outpoints_of]. now rewrite outpoints_of_map. Qed.
Lemma track_received l n : track_cmd (cmd_of NotifyReceivedCmd (NewNotifyReceivedCmd (Some l))) n =
  MkNtfnState (notifyBlocks n) (notifyNewTx n) (notifyNewTxVerbose n) (notifyReceived n ∪ list_to_set l) (notifySpent n).
Proof. unfold track_cmd, cmd_of, NewNotifyReceivedCmd. cbn -[strings_of]. now rewrite strings_of_map. Qed.

Lemma size_pos_false {A} `{Countable A} (X : gset A) : (0 <? size X)%nat = false -> X = ∅.
Proof. intros E%Nat.ltb_ge. apply leibniz_equiv, size_empty_iff. lia. Qed.

(** Where the commands of the subscriptions are registered, reregisterNtfns
restores the notification state: the calls it makes send one command for each
kind of subscription the state holds, and a client that tracks those commands,
starting with none, ends with the same subscriptions, in whatever order the maps
are iterated (a client that asked for transactions both ways gets the verbose
notifications only). *)
Theorem reregister_restores reg order order' n :
  (forall s, Permutation (order s) (elements s)) -> (forall s, Permutation (order' s) (elements s)) ->
  Forall2 (sends_cmd reg) (reregister_calls reg order order' (Copy n)) (reregister_cmds order order' n) /\
  fold_left (fun s cmd => track_cmd cmd s) (reregister_cmds order order' n) newNotificationState =
    MkNtfnState (notifyBlocks n) (notifyNewTx n && negb (notifyNewTxVerbose n)) (notifyNewTxVerbose n)
      (notifyReceived n) (notifySpent n).
Proof.
  intros Ho Ho'. rewrite Copy_id. split.
  - unfold reregister_calls, reregister_cmds. repeat apply Forall2_app; case_match; repeat constructor; apply websocket_only_sends.
  - unfold reregister_cmds. rewrite !fold_left_app.
    assert (Hs : list_to_set (order (notifySpent n)) = notifySpent n).
    { rewrite (list_to_set_perm_L _ _ (Ho (notifySpent n))). apply list_to_set_elements_L. }
    assert (Hr : list_to_set (order' (notifyReceived n)) = notifyReceived n).
    { rewrite (list_to_set_perm_L _ _ (Ho' (notifyReceived n))). apply list_to_set_elements_L. }
    destruct (0 <? size (notifySpent n))%nat eqn:Es; [|apply size_pos_false in Es; rewrite Es in *];
    (destruct (0 <? size (notifyReceived n))%nat eqn:Er; [|apply size_pos_false in Er; rewrite Er in *]);
    cbn [fold_left]; rewrite ?track_received, ?track_spent, ?Hs, ?Hr;
    destruct (notifyBlocks n), (notifyNewTx n), (notifyNewTxVerbose n);
    cbn [orb andb negb fold_left]; rewrite ?track_blocks, ?track_newtx; unfold newNotificationState;
    cbn [notifyBlocks notifyNewTx notifyNewTxVerbose notifyReceived notifySpent orb andb negb]; f_equal; set_solver.
Qed.

Definition sample_state : notificationState :=
  MkNtfnState true true true {[ "addr"%string ]} {[ ("00"%string, 1) ]}.

Example reregister_restores_witness :
  length (reregister_cmds elements elements sample_state) = 4%nat /\
  fold_left (fun s cmd => track_cmd cmd s) (reregister_cmds elements elements sample_state) newNotificationState =
    MkNtfnState true false true {[ "addr"%string ]} {[ ("00"%string, 1) ]}.
Proof.
  split; [vm_compute; reflexivity|].
  apply (reregister_restores the_registry elements elements sample_state); reflexivity.
Defined.

Example nothing_to_reregister_witness :
  ntfnState (cl sample_system) = newNotificationState.
Proof.
  assert (Hn : Z.of_nat (next_chan (cl sample_system)) < 2 ^ 64) by (vm_compute; reflexivity).
  apply (nothing_to_reregister sample_world (fun _ => 0) (fun _ => 0) true true None sample_system
    (fun _ _ c => (Ok None, c)) elements elements sample_run Hn).
Defined.
