(* ===== verification/RpcClientConn.v ===== *)
(** * The client's connections (rpcclient/infrastructure.go, cookiefile.go)

Credentials and their cookie file, the websocket dial, the HTTP POST requests,
the goroutines that read and write, and the retries of the reconnection.  What
the network, the file system and the clock do is given to the functions as
outcomes. *)

From Stdlib Require Import ZArith Lia List.
From Stdlib Require Import Strings.String Strings.Byte.
From stdpp Require Import relations.
From S2P Require Import Prelude WireFormat WireCommon JsonTypes AcbcJson AcbcJsonCmds ChainParams GoFloat RpcAuth.
From S2P Require Import RpcClientNtfn RpcClient RpcClientProps.

#[local] Open Scope list_scope.
#[local] Set Warnings "-register-all".

(** ** The cookie file *)

(** bufio.Scanner reads at most this much in search of a line. *)
Definition MaxScanTokenSize : Z := 65536.
Definition newline : byte := x0a.
Definition carriage_return : byte := x0d.

(** The bytes before the first newline, if there is one. *)
Fixpoint before_newline (b : bytes) : option bytes :=
  match b with
  | [] => None
  | c :: b => if bool_decide (c = newline) then Some [] else (fun l => c :: l) <$> before_newline b
  end.
Definition dropCR (b : bytes) : bytes :=
  match last b with Some c => if bool_decide (c = carriage_return) then removelast b else b | None => b end.

(** scanner.Scan, Err and Text on a file with contents [b] that ends with [e]. *)
Definition scan_line (b : bytes) (e : werr) : result cerr bytes :=
  match before_newline (take (Z.to_nat MaxScanTokenSize) b) with
  | Some l => Ok (dropCR l)
  | None =>
      if MaxScanTokenSize <=? Z.of_nat (length b) then Err (COther "bufio.Scanner: token too long")
      else if bool_decide (e = EOF) then Ok (dropCR b) else Err (CWire e)
  end.

(** strings.SplitN(s, ":", 2). *)
Fixpoint split_colon (s : bytes) : option (bytes * bytes) :=
  match s with
  | [] => None
  | c :: s => if bool_decide (c = ":"%byte) then Some ([], s)
              else match split_colon s with Some (a, b) => Some (c :: a, b) | None => None end
  end.

(** The result of os.Open: an error, or the contents and how they end.  The
results of readCookieFile are named: what was not assigned is empty. *)
Definition readCookieFile (file : result cerr (bytes * werr)) : string * string * option cerr :=
  match file with
  | Err e => (""%string, ""%string, Some e)
  | Ok (b, e) =>
      match scan_line b e with
      | Err e => (""%string, ""%string, Some e)
      | Ok s =>
          match split_colon s with
          | None => (""%string, ""%string, Some (COther "malformed cookie file"))
          | Some (username, password) => (string_of_list_byte username, string_of_list_byte password, None)
          end
      end
  end.

(** ** ConnConfig *)

(** The cookie fields; times are nanoseconds, 0 the zero time. *)
Record cookie := MkCookie {
  cookieLastCheckTime : Z; cookieLastModTime : Z;
  cookieLastUser : string; cookieLastPass : string; cookieLastErr : option cerr }.
Definition zero_cookie : cookie := MkCookie 0 0 "" "" None.

Record ConnConfig := MkConnConfig {
  Host : string; Endpoint : string; User : string; Pass : string;
  cc_Params : string; DisableTLS : bool; Certificates : bytes;
  Proxy : string; ProxyUser : string; ProxyPass : string;
  cc_DisableAutoReconnect : bool; DisableConnectOnNew : bool; cc_HTTPPostMode : bool;
  ExtraHeaders : list (string * string)  (** in the order the map is iterated *) }.

(** What the cookie path shows at a moment: the clock, os.Stat, os.Open. *)
Record fs_view := MkView { v_now : Z; v_stat : result cerr Z; v_file : result cerr (bytes * werr) }.

Definition cookie_result (k : cookie) : string * string * option cerr :=
  (cookieLastUser k, cookieLastPass k, cookieLastErr k).

Definition retrieveCookie (v : fs_view) (k : cookie) : (string * string * option cerr) * cookie :=
  if negb (cookieLastCheckTime k =? 0) && (v_now v <? cookieLastCheckTime k + 30 * 10 ^ 9) then (cookie_result k, k)
  else
    let k := MkCookie (v_now v) (cookieLastModTime k) (cookieLastUser k) (cookieLastPass k) (cookieLastErr k) in
    match v_stat v with
    | Err err =>
        let k := MkCookie (cookieLastCheckTime k) (cookieLastModTime k) (cookieLastUser k) (cookieLastPass k) (Some err) in
        (cookie_result k, k)
    | Ok modTime =>
        if negb (modTime =? cookieLastModTime k) then
          let '(u, p, e) := readCookieFile (v_file v) in
          let k := MkCookie (cookieLastCheckTime k) modTime u p e in (cookie_result k, k)
        else (cookie_result k, k)
    end.

Definition getAuth (config : ConnConfig) (v : fs_view) (k : cookie) : (string * string * option cerr) * cookie :=
  if negb (bool_decide (Pass config = ""%string)) then ((User config, Pass config, None), k) else retrieveCookie v k.

(** ** dial *)

(** The TLS configuration: the minimal version, and the PEM of the root pool. *)
Record tls_config := MkTLS { MinVersion : option Z; RootCAs : option bytes }.
Definition VersionTLS12 : Z := 0x0303.

(** What is dialed: the URL, the calls of requestHeader.Add, TLS and the proxy. *)
Record dial_request := MkDial {
  d_url : string; d_header : list (string * bytes); d_tls : option tls_config;
  d_proxy : option (string * string * string) }.

(** How Dial ends: a connection; an error, which may be ErrBadHandshake with a
response. *)
Inductive dial_outcome :=
  | Connected
  | BadHandshake (status_code : Z) (status : string)
  | DialFailed (err : string).

Definition dial_plan (config : ConnConfig) (user pass : string) : dial_request :=
  let tlsConfig :=
    if DisableTLS config then None
    else Some (MkTLS (Some VersionTLS12) (if (0 <? length (Certificates config))%nat then Some (Certificates config) else None)) in
  let scheme := if DisableTLS config then "ws"%string else "wss"%string in
  MkDial (scheme +:+ "://" +:+ Host config +:+ "/" +:+ Endpoint config)
    (("Authorization"%string, basic_auth user pass) :: map (fun p => (p.1, to_bytes p.2)) (ExtraHeaders config))
    tlsConfig
    (if negb (bool_decide (Proxy config = ""%string)) then Some (Proxy config, ProxyUser config, ProxyPass config) else None).

Definition dial_error (o : dial_outcome) : option cerr :=
  match o with
  | Connected => None
  | DialFailed err => Some (COther err)
  | BadHandshake code status =>
      if (code =? 401) || (code =? 403) then Some ErrInvalidAuth
      else if code =? 200 then Some ErrInvalidEndpoint
      else Some (COther status)
  end.

(** dial: what it dials, if the credentials are there, and its error. *)
Definition dial (config : ConnConfig) (v : fs_view) (net : dial_request -> dial_outcome) (k : cookie)
    : option dial_request * option cerr * cookie :=
  match getAuth config v k with
  | ((_, _, Some err), k) => (None, Some err, k)
  | ((user, pass, None), k) =>
      let d := dial_plan config user pass in (Some d, dial_error (net d), k)
  end.

(** ** New *)

(** newHTTPClient: the proxy URL, which has to parse, and the TLS roots. *)
Definition newHTTPClient (parse_ok : string -> bool) (config : ConnConfig) : result cerr (option string * option tls_config) :=
  if negb (bool_decide (Proxy config = ""%string)) && negb (parse_ok (Proxy config))
  then Err (COther "parse error")
  else Ok (if bool_decide (Proxy config = ""%string) then None else Some (Proxy config),
           if negb (DisableTLS config) && (0 <? length (Certificates config))%nat
           then Some (MkTLS None (Some (Certificates config))) else None).

Inductive goroutine := SendPostHandler | OnClientConnectedCall | WsInHandler | WsOutHandler | WsReconnectHandler.

(** start: the goroutines; the first of a websocket client calls the handler, if set. *)
Definition start (c : Client) : list goroutine :=
  if HTTPPostMode c then [SendPostHandler]
  else [OnClientConnectedCall; WsInHandler; WsOutHandler].

(** The chain parameters of a name; [None] inside when their package could not be
initialised. *)
Definition chain_of (name : string) : result cerr (option Params) :=
  if bool_decide (name = ""%string) || bool_decide (Some name = Name <$> TestNet3Params) then Ok TestNet3Params
  else if bool_decide (name = Name SimNetParams) then Ok (Some SimNetParams)
  else Err (COther ("rpcclient.New: Unknown chain " +:+ name)).

(** New: the client, its chain parameters and the goroutines it starts. *)
Definition New (parse_ok : string -> bool) (config : ConnConfig) (ntfnHandlers : option NotificationHandlers)
    (v : fs_view) (net : dial_request -> dial_outcome) (k : cookie) : result cerr (Client * option Params * list goroutine) :=
  start' ← (if cc_HTTPPostMode config then _ ← newHTTPClient parse_ok config; mret true
            else if negb (DisableConnectOnNew config) then
              match dial config v net k with (_, Some err, _) => Err err | (_, None, _) => mret true end
            else mret false);
  let ntfnHandlers := if cc_HTTPPostMode config then None else ntfnHandlers in
  chainParams ← chain_of (cc_Params config);
  let client := MkClient 0 0 0 (cc_HTTPPostMode config) (cc_DisableAutoReconnect config) start' false false false []
                  ∅ [] ntfnHandlers newNotificationState [] [] [] [] in
  mret (client, chainParams,
        if start' then
          start client ++
          (if negb (HTTPPostMode client) && negb (DisableAutoReconnect client) then [WsReconnectHandler] else [])
        else []).

(** ** HTTP POST requests *)

Definition requestRetryInterval : Z := 500 * 10 ^ 6.
Definition minute : Z := 60 * 10 ^ 9.

(** One attempt: http.NewRequest, the files at that time, and httpClient.Do. *)
Record attempt := MkAttempt { at_request : option string; at_view : fs_view; at_response : result string (Z * result string string) }.

(** How the attempts of a request end: an answer at once, a response with its
status code and body, a dereference of the nil httpResponse, or no more
attempts are given. *)
Inductive post_end :=
  | PostAnswer (err : cerr)
  | PostResponse (status : Z) (body : result string string)
  | PostNilResponse
  | PostWaiting.

Definition post_backoff (i : nat) : Z :=
  let backoff := requestRetryInterval * (Z.of_nat i + 1) in if minute <? backoff then minute else backoff.

(** One attempt: how it ends the request, or [None] if it failed and the next one
follows. *)
Definition post_attempt (config : ConnConfig) (a : attempt) (k : cookie) : option post_end * cookie :=
  match at_request a with
  | Some err => (Some (PostAnswer (COther err)), k)
  | None =>
      match getAuth config (at_view a) k with
      | ((_, _, Some err), k) => (Some (PostAnswer err), k)
      | ((_, _, None), k) =>
          match at_response a with Ok (status, body) => (Some (PostResponse status body), k) | Err _ => (None, k) end
      end
  end.

(** The loop over the attempts from [i] on, with [n] to go: the pauses it made
and how it ends.  The err it assigns is the one declared inside the loop, so the
check behind the loop sees nil. *)
Fixpoint post_attempts (config : ConnConfig) (n i : nat) (l : list attempt) (k : cookie) : list Z * post_end * cookie :=
  match n with
  | O => ([], PostNilResponse, k)
  | S n =>
      match l with
      | [] => ([], PostWaiting, k)
      | a :: l =>
          match post_attempt config a k with
          | (Some e, k) => ([], e, k)
          | (None, k) => let '(pauses, e, k) := post_attempts config n (S i) l k in (post_backoff i :: pauses, e, k)
          end
      end
  end.

Definition tries : nat := 10.
Definition post_url (config : ConnConfig) : string :=
  ((if negb (DisableTLS config) then "https" else "http") +:+ "://" +:+ Host config).

(** json.Unmarshal into a rawResponse; [None] is an error. *)
Definition raw_member (acc : bool * (option json * option RPCError)) (member : string * json) :=
  let '(ok, (res, err)) := acc in
  let '(name, j) := member in
  if EqualFold name "result" then (ok, (Some j, err))
  else if EqualFold name "error" then
    match unmarshal_rpc_error err j with Ok e => (ok, (res, e)) | Err _ => (false, (res, err)) end
  else (ok, (res, err)).
Definition unmarshal_raw (j : json) : option (option json * option RPCError) :=
  match j with
  | JNull => Some (None, None)
  | JObj ms => match fold_left raw_member ms (true, (None, None)) with (true, r) => Some r | _ => None end
  | _ => None
  end.

(** The answer a response gives: [parse] is the JSON reader. *)
Definition post_response (parse : string -> option json) (batch : bool) (status : Z) (body : result string string) : Response :=
  match body with
  | Err e => error_response (COther ("error reading json reply: " +:+ e))
  | Ok respBytes =>
      let invalid := error_response (COther ("status code: " +:+ fmt_d status +:+ ", response: " +:+ fmt_q respBytes)) in
      match parse respBytes with
      | None => invalid
      | Some doc =>
          if batch then MkResponse (Some doc) None
          else match unmarshal_raw doc with
               | Some (res, err) => rawResponse_result res err
               | None => invalid
               end
      end
  end.

(** What becomes of a request: it is answered; or ten attempts have failed, and the
dereference of the nil response ends the process; or there is another attempt to come. *)
Inductive tried := Answered (c : Client) | Panicked | Trying.

(** What the end of the loop does. *)
Definition post_deliver (parse : string -> option json) (jReq : jsonRequest) (e : post_end) (c : Client) : tried :=
  match e with
  | PostAnswer err => Answered (deliver (j_chan jReq) (error_response err) c)
  | PostResponse status body => Answered (deliver (j_chan jReq) (post_response parse (batch c) status body) c)
  | PostNilResponse => Panicked
  | PostWaiting => Trying
  end.

(** handleSendPostMessage on the attempts so far. *)
Definition handleSendPostMessage (parse : string -> option json) (config : ConnConfig) (jReq : jsonRequest)
    (l : list attempt) (k : cookie) (c : Client) : tried * cookie :=
  let '(_, e, k) := post_attempts config tries 0 l k in (post_deliver parse jReq e c, k).

(** sendPostHandler: the next request of the channel, while it runs; the drain at
its end. *)
Definition post_next (c : Client) : option (jsonRequest * Client) :=
  match sendPostChan c with [] => None | r :: rest => Some (r, set_queues (sendChan c) rest c) end.
Definition post_drain (c : Client) : Client :=
  set_queues (sendChan c) []
    (fold_left (fun c jReq => deliver (j_chan jReq) (error_response ErrClientShutdown) c) (sendPostChan c) c).

(** The places of sendPostHandler: between requests, at the [i]-th attempt of a request, or
ended; or the process is gone with the panic over a request. *)
Inductive post_place := P_idle | P_trying (jReq : jsonRequest) (i : nat) | P_panicked (jReq : jsonRequest) | P_ended.

(** sendPostHandler with what runs beside it: a request is sent (when the channel has
room), the handler takes one, makes an attempt at it, the client is shut down, the
handler sees that and ends. *)
Inductive post_event := PostSend (jReq : jsonRequest) | PostTake | PostTry (a : attempt) | PostShutdown | PostEnd.
Record post_state := MkPost { p_client : Client; p_cookie : cookie; p_place : post_place }.

(** One event; [None]: it cannot happen in this state.  Nothing can after the panic. *)
Definition post_step (parse : string -> option json) (config : ConnConfig) (e : post_event) (s : post_state) : option post_state :=
  let '(MkPost c k p) := s in
  match e, p with
  | _, P_panicked _ => None
  | PostSend jReq, _ =>
      if (length (sendPostChan c) <? sendPostBufferSize)%nat then Some (MkPost (sendPostRequest jReq c) k p) else None
  | PostShutdown, _ => Some (MkPost (Shutdown c) k p)
  | PostTake, P_idle => '(jReq, c) ← post_next c; Some (MkPost c k (P_trying jReq 0))
  | PostTry a, P_trying jReq i =>
      match post_attempt config a k with
      | (Some e, k) => match post_deliver parse jReq e c with Answered c => Some (MkPost c k P_idle) | _ => None end
      | (None, k) => Some (MkPost c k (if (S i <? tries)%nat then P_trying jReq (S i) else P_panicked jReq))
      end
  | PostEnd, P_idle => if shutdown c then Some (MkPost (post_drain c) k P_ended) else None
  | _, _ => None
  end.

Fixpoint sendPostHandler (parse : string -> option json) (config : ConnConfig) (events : list post_event) (s : post_state) : option post_state :=
  match events with
  | [] => Some s
  | e :: events => s ← post_step parse config e s; sendPostHandler parse config events s
  end.

(** ** The goroutines of a websocket *)

Inductive read_error := ReadEOF | ReadOpError (temporary : bool) | ReadOther.

Definition shouldLogReadError (err : read_error) (c : Client) : bool :=
  if shutdown c then false
  else match err with ReadEOF => false | ReadOpError temporary => temporary | ReadOther => true end.

Section handlers.
Context (w : world) (other_uint64 other_int64 : float64 -> Z).

(** wsInHandler on what ReadMessage returns, one after the other. *)
Fixpoint wsInHandler (reads : list (result read_error (result string json))) (c : Client) : Client :=
  match reads with
  | [] => c
  | r :: reads =>
      if shutdown c then Disconnect c
      else match r with
           | Err _ => Disconnect c
           | Ok msg => wsInHandler reads (handleMessage w other_uint64 other_int64 msg c)
           end
  end.
End handlers.

(** wsOutHandler: each message is written or not, until the first failure; the
rest of the channel is dropped. *)
Fixpoint wsOutHandler (writes : list bool) (c : Client) : Client :=
  if disconnected c then wsOut_drain c
  else match writes, sendChan c with
       | ok :: writes, _ :: rest =>
           let c := set_queues rest (sendPostChan c) c in
           if ok then wsOutHandler writes c else wsOut_drain (Disconnect c)
       | _, _ => c
       end.

(** ** Reconnecting *)

Definition connectionRetryInterval : Z := 5 * 10 ^ 9.

(** The pause before the next attempt, in nanoseconds (an int64). *)
Definition scaledDuration (retryCount : Z) : Z :=
  let scaledInterval := i64 (connectionRetryInterval * retryCount) in
  if minute <? scaledInterval then minute else scaledInterval.

(** The reconnect loop on what dial returns: the pauses, the count of retries, and
whether it is connected. *)
Fixpoint reconnect (dials : list bool) (retryCount : Z) : list Z * Z * bool :=
  match dials with
  | [] => ([], retryCount, false)
  | true :: _ => ([], 0, true)
  | false :: dials =>
      let retryCount := i64 (retryCount + 1) in
      let '(pauses, n, ok) := reconnect dials retryCount in (scaledDuration retryCount :: pauses, n, ok)
  end.

(** ** The cookie *)

Lemma before_newline_app l rest : newline ∉ l -> before_newline (l ++ newline :: rest) = Some l.
Proof.
  induction l as [|c l IH]; intros H; cbn; [done|]. apply not_elem_of_cons in H as [Hc Hl].
  rewrite bool_decide_eq_false_2 by congruence. now rewrite IH.
Qed.

Lemma split_colon_app u p : ":"%byte ∉ u -> split_colon (u ++ ":"%byte :: p) = Some (u, p).
Proof.
  induction u as [|c u IH]; intros H; cbn; [done|]. apply not_elem_of_cons in H as [Hc Hu].
  rewrite bool_decide_eq_false_2 by congruence. now rewrite IH.
Qed.

Lemma dropCR_id l : last l <> Some carriage_return -> dropCR l = l.
Proof. intros H. unfold dropCR. destruct (last l); [|done]. rewrite bool_decide_eq_false_2; [done|congruence]. Qed.

(** A line that fits the scanner's buffer with its newline. *)
Lemma scan_line_newline l rest e : newline ∉ l -> Z.of_nat (length l) < MaxScanTokenSize -> last l <> Some carriage_return ->
  scan_line (l ++ newline :: rest) e = Ok l.
Proof.
  intros Hn Hl Hc. unfold scan_line.
  replace (take (Z.to_nat MaxScanTokenSize) (l ++ newline :: rest))
    with (l ++ newline :: take (Z.to_nat MaxScanTokenSize - S (length l)) rest).
  - rewrite before_newline_app by done. cbn. now rewrite dropCR_id.
  - rewrite take_app, (take_ge l) by (unfold MaxScanTokenSize in *; lia). f_equal.
    replace (Z.to_nat MaxScanTokenSize - length l)%nat with (S (Z.to_nat MaxScanTokenSize - S (length l))) by (unfold MaxScanTokenSize in *; lia).
    done.
Qed.

(** ReadCookieFile reads what a cookie file holds.  A first line [user:pass],
whose user has no colon, gives that user and that passphrase, whatever follows,
as long as the line fits the scanner's buffer and does not end in a carriage
return. *)
Theorem readCookieFile_roundtrip (user pass : string) rest e :
  ":"%byte ∉ to_bytes user -> newline ∉ to_bytes user ++ to_bytes pass ->
  Z.of_nat (length (to_bytes user) + length (to_bytes pass)) + 1 < MaxScanTokenSize ->
  last (to_bytes pass) <> Some carriage_return ->
  readCookieFile (Ok (to_bytes user ++ ":"%byte :: to_bytes pass ++ newline :: rest, e)) = (user, pass, None).
Proof.
  intros Hu Hn Hl Hc. unfold readCookieFile. rewrite elem_of_app in Hn.
  replace (to_bytes user ++ ":"%byte :: to_bytes pass ++ newline :: rest)
    with ((to_bytes user ++ ":"%byte :: to_bytes pass) ++ newline :: rest) by now rewrite <- app_assoc.
  rewrite scan_line_newline.
  - rewrite split_colon_app by done. unfold to_bytes. now rewrite !string_of_list_byte_of_string.
  - rewrite elem_of_app, elem_of_cons. intros [H|[H|H]]; [tauto|discriminate|tauto].
  - rewrite length_app. cbn. lia.
  - rewrite last_app, last_cons. destruct (last (to_bytes pass)); [congruence|discriminate].
Qed.

Example readCookieFile_roundtrip_witness :
  readCookieFile (Ok (to_bytes "__cookie__:1f2e" ++ [newline], EOF)) = ("__cookie__", "1f2e", None)%string.
Proof.
  apply (readCookieFile_roundtrip "__cookie__" "1f2e" [] EOF).
  - apply (bool_decide_unpack _). vm_compute. exact I.
  - apply (bool_decide_unpack _). vm_compute. exact I.
  - vm_compute. reflexivity.
  - discriminate.
Defined.

Lemma retrieveCookie_cached v k : cookieLastCheckTime k <> 0 -> v_now v < cookieLastCheckTime k + 30 * 10 ^ 9 ->
  retrieveCookie v k = (cookie_result k, k).
Proof. intros H1 H2. unfold retrieveCookie. rewrite (proj2 (Z.eqb_neq _ _) H1), (proj2 (Z.ltb_lt _ _) H2). done. Qed.

(** One view after the other. *)
Fixpoint retrieve_all (views : list fs_view) (k : cookie) : list (string * string * option cerr) * cookie :=
  match views with
  | [] => ([], k)
  | v :: views => let '(r, k) := retrieveCookie v k in let '(rs, k) := retrieve_all views k in (r :: rs, k)
  end.

(** A cookie file that could not be seen once is not read again until it
changes.  After os.Stat failed, every later retrieveCookie, for as long as the
file has the modification time it was last read at, returns the error of that
os.Stat, although the file is there and its credentials are known. *)
Theorem cookie_error_sticks err v views k :
  v_stat v = Err err -> cookieLastCheckTime k = 0 \/ cookieLastCheckTime k + 30 * 10 ^ 9 <= v_now v ->
  Forall (fun u => v_stat u = Ok (cookieLastModTime k)) views ->
  Forall (fun r => r = (cookieLastUser k, cookieLastPass k, Some err)) (retrieve_all (v :: views) k).1.
Proof.
  intros Hs Ht Hv. cbn [retrieve_all].
  assert (E : (negb (cookieLastCheckTime k =? 0) && (v_now v <? cookieLastCheckTime k + 30 * 10 ^ 9)) = false).
  { destruct Ht as [Ht|Ht]; [now rewrite Ht|]. rewrite (proj2 (Z.ltb_ge _ _) Ht). apply andb_false_r. }
  unfold retrieveCookie at 1. rewrite E, Hs. cbn [cookieLastCheckTime cookieLastModTime cookieLastUser cookieLastPass].
  set (k1 := MkCookie _ _ _ _ _).
  enough (H : forall k', cookieLastModTime k' = cookieLastModTime k -> cookie_result k' = cookie_result k1 ->
    Forall (fun r => r = cookie_result k1) (retrieve_all views k').1).
  { specialize (H k1 eq_refl eq_refl). destruct (retrieve_all views k1) as [rs k2]. constructor; [done|exact H]. }
  clear Hs Ht E. induction Hv as [|u views Hu Hv IH]; intros k' Hm Hk; cbn [retrieve_all]; [constructor|].
  assert (Hr : exists k2, retrieveCookie u k' = (cookie_result k1, k2) /\ cookieLastModTime k2 = cookieLastModTime k /\
    cookie_result k2 = cookie_result k1).
  { unfold retrieveCookie. destruct (_ && _); [exists k'; by rewrite Hk|]. rewrite Hu. cbn [cookieLastModTime]. rewrite Hm, Z.eqb_refl. cbn.
    eexists. split; [rewrite <- Hk; reflexivity|]. split; [done|]. now rewrite <- Hk. }
  destruct Hr as (k2 & -> & H2 & H3). specialize (IH k2 H2 H3). destruct (retrieve_all views k2) as [rs k3]. constructor; done.
Qed.

Definition sample_cookie : cookie := MkCookie 1 5 "u" "p" None.
Example cookie_error_sticks_witness :
  Forall (fun r => r = ("u", "p", Some (COther "no such file")))%string
    (retrieve_all [MkView (40 * 10 ^ 9) (Err (COther "no such file")) (Err ErrInvalidAuth);
                   MkView (80 * 10 ^ 9) (Ok 5) (Ok (to_bytes "u:p", EOF))] sample_cookie).1.
Proof.
  apply (cookie_error_sticks (COther "no such file") _ [_] sample_cookie); [reflexivity|right; vm_compute; discriminate|].
  constructor; [reflexivity|constructor].
Defined.

(** ** HTTP POST requests *)

(** An attempt that gets as far as httpClient.Do, which fails. *)
Definition fails (a : attempt) : Prop := at_request a = None /\ is_Some (match at_response a with Err e => Some e | Ok _ => None end).

Lemma post_attempts_fail config n i l k : Pass config <> ""%string -> Forall fails l -> (length l <= n)%nat ->
  forall l', post_attempts config n i (l ++ l') k =
    let '(pauses, e, k) := post_attempts config (n - length l) (i + length l) l' k in
    (map post_backoff (seq i (length l)) ++ pauses, e, k).
Proof.
  intros Hp Hl. revert n i. induction Hl as [|a l [H1 [er H2]] Hl IH]; intros n i Hn l'; cbn in Hn.
  - cbn. rewrite Nat.sub_0_r, Nat.add_0_r. now destruct (post_attempts _ _ _ _ _) as [[]].
  - destruct n as [|n]; [lia|]. cbn [app post_attempts]. unfold post_attempt. rewrite H1. unfold getAuth. rewrite bool_decide_eq_false_2 by done. cbn [negb].
    destruct (at_response a); [discriminate|]. rewrite IH by lia. cbn [length].
    replace (S n - S (length l))%nat with (n - length l)%nat by lia. replace (i + S (length l))%nat with (S i + length l)%nat by lia.
    now destruct (post_attempts _ _ _ _ _) as [[]].
Qed.

Lemma post_attempts_found config n i a l k status body : Pass config <> ""%string -> at_request a = None ->
  at_response a = Ok (status, body) -> post_attempts config (S n) i (a :: l) k = ([], PostResponse status body, k).
Proof.
  intros Hp H1 H2. cbn [post_attempts]. unfold post_attempt. rewrite H1. unfold getAuth. rewrite bool_decide_eq_false_2 by done. cbn [negb].
  now rewrite H2.
Qed.

(** A POST request is tried up to ten times.  With a configured passphrase, the
first attempt that gets a response decides, and exactly one answer is sent to the
request's own channel; between attempts the client pauses half a second more each
time.  When ten attempts fail, the check of the error behind the loop reads the
wrong variable and handleSendPostMessage dereferences the nil response: nothing
is ever sent to the channel. *)
Theorem handleSendPostMessage_spec parse config jReq failed a l k c :
  Pass config <> ""%string -> Forall fails failed ->
  (forall status body, (length failed < tries)%nat -> at_request a = None -> at_response a = Ok (status, body) ->
    handleSendPostMessage parse config jReq (failed ++ a :: l) k c =
      (Answered (deliver (j_chan jReq) (post_response parse (batch c) status body) c), k) /\
    (post_attempts config tries 0 (failed ++ a :: l) k).1.1 = map post_backoff (seq 0 (length failed))) /\
  (length failed = tries -> handleSendPostMessage parse config jReq failed k c = (Panicked, k) /\
    (post_attempts config tries 0 failed k).1.2 = PostNilResponse /\
    fold_right Z.add 0 (post_attempts config tries 0 failed k).1.1 = 27500 * 10 ^ 6).
Proof.
  intros Hp Hf. split.
  - intros status body Hn H1 H2. unfold handleSendPostMessage.
    rewrite (post_attempts_fail config tries 0 failed k Hp Hf) by lia.
    destruct (tries - length failed)%nat as [|n] eqn:En; [lia|]. rewrite (post_attempts_found _ _ _ _ _ _ _ _ Hp H1 H2).
    cbn [fst]. now rewrite app_nil_r.
  - intros Hn. unfold handleSendPostMessage. rewrite <- (app_nil_r failed).
    rewrite (post_attempts_fail config tries 0 failed k Hp Hf), Hn, Nat.sub_diag by lia. cbn [post_attempts].
    split; [done|]. split; [done|]. vm_compute. reflexivity.
Qed.

Definition sample_config : ConnConfig := MkConnConfig "localhost:8334" "ws" "u" "p" "" false [] "" "" "" false false true [].
Definition sample_view : fs_view := MkView 1 (Ok 1) (Ok ([], EOF)).
Definition refused : attempt := MkAttempt None sample_view (Err "connection refused"%string).

Example handleSendPostMessage_spec_witness :
  (handleSendPostMessage (fun _ => None) sample_config (MkJsonRequest 1 "getblockhash" None JNull 0)
    (replicate 10 refused) zero_cookie (new_client true true None)).1 = Panicked.
Proof.
  assert (H : Forall fails (replicate 10 refused)) by (apply Forall_replicate; split; [reflexivity|now eexists]).
  destruct (handleSendPostMessage_spec (fun _ => None) sample_config (MkJsonRequest 1 "getblockhash" None JNull 0)
    (replicate 10 refused) refused [] zero_cookie (new_client true true None) ltac:(discriminate) H) as [_ H2].
  destruct (H2 eq_refl) as [-> _]. reflexivity.
Defined.

Lemma drained_responses l c :
  responses (fold_left (fun c jReq => deliver (j_chan jReq) (error_response ErrClientShutdown) c) l c) =
  responses c ++ map (fun jReq => (j_chan jReq, error_response ErrClientShutdown)) l.
Proof. revert c. induction l as [|r l IH]; intros c; cbn; [now rewrite app_nil_r|]. rewrite IH. cbn. now rewrite <- app_assoc. Qed.

(** What one attempt comes to. *)
Lemma post_attempt_failed config a k k' : post_attempt config a k = (None, k') -> fails a.
Proof.
  unfold post_attempt, fails. destruct (at_request a); [discriminate|]. destruct (getAuth _ _ _) as [[[? ?] []] ?]; [discriminate|].
  destruct (at_response a) as [[? ?]|err]; [discriminate|eauto].
Qed.

Lemma post_attempt_ends config a k k' e parse jReq c : post_attempt config a k = (Some e, k') ->
  exists r, post_deliver parse jReq e c = Answered (deliver (j_chan jReq) r c).
Proof.
  unfold post_attempt. destruct (at_request a); [intros [= <- _]; eexists; reflexivity|].
  destruct (getAuth _ _ _) as [[[? ?] []] ?]; [intros [= <- _]; eexists; reflexivity|].
  destruct (at_response a) as [[? ?]|err]; [intros [= <- _]; eexists; reflexivity|discriminate].
Qed.

(** The steps of an attempt. *)
Lemma post_step_failed parse config a c k k' jReq i : post_attempt config a k = (None, k') ->
  post_step parse config (PostTry a) (MkPost c k (P_trying jReq i)) =
    Some (MkPost c k' (if (S i <? tries)%nat then P_trying jReq (S i) else P_panicked jReq)).
Proof. intros E. unfold post_step. now rewrite E. Qed.

Lemma post_step_answered parse config a c c' k k' jReq i e : post_attempt config a k = (Some e, k') ->
  post_deliver parse jReq e c = Answered c' ->
  post_step parse config (PostTry a) (MkPost c k (P_trying jReq i)) = Some (MkPost c' k' P_idle).
Proof. intros E D. unfold post_step. now rewrite E, D. Qed.

(** Attempt after attempt, sendPostHandler does what handleSendPostMessage does. *)
Lemma handle_tries parse config jReq c : forall n l k i, (n + i)%nat = tries -> (0 < n)%nat ->
  let '(_, e, k') := post_attempts config n i l k in
  match post_deliver parse jReq e c with
  | Answered c' => exists m, sendPostHandler parse config (map PostTry (take m l)) (MkPost c k (P_trying jReq i)) = Some (MkPost c' k' P_idle)
  | Panicked => sendPostHandler parse config (map PostTry (take n l)) (MkPost c k (P_trying jReq i)) = Some (MkPost c k' (P_panicked jReq))
  | Trying => sendPostHandler parse config (map PostTry l) (MkPost c k (P_trying jReq i)) = Some (MkPost c k' (P_trying jReq (length l + i)))
  end.
Proof.
  induction n as [|n IH]; intros l k i Hn H0; [lia|]. destruct l as [|a l]; cbn [post_attempts]; [done|].
  destruct (post_attempt config a k) as [[e|] k1] eqn:E.
  - destruct (post_attempt_ends _ _ _ _ _ parse jReq c E) as [r D]. rewrite D. exists 1%nat. cbn [take map sendPostHandler].
    rewrite (post_step_answered _ _ _ _ _ _ _ _ _ _ E D). now destruct l.
  - destruct n as [|n].
    + cbn [post_attempts post_deliver take map sendPostHandler]. rewrite (post_step_failed _ _ _ _ _ _ _ _ E), (proj2 (Nat.ltb_ge _ _)) by lia.
      now destruct l.
    + specialize (IH l k1 (S i) ltac:(lia) ltac:(lia)). destruct (post_attempts config (S n) (S i) l k1) as [[pauses e] k2].
      assert (F := post_step_failed parse config a c k k1 jReq i E). rewrite (proj2 (Nat.ltb_lt _ _)) in F by lia.
      destruct (post_deliver parse jReq e c) as [c'| |].
      * destruct IH as [m IH]. exists (S m). cbn [take map sendPostHandler]. rewrite F. exact IH.
      * cbn [take map sendPostHandler]. rewrite F. exact IH.
      * cbn [map sendPostHandler length]. rewrite F. cbn [mbind option_bind]. rewrite IH. do 3 f_equal. lia.
Qed.

(** The request that the handler has taken and not answered. *)
Definition held (p : post_place) : list jsonRequest :=
  match p with P_trying jReq _ | P_panicked jReq => [jReq] | P_idle | P_ended => [] end.

(** What sendPostHandler and the client keep, with the requests [sent] and the attempts
[made] so far: the requests are answered, held or queued in their order, and the last
attempts have failed. *)
Record post_ok (sent : list jsonRequest) (made : list attempt) (s : post_state) : Prop := {
  po_mode : HTTPPostMode (p_client s) = true /\ requestList (p_client s) = [];
  po_order : (responses (p_client s)).*1 ++ map j_chan (held (p_place s) ++ sendPostChan (p_client s)) = map j_chan sent;
  po_ended : p_place s = P_ended -> sendPostChan (p_client s) = [] /\ shutdown (p_client s) = true;
  po_failed : exists before failed, made = before ++ failed /\ Forall fails failed /\
    match p_place s with P_trying _ i => length failed = i /\ (i < tries)%nat | P_panicked _ => length failed = tries | _ => failed = [] end }.

Definition sent_by (e : post_event) : list jsonRequest := match e with PostSend jReq => [jReq] | _ => [] end.
Definition made_by (e : post_event) : list attempt := match e with PostTry a => [a] | _ => [] end.

Lemma post_failed_idle made : exists before failed : list attempt, made = before ++ failed /\ Forall fails failed /\ failed = [].
Proof. exists made, []. now rewrite app_nil_r. Qed.

Lemma drain_keeps l c : let c' := fold_left (fun c jReq => deliver (j_chan jReq) (error_response ErrClientShutdown) c) l c in
  HTTPPostMode c' = HTTPPostMode c /\ requestList c' = requestList c /\ shutdown c' = shutdown c.
Proof. revert c. induction l as [|r l IH]; intros c; [done|]. cbn. destruct (IH (deliver (j_chan r) (error_response ErrClientShutdown) c)) as (-> & -> & ->). done. Qed.

Lemma post_step_ok parse config e s s' sent made : post_ok sent made s -> (shutdown (p_client s) = true -> sent_by e = []) ->
  post_step parse config e s = Some s' ->
  post_ok (sent ++ sent_by e) (made ++ made_by e) s' /\ (shutdown (p_client s') = true -> shutdown (p_client s) = true \/ e = PostShutdown).
Proof.
  intros [[H1 H2] H3 H4 H5] Hs. destruct s as [c k p]. cbn [p_client p_cookie p_place] in *.
  destruct e as [jReq| |a| |]; cbn [sent_by made_by] in *; rewrite ?app_nil_r.
  - unfold post_step. intros H.
    assert (HP : s' = MkPost (sendPostRequest jReq c) k p) by (destruct p; try discriminate H; destruct (_ <? _)%nat; try discriminate H; now injection H as <-).
    subst s'. unfold sendPostRequest in *.
    destruct (shutdown c) eqn:S; [specialize (Hs eq_refl); discriminate Hs|]. split; [|cbn; rewrite S; discriminate].
    constructor; cbn; [done| |intros E; now apply H4 in E|exact H5].
    now rewrite !map_app, <- H3, map_app, <- !app_assoc.
  - unfold post_step, post_next. destruct p; try discriminate. destruct (sendPostChan c) as [|jReq rest] eqn:Q; [discriminate|].
    intros [= <-]. split; [|now left]. constructor; cbn; try done. destruct H5 as (b & l & E & F & ->). exists b, []. split_and!; (done || unfold tries; lia).
  - unfold post_step. destruct p as [|jReq i| |]; try discriminate. destruct H5 as (b & l & -> & F & L & I).
    destruct (post_attempt config a k) as [[e|] k'] eqn:E.
    + destruct (post_attempt_ends _ _ _ _ _ parse jReq c E) as [r ->]. intros [= <-]. split; [|now left].
      constructor; cbn; [done| |done|apply post_failed_idle]. rewrite fmap_app, <- app_assoc. exact H3.
    + destruct (Nat.ltb_spec (S i) tries) as [LT|LT]; intros [= <-]; (split; [|now left]); (constructor; cbn -[tries]; [done..|]).
      all: exists b, (l ++ [a]); rewrite <- app_assoc, length_app; cbn [length].
      all: split_and!; try done; try lia; apply Forall_app; split; [done|]; repeat constructor; apply (post_attempt_failed _ _ _ _ E).
  - unfold post_step. intros H. assert (HP : s' = MkPost (Shutdown c) k p) by (destruct p; try discriminate H; now injection H as <-).
    subst s'. split; [|now right]. unfold Shutdown, doShutdown, doDisconnect. destruct (shutdown c) eqn:S.
    + constructor; cbn -[tries]; [done..| |exact H5]. intros E. now destruct (H4 E).
    + rewrite fail_all_eq. cbn. rewrite H1, H2. constructor; cbn; rewrite ?app_nil_r; try done. intros E. now apply H4 in E.
  - unfold post_step. destruct p; try discriminate. destruct (shutdown c) eqn:S; [|discriminate]. intros [= <-].
    split; [|now left]. unfold post_drain. destruct (drain_keeps (sendPostChan c) c) as (K1 & K2 & K3). constructor; cbn.
    + now rewrite K1, K2.
    + rewrite drained_responses, fmap_app, app_nil_r, <- H3. cbn. f_equal. rewrite <- list_fmap_compose. apply list_fmap_ext. done.
    + now rewrite K3.
    + destruct H5 as (b & l & E & F & ->). now exists b, [].
Qed.

Definition sent_in (events : list post_event) : list jsonRequest := concat (map sent_by events).
Definition made_in (events : list post_event) : list attempt := concat (map made_by events).

Lemma sendPostHandler_ok parse config events : forall s s' sent made, post_ok sent made s ->
  (shutdown (p_client s) = true -> sent_in events = []) ->
  (forall pre post, events = pre ++ PostShutdown :: post -> sent_in post = []) ->
  sendPostHandler parse config events s = Some s' -> post_ok (sent ++ sent_in events) (made ++ made_in events) s'.
Proof.
  induction events as [|e events IH]; intros s s' sent made Hok Hd Hl; cbn [sendPostHandler].
  - intros [= <-]. unfold sent_in, made_in. cbn. now rewrite !app_nil_r.
  - destruct (post_step parse config e s) as [s1|] eqn:E; [|discriminate]. cbn. intros H.
    assert (Hd' : shutdown (p_client s) = true -> sent_by e = [] /\ sent_in events = []) by (intros D; apply app_eq_nil, (Hd D)).
    destruct (post_step_ok _ _ _ _ _ sent made Hok (fun D => proj1 (Hd' D)) E) as [K1 K2].
    unfold sent_in, made_in in *. cbn [map concat]. rewrite !app_assoc.
    apply (IH s1 s'); [exact K1| | |exact H].
    + intros D. destruct (K2 D) as [D'| ->]; [now apply Hd'|now apply (Hl [])].
    + intros pre post ->. now apply (Hl (e :: pre)).
Qed.

(** C16: every POST request is answered once, in the order of the requests, unless ten
attempts in a row fail.  However sending, the attempts of sendPostHandler and the shutdown
follow each other, as long as nothing is sent after the shutdown: the requests answered
are the first of those sent, each with one response on its channel, the next one is the
request under way, and the others are queued.  A handler that has ended has answered all.
One that is between requests takes the next, and ends once the client is shut down.  One
that is at a request has made fewer than ten attempts at it, all of which failed; whatever
the next one comes to, it answers the request and goes on, or, with the tenth failure,
panics over the nil response: the process is gone, the request and those behind it are
never answered, and this happens in no other way. *)
Theorem post_requests_answered parse config events c k s :
  HTTPPostMode c = true -> requestList c = [] -> shutdown c = false -> responses c = [] -> sendPostChan c = [] ->
  (forall pre post, events = pre ++ PostShutdown :: post -> sent_in post = []) ->
  sendPostHandler parse config events (MkPost c k P_idle) = Some s ->
  (responses (p_client s)).*1 ++ map j_chan (held (p_place s) ++ sendPostChan (p_client s)) = map j_chan (sent_in events) /\
  match p_place s with
  | P_ended => (responses (p_client s)).*1 = map j_chan (sent_in events)
  | P_idle =>
      (sendPostChan (p_client s) <> [] -> is_Some (post_step parse config PostTake s)) /\
      (shutdown (p_client s) = true -> is_Some (post_step parse config PostEnd s))
  | P_trying jReq i =>
      (exists before failed, made_in events = before ++ failed /\ Forall fails failed /\ length failed = i /\ (i < 10)%nat) /\
      forall a, exists s', post_step parse config (PostTry a) s = Some s' /\
        (p_place s' = P_idle /\ (exists r, responses (p_client s') = responses (p_client s) ++ [(j_chan jReq, r)]) \/
         fails a /\ responses (p_client s') = responses (p_client s) /\
         p_place s' = if (i =? 9)%nat then P_panicked jReq else P_trying jReq (S i))
  | P_panicked jReq =>
      (exists before failed, made_in events = before ++ failed /\ Forall fails failed /\ length failed = 10%nat) /\
      forall e, post_step parse config e s = None
  end.
Proof.
  intros H1 H2 H3 H4 H5 Hl H. destruct (sendPostHandler_ok parse config events (MkPost c k P_idle) s [] []) as [_ O D F]; try done.
  { constructor; cbn; [done|now rewrite H4, H5|discriminate|now exists [], []]. }
  { cbn. congruence. }
  cbn [app] in *. destruct s as [c' k' p]. cbn [p_client p_place] in *. split; [exact O|]. destruct p as [|jReq i|jReq|].
  - unfold post_step, post_next. split; [destruct (sendPostChan c'); [done|intros _; eexists; reflexivity]|]. intros ->. eexists. reflexivity.
  - destruct F as (before & failed & F1 & F2 & F3 & F4). split; [now exists before, failed|]. intros a.
    destruct (post_attempt config a k') as [[e|] k1] eqn:E.
    + destruct (post_attempt_ends _ _ _ _ _ parse jReq c' E) as [r R].
      eexists. split; [exact (post_step_answered _ _ _ _ _ _ _ _ _ _ E R)|]. left. split; [done|]. now exists r.
    + eexists. split; [exact (post_step_failed _ _ _ _ _ _ _ _ E)|]. right. split; [exact (post_attempt_failed _ _ _ _ E)|]. split; [done|]. cbn [p_place].
      unfold tries in *. destruct (Nat.ltb_spec (S i) 10), (Nat.eqb_spec i 9); done || lia.
  - destruct F as (before & failed & F1 & F2 & F3). split; [now exists before, failed|]. now intros [].
  - destruct (D eq_refl) as [Q _]. rewrite Q in O. cbn in O. now rewrite app_nil_r in O.
Qed.

(** Two requests, the first answered by the server and the second by the shutdown. *)
Definition post_config : ConnConfig := MkConnConfig "h" "" "u" "p" "" true [] "" "" "" true false true [].
Definition post_events : list post_event :=
  [PostSend (MkJsonRequest 1 "getblockhash" None JNull 0); PostTake; PostSend (MkJsonRequest 2 "getblockhash" None JNull 1);
   PostTry (MkAttempt None (MkView 0 (Err ErrClientShutdown) (Err ErrClientShutdown)) (Err "connection refused"%string));
   PostTry (MkAttempt None (MkView 0 (Err ErrClientShutdown) (Err ErrClientShutdown)) (Ok (200, Ok "null"%string))); PostShutdown; PostEnd].
Definition post_client : Client :=
  MkClient 2 0 2 true true true false false false [] ∅ [] None newNotificationState [] [] [] [].

Lemma post_requests_answered_witness : exists s,
  sendPostHandler (fun _ => Some JNull) post_config post_events (MkPost post_client zero_cookie P_idle) = Some s /\
  responses (p_client s) = [(0%nat, MkResponse None None); (1%nat, error_response ErrClientShutdown)] /\
  (responses (p_client s)).*1 = map j_chan (sent_in post_events).
Proof.
  destruct (sendPostHandler (fun _ => Some JNull) post_config post_events (MkPost post_client zero_cookie P_idle)) as [s|] eqn:E;
    [|exfalso; vm_compute in E; discriminate E].
  exists s. split; [reflexivity|]. split; [vm_compute in E; injection E as <-; reflexivity|].
  destruct (post_requests_answered (fun _ => Some JNull) post_config post_events post_client zero_cookie s) as [_ H]; try reflexivity.
  - intros pre post Hp. unfold post_events in Hp.
    do 5 (destruct pre as [|? pre]; [discriminate Hp|injection Hp as _ Hp]).
    destruct pre as [|? pre]; [injection Hp as <-; reflexivity|injection Hp as _ Hp].
    destruct pre as [|? [|]]; discriminate Hp.
  - exact E.
  - vm_compute in E. injection E as <-. exact H.
Defined.

(** A POST request that is sent while the client shuts down is answered twice.
sendPostRequest answers it and queues it nonetheless; when sendPostHandler then
drains its queue it sends a second response to a channel that has room for one,
so that unless the caller has received the first the handler blocks for good. *)
Theorem sendPostRequest_twice jReq c :
  shutdown c = true ->
  responses (post_drain (sendPostRequest jReq c)) =
    responses c ++ [(j_chan jReq, error_response ErrClientShutdown)] ++
    map (fun r => (j_chan r, error_response ErrClientShutdown)) (sendPostChan c ++ [jReq]).
Proof.
  intros Hs. unfold post_drain, sendPostRequest. rewrite Hs. cbn [responses set_queues sendPostChan sendChan deliver].
  rewrite drained_responses. cbn. now rewrite <- app_assoc.
Qed.

Example sendPostRequest_twice_witness :
  responses (post_drain (sendPostRequest (MkJsonRequest 1 "getblockhash" None JNull 7)
    (set_conn false true (new_client true true None)))) =
  [(7%nat, error_response ErrClientShutdown); (7%nat, error_response ErrClientShutdown)].
Proof. rewrite (sendPostRequest_twice (MkJsonRequest 1 "getblockhash" None JNull 7)) by reflexivity. reflexivity. Defined.

(** ** Reconnecting *)

(** The reconnection backs off between five seconds and a minute.  While dials
fail the pauses are five seconds times the number of retries, up to a minute, and
never overflow within 2^30 retries; the first dial that succeeds ends the loop and
resets the count. *)
Theorem reconnect_backoff n dials retryCount :
  0 <= retryCount -> retryCount + Z.of_nat n < 2 ^ 30 ->
  reconnect (replicate n false ++ true :: dials) retryCount =
    (map (fun i => Z.min (connectionRetryInterval * (retryCount + Z.of_nat i)) minute) (seq 1 n), 0, true) /\
  Forall (fun p => connectionRetryInterval <= p <= minute)
    (reconnect (replicate n false ++ true :: dials) retryCount).1.1.
Proof.
  assert (Hd : forall r, 0 <= r < 2 ^ 30 -> scaledDuration r = Z.min (connectionRetryInterval * r) minute).
  { intros r Hr. unfold scaledDuration. rewrite i64_small by (unfold in_i64, connectionRetryInterval; lia).
    destruct (Z.ltb_spec minute (connectionRetryInterval * r)); lia. }
  intros H0 Hn.
  assert (E : reconnect (replicate n false ++ true :: dials) retryCount =
    (map (fun i => Z.min (connectionRetryInterval * (retryCount + Z.of_nat i)) minute) (seq 1 n), 0, true)).
  { revert retryCount H0 Hn. induction n as [|n IH]; intros r H0 Hn; cbn [replicate app reconnect seq map]; [done|].
    rewrite i64_small by (unfold in_i64; lia). rewrite IH by lia. rewrite Hd by lia.
    rewrite <- (seq_shift n 1), map_map. f_equal. f_equal. f_equal. apply map_ext. intros i. do 2 f_equal. lia. }
  split; [exact E|]. rewrite E. cbn [fst]. apply Forall_forall. intros p Hp.
  apply list_elem_of_fmap in Hp as (i & -> & Hi%elem_of_seq). unfold connectionRetryInterval, minute in *. lia.
Qed.

Example reconnect_backoff_witness :
  (reconnect (replicate 2 false ++ [true]) 0).1.1 = [5 * 10 ^ 9; 10 * 10 ^ 9].
Proof. destruct (reconnect_backoff 2 [] 0 ltac:(lia) ltac:(lia)) as [-> _]. reflexivity. Defined.

(** ** The goroutines are runs of the system *)

Definition with_client (s : system) (c : Client) : system := MkSystem c (in_flight s) (sending s) (disconnecting s) (forgotten s).

Section handler_steps.
Context (reg : registry) (w : world) (other_uint64 other_int64 : float64 -> Z).
#[local] Abbreviation step := (client_step reg w other_uint64 other_int64).
#[local] Abbreviation runs s c := (rtc step s (with_client s c)).

Lemma runs_refl s : runs s (cl s).
Proof. destruct s. reflexivity. Qed.

Lemma runs_trans s c c' : runs s c -> runs (with_client s c) c' -> runs s c'.
Proof. intros H1 H2. etransitivity; [exact H1|exact H2]. Qed.

Lemma Disconnect_runs s : runs s (Disconnect (cl s)).
Proof.
  unfold Disconnect. destruct (doDisconnect (cl s)) as [[|] c] eqn:E.
  - eapply rtc_l; [apply step_disconnect, E|]. eapply rtc_l; [now eapply step_finish|]. cbn. reflexivity.
  - unfold doDisconnect in E. destruct (HTTPPostMode (cl s)), (disconnected (cl s)); inv E; apply runs_refl.
Qed.

Lemma wsInHandler_runs reads s : runs s (wsInHandler w other_uint64 other_int64 reads (cl s)).
Proof.
  revert s. induction reads as [|r reads IH]; intros s; cbn [wsInHandler]; [apply runs_refl|].
  destruct (shutdown (cl s)); [apply Disconnect_runs|]. destruct r as [msg|]; [|apply Disconnect_runs].
  eapply runs_trans; [apply rtc_once, (step_message _ _ _ _ s msg)|]. exact (IH (with_client s _)).
Qed.

Lemma disconnected_Disconnect c : HTTPPostMode c = false -> disconnected (Disconnect c) = true.
Proof.
  intros Hm. unfold Disconnect, doDisconnect. rewrite Hm. destruct (disconnected c) eqn:E; [exact E|].
  unfold finish_disconnect, doShutdown. rewrite fail_all_eq. cbn. now destruct (DisableAutoReconnect c), (shutdown c).
Qed.

Lemma wsOut_runs s m rest : sendChan (cl s) = m :: rest -> runs s (set_queues rest (sendPostChan (cl s)) (cl s)).
Proof.
  intros Es. apply rtc_once. apply (step_out _ _ _ _ s true false). unfold wsOut. now rewrite Es.
Qed.

Lemma wsOutHandler_runs writes s : HTTPPostMode (cl s) = false -> runs s (wsOutHandler writes (cl s)).
Proof.
  revert s. induction writes as [|ok writes IH]; intros s Hm; cbn [wsOutHandler].
  - destruct (disconnected (cl s)) eqn:Ed; [now apply rtc_once, step_drain|]. destruct (sendChan (cl s)); apply runs_refl.
  - destruct (disconnected (cl s)) eqn:Ed; [now apply rtc_once, step_drain|].
    destruct (sendChan (cl s)) as [|m rest] eqn:Es; [apply runs_refl|]. destruct ok.
    + eapply runs_trans; [exact (wsOut_runs s m rest Es)|].
      exact (IH (with_client s (set_queues rest (sendPostChan (cl s)) (cl s))) Hm).
    + eapply runs_trans; [exact (wsOut_runs s m rest Es)|].
      eapply runs_trans; [apply (Disconnect_runs (with_client s _))|].
      apply rtc_once, (step_drain _ _ _ _ (with_client s _)).
Qed.

(** The reader and the writer of a websocket keep the promise to the callers.
Whatever ReadMessage returns and whichever writes fail, what wsInHandler and
wsOutHandler do is a run of the system of [client_refines_calls]; and when the
reader ends, because the connection fails or the client shuts down, the client is
disconnected, and without automatic reconnection it is shut down with nothing
left tracked. *)
Theorem websocket_handlers reads writes s :
  HTTPPostMode (cl s) = false ->
  let c := wsInHandler w other_uint64 other_int64 reads (cl s) in
  runs s c /\ runs s (wsOutHandler writes (cl s)) /\
  (Exists (fun r => match r with Err _ => True | Ok _ => False end) reads -> disconnected c = true /\
     (DisableAutoReconnect (cl s) = true -> disconnected (cl s) = false -> shutdown (cl s) = false ->
      shutdown c = true /\ requestMap c = ∅ /\ tracked c = [])).
Proof.
  intros Hm c. split; [apply wsInHandler_runs|]. split; [now apply wsOutHandler_runs|].
  unfold c. clear c. intros Hex. generalize dependent (cl s). intros c0 Hm. revert c0 Hm.
  induction reads as [|r reads IH]; intros c0 Hm; [now apply Exists_nil in Hex|]. cbn [wsInHandler].
  assert (Hd : forall c, HTTPPostMode c = false -> disconnected (Disconnect c) = true /\
    (DisableAutoReconnect c = true -> disconnected c = false -> shutdown c = false ->
     shutdown (Disconnect c) = true /\ requestMap (Disconnect c) = ∅ /\ tracked (Disconnect c) = [])).
  { intros c Hc. split; [now apply disconnected_Disconnect|]. intros Ha Hdc Hs.
    assert (E : Disconnect c = finish_disconnect (set_conn true (shutdown c) c))
      by (unfold Disconnect, doDisconnect; now rewrite Hc, Hdc).
    rewrite E. unfold finish_disconnect, doShutdown. rewrite fail_all_eq. cbn. now rewrite Ha, Hs. }
  destruct (shutdown c0) eqn:Es; [destruct (Hd c0 Hm) as [H1 H2]; split; [done|]; intros; congruence|].
  destruct r as [msg|e]; [|destruct (Hd c0 Hm) as [H1 H2]; split; [done|]; now intros; apply H2].
  apply Exists_cons in Hex as [[]|Hex].
  assert (Hk : HTTPPostMode (handleMessage w other_uint64 other_int64 msg c0) = HTTPPostMode c0 /\
    DisableAutoReconnect (handleMessage w other_uint64 other_int64 msg c0) = DisableAutoReconnect c0 /\
    disconnected (handleMessage w other_uint64 other_int64 msg c0) = disconnected c0 /\
    shutdown (handleMessage w other_uint64 other_int64 msg c0) = shutdown c0).
  { unfold handleMessage, removeRequest, trackRegisteredNtfns. repeat case_match; simplify_eq; done. }
  destruct Hk as (K1 & K2 & K3 & K4). destruct (IH Hex (handleMessage w other_uint64 other_int64 msg c0)) as [H1 H2]; [congruence|].
  split; [exact H1|]. intros Ha Hdc _. apply H2; congruence.
Qed.
End handler_steps.

Example websocket_handlers_witness :
  shutdown (wsInHandler sample_world (fun _ => 0) (fun _ => 0) [Ok (Ok sample_reply); Err ReadEOF] (new_client true true None)) = true.
Proof.
  apply (websocket_handlers the_registry sample_world (fun _ => 0) (fun _ => 0) [Ok (Ok sample_reply); Err ReadEOF] []
    (init_system true true None) eq_refl); try reflexivity.
  apply Exists_cons_tl, Exists_cons_hd. exact I.
Defined.
