(* ===== verification/RpcClientLife.v ===== *)
(** * The life of a websocket client (rpcclient/infrastructure.go)

The goroutines of a client as they run side by side: the readers and writers of its
connections, the reconnect handler, the goroutines that send requests again, and the
callers of Disconnect and Shutdown.  A goroutine is the place where it is; a step runs
one of them to its next synchronisation.  Connections and disconnect channels are
numbered, for a goroutine of an earlier connection can still be running when there is a
new one. *)

From Stdlib Require Import ZArith Lia List.
From Stdlib Require Import Strings.String.
From stdpp Require Import relations.
From S2P Require Import Prelude WireFormat WireCommon JsonTypes AcbcJson AcbcJsonCmds GoFloat.
From S2P Require Import RpcClientNtfn RpcClient RpcClientProps RpcClientApi.

#[local] Open Scope list_scope.
#[local] Set Warnings "-register-all".

(** ** Goroutines *)

(** What follows a call of Disconnect: the end of a reader, the drain of a writer, or
the caller's own business. *)
Inductive after := ThenDone | ThenDrain | ThenReturn.

Inductive goroutine :=
  | Connected_call  (** calls OnClientConnected *)
  | In_top | In_read (conn : nat) | In_handle (msg : result string json)  (** wsInHandler *)
  | Out_top | Out_wait (ch : nat) | Out_got (msg : json) | Out_write (conn : nat) (msg : json) | Out_drain  (** wsOutHandler *)
  | Dis_first (k : after) | Dis_rest (k : after)  (** Disconnect, before and after doDisconnect *)
  | Rs_start | Rs_lock | Rs_loop (l : list json) | Rs_send (ch : nat) (m : json) (l : list json)  (** resendRequests *)
  | Wg_done.

(** wsReconnectHandler, with the number of the connection it dialed. *)
Inductive reconnecter :=
  | Rc_top | Rc_wait (ch : nat) | Rc_loop | Rc_dial | Rc_sleep | Rc_set (conn : nat) | Rc_reset | Rc_start | Rc_spawn
  | Rc_done | Rc_ended.

Definition continue (k : after) : list goroutine :=
  match k with ThenDone => [Wg_done] | ThenDrain => [Out_drain] | ThenReturn => [] end.

(** [base] is the client with the commands of its users that are under way; connections
0 .. [conns]-1 were dialed, those in [closed] the client closed and those in [failed]
the network broke; [disc] is the current disconnect channel and [wg] the counter of the
wait group. *)
Record life := MkLife {
  base : system; wsConn : nat; conns : nat; closed : gset nat; failed : gset nat;
  disc : nat; closed_discs : gset nat; gs : list goroutine; rc : option reconnecter; wg : Z }.

Definition lc (s : life) : Client := cl (base s).

Definition with_base (b : system) (s : life) : life :=
  MkLife b (wsConn s) (conns s) (closed s) (failed s) (disc s) (closed_discs s) (gs s) (rc s) (wg s).
Definition with_cl (c : Client) (s : life) : life :=
  with_base (MkSystem c (in_flight (base s)) (sending (base s)) (disconnecting (base s)) (forgotten (base s))) s.
Definition with_gs (g : list goroutine) (s : life) : life :=
  MkLife (base s) (wsConn s) (conns s) (closed s) (failed s) (disc s) (closed_discs s) g (rc s) (wg s).
Definition with_rc (r : option reconnecter) (s : life) : life :=
  MkLife (base s) (wsConn s) (conns s) (closed s) (failed s) (disc s) (closed_discs s) (gs s) r (wg s).
Definition add_wg (n : Z) (s : life) : life :=
  MkLife (base s) (wsConn s) (conns s) (closed s) (failed s) (disc s) (closed_discs s) (gs s) (rc s) (wg s + n).

(** c.wsConn.Close() and close(c.disconnect). *)
Definition close_conn (s : life) : life :=
  MkLife (base s) (wsConn s) (conns s) ({[wsConn s]} ∪ closed s) (failed s) (disc s) ({[disc s]} ∪ closed_discs s)
    (gs s) (rc s) (wg s).

(** Shutdown, under the request lock. *)
Definition shutdown_call (s : life) : life :=
  if shutdown (lc s) then s
  else let close := negb (disconnected (lc s)) in
       let s := with_cl (Shutdown (lc s)) s in if close then close_conn s else s.

(** New in websocket mode once it is connected: the goroutines of start, and the
reconnect handler if it is wanted. *)
Definition New_life (auto_disabled : bool) (h : option NotificationHandlers) : life :=
  let s := MkLife (init_system auto_disabled true h) 0 1 ∅ ∅ 0 ∅ [] None 0 in
  let s := with_gs [Connected_call; In_top; Out_top] (add_wg 3 s) in
  if auto_disabled then s else with_rc (Some Rc_top) (add_wg 1 s).

(** One turn of the loop at the end of resendRequests: nothing more is sent once the
client is disconnected again. *)
Definition resend_turn (l : list json) (s : life) : list goroutine :=
  match l with
  | [] => []
  | jReq :: l => if Disconnected (lc s) then [] else [Rs_send (disc s) jReq l]
  end.

Section life.
Context (w : world) (other_uint64 other_int64 : float64 -> Z).
Context (order : gset (string * Z) -> list (string * Z)) (order' : gset string -> list string).

(** One goroutine: what becomes of it, with those it starts, and the state.  One that
reads or writes a connection gets an error when the connection is closed or broken;
otherwise it waits for the network. *)
Inductive goes (s : life) : goroutine -> list goroutine -> life -> Prop :=
  | connected_call : goes s Connected_call [Wg_done] s
  | in_shutdown : shutdown (lc s) = true -> goes s In_top [Dis_first ThenDone] s
  | in_next : shutdown (lc s) = false -> goes s In_top [In_read (wsConn s)] s
  | in_error n : n ∈ closed s \/ n ∈ failed s -> goes s (In_read n) [Dis_first ThenDone] s
  | in_handle msg : goes s (In_handle msg) [In_top] (with_cl (handleMessage w other_uint64 other_int64 msg (lc s)) s)
  | out_select : goes s Out_top [Out_wait (disc s)] s
  | out_msg ch m rest : sendChan (lc s) = m :: rest ->
      goes s (Out_wait ch) [Out_got m] (with_cl (set_queues rest (sendPostChan (lc s)) (lc s)) s)
  | out_disconnected ch : ch ∈ closed_discs s -> goes s (Out_wait ch) [Out_drain] s
  | out_conn m : goes s (Out_got m) [Out_write (wsConn s) m] s
  | out_error n m : n ∈ closed s \/ n ∈ failed s -> goes s (Out_write n m) [Dis_first ThenDrain] s
  | out_drain : goes s Out_drain [Wg_done] (with_cl (wsOut_drain (lc s)) s)
  | dis_first k c' : doDisconnect (lc s) = (true, c') -> goes s (Dis_first k) [Dis_rest k] (close_conn (with_cl c' s))
  | dis_nothing k c' : doDisconnect (lc s) = (false, c') -> goes s (Dis_first k) (continue k) s
  | dis_rest k : goes s (Dis_rest k) (continue k) (with_cl (finish_disconnect (lc s)) s)
  | rs_registered : ntfnHandlers (lc s) = None \/ reregister_calls the_registry order order' (Copy (ntfnState (lc s))) = [] ->
      goes s Rs_start [Rs_lock] s
  | rs_lock again ignored c' : resendRequests (lc s) = (again, ignored, c') ->
      goes s Rs_lock [Rs_loop (map j_json again)]
        (with_base (MkSystem c' (in_flight (base s)) (sending (base s)) (disconnecting (base s)) (forgotten (base s) ++ ignored)) s)
  | rs_loop l : goes s (Rs_loop l) (resend_turn l s) s
  | rs_sent ch m l : sendMessage_ready false (lc s) = true ->
      goes s (Rs_send ch m l) [Rs_loop l] (with_cl (sendMessage false m (lc s)) s)
  | rs_dropped ch m l : ch ∈ closed_discs s -> goes s (Rs_send ch m l) [Rs_loop l] s
  | wg_done : goes s Wg_done [] (add_wg (-1) s).

(** The reconnect handler: the goroutines it starts, its next place, and the state. *)
Inductive rc_goes (s : life) : reconnecter -> list goroutine -> reconnecter -> life -> Prop :=
  | rc_select : rc_goes s Rc_top [] (Rc_wait (disc s)) s
  | rc_disconnected ch : ch ∈ closed_discs s -> rc_goes s (Rc_wait ch) [] Rc_loop s
  | rc_shutdown ch : shutdown (lc s) = true -> rc_goes s (Rc_wait ch) [] Rc_done s
  | rc_loop_shutdown : shutdown (lc s) = true -> rc_goes s Rc_loop [] Rc_done s
  | rc_loop_next : shutdown (lc s) = false -> rc_goes s Rc_loop [] Rc_dial s
  | rc_failed : rc_goes s Rc_dial [] Rc_sleep s
  | rc_sleep : rc_goes s Rc_sleep [] Rc_loop s
  | rc_dialed : rc_goes s Rc_dial [] (Rc_set (conns s))
      (MkLife (base s) (wsConn s) (S (conns s)) (closed s) (failed s) (disc s) (closed_discs s) (gs s) (rc s) (wg s))
  | rc_set n : rc_goes s (Rc_set n) [] Rc_reset
      (MkLife (base s) n (conns s) (closed s) (failed s) (disc s) (closed_discs s) (gs s) (rc s) (wg s))
  | rc_reset : rc_goes s Rc_reset [] Rc_start
      (MkLife (base (with_cl (reconnected (lc s)) s)) (wsConn s) (conns s) (closed s) (failed s) (S (disc s)) (closed_discs s)
         (gs s) (rc s) (wg s))
  | rc_start : rc_goes s Rc_start [Connected_call; In_top; Out_top] Rc_spawn (add_wg 3 s)
  | rc_spawn : rc_goes s Rc_spawn [Rs_start] Rc_top s
  | rc_done : rc_goes s Rc_done [] Rc_ended (add_wg (-1) s).

(** The steps of the client's own goroutines, that no one else has a part in: the handler
that dials waits for the network. *)
Inductive routine_step : life -> life -> Prop :=
  | own_go s s1 p rest ps : gs s ≡ₚ p :: rest -> goes s p ps s1 -> routine_step s (with_gs (ps ++ rest) s1)
  | own_rc s s1 r r' new : rc s = Some r -> r <> Rc_dial -> rc_goes s r new r' s1 ->
      routine_step s (with_rc (Some r') (with_gs (new ++ gs s) s1)).

(** What the network does for a goroutine that waits for it, over a connection that the
client has not closed: a message arrives, or the one that is written is taken. *)
Inductive passes (s : life) : goroutine -> goroutine -> Prop :=
  | in_message n msg : n ∉ closed s -> passes s (In_read n) (In_handle msg)
  | out_written n m : n ∉ closed s -> passes s (Out_write n m) Out_top.

(** The steps of the network: a message passes, or a dial ends, the one way or the other. *)
Inductive network_step : life -> life -> Prop :=
  | net_pass s p q rest : gs s ≡ₚ p :: rest -> passes s p q -> network_step s (with_gs ([q] ++ rest) s)
  | net_dial s s1 r' new : rc s = Some Rc_dial -> rc_goes s Rc_dial new r' s1 ->
      network_step s (with_rc (Some r') (with_gs (new ++ gs s) s1)).

(** What the goroutines come to without anyone using the client. *)
Definition reacts (s s' : life) : Prop := routine_step s s' \/ network_step s s'.

(** The steps of the callers of commands, as in [client_step]. *)
Inductive user_step : system -> system -> Prop :=
  | user_cmd s cmd ch jr c' : SendCmd_request the_registry cmd (cl s) = (ch, jr, c') ->
      user_step s (MkSystem c' (in_flight s ++ option_list jr) (sending s) (disconnecting s) (forgotten s))
  | user_future s e : user_step s
      (MkSystem (newFutureError e (cl s)).2 (in_flight s) (sending s) (disconnecting s) (forgotten s))
  | user_nil_future s : user_step s
      (MkSystem (newNilFutureResult (cl s)).2 (in_flight s) (sending s) (disconnecting s) (forgotten s))
  | user_request s jr rest m c' : in_flight s ≡ₚ jr :: rest -> sendRequest jr (cl s) = (m, c') ->
      user_step s (MkSystem c' rest (sending s ++ option_list m) (disconnecting s) (forgotten s))
  | user_send s drop m l1 l2 : sending s = l1 ++ m :: l2 -> drop = true \/ sendMessage_ready drop (cl s) = true ->
      user_step s (MkSystem (sendMessage drop m (cl s)) (in_flight s) (l1 ++ l2) (disconnecting s) (forgotten s)).

(** A step of the client or of its surroundings: the network, a command, a connection that
breaks, a call of Disconnect or of Shutdown. *)
Inductive life_step : life -> life -> Prop :=
  | life_own s s' : routine_step s s' -> life_step s s'
  | life_network s s' : network_step s s' -> life_step s s'
  | life_user s b : user_step (base s) b -> life_step s (with_base b s)
  | life_fail s n : (n < conns s)%nat -> life_step s
      (MkLife (base s) (wsConn s) (conns s) (closed s) ({[n]} ∪ failed s) (disc s) (closed_discs s) (gs s) (rc s) (wg s))
  | life_disconnect s : life_step s (with_gs (Dis_first ThenReturn :: gs s) s)
  | life_shutdown s : life_step s (shutdown_call s).
End life.

(** ** Counting the goroutines *)

Definition unsent (p : goroutine) : list json :=
  match p with Rs_loop l => l | Rs_send _ m l => m :: l | _ => [] end.
Definition in_disconnect (p : goroutine) : nat := match p with Dis_rest _ => 1 | _ => 0 end.
(** The goroutines that the wait group counts: not those that send again, nor callers. *)
Definition counted (p : goroutine) : nat :=
  match p with
  | Rs_start | Rs_lock | Rs_loop _ | Rs_send _ _ _ | Dis_first ThenReturn | Dis_rest ThenReturn => 0
  | _ => 1
  end.
Definition rc_counted (r : option reconnecter) : nat := match r with None | Some Rc_ended => 0 | _ => 1 end.

(** ** What holds of every state *)

Definition flags (c : Client) : bool * bool * bool * bool * bool :=
  (HTTPPostMode c, DisableAutoReconnect c, connEstablished c, disconnected c, shutdown c).

(** The places of the reconnect handler between a disconnection and the reconnection. *)
Definition rc_down (r : option reconnecter) : bool :=
  match r with Some (Rc_loop | Rc_dial | Rc_sleep | Rc_set _ | Rc_reset) => true | _ => false end.

(** The connections and channels a goroutine holds are no newer than the current ones. *)
Definition holds_ok (conn ch : nat) (p : goroutine) : Prop :=
  match p with
  | In_read n | Out_write n _ => (n <= conn)%nat
  | Out_wait c | Rs_send c _ _ => (c <= ch)%nat
  | _ => True
  end.

(** Goroutines that disconnect a client that is shut down. *)
Definition disconnects (p : goroutine) : bool := match p with In_top | Dis_first _ => true | _ => false end.

Record life_ok (auto_disabled : bool) (s : life) : Prop := {
  lo_mode : HTTPPostMode (lc s) = false /\ DisableAutoReconnect (lc s) = auto_disabled /\ connEstablished (lc s) = true;
  lo_auto : auto_disabled = true -> rc s = None /\ (disconnected (lc s) = false -> total in_disconnect (gs s) = 0%nat);
  lo_wg : wg s = Z.of_nat (total counted (gs s) + rc_counted (rc s));
  lo_conns : match rc s with
             | Some (Rc_set n) => n = S (wsConn s) /\ conns s = S (S (wsConn s))
             | _ => conns s = S (wsConn s)
             end;
  lo_closed n : n ∈ closed s <-> (n < wsConn s)%nat \/ n = wsConn s /\ disconnected (lc s) = true /\ rc s <> Some Rc_reset;
  lo_channels ch : ch ∈ closed_discs s <-> (ch < disc s)%nat \/ ch = disc s /\ disconnected (lc s) = true;
  lo_down : rc_down (rc s) = true -> disconnected (lc s) = true;
  lo_wait ch : rc s = Some (Rc_wait ch) -> ch = disc s;
  lo_holds : Forall (holds_ok (wsConn s) (disc s)) (gs s);
  lo_shutdown : shutdown (lc s) = true ->
    disconnected (lc s) = true \/ rc s = Some Rc_start \/ Exists (fun p => disconnects p = true) (gs s) }.

Lemma New_life_ok auto_disabled h : life_ok auto_disabled (New_life auto_disabled h).
Proof.
  destruct auto_disabled; constructor; cbn; try done; try (intros n; set_solver by lia); repeat constructor.
Qed.

(** The client counts only by its flags; once it is disconnected it may be shut down. *)
Lemma life_ok_base auto_disabled s b :
  flags (cl b) = flags (lc s) \/ disconnected (lc s) = true /\ flags (cl b) = flags (set_conn true true (lc s)) ->
  life_ok auto_disabled s -> life_ok auto_disabled (with_base b s).
Proof.
  unfold flags. intros [[= F1 F2 F3 F4 F5]|[D [= F1 F2 F3 F4 F5]]] [];
  constructor; unfold lc in *; cbn [with_base base cl rc gs wg conns wsConn closed closed_discs disc] in *; rewrite ?F1, ?F2, ?F3, ?F4, ?F5; cbn; try done; auto;
  rewrite D in *; try done.
Qed.

(** A goroutine [p] becomes [ps], by a step that changes nothing else that counts. *)
Lemma life_ok_gs auto_disabled s p rest ps n : gs s ≡ₚ p :: rest -> life_ok auto_disabled s ->
  Z.of_nat (total counted ps) = Z.of_nat (counted p) + n -> Forall (holds_ok (wsConn s) (disc s)) ps ->
  (disconnected (lc s) = false -> total in_disconnect ps <= in_disconnect p)%nat ->
  (disconnects p = true -> Exists (fun p => disconnects p = true) ps \/ shutdown (lc s) = false \/ disconnected (lc s) = true) ->
  life_ok auto_disabled (with_gs (ps ++ rest) (add_wg n s)).
Proof.
  intros HP [] Hc Hh Hd Hs. rewrite HP in *. cbn [total] in *. unfold lc in *.
  constructor; unfold lc; cbn [with_gs add_wg base rc gs wg conns wsConn closed closed_discs disc]; rewrite ?total_app; try done; try lia.
  - intros E. destruct (lo_auto0 E) as [A1 A2]. split; [done|]. intros D. specialize (A2 D). specialize (Hd D). lia.
  - apply Forall_app. split; [done|]. now inv lo_holds0.
  - intros E. destruct (lo_shutdown0 E) as [H|[H|H]]; [auto..|]. rewrite Exists_app.
    apply Exists_cons in H as [H|H]; [|auto]. destruct (Hs H) as [?|[?|?]]; [auto|congruence|auto].
Qed.

(** doDisconnect on a client that is connected. *)
Lemma life_ok_close auto_disabled s c sh : disconnected (lc s) = false -> flags c = flags (set_conn true sh (lc s)) ->
  life_ok auto_disabled s -> life_ok auto_disabled (close_conn (with_cl c s)).
Proof.
  unfold flags. cbn. intros D [= F1 F2 F3 F4 F5] []. unfold lc in *.
  constructor; unfold lc; cbn [close_conn with_cl with_base base cl rc gs wg conns wsConn closed closed_discs disc]; rewrite ?F1, ?F2, ?F3, ?F4, ?F5; try done.
  - intros E. destruct (lo_auto0 E). split; done.
  - intros n. rewrite elem_of_union, elem_of_singleton, lo_closed0, D. intuition (try congruence).
    right. split_and!; try done. intros E. rewrite E in lo_down0. specialize (lo_down0 eq_refl). congruence.
  - intros n. rewrite elem_of_union, elem_of_singleton, lo_channels0, D. naive_solver.
  - auto.
Qed.

(** ** The operations of the client and the flags *)

Lemma flags_handleMessage w f g msg c : flags (handleMessage w f g msg c) = flags c.
Proof. unfold handleMessage, removeRequest, trackRegisteredNtfns, flags. repeat case_match; simplify_eq; done. Qed.

Lemma flags_resendRequests c : flags (resendRequests c).2 = flags c.
Proof. done. Qed.

Lemma doDisconnect_cases c : HTTPPostMode c = false ->
  disconnected c = true /\ doDisconnect c = (false, c) \/
  disconnected c = false /\ doDisconnect c = (true, set_conn true (shutdown c) c).
Proof. intros H. unfold doDisconnect. rewrite H. destruct (disconnected c); auto. Qed.

Lemma flags_finish c : DisableAutoReconnect c = false /\ finish_disconnect c = c \/
  DisableAutoReconnect c = true /\ flags (finish_disconnect c) = (HTTPPostMode c, true, connEstablished c, disconnected c, true).
Proof.
  unfold finish_disconnect, doShutdown, flags. destruct (DisableAutoReconnect c) eqn:E; [right|auto]. split; [done|].
  rewrite fail_all_eq. cbn. destruct (shutdown c) eqn:E'; cbn; now rewrite ?E, ?E'.
Qed.

Lemma flags_Shutdown c : HTTPPostMode c = false -> shutdown c = false ->
  flags (Shutdown c) = (false, DisableAutoReconnect c, connEstablished c, true, true).
Proof.
  intros H Hs. unfold Shutdown, doShutdown, doDisconnect, flags. rewrite Hs, fail_all_eq. cbn. rewrite H.
  now destruct (disconnected c) eqn:E; cbn; rewrite ?H, ?E.
Qed.

Lemma flags_user s b : user_step s b -> HTTPPostMode (cl s) = false -> flags (cl b) = flags (cl s).
Proof.
  intros H Hm. destruct H; cbn [cl]; try done.
  - unfold SendCmd_request, newFutureError, make_chan, NextID in H. cbv beta iota zeta in H.
    destruct (CmdMethod _ _); [destruct (MarshalCmd _ _ _ _)|]; now inv H.
  - unfold sendRequest, addRequest in H0. rewrite Hm in H0.
    destruct (connEstablished (cl s)) eqn:E1, (shutdown (cl s)) eqn:E2; inv H0; done.
  - now destruct drop.
Qed.

(** ** The goroutines run the client *)

(** The state of [client_step]: the messages that goroutines are about to send join
those of the users, in any order. *)
Record seen_as (s : life) (y : system) : Prop := {
  sa_cl : cl y = lc s;
  sa_flight : in_flight y = in_flight (base s);
  sa_sending : sending y ≡ₚ sending (base s) ++ concat (map unsent (gs s));
  sa_disc : disconnecting y = total in_disconnect (gs s);
  sa_forgotten : forgotten y = forgotten (base s) }.

Lemma concat_unsent g p rest : g ≡ₚ p :: rest -> concat (map unsent g) ≡ₚ unsent p ++ concat (map unsent rest).
Proof. intros ->. done. Qed.

Section invariant.
Context (w : world) (other_uint64 other_int64 : float64 -> Z).
Context (order : gset (string * Z) -> list (string * Z)) (order' : gset string -> list string) (auto_disabled : bool).

#[local] Ltac side := cbn; try done; try lia; try solve [auto]; try solve [repeat constructor; auto].

Lemma add_wg_0 s : add_wg 0 s = s.
Proof. destruct s. unfold add_wg. cbn. f_equal. lia. Qed.

(** A goroutine that goes on while the client changes to [b], by no flag that counts. *)
Lemma life_ok_go s b p rest ps : gs s ≡ₚ p :: rest -> life_ok auto_disabled s -> life_ok auto_disabled (with_base b s) ->
  total counted ps = counted p -> Forall (holds_ok (wsConn s) (disc s)) ps -> (total in_disconnect ps <= in_disconnect p)%nat ->
  (disconnects p = true -> Exists (fun p => disconnects p = true) ps \/ shutdown (cl b) = false \/ disconnected (cl b) = true) ->
  life_ok auto_disabled (with_gs (ps ++ rest) (with_base b s)).
Proof.
  intros HP _ Hok Hc Hh Hd Hs. rewrite <- (add_wg_0 (with_base b s)). eapply life_ok_gs; [exact HP|exact Hok|lia|exact Hh|auto|exact Hs].
Qed.

Lemma with_base_id s : with_base (base s) s = s.
Proof. now destruct s. Qed.

Lemma goes_ok s s1 p rest ps : gs s ≡ₚ p :: rest -> life_ok auto_disabled s ->
  goes w other_uint64 other_int64 order order' s p ps s1 -> life_ok auto_disabled (with_gs (ps ++ rest) s1).
Proof.
  intros HP Hok H. pose proof (lo_mode _ _ Hok) as (M1 & M2 & M3).
  assert (Same : forall ps, total counted ps = counted p -> Forall (holds_ok (wsConn s) (disc s)) ps -> (total in_disconnect ps <= in_disconnect p)%nat ->
    (disconnects p = true -> Exists (fun p => disconnects p = true) ps \/ shutdown (lc s) = false \/ disconnected (lc s) = true) ->
    life_ok auto_disabled (with_gs (ps ++ rest) s)).
  { intros ps'. pose proof (life_ok_go s (base s) p rest ps' HP Hok) as G. rewrite with_base_id in G. auto. }
  destruct H; try (apply Same; side; fail); unfold with_cl.
  all: try (eapply life_ok_go; [exact HP|exact Hok|apply life_ok_base; [left|exact Hok]|..];
            [first [apply flags_handleMessage|reflexivity]|side..]; fail).
  - destruct (doDisconnect_cases _ M1) as [[D E]|[D E]]; rewrite E in H; [discriminate H|injection H as <-].
    rewrite <- (add_wg_0 (close_conn _)). eapply life_ok_gs; [exact HP|now eapply life_ok_close|..]; side; destruct k; side.
  - destruct (doDisconnect_cases _ M1) as [[D E]|[D E]]; rewrite E in H; [|discriminate H]. apply Same; destruct k; side.
  - destruct (flags_finish (lc s)) as [[E F]|[E F]].
    + rewrite F. eapply life_ok_go; [exact HP|exact Hok|apply life_ok_base; [now left|exact Hok]|..]; destruct k; side.
    + assert (D : disconnected (lc s) = true).
      { destruct (disconnected (lc s)) eqn:D; [done|]. rewrite M2 in E. destruct (lo_auto _ _ Hok E) as [_ A]. specialize (A D). rewrite HP in A. discriminate A. }
      eapply life_ok_go; [exact HP|exact Hok|apply life_ok_base; [right|exact Hok]|..]; [|destruct k; side..].
      split; [done|]. cbn [cl]. rewrite F. unfold flags. cbn. now rewrite E, D.
  - injection H as _ _ <-. eapply life_ok_go; [exact HP|exact Hok|apply life_ok_base; [now left|exact Hok]|side..].
  - apply Same; destruct l; cbn; try destruct (Disconnected _); side.
  - eapply life_ok_gs; [exact HP|exact Hok|side..].
Qed.

Lemma passes_ok s p q rest : gs s ≡ₚ p :: rest -> life_ok auto_disabled s -> passes s p q -> life_ok auto_disabled (with_gs ([q] ++ rest) s).
Proof.
  intros HP Hok H. rewrite <- (with_base_id s). rewrite <- (with_base_id s) in Hok.
  destruct H; (eapply life_ok_go; [exact HP|rewrite with_base_id in Hok; exact Hok|exact Hok|side..]).
Qed.

Lemma holds_ok_mono conn ch conn' ch' g : (conn <= conn')%nat -> (ch <= ch')%nat ->
  Forall (holds_ok conn ch) g -> Forall (holds_ok conn' ch') g.
Proof. intros H1 H2 H. eapply Forall_impl; [exact H|]. intros []; cbn; lia. Qed.

(** The handler moves on, with what it starts. *)
Lemma rc_goes_ok s s1 r r' new : rc s = Some r -> life_ok auto_disabled s ->
  rc_goes s r new r' s1 -> life_ok auto_disabled (with_rc (Some r') (with_gs (new ++ gs s) s1)).
Proof.
  intros HR Hok H. destruct Hok. assert (A : auto_disabled = false) by (destruct auto_disabled; [destruct lo_auto0; [done|congruence]|done]).
  rewrite HR in *. cbn [rc_counted rc_down] in *. unfold lc in *.
  destruct H; constructor; unfold lc; cbn [with_rc with_gs with_cl with_base add_wg base cl rc gs wg conns wsConn closed closed_discs disc rc_counted rc_down app total counted] in *;
    try done; try (intros; congruence); try (rewrite ?lo_wg0; lia); auto.
  all: try (intros E; destruct (lo_shutdown0 E) as [?|[?|?]]; [auto|discriminate|auto using Exists_cons_tl]; fail).
  all: try (intros; rewrite lo_closed0; split; (intros [?|(?&?&?)]; [left; lia|right; split_and!; [lia|done|discriminate]]); fail).
  all: try (repeat constructor; done).
  - intros _. specialize (lo_wait0 ch eq_refl) as ->. apply lo_channels0 in H. destruct H as [H|H]; [lia|tauto].
  - intros n'. destruct lo_conns0 as [-> _]. rewrite lo_closed0, lo_down0 by done. split; [intros [?|(?&?&?)]; left; lia|].
    intros [?|(?&?&[])]; [|done]. destruct (decide (n' = wsConn s)); [right; split_and!; done|left; lia].
  - destruct lo_conns0 as [-> _]. eapply holds_ok_mono; [| |exact lo_holds0]; lia.
  - intros ch. rewrite lo_channels0, lo_down0 by done. cbn. split; [intros; left; lia|intros [?|[? ?]]; [|done]; lia].
  - eapply holds_ok_mono; [| |exact lo_holds0]; lia.
Qed.

Lemma life_step_ok s s' : life_step w other_uint64 other_int64 order order' s s' -> life_ok auto_disabled s -> life_ok auto_disabled s'.
Proof.
  intros [? ? []|? ? []|? b H|? n H|?|?] Hok.
  - eauto using goes_ok.
  - eauto using rc_goes_ok.
  - eauto using passes_ok.
  - eauto using rc_goes_ok.
  - apply life_ok_base; [left|done]. apply flags_user; [done|apply (lo_mode _ _ Hok)].
  - destruct Hok. now constructor.
  - change (Dis_first ThenReturn :: gs s0) with ([Dis_first ThenReturn] ++ gs s0). destruct Hok. constructor; try done.
    + cbn. constructor; done.
    + cbn. intros E. destruct (lo_shutdown0 E) as [?|[?|?]]; auto using Exists_cons_tl.
  - unfold shutdown_call. destruct (shutdown (lc s0)) eqn:S; [done|]. destruct (lo_mode _ _ Hok) as (M1 & M2 & M3).
    pose proof (flags_Shutdown _ M1 S) as F. destruct (disconnected (lc s0)) eqn:D; cbn [negb].
    + apply life_ok_base; [right|done]. split; [done|]. cbn [cl]. rewrite F. unfold flags. cbn. now rewrite M1, M2, M3.
    + apply (life_ok_close _ _ _ true); [done| |done]. rewrite F. unfold flags. cbn. now rewrite M1, M2, M3.
Qed.
End invariant.

Section refinement.
Context (w : world) (other_uint64 other_int64 : float64 -> Z).
Context (order : gset (string * Z) -> list (string * Z)) (order' : gset string -> list string).
#[local] Abbreviation cstep := (client_step the_registry w other_uint64 other_int64).

(** A run of the client that leads from what [s] is seen as to what [s'] is seen as. *)
Definition followed (s s' : life) : Prop :=
  forall y, seen_as s y -> exists y', rtc cstep y y' /\ seen_as s' y'.

(** What changes neither the client nor what its goroutines are about to send. *)
Lemma followed_same s s' : base s' = base s ->
  concat (map unsent (gs s')) ≡ₚ concat (map unsent (gs s)) -> total in_disconnect (gs s') = total in_disconnect (gs s) ->
  followed s s'.
Proof.
  intros Hb Hu Hd y [H1 H2 H3 H4 H5]. exists y. split; [done|]. unfold lc in *. constructor; unfold lc; rewrite ?Hb, ?Hu, ?Hd; done.
Qed.

(** Messages that are not sent after all, as the closed channel of a connection
before lets them. *)
Lemma drop_all y l rest : sending y ≡ₚ l ++ rest -> exists y', rtc cstep y y' /\
  cl y' = cl y /\ in_flight y' = in_flight y /\ sending y' ≡ₚ rest /\ disconnecting y' = disconnecting y /\ forgotten y' = forgotten y.
Proof.
  revert y. induction l as [|m l IH]; intros y H; [exists y; split_and!; done|].
  destruct (Permutation_cons_inv_r _ _ _ H) as (l1 & l2 & E & HP).
  destruct (IH (MkSystem (cl y) (in_flight y) (l1 ++ l2) (disconnecting y) (forgotten y))) as (y' & H1 & H2); [by symmetry|].
  exists y'. split; [|exact H2]. eapply rtc_l; [exact (step_send _ _ _ _ y true m l1 l2 E (or_introl eq_refl))|exact H1].
Qed.

(** One step of the client, for a goroutine [p] that becomes [ps]. *)
Lemma followed_step s s1 p rest ps y :
  gs s ≡ₚ p :: rest -> seen_as s y ->
  (forall z, cl z = lc s -> in_flight z = in_flight (base s) ->
     sending z ≡ₚ unsent p ++ (sending (base s) ++ concat (map unsent rest)) ->
     disconnecting z = (in_disconnect p + total in_disconnect rest)%nat -> forgotten z = forgotten (base s) ->
     exists z', rtc cstep z z' /\ cl z' = lc s1 /\ in_flight z' = in_flight (base s1) /\
       sending z' ≡ₚ concat (map unsent ps) ++ sending (base s1) ++ concat (map unsent rest) /\
       disconnecting z' = (total in_disconnect ps + total in_disconnect rest)%nat /\ forgotten z' = forgotten (base s1)) ->
  exists y', rtc cstep y y' /\ seen_as (with_gs (ps ++ rest) s1) y'.
Proof.
  intros HP [H1 H2 H3 H4 H5] K. rewrite (concat_unsent _ _ _ HP) in H3. rewrite HP in H4.
  destruct (K y) as (y' & R & K1 & K2 & K3 & K4 & K5); [done|done|rewrite H3; solve_Permutation|done|done|].
  exists y'. split; [done|]. constructor; cbn [gs with_gs base lc]; try done.
  - rewrite K3, map_app, concat_app. solve_Permutation.
  - now rewrite total_app.
Qed.

Lemma goes_followed s s1 p rest ps : gs s ≡ₚ p :: rest -> goes w other_uint64 other_int64 order order' s p ps s1 ->
  followed s (with_gs (ps ++ rest) s1).
Proof.
  intros HP H y Hy. eapply followed_step; [exact HP|exact Hy|]. clear y Hy.
  intros z Z1 Z2 Z3 Z4 Z5. destruct H; cbn [lc base with_cl with_base close_conn add_wg cl in_flight sending forgotten] in *.
  all: try (exists z; split_and!; (done || (cbn; try destruct k; cbn in *; rewrite ?app_nil_r; first [done|lia]))).
  - eexists. split; [apply rtc_once, (step_message _ _ _ _ z msg)|]. rewrite Z1. split_and!; done.
  - eexists. split; [apply rtc_once, (step_out _ _ _ _ z true false)|]; [unfold wsOut; rewrite Z1, H; reflexivity|].
    split_and!; done.
  - eexists. split; [apply rtc_once, (step_drain _ _ _ _ z)|]. rewrite Z1. split_and!; done.
  - eexists. split; [apply rtc_once, (step_disconnect _ _ _ _ z c')|]; [now rewrite Z1|]. split_and!; try done. cbn in *. lia.
  - eexists. split; [apply rtc_once, (step_finish _ _ _ _ z _ Z4)|]. rewrite Z1. split_and!; try done; destruct k; done.
  - eexists. split; [apply rtc_once, (step_resend _ _ _ _ z again ignored c')|]; [now rewrite Z1|]. split_and!; try done.
    + cbn. rewrite Z3, app_nil_r. cbn. solve_Permutation.
    + cbn. now rewrite Z5.
  - destruct l as [|m l]; cbn [resend_turn]; [exists z; split_and!; done|]. destruct (Disconnected (lc s)).
    + destruct (drop_all z (m :: l) _ Z3) as (z' & D1 & D2 & D3 & D4 & D5 & D6). exists z'. split_and!; (done || congruence || (cbn in *; lia)).
    + exists z. cbn. rewrite app_nil_r. split_and!; done.
  - cbn [unsent app] in Z3. destruct (Permutation_cons_inv_r _ _ _ Z3) as (l1 & l2 & E & HE).
    eexists. split; [eapply rtc_once, (step_send _ _ _ _ z false m l1 l2 E)|]; [right; now rewrite Z1|]. rewrite Z1. split_and!; try done.
    cbn. rewrite app_nil_r. by symmetry.
  - destruct (drop_all z [m] _ Z3) as (z' & D1 & D2 & D3 & D4 & D5 & D6). exists z'. cbn [map concat unsent]. rewrite app_nil_r.
    split_and!; (done || congruence || (cbn in *; lia)).
Qed.
(** A step of a caller, among what goroutines are about to send. *)
Lemma user_followed s b : user_step (base s) b -> followed s (with_base b s).
Proof.
  intros H y [Y1 Y2 Y3 Y4 Y5].
  unfold lc in *. revert Y1 Y2 Y3 Y5. generalize dependent (base s). intros b0 H Y1 Y2 Y3 Y5.
  destruct H as [b0 cmd ch jr c' H|b0 e|b0|b0 jr rest m c' H1 H2|b0 drop m l1 l2 H1 H2].
  - eexists. split; [apply rtc_once, (step_cmd _ _ _ _ y cmd ch jr c'); congruence|]. constructor; unfold lc; cbn; congruence || done.
  - eexists. split; [apply rtc_once, (step_future _ _ _ _ y e)|]. constructor; unfold lc; cbn; congruence || done.
  - eexists. split; [apply rtc_once, (step_nil_future _ _ _ _ y)|]. constructor; unfold lc; cbn; congruence || done.
  - eexists. split; [apply rtc_once, (step_request _ _ _ _ y jr rest m c'); congruence|]. constructor; unfold lc; cbn; try (congruence || done).
    rewrite Y3. solve_Permutation.
  - destruct (Permutation_cons_inv_r (l1 ++ l2 ++ concat (map unsent (gs s))) (sending y) m) as (k1 & k2 & E & HE).
    { rewrite Y3, H1, <- app_assoc. cbn. symmetry. apply Permutation_middle. }
    eexists. split; [apply rtc_once, (step_send _ _ _ _ y drop m k1 k2 E); now rewrite Y1|]. constructor; unfold lc; cbn; try (congruence || done).
    rewrite <- HE. solve_Permutation.
Qed.

(** A step of the reconnect handler; only the reconnection itself is one of the client. *)
Lemma rc_followed auto_disabled s s1 r r' new : life_ok auto_disabled s -> rc s = Some r -> rc_goes s r new r' s1 ->
  followed s (with_rc (Some r') (with_gs (new ++ gs s) s1)).
Proof.
  intros Hok HR H. destruct H; try (apply followed_same; done).
  intros y [Y1 Y2 Y3 Y4 Y5]. exists (MkSystem (reconnected (cl y)) (in_flight y) (sending y) (disconnecting y) (forgotten y)).
  split; [|constructor; unfold lc in *; cbn; congruence || done]. apply rtc_once, step_reconnect; rewrite Y1.
  - apply (lo_down _ _ Hok). now rewrite HR.
  - destruct (lo_mode _ _ Hok) as (_ & E & _). destruct (DisableAutoReconnect _); [|done].
    destruct (lo_auto _ _ Hok); [done|]. congruence.
Qed.

Lemma passes_followed s p q rest : gs s ≡ₚ p :: rest -> passes s p q -> followed s (with_gs ([q] ++ rest) s).
Proof. intros HP H. apply followed_same; [done|cbn; rewrite (concat_unsent _ _ _ HP)|cbn; rewrite HP]; now destruct H. Qed.

Lemma life_step_followed auto_disabled s s' : life_ok auto_disabled s ->
  life_step w other_uint64 other_int64 order order' s s' -> followed s s'.
Proof.
  intros Hok HS. revert Hok.
  destruct HS as [? ? [s0 s1 p rest ps HP H|s0 s1 r r' new HR _ H]|? ? [s0 p q rest HP H|s0 s1 r' new HR H]|s0 b H|s0 n H|s0|s0]; intros Hok.
  - eauto using goes_followed.
  - eauto using rc_followed.
  - eauto using passes_followed.
  - eauto using rc_followed.
  - now apply user_followed.
  - now apply followed_same.
  - now apply followed_same.
  - unfold shutdown_call. destruct (shutdown (lc s0)); [now apply followed_same|].
    intros y [Y1 Y2 Y3 Y4 Y5]. exists (MkSystem (Shutdown (cl y)) (in_flight y) (sending y) (disconnecting y) (forgotten y)).
    split; [apply rtc_once, step_shutdown|]. destruct (negb _); constructor; unfold lc in *; cbn; congruence || done.
Qed.
End refinement.

(** ** After a shutdown *)

(** How many steps a goroutine has to go once the client is shut down, those of the network
included; a message in the send queue costs four. *)
Definition weight (p : goroutine) : nat :=
  match p with
  | Connected_call => 2 | In_top => 5 | In_handle _ => 6 | In_read _ => 7
  | Out_wait _ => 5 | Out_top => 6 | Out_write _ _ => 7 | Out_got _ => 8 | Out_drain => 2
  | Dis_rest _ => 3 | Dis_first _ => 4
  | Rs_start => 4 | Rs_lock => 3 | Rs_loop l => 2 + 7 * length l | Rs_send _ _ l => 7 + 7 * length l
  | Wg_done => 1
  end.
Definition rc_weight (r : option reconnecter) : nat :=
  match r with
  | None | Some Rc_ended => 0 | Some Rc_done => 1 | Some Rc_loop => 2 | Some (Rc_wait _) | Some Rc_sleep => 3 | Some Rc_top => 4
  | Some Rc_spawn => 9 | Some Rc_start => 23 | Some Rc_reset => 24 | Some (Rc_set _) => 25 | Some Rc_dial => 26
  end.
Definition life_measure (s : life) : nat :=
  (total weight (gs s) + rc_weight (rc s) + 4 * length (sendChan (lc s)))%nat.

Definition quiet (c : Client) : Prop := shutdown c = true /\ requestList c = [].

(** What the operations of the goroutines leave of a client that is shut down. *)
Definition calm (c c' : Client) : Prop :=
  next_chan c' = next_chan c /\ (quiet c -> quiet c').

Lemma calm_set_queues q r c : calm c (set_queues q r c).
Proof. done. Qed.

Lemma calm_handleMessage w f g msg c : calm c (handleMessage w f g msg c) /\ sendChan (handleMessage w f g msg c) = sendChan c.
Proof.
  unfold calm, quiet, handleMessage, removeRequest, list_Remove, trackRegisteredNtfns.
  repeat case_match; simplify_eq; cbn; (split; [split; [done|]|done]); intros [? E]; rewrite ?E; done.
Qed.

Lemma calm_finish c : calm c (finish_disconnect c) /\ sendChan (finish_disconnect c) = sendChan c.
Proof.
  unfold calm, quiet, finish_disconnect, doShutdown. rewrite fail_all_eq. cbn.
  destruct (DisableAutoReconnect c), (shutdown c) eqn:E; cbn; rewrite ?E; (split; [split; [done|]|done]); intros [? ?]; done.
Qed.

Lemma calm_doDisconnect b c c' : doDisconnect c = (b, c') -> calm c c' /\ sendChan c' = sendChan c.
Proof. unfold doDisconnect. destruct (HTTPPostMode c), (disconnected c); intros [= <- <-]; done. Qed.

Section shutdown.
Context (w : world) (other_uint64 other_int64 : float64 -> Z).
Context (order : gset (string * Z) -> list (string * Z)) (order' : gset string -> list string).
#[local] Abbreviation own := (routine_step w other_uint64 other_int64 order order').
#[local] Abbreviation reacts := (reacts w other_uint64 other_int64 order order').
#[local] Abbreviation cstep := (client_step the_registry w other_uint64 other_int64).

Lemma goes_down s p ps s1 : quiet (lc s) -> goes w other_uint64 other_int64 order order' s p ps s1 ->
  calm (lc s) (lc s1) /\ rc s1 = rc s /\
  (total weight ps + 4 * length (sendChan (lc s1)) < weight p + 4 * length (sendChan (lc s)))%nat.
Proof.
  intros Q H. unfold calm. destruct H; unfold lc in *; cbn [with_cl with_base close_conn add_wg base cl rc] in *.
  all: try (split_and!; [done..|cbn; lia]).
  - destruct Q. congruence.
  - destruct (calm_handleMessage w other_uint64 other_int64 msg (cl (base s))) as [C ->]. split_and!; try apply C; [done|cbn; lia].
  - split_and!; [done..|]. rewrite H. cbn. lia.
  - destruct (calm_doDisconnect _ _ _ H) as [C ->]. split_and!; try apply C; [done|cbn; lia].
  - split_and!; [done..|]. destruct k; cbn; lia.
  - destruct (calm_finish (cl (base s))) as [C ->]. split_and!; try apply C; [done|destruct k; cbn; lia].
  - unfold resendRequests in H. destruct Q as [Q1 Q2]. rewrite Q2 in H. cbn in H. injection H as <- <- <-. split_and!; [done..|cbn; lia].
  - split_and!; [done..|]. destruct l; cbn; [lia|]. destruct (Disconnected _); cbn; lia.
  - split_and!; [done..|]. cbn. rewrite length_app. cbn. lia.
Qed.

Lemma rc_goes_down s r new r' s1 : quiet (lc s) -> rc_goes s r new r' s1 ->
  calm (lc s) (lc s1) /\ gs s1 = gs s /\ sendChan (lc s1) = sendChan (lc s) /\
  (total weight new + rc_weight (Some r') < rc_weight (Some r))%nat.
Proof.
  intros Q H. unfold calm. destruct H; unfold lc in *; cbn [with_cl with_base add_wg base cl gs] in *; split_and!; try done; cbn; try lia.
  destruct Q. congruence.
Qed.

Lemma rc_step_down s s1 r r' new : quiet (lc s) -> rc s = Some r -> rc_goes s r new r' s1 ->
  let s' := with_rc (Some r') (with_gs (new ++ gs s) s1) in
  calm (lc s) (lc s') /\ (life_measure s' < life_measure s)%nat.
Proof.
  intros Q HR H. destruct (rc_goes_down _ _ _ _ _ Q H) as (C & EG & EC & L). split; [exact C|]. unfold life_measure.
  cbn [with_rc with_gs gs rc]. change (lc (with_rc _ _)) with (lc s1). rewrite total_app, HR, EC. lia.
Qed.

Lemma reacts_down s s' : quiet (lc s) -> reacts s s' -> calm (lc s) (lc s') /\ (life_measure s' < life_measure s)%nat.
Proof.
  intros Q HS. revert Q. destruct HS as [[s0 s1 p rest ps HP H|s0 s1 r r' new HR _ H]|[s0 p q rest HP H|s0 s1 r' new HR H]]; intros Q.
  - destruct (goes_down _ _ _ _ Q H) as (C & ER & L). split; [exact C|]. unfold life_measure. rewrite HP.
    cbn [with_gs gs rc total]. change (lc (with_gs (ps ++ rest) s1)) with (lc s1). rewrite total_app, ER. lia.
  - eauto using rc_step_down.
  - split; [done|]. unfold life_measure. rewrite HP. cbn [with_gs gs rc total app]. change (lc (with_gs _ s0)) with (lc s0).
    destruct H; cbn; lia.
  - eauto using rc_step_down.
Qed.
(** What a state after a shutdown has by its history. *)
Record settled (auto_disabled : bool) (s : life) : Prop := {
  se_ok : life_ok auto_disabled s;
  se_quiet : quiet (lc s);
  se_chans : Z.of_nat (next_chan (lc s)) < 2 ^ 64;
  se_seen : exists y, seen_as s y /\ system_ok the_registry y /\ nothing_tracked y }.

Lemma reacts_life s s' : reacts s s' -> life_step w other_uint64 other_int64 order order' s s'.
Proof. intros [H|H]; [now apply life_own|now apply life_network]. Qed.

Lemma settled_reacts auto_disabled s s' : settled auto_disabled s -> reacts s s' -> settled auto_disabled s'.
Proof.
  intros [H1 H2 H3 (y & Y1 & Y2 & Y3)] H. pose proof (reacts_down _ _ H2 H) as [[C1 C2] _].
  pose proof (reacts_life _ _ H) as HL. constructor; [eapply life_step_ok; [exact HL|exact H1]|auto|congruence|].
  destruct (life_step_followed _ _ _ _ _ _ _ _ H1 HL y Y1) as (y' & R & S). exists y'. split; [done|].
  eapply steps_untracked; [exact R|rewrite (sa_cl _ _ S), C1; done|done|done].
Qed.

(** A goroutine that is not alone in waiting takes a step. *)
Lemma rc_progress s r : quiet (lc s) -> rc s = Some r -> r <> Rc_ended -> r <> Rc_dial -> exists s', own s s'.
Proof.
  intros [Q _] HR Hr Hd. destruct r; try done; (eexists; eapply own_rc; [exact HR|done|constructor; done]).
Qed.

(** The handler is through, or in a dial that only the network can end. *)
Definition rc_through (r : option reconnecter) : Prop := r = None \/ r = Some Rc_ended \/ r = Some Rc_dial.
#[local] Instance rc_through_dec r : Decision (rc_through r).
Proof. refine (match r with None | Some Rc_ended | Some Rc_dial => left _ | _ => right _ end); unfold rc_through; naive_solver. Defined.

Lemma head_progress auto_disabled s p rest : settled auto_disabled s -> disconnected (lc s) = true -> rc_through (rc s) ->
  gs s ≡ₚ p :: rest -> exists s', own s s'.
Proof.
  intros [Hok [Q1 Q2] _ (y & Y & _ & [Hn _])] D HR HP.
  assert (Hr : rc s <> Some Rc_reset) by (intros E; rewrite E in HR; destruct HR as [|[|]]; done).
  pose proof (lo_holds _ _ Hok) as Hh. rewrite HP in Hh. apply Forall_cons in Hh as [Hh _].
  assert (HC : forall n, (n <= wsConn s)%nat -> n ∈ closed s).
  { intros n Hl. apply (lo_closed _ _ Hok). destruct (decide (n = wsConn s)); [right; done|left; lia]. }
  assert (HD : forall ch, (ch <= disc s)%nat -> ch ∈ closed_discs s).
  { intros ch Hl. apply (lo_channels _ _ Hok). destruct (decide (ch = disc s)); [right; done|left; lia]. }
  destruct (lo_mode _ _ Hok) as (M1 & M2 & M3).
  assert (G : exists ps s1, goes w other_uint64 other_int64 order order' s p ps s1).
  { destruct p; cbn in Hh; try (eexists _, _; constructor; auto; fail).
    - destruct (doDisconnect (lc s)) as [[|] c'] eqn:E; eexists _, _; econstructor; exact E.
    - eexists _, _. apply rs_registered. right. rewrite <- (sa_cl _ _ Y), Hn. reflexivity.
    }
  destruct G as (ps & s1 & G). eexists. eapply own_go; [exact HP|exact G].
Qed.

Lemma progress auto_disabled s : settled auto_disabled s ->
  gs s = [] /\ rc_through (rc s) /\ disconnected (lc s) = true \/ exists s', own s s'.
Proof.
  intros Hs. pose proof (se_ok _ _ Hs) as Hok. pose proof (se_quiet _ _ Hs) as Q.
  destruct (decide (rc_through (rc s))) as [HR|HR].
  2: { right. unfold rc_through in HR. destruct (rc s) as [r|] eqn:E; [|tauto]. apply (rc_progress s r); [done|done|naive_solver..]. }
  destruct (disconnected (lc s)) eqn:D.
  - destruct (gs s) as [|p rest] eqn:E; [auto|]. right. eapply head_progress; [done|done|done|now rewrite E].
  - right. destruct (lo_shutdown _ _ Hok (proj1 Q)) as [?|[E|E]]; [congruence|rewrite E in HR; destruct HR as [|[|]]; done|].
    apply Exists_exists in E as (p & (l1 & l2 & E)%list_elem_of_split & Hp).
    assert (HP : gs s ≡ₚ p :: l1 ++ l2) by (rewrite E; symmetry; apply Permutation_middle).
    destruct p; try discriminate Hp.
    + eexists. eapply own_go; [exact HP|]. apply in_shutdown, Q.
    + destruct (doDisconnect (lc s)) as [[|] c'] eqn:E'; eexists; (eapply own_go; [exact HP|econstructor; exact E']).
Qed.

(** A run to the end, by the measure; a dial that is waited for fails. *)
Lemma runs_out auto_disabled s : settled auto_disabled s -> exists s', rtc reacts s s' /\ settled auto_disabled s' /\
  gs s' = [] /\ rc_counted (rc s') = 0%nat /\ disconnected (lc s') = true.
Proof.
  remember (life_measure s) as n eqn:E. revert s E. induction n as [n IH] using lt_wf_ind. intros s -> Hs.
  assert (Go : forall s1, reacts s s1 -> exists s', rtc reacts s s' /\ settled auto_disabled s' /\
    gs s' = [] /\ rc_counted (rc s') = 0%nat /\ disconnected (lc s') = true).
  { intros s1 H. destruct (IH (life_measure s1) (proj2 (reacts_down _ _ (se_quiet _ _ Hs) H)) s1 eq_refl (settled_reacts _ _ _ Hs H)) as (s'' & R & K).
    exists s''. split; [eapply rtc_l; [exact H|exact R]|exact K]. }
  destruct (progress _ _ Hs) as [(H1 & [H2|[H2|H2]] & H3)|[s' H]].
  - exists s. rewrite H2. split_and!; done.
  - exists s. rewrite H2. split_and!; done.
  - eapply Go. right. eapply net_dial; [exact H2|apply rc_failed].
  - apply (Go s'). now left.
Qed.

Lemma settled_end auto_disabled s : settled auto_disabled s -> gs s = [] -> rc_through (rc s) -> disconnected (lc s) = true ->
  wg s = Z.of_nat (rc_counted (rc s)) /\ forall n, (n < conns s)%nat -> n ∈ closed s.
Proof.
  intros [Hok _ _ _] HG HR D. split.
  - rewrite (lo_wg _ _ Hok), HG. done.
  - intros n Hn. apply (lo_closed _ _ Hok). pose proof (lo_conns _ _ Hok) as HC.
    destruct HR as [E|[E|E]]; rewrite E in *; (destruct (decide (n = wsConn s)); [right; done|left; lia]).
Qed.
End shutdown.

(** ** Theorems *)

Section theorems.
Context (w : world) (other_uint64 other_int64 : float64 -> Z).
Context (order : gset (string * Z) -> list (string * Z)) (order' : gset string -> list string).
#[local] Abbreviation step := (life_step w other_uint64 other_int64 order order').
#[local] Abbreviation own := (routine_step w other_uint64 other_int64 order order').
#[local] Abbreviation reacts := (reacts w other_uint64 other_int64 order order').
#[local] Abbreviation cstep := (client_step the_registry w other_uint64 other_int64).

Lemma total_counted g : total counted g = length (filter (fun p => counted p = 1%nat) g).
Proof.
  induction g as [|p g IH]; [done|]. rewrite filter_cons. cbn [total]. rewrite IH.
  assert (C : counted p = 1%nat \/ counted p = 0%nat) by (destruct p as [| | | | | | | | |[]|[]| | | | |]; auto).
  destruct C as [-> | ->]; done.
Qed.

Lemma ended_stuck s : gs s = [] -> rc s = None \/ rc s = Some Rc_ended -> forall s', ~ reacts s s'.
Proof.
  intros G C s' E. revert G C. destruct E as [[s0 s1 p rest ps HP _|s0 s1 r r' new Er _ Hr]|[s0 p q rest HP _|s0 s1 r' new Er Hr]]; intros G C.
  1, 3: rewrite G in HP; now apply Permutation_nil_cons in HP.
  all: destruct C as [C|C]; rewrite C in Er; try discriminate Er; injection Er as <-; inversion Hr.
Qed.

Lemma life_runs auto_disabled h s : rtc step (New_life auto_disabled h) s -> life_ok auto_disabled s /\
  exists y, rtc cstep (init_system auto_disabled true h) y /\ seen_as s y.
Proof.
  intros H. pattern s. refine (rtc_ind_r _ _ _ _ s H); clear s H.
  - split; [apply New_life_ok|]. exists (init_system auto_disabled true h). split; [reflexivity|].
    now destruct auto_disabled; constructor.
  - intros s s' _ Hs (Hok & y & R & Y). split; [eapply life_step_ok; [exact Hs|exact Hok]|].
    destruct (life_step_followed _ _ _ _ _ _ _ _ Hok Hs y Y) as (y' & R' & Y'). exists y'. split; [etransitivity; eassumption|done].
Qed.

Lemma life_settled auto_disabled h s : rtc step (New_life auto_disabled h) s -> Z.of_nat (next_chan (lc s)) < 2 ^ 64 ->
  shutdown (lc s) = true -> settled auto_disabled s.
Proof.
  intros H Hn Hs. destruct (life_runs _ _ _ H) as (Hok & y & R & Y). rewrite <- (sa_cl _ _ Y) in Hn, Hs.
  destruct (steps_untracked _ _ _ _ _ R Hn (proj1 (init_system_ok _ _ _ _))) as [Hy Ht]; [done|].
  constructor; [done| |now rewrite <- (sa_cl _ _ Y)|exists y; done].
  rewrite <- (sa_cl _ _ Y). split; [done|]. now apply (co_shutdown _ (so_client _ _ Hy)).
Qed.

(** C13: the goroutines of a client keep its promises.  Whatever readers and writers of
present and past connections, the reconnect handler, the goroutines that send again, the
network and the callers do, and however their steps interleave, what happens to the
client is a run of the system that answers every call at most once
([client_refines_calls]); every connection before the current one is closed, and the
current one, once there is one again, exactly when the client is disconnected; and the
counter of the wait group, which no method of the client waits for, is the number of
the goroutines of start (readers, writers, and the callers of OnClientConnected), up to
the call of wg.Done that each ends with, and of the reconnect handler, that have not
returned. *)
Theorem client_goroutines auto_disabled h s : rtc step (New_life auto_disabled h) s ->
  (exists y, rtc cstep (init_system auto_disabled true h) y /\ cl y = lc s /\ in_flight y = in_flight (base s) /\
     sending y ≡ₚ sending (base s) ++ concat (map unsent (gs s))) /\
  (forall n, n ∈ closed s <-> (n < wsConn s)%nat \/ n = wsConn s /\ disconnected (lc s) = true /\ rc s <> Some Rc_reset) /\
  wg s = Z.of_nat (length (filter (fun p => counted p = 1%nat) (gs s)) +
                   match rc s with None | Some Rc_ended => 0 | _ => 1 end).
Proof.
  intros H. destruct (life_runs _ _ _ H) as (Hok & y & R & []). split_and!.
  - exists y. auto.
  - apply Hok.
  - rewrite (lo_wg _ _ Hok), total_counted. reflexivity.
Qed.

(** C14: a client that is shut down comes to an end, whatever the network does.  After
Shutdown, or a disconnection without automatic reconnection, and whatever happened
before: the goroutines and the network together take no more than [life_measure] steps,
messages that still arrive or leave included; when no goroutine has a step of its own
left, then, though no further message passes and no connection breaks, all of them have
returned and every connection that was dialed is closed, but for the reconnect handler
when it waits for a dial to end, which nothing interrupts; and once that dial ends, with
a connection or without, the handler returns too, the wait group is at zero and every
connection is closed. *)
Theorem client_ends auto_disabled h s : rtc step (New_life auto_disabled h) s ->
  Z.of_nat (next_chan (lc s)) < 2 ^ 64 -> shutdown (lc s) = true ->
  (forall n s', nsteps reacts n s s' -> (n <= life_measure s)%nat) /\
  (forall s', rtc reacts s s' -> (forall s'', ~ own s' s'') ->
     gs s' = [] /\ (forall n, (n < conns s')%nat -> n ∈ closed s') /\
     (rc s' = Some Rc_dial /\ wg s' = 1 \/ (rc s' = None \/ rc s' = Some Rc_ended) /\ wg s' = 0)) /\
  (exists s', rtc reacts s s' /\ forall s'', ~ reacts s' s'') /\
  forall s', rtc reacts s s' -> (forall s'', ~ reacts s' s'') ->
    gs s' = [] /\ (rc s' = None \/ rc s' = Some Rc_ended) /\ wg s' = 0.
Proof.
  intros H Hn Hs. pose proof (life_settled _ _ _ H Hn Hs) as HS.
  assert (HR : forall s', rtc reacts s s' -> settled auto_disabled s').
  { intros s' R. revert HS. clear -R. induction R; [done|]. intros HS. apply IHR. eapply settled_reacts; eassumption. }
  assert (Stuck : forall s', rtc reacts s s' -> (forall s'', ~ own s' s'') ->
     gs s' = [] /\ (forall n, (n < conns s')%nat -> n ∈ closed s') /\
     (rc s' = Some Rc_dial /\ wg s' = 1 \/ (rc s' = None \/ rc s' = Some Rc_ended) /\ wg s' = 0)).
  { intros s' R St. specialize (HR s' R). destruct (progress w other_uint64 other_int64 order order' _ _ HR) as [(G & C & D)|[s'' E]]; [|now apply St in E].
    destruct (settled_end _ _ HR G C D) as [W K]. split_and!; [done|done|]. destruct C as [E|[E|E]]; rewrite E in *; auto. }
  split_and!.
  - intros n s' R. clear HR Stuck H Hn Hs. induction R as [s|n s s1 s' H1 R IH]; [lia|].
    pose proof (reacts_down _ _ _ _ _ _ _ (se_quiet _ _ HS) H1) as [_ L]. specialize (IH (settled_reacts _ _ _ _ _ _ _ _ HS H1)). lia.
  - exact Stuck.
  - destruct (runs_out w other_uint64 other_int64 order order' _ _ HS) as (s' & R & HS' & G & C & D). exists s'. split; [done|].
    apply ended_stuck; [done|]. destruct (rc s') as [[]|]; try discriminate C; auto.
  - intros s' R St. destruct (Stuck s' R) as (G & _ & [[E _]|K]); [intros s'' O; apply (St s''); now left| |tauto].
    destruct (St _ (or_intror (net_dial _ _ _ _ E (rc_failed _)))).
Qed.
End theorems.

(** ** Goroutines of a connection before *)

Section stale.
Context (w : world) (other_uint64 other_int64 : float64 -> Z).
Context (order : gset (string * Z) -> list (string * Z)) (order' : gset string -> list string).
#[local] Abbreviation step := (life_step w other_uint64 other_int64 order order').
#[local] Abbreviation own := (routine_step w other_uint64 other_int64 order order').

(** Steps of the [i]-th goroutine and of the handler, by computation. *)
Lemma own_nth i s s1 p ps : gs s !! i = Some p -> goes w other_uint64 other_int64 order order' s p ps s1 ->
  own s (with_gs (ps ++ delete i (gs s)) s1).
Proof. intros HP G. eapply own_go; [|exact G]. now apply delete_Permutation. Qed.

(** A client that was disconnected and is connected again, while the reader and the
writer of its first connection have not run since. *)
Definition reconnected_life : life :=
  let c := set_conn false false (new_client false true None) in
  MkLife (MkSystem c [] [] 0 []) 1 2 {[0%nat]} ∅ 1 {[0%nat]}
    [Connected_call; In_top; Out_top; Out_wait 0; In_read 0; Connected_call] (Some Rc_spawn) 7.

#[local] Ltac run tac :=
  eapply rtc_l; [tac|];
  lazymatch goal with |- rtc _ ?a _ => let b := eval vm_compute in a in change a with b end.

Lemma reconnected_life_run : rtc step (New_life false None) reconnected_life.
Proof.
  run ltac:(eapply life_own, (own_nth 1); [reflexivity|now apply in_next]).
  run ltac:(eapply life_own, (own_nth 2); [reflexivity|now apply out_select]).
  run ltac:(eapply life_own, own_rc; [reflexivity|discriminate|apply rc_select]).
  run ltac:(apply life_disconnect).
  run ltac:(eapply life_own, (own_nth 0); [reflexivity|now eapply dis_first]).
  run ltac:(eapply life_own, (own_nth 0); [reflexivity|now eapply dis_rest]).
  run ltac:(eapply life_own, own_rc; [reflexivity|discriminate|apply rc_disconnected; apply (bool_decide_unpack _); vm_compute; exact I]).
  run ltac:(eapply life_own, own_rc; [reflexivity|discriminate|now apply rc_loop_next]).
  run ltac:(eapply life_network, net_dial; [reflexivity|apply rc_dialed]).
  run ltac:(eapply life_own, own_rc; [reflexivity|discriminate|apply rc_set]).
  run ltac:(eapply life_own, own_rc; [reflexivity|discriminate|apply rc_reset]).
  run ltac:(eapply life_own, own_rc; [reflexivity|discriminate|apply rc_start]).
  match goal with |- rtc _ ?a ?b => change b with a end. reflexivity.
Qed.
(** C15: the old goroutines act on the new connection.  A client can be connected again,
over a connection that nothing is wrong with and with a call under way, and the reader
of the connection before, which only now gets its error, disconnects it; or the writer
of the connection before, which only now sees its closed channel, drops the message of
the call, which then waits though the client is connected. *)
Theorem stale_handlers : exists s m,
  rtc step (New_life false None) s /\
  disconnected (lc s) = false /\ wsConn s = 1%nat /\ 1%nat ∉ closed s /\ 1%nat ∉ failed s /\
  sendChan (lc s) = [m] /\ map j_json (tracked (lc s)) = [m] /\
  (exists s1, rtc own s s1 /\ disconnected (lc s1) = true /\ wsConn s1 = 1%nat /\ 1%nat ∈ closed s1) /\
  (exists s2, rtc own s s2 /\ disconnected (lc s2) = false /\ sendChan (lc s2) = [] /\ tracked (lc s2) = tracked (lc s) /\
     Forall (fun p => match p with Out_got _ | Out_write _ _ => False | _ => True end) (gs s2)).
Proof.
  eexists _, _. split.
  { etransitivity; [exact reconnected_life_run|]. unfold reconnected_life.
    run ltac:(eapply life_user, (user_cmd _ (sample_command 5)); vm_compute; reflexivity).
    run ltac:(eapply life_user, user_request; [cbv [base in_flight]; reflexivity|vm_compute; reflexivity]).
    run ltac:(eapply life_user, (user_send _ false _ [] []); [reflexivity|right; reflexivity]).
    reflexivity. }
  do 6 (split; [first [reflexivity|apply (bool_decide_unpack _); vm_compute; exact I]|]). split; [|].
  - eexists. split.
    + run ltac:(eapply (own_nth 4); [reflexivity|apply in_error; left; apply (bool_decide_unpack _); vm_compute; exact I]).
      run ltac:(eapply (own_nth 0); [reflexivity|now eapply dis_first]). reflexivity.
    + split_and!; [reflexivity..|apply (bool_decide_unpack _); vm_compute; exact I].
  - eexists. split.
    + run ltac:(eapply (own_nth 3); [reflexivity|apply out_disconnected; apply (bool_decide_unpack _); vm_compute; exact I]).
      run ltac:(eapply (own_nth 0); [reflexivity|apply out_drain]). reflexivity.
    + split_and!; [reflexivity..|]. repeat constructor.
Qed.
End stale.

Lemma client_goroutines_witness : exists y,
  rtc (client_step the_registry sample_world (fun _ => 0) (fun _ => 0)) (init_system false true None) y /\ cl y = lc reconnected_life.
Proof.
  destruct (client_goroutines sample_world (fun _ => 0) (fun _ => 0) elements elements false None reconnected_life
    (reconnected_life_run _ _ _ _ _)) as [(y & R & E & _) _].
  exists y. split; [exact R|exact E].
Defined.

(** A shutdown while the second connection is up. *)
Lemma client_ends_witness : exists s',
  rtc (reacts sample_world (fun _ => 0) (fun _ => 0) elements elements) (shutdown_call reconnected_life) s' /\
  gs s' = [] /\ wg s' = 0.
Proof.
  destruct (client_ends sample_world (fun _ => 0) (fun _ => 0) elements elements false None (shutdown_call reconnected_life))
    as (_ & _ & (s' & R & St) & H).
  - eapply rtc_r; [apply reconnected_life_run|apply life_shutdown].
  - vm_compute. reflexivity.
  - vm_compute. reflexivity.
  - destruct (H s' R St) as (G & _ & W). exists s'. split; [exact R|]. split; [exact G|exact W].
Defined.
