(* ===== verification/RpcClientServer.v ===== *)
(** * The client and the server together

What a request of rpcclient gets from rpcserver and rpcwebsocket: getblockhash
from the call to the hash, the notification of a spent output from the server's
maps to the caller's handler, and the authentication of the websocket dial. *)

From Stdlib Require Import ZArith Lia List.
From Stdlib Require Import Strings.String Strings.Byte.
From S2P Require Import Prelude WireFormat TxFormat WireCommon WireMsgTx WireMsgTxEncode WireMsgTxDecode WireMsgTxProps.
From S2P Require Import ChainHash WireBlock JsonTypes AcbcJson AcbcJsonProps AcbcJsonCmds GoFloat AcbcUtil RpcSpent.
From S2P Require Import RpcAuth RpcServer RpcServerProps RpcWebsocket.
From S2P Require Import RpcClientNtfn RpcClient RpcClientProps RpcClientApi RpcClientConn.

#[local] Open Scope list_scope.
#[local] Set Warnings "-register-all".
#[local] Opaque the_registry.

(** ** The request *)

Definition getblockhash_request (index id : Z) : Request :=
  MkRequest RpcVersion1 "getblockhash" (Some [JInt index]) (JInt id).

Lemma CmdMethod_getblockhash v : CmdMethod the_registry (cmd_of GetBlockHashCmd v) = Ok "getblockhash"%string.
Proof.
  unfold CmdMethod, lookup_method, cmd_of. replace (concreteTypeToMethod the_registry !! _) with (Some "getblockhash"%string); [done|].
  vm_compute. reflexivity.
Qed.

Lemma MarshalCmd_getblockhash index id : MarshalCmd the_registry RpcVersion1 (JInt id) (cmd_of GetBlockHashCmd (NewGetBlockHashCmd index)) =
  Ok (request_json (getblockhash_request index id)).
Proof.
  unfold MarshalCmd, MarshalCmd_request, cmd_of, lookup_method.
  replace (concreteTypeToMethod the_registry !! _) with (Some "getblockhash"%string) by (vm_compute; reflexivity). reflexivity.
Qed.

(** The client that sent it. *)
Definition asked (index : Z) (c : Client) : Client :=
  push_request (MkJsonRequest (c_id c + 1) "getblockhash" (cmd_of GetBlockHashCmd (NewGetBlockHashCmd index))
    (request_json (getblockhash_request index (c_id c + 1))) (next_chan c))
    (make_chan (set_id (c_id c + 1) c)).2.

(** A connected websocket client that is not shut down, and has not used up the
ids that float64 holds. *)
Definition can_ask (c : Client) : Prop :=
  HTTPPostMode c = false /\ batch c = false /\ connEstablished c = true /\ shutdown c = false /\
  0 <= c_id c /\ c_id c + 1 < 2 ^ 53.

Lemma sendRequest_ok jr c : HTTPPostMode c = false -> connEstablished c = true -> shutdown c = false ->
  sendRequest jr c = (Some (j_json jr), push_request jr c).
Proof. intros Hm He Hs. unfold sendRequest, addRequest. now rewrite Hm, He, Hs. Qed.

Lemma GetBlockHashAsync_asks index c : can_ask c ->
  GetBlockHashAsync the_registry index c = (next_chan c, Some (request_json (getblockhash_request index (c_id c + 1))), asked index c).
Proof.
  intros (Hm & Hb & He & Hs & H0 & H1). unfold GetBlockHashAsync, SendCmd, SendCmd_request.
  rewrite CmdMethod_getblockhash. cbn [NextID]. rewrite Hb, u64_small by (unfold in_u64; lia).
  rewrite MarshalCmd_getblockhash. cbn [make_chan]. now rewrite sendRequest_ok.
Qed.

Lemma UnmarshalRequest_getblockhash index id :
  UnmarshalRequest (request_json (getblockhash_request index id)) = (None, getblockhash_request index id).
Proof. reflexivity. Qed.

(** ** The reply *)

Definition reply_json (res : json) (id : Z) : json :=
  response_json (AcbcJson.MkResponse RpcVersion1 res None (Some (JInt id))).

(** What the client reads from a response. *)
Lemma unmarshal_response v res err id : 0 <= id < 2 ^ 53 ->
  unmarshal_in (response_json (AcbcJson.MkResponse v res err (Some (JInt id)))) =
  match match err with Some e => unmarshal_rpc_error None (error_json e) | None => Ok None end with
  | Ok e => Some (MkIn (Some (f64_of_Z id)) "" None (Some res) e)
  | Err _ => None
  end.
Proof.
  intros Hid. destruct (f64_of_Z_trunc id Hid) as (_ & _ & _ & Hj).
  unfold response_json, unmarshal_in. cbn [RJsonrpc Result RError RID fold_left]. unfold in_member.
  change (EqualFold "jsonrpc" "id") with false. change (EqualFold "jsonrpc" "method") with false.
  change (EqualFold "jsonrpc" "params") with false. change (EqualFold "jsonrpc" "result") with false.
  change (EqualFold "jsonrpc" "error") with false. change (EqualFold "result" "id") with false.
  change (EqualFold "result" "method") with false. change (EqualFold "result" "params") with false.
  change (EqualFold "result" "result") with true. change (EqualFold "error" "id") with false.
  change (EqualFold "error" "method") with false. change (EqualFold "error" "params") with false.
  change (EqualFold "error" "result") with false. change (EqualFold "error" "error") with true.
  change (EqualFold "id" "id") with true. cbv iota. rewrite Hj.
  destruct err as [e|]; [|reflexivity]. cbn [in_Error empty_in]. now destruct (unmarshal_rpc_error None (error_json e)).
Qed.

Lemma unmarshal_reply res id : 0 <= id < 2 ^ 53 ->
  unmarshal_in (reply_json res id) = Some (MkIn (Some (f64_of_Z id)) "" None (Some res) None).
Proof. intros Hid. unfold reply_json. now rewrite unmarshal_response. Qed.

Lemma to_uint64_id other id : 0 <= id < 2 ^ 53 -> to_uint64 other (f64_of_Z id) = id.
Proof.
  intros Hid. destruct (f64_of_Z_trunc id Hid) as (Ht & Hi & Hl & _). unfold to_uint64.
  destruct (f64_of_Z id) eqn:E; try done; cbn [trunc_Z] in *; try lia.
  rewrite Ht. replace ((0 <=? id) && (id <? 2 ^ 64)) with true; [done|].
  symmetry. apply andb_true_iff. rewrite Z.leb_le, Z.ltb_lt. lia.
Qed.

(** A reply to a tracked request of a client without a batch. *)
Lemma handleMessage_reply w o1 o2 res id e c : 0 <= id < 2 ^ 53 -> requestMap c !! id = Some e ->
  handleMessage w o1 o2 (Ok (reply_json res id)) c =
    deliver (j_chan (e_req e)) (MkResponse (Some res) None)
      (trackRegisteredNtfns (j_cmd (e_req e)) (set_requests (delete id (requestMap c)) (list_Remove e (requestList c)) c)).
Proof.
  intros Hid He. unfold handleMessage. rewrite unmarshal_reply by done. cbn [in_ID in_Result in_Error].
  destruct (f64_of_Z_trunc id Hid) as (_ & -> & -> & _). cbn [orb negb].
  rewrite to_uint64_id by done. unfold removeRequest. rewrite He. reflexivity.
Qed.

(** ** getblockhash from the call to the hash *)

Definition getblockhash_parsed (index id : Z) : parsedRPCCmd :=
  MkParsed RpcVersion1 (JInt id) "getblockhash" (Some (TPtr GetBlockHashCmd, NewGetBlockHashCmd index)) None.

Lemma parseCmd_getblockhash index id : in_i64 index -> parseCmd (getblockhash_request index id) = Ok (getblockhash_parsed index id).
Proof. intros Hi. unfold parseCmd, getblockhash_request. rewrite UnmarshalCmd_getblockhash by done. reflexivity. Qed.

(** The server after reading the request. *)
Definition servicing (index id : Z) (s : wsClient) : wsClient :=
  set_jobs (jobs s ++ [getblockhash_parsed index id]) (acquire s).

Lemma in_message_getblockhash auth index id s : in_i64 index -> authenticated s = true -> RpcWebsocket.disconnected s = false ->
  in_message auth (Some (SingleBody (Ok (request_json (getblockhash_request index id))))) s = Ok (Continue, servicing index id s).
Proof.
  intros Hi Ha Hd. unfold in_message, in_single. rewrite Hd, UnmarshalRequest_getblockhash.
  change (bool_decide (Method (getblockhash_request index id) = ""%string) || _) with false. cbv iota.
  change (ID (getblockhash_request index id)) with (JInt id). cbv iota. rewrite parseCmd_getblockhash by done.
  cbn [mbind result_bind getblockhash_parsed p_err p_cmd]. rewrite Ha. cbn [check_auth_cmd as_authenticate NewGetBlockHashCmd].
  change (Method (getblockhash_request index id)) with "getblockhash"%string.
  replace (bool_decide ("getblockhash"%string ∈ rpcLimited)) with true by (vm_compute; reflexivity).
  cbn [negb]. rewrite andb_false_r. reflexivity.
Qed.

Lemma service_getblockhash index id s : in_i64 index -> RpcWebsocket.disconnected s = false ->
  service_step (length (jobs s)) (servicing index id s) =
    Some (if index <? 0 then Err NilDereference
          else Ok (SendMessage [RpcServer.CJson (reply_json (JStr (padded_decimal index)) id)] s)).
Proof.
  intros Hi Hd. unfold service_step, servicing. cbn [jobs set_jobs].
  rewrite lookup_app_r, Nat.sub_diag by lia. cbn [lookup list_lookup].
  rewrite (delete_middle (jobs s) [] (getblockhash_parsed index id)), app_nil_r. unfold serviceRequest, command_result, wsHandlers.
  rewrite lookup_empty. unfold getblockhash_parsed, NewGetBlockHashCmd.
  rewrite standardCmdResult_getblockhash by done. destruct (index <? 0); [done|].
  cbn [mbind result_bind fst snd p_jsonrpc p_id]. unfold createMarshalledReply, reply_json. cbn [MarshalResponse]. f_equal. f_equal.
  unfold SendMessage, release, acquire, set_sem, set_jobs. cbn. rewrite Hd. now destruct s.
Qed.

Lemma json_string_str s : json_string (JStr s) = Ok s.
Proof. reflexivity. Qed.

Lemma ReceiveFuture_fresh ch c : Forall (fun p => (p.1 < ch)%nat) (responses c) -> ReceiveFuture ch c = None.
Proof.
  intros H. unfold ReceiveFuture. induction H as [|[x r] l Hx Hl IH]; [done|]. cbn in *.
  destruct (Nat.eqb_spec x ch); [lia|exact IH].
Qed.

Lemma ReceiveFuture_deliver ch r c c' : Forall (fun p => (p.1 < ch)%nat) (responses c) ->
  responses c' = responses c ++ [(ch, r)] ->
  ReceiveFuture ch c' = Some (match r_err r with Some e => Err e | None => Ok (r_result r) end).
Proof.
  intros H E. rewrite (ReceiveFuture_app ch c c' _ E), ReceiveFuture_fresh by done. cbn. now rewrite Nat.eqb_refl.
Qed.

(** The tracked request taken out again. *)
Lemma removeRequest_asked index c : batch c = false -> requestMap c !! (c_id c + 1) = None ->
  delete (c_id c + 1) (requestMap (asked index c)) = requestMap c.
Proof. intros Hb Hm. unfold asked, push_request. cbn. rewrite delete_insert_eq. now apply delete_id. Qed.

(** The text of the reply is the text of a hash. *)
Lemma padded_hash index : 0 <= index < 2 ^ 63 -> exists h,
  NewHashFromStr (list_byte_of_string (padded_decimal index)) = Ok h /\ string_of_list_byte (Hash_String h) = padded_decimal index.
Proof.
  intros Hi. destruct (fmt_d_digits index Hi) as [D1 D2].
  set (padded := replicate (64 - length (to_bytes (fmt_d index))) x30 ++ to_bytes (fmt_d index)).
  assert (Hp : length padded = 64%nat) by (unfold padded; rewrite length_app, length_replicate; lia).
  destruct (hash_of_digits padded ltac:(lia)) as (h & Eh & Es).
  { unfold padded. rewrite forallb_app, D1, andb_true_r. apply forallb_forall. intros x Hx%list_elem_of_In.
    now apply elem_of_replicate in Hx as [-> _]. }
  rewrite Hp, Nat.sub_diag in Es. cbn [replicate app] in Es. exists h. unfold padded_decimal. fold padded.
  rewrite list_byte_of_string_of_list_byte, Es. split; [exact Eh|done].
Qed.

(** C24: getblockhash works end to end, and takes the server down on a negative
index.  The client numbers the request and sends it; the server, for any
authenticated client, starts one goroutine for it, which sends one reply and
gives its place back; the client takes the reply for that request, whatever else
is outstanding, and the caller receives the hash whose text is the index in
decimal, padded with zeros.  The request is tracked from the call to the reply. *)
Theorem getblockhash_end_to_end w o1 o2 auth index c s :
  in_i64 index -> can_ask c -> requestMap c !! (c_id c + 1) = None ->
  Forall (fun p => (p.1 < next_chan c)%nat) (responses c) ->
  authenticated s = true -> RpcWebsocket.disconnected s = false ->
  exists m c1 s1,
    GetBlockHashAsync the_registry index c = (next_chan c, Some m, c1) /\
    is_Some (requestMap c1 !! (c_id c + 1)) /\ GetBlockHash_Receive (next_chan c) c1 = None /\
    in_message auth (Some (SingleBody (Ok m))) s = Ok (Continue, s1) /\
    if index <? 0 then service_step (length (jobs s)) s1 = Some (Err NilDereference)
    else exists reply h,
      service_step (length (jobs s)) s1 = Some (Ok (SendMessage [RpcServer.CJson reply] s)) /\
      let c2 := handleMessage w o1 o2 (Ok reply) c1 in
      GetBlockHash_Receive (next_chan c) c2 = Some (Ok h) /\
      string_of_list_byte (Hash_String h) = padded_decimal index /\
      requestMap c2 = requestMap c.
Proof.
  intros Hi Hc Hm Hr Ha Hd. pose proof Hc as (_ & Hb & _ & _ & H0 & H1).
  exists (request_json (getblockhash_request index (c_id c + 1))), (asked index c), (servicing index (c_id c + 1) s).
  split; [now apply GetBlockHashAsync_asks|]. split; [|split; [|split; [now apply in_message_getblockhash|]]].
  - unfold asked, push_request. cbn. rewrite lookup_insert_eq. eauto.
  - unfold GetBlockHash_Receive. now rewrite ReceiveFuture_fresh.
  - rewrite service_getblockhash by done. destruct (Z.ltb_spec index 0) as [Hn|Hn]; [done|].
    destruct (padded_hash index) as (h & Eh & Es); [unfold in_i64 in Hi; lia|].
    exists (reply_json (JStr (padded_decimal index)) (c_id c + 1)), h. split; [done|]. cbv zeta.
    erewrite handleMessage_reply; [|lia|unfold asked, push_request; cbn; apply lookup_insert_eq].
    cbn [e_req j_cmd j_chan]. split_and!.
    + unfold GetBlockHash_Receive, hash_result. rewrite (ReceiveFuture_deliver _ (RpcClient.MkResponse (Some (JStr (padded_decimal index))) None) c); [|exact Hr|].
      * cbn [mbind option_bind r_err r_result result_bind]. rewrite json_string_str. cbn [mbind result_bind].
        unfold new_hash. now rewrite Eh.
      * unfold trackRegisteredNtfns. destruct (ntfnHandlers _); reflexivity.
    + exact Es.
    + rewrite <- (removeRequest_asked index c Hb Hm). unfold trackRegisteredNtfns. now destruct (ntfnHandlers _).
Qed.

Definition sample_server : wsClient := RpcWebsocket.MkClient true false false 7 20 0 [] [] false.

Example getblockhash_end_to_end_witness :
  exists m c1 s1 reply h,
    GetBlockHashAsync the_registry 5 (new_client true true None) = (0%nat, Some m, c1) /\
    service_step 0 s1 = Some (Ok (SendMessage [RpcServer.CJson reply] sample_server)) /\
    GetBlockHash_Receive 0 (handleMessage sample_world (fun _ => 0) (fun _ => 0) (Ok reply) c1) = Some (Ok h) /\
    string_of_list_byte (Hash_String h) = padded_decimal 5.
Proof.
  destruct (getblockhash_end_to_end sample_world (fun _ => 0) (fun _ => 0) (MkAuth zero_digest zero_digest) 5
    (new_client true true None) sample_server) as (m & c1 & s1 & H1 & _ & _ & _ & reply & h & H2 & H3 & H4 & _);
    [unfold in_i64; lia|unfold can_ask; cbn; split_and!; (reflexivity || lia)|reflexivity|constructor|reflexivity|reflexivity|].
  exists m, c1, s1, reply, h. split_and!; assumption.
Defined.

(** ** A spent output, from the server's maps to the caller's handler *)

Lemma hex_DecodeString_Encode b : hex_DecodeString (hex_EncodeToString b) = Ok b.
Proof.
  induction b as [|x b IH]; [done|]. unfold hex_EncodeToString in *. cbn [map concat app hex_DecodeString].
  destruct (nibbles (byte_val x) (byte_val_range x)) as (H1 & H2 & H3).
  rewrite !fromHex_toHex, IH by done. cbn [mbind result_bind mret]. now rewrite H3, byte_of_val.
Qed.

(** What the client reads from the hexadecimal text of a transaction. *)
Lemma Deserialize_txHex t w w' : tx_wf t -> TxIns t <> [] -> bufs_ok w -> bufs_ok w' ->
  exists b, hex_DecodeString (list_byte_of_string (txHexString t w)) = Ok b /\
    (Deserialize (set_rd (Reader b EOF) w')).1 = Ok t.
Proof.
  intros Ht Hne Hw Hw'. unfold txHexString. rewrite list_byte_of_string_of_list_byte, hex_DecodeString_Encode.
  eexists. split; [reflexivity|].
  destruct (writes_unlimited _ _ (set_writer [] None w) (writes_BtcEncode WitnessEncoding t (tx_wf_sized t Ht)) Hw eq_refl) as (_ & H2 & _).
  unfold written in H2. cbn [w_out set_writer length] in H2. rewrite drop_0 in H2. unfold Serialize. rewrite H2.
  pose proof (reads_run _ _ w' t (tx_bytes WitnessEncoding t) [] EOF (reads_BtcDecode zero_pmsg WitnessEncoding) Hw') as Hr.
  rewrite app_nil_r in Hr. apply Hr. pose proof (p_tx_bytes WitnessEncoding t [] EOF Ht (fun _ => Hne)) as Hp.
  rewrite app_nil_r in Hp. exact Hp.
Qed.

(** The heights, indices and times that fit their fields. *)
Definition details_fit (block : option Block) (index : Z) : Prop :=
  match block with
  | None => True
  | Some b => in_i32 (Height b) /\ in_i64 index /\ in_i64 (unix_sec (Timestamp (Header (Block_MsgBlock b))))
  end.

Lemma details_typed b index w : details_fit (Some b) index ->
  typed (TPtr BlockDetails) (VPtr (blockDetails (Some b) index w)) = true.
Proof.
  intros (Hh & Hi & Ht). cbn -[names_distinct Block_Hash].
  change (names_distinct _) with true. cbn -[Block_Hash]. unfold int_fits. unfold in_i32, in_i64 in *.
  rewrite !andb_true_iff. repeat split; try (apply Z.leb_le; lia); try (apply Z.ltb_lt; lia).
Qed.

Lemma parseChainTxNtfnParams_redeeming t index block w w' : tx_wf t -> TxIns t <> [] -> bufs_ok w -> bufs_ok w' ->
  details_fit block index ->
  parseChainTxNtfnParams w' (JStr (txHexString t w) ::
    match blockDetails block index w with Some d => [Marshal BlockDetails d] | None => [] end) =
  Ok (NewTx t, blockDetails block index w).
Proof.
  intros Ht Hne Hw Hw' Hd. destruct (Deserialize_txHex t w w' Ht Hne Hw Hw') as (b & Hb & Ed).
  unfold parseChainTxNtfnParams. destruct block as [blk|]; cbn [blockDetails].
  - pose proof (Unmarshal_Marshal _ _ (details_typed blk index w Hd)) as Hu.
    change (Marshal (TPtr BlockDetails) (VPtr (blockDetails (Some blk) index w)))
      with (Marshal BlockDetails (VStruct [VInt (Height blk); VStr (string_of_list_byte (Hash_String (Block_Hash w blk).1));
        VInt index; VInt (unix_sec (Timestamp (Header (Block_MsgBlock blk))))])) in Hu.
    rewrite json_string_str. cbn [mbind result_bind]. unfold unmarshal_new. rewrite Hu. cbn [map_err mbind result_bind mret].
    rewrite Hb. cbn [mbind result_bind]. rewrite Ed. reflexivity.
  - rewrite json_string_str. cbn [mbind result_bind mret]. rewrite Hb. cbn [mbind result_bind]. rewrite Ed. reflexivity.
Qed.

Lemma unmarshal_ntfn method params :
  unmarshal_in (request_json (MkRequest RpcVersion1 method (Some params) JNull)) = Some (MkIn None method (Some params) None None).
Proof. reflexivity. Qed.

(** C26: a spent output reaches the caller's handler.  The notification that the
server marshals for a transaction that spends a watched outpoint -- the
transaction in hexadecimal, and its block if it is in one -- makes a client with
the handler set call OnRedeemingTx once, with the same transaction and the same
block details, and changes nothing else. *)
Theorem redeemingtx_end_to_end w w' o1 o2 t index block c h :
  tx_wf t -> TxIns t <> [] -> bufs_ok w -> bufs_ok w' -> details_fit block index ->
  ntfnHandlers c = Some h -> OnRedeemingTx h = true ->
  exists ntfn,
    newRedeemingTxNotification (txHexString t w) index block w = Ok ntfn /\
    handleMessage w' o1 o2 (Ok ntfn) c = add_call (Some (CallRedeemingTx (NewTx t) (blockDetails block index w))) c.
Proof.
  intros Ht Hne Hw Hw' Hd Hh Ho. eexists. split; [apply newRedeemingTxNotification_ok|].
  unfold handleMessage. rewrite unmarshal_ntfn. cbn [in_ID in_Method in_Params].
  rewrite bool_decide_eq_false_2 by discriminate. unfold handleNotification. rewrite Hh. unfold handle_block_ntfn.
  do 5 (rewrite bool_decide_eq_false_2 by discriminate). rewrite bool_decide_eq_true_2 by reflexivity.
  unfold case_of. rewrite Ho. now rewrite parseChainTxNtfnParams_redeeming.
Qed.

Definition all_handlers : NotificationHandlers :=
  MkHandlers true true true true true true true true true true true true true true true true.

Example redeemingtx_end_to_end_witness :
  exists ntfn, newRedeemingTxNotification (txHexString sample_tx used_world) 0 None used_world = Ok ntfn /\
    calls (handleMessage used_world (fun _ => 0) (fun _ => 0) (Ok ntfn) (new_client true true (Some all_handlers))) =
      [CallRedeemingTx (NewTx sample_tx) None].
Proof.
  assert (Ht : tx_wf sample_tx) by decide_now.
  assert (Hw : bufs_ok used_world) by decide_now.
  destruct (redeemingtx_end_to_end used_world used_world (fun _ => 0) (fun _ => 0) sample_tx 0 None
    (new_client true true (Some all_handlers)) all_handlers Ht ltac:(discriminate) Hw Hw I eq_refl eq_refl) as (n & H1 & H2).
  exists n. split; [exact H1|]. rewrite H2. reflexivity.
Defined.

(** ** Authentication *)

(** The server lets in a client with its credentials.  The header that dial
sends first is the one whose digest the server keeps: configured with the
server's user and passphrase a client is the administrator, with the limited
ones the limited user, and with any others it is refused, which dial reports as
ErrInvalidAuth; extra headers of the caller do not change this. *)
Theorem dial_authenticates config creds v k require :
  Pass config <> ""%string -> no_collision creds (User config) (Pass config) ->
  let server := fun d => checkAuth (newRPCServer_auth creds) (omap (fun p => if bool_decide (p.1 = "Authorization"%string) then Some p.2 else None) (d_header d)) require in
  let login := (User config +:+ ":" +:+ Pass config)%string in
  let net := fun d => if (server d).1.1 then Connected else BadHandshake 401 "401 Unauthorized" in
  exists d,
    dial config v net k = (Some d, (if (server d).1.1 then None else Some ErrInvalidAuth), k) /\
    server d = (if is_login (RPCLimitUser creds) (RPCLimitPass creds) login then (true, false, None)
                else if is_login (RPCUser creds) (RPCPass creds) login then (true, true, None)
                else (false, false, Some "auth failure"%string)).
Proof.
  intros Hp (Hz & Ha & Hl) server login net. exists (dial_plan config (User config) (Pass config)). split.
  - unfold dial, getAuth. rewrite bool_decide_eq_false_2 by done. cbn [negb]. unfold net at 1.
    now destruct (server _) as [[[] ?] ?].
  - unfold server, dial_plan. cbn [d_header omap list_omap]. rewrite bool_decide_eq_true_2 by done.
    rewrite checkAuth_header, !decide_bool_decide. cbn [authsha limitauthsha newRPCServer_auth snd].
    now rewrite (digest_of_eq _ _ _ _ Hz Ha), (digest_of_eq _ _ _ _ Hz Hl).
Qed.

Definition guest_config : ConnConfig :=
  MkConnConfig "localhost:8334" "ws" "guest" "pw" "" false [] "" "" "" false false false [("Authorization", "none")]%string.

Example dial_authenticates_witness :
  no_collision sample_credentials "guest" "pw" /\
  exists d, dial guest_config sample_view (fun d => if (checkAuth (newRPCServer_auth sample_credentials)
      (omap (fun p => if bool_decide (p.1 = "Authorization"%string) then Some p.2 else None) (d_header d)) true).1.1
    then Connected else BadHandshake 401 "401 Unauthorized") zero_cookie = (Some d, None, zero_cookie).
Proof.
  assert (H : no_collision sample_credentials "guest" "pw") by (apply no_collision_dec; vm_compute; reflexivity).
  split; [exact H|].
  destruct (dial_authenticates guest_config sample_credentials sample_view zero_cookie true ltac:(discriminate) H) as (d & H1 & H2).
  exists d. cbn zeta in H1, H2. rewrite H2 in H1. exact H1.
Defined.
