(* ===== verification/EndToEnd.v ===== *)
(** * Clients, connections and servers running together

A client of rpcclient with all its goroutines, each connection it dials, and the
goroutines that serve the connection in rpcwebsocket, running side by side: what the
client writes is what the server reads, and what the server writes is what the client
reads.  Whatever a caller receives is the answer to the request it made. *)

From Stdlib Require Import ZArith Lia List.
From Stdlib Require Import Strings.String.
From stdpp Require Import relations.
From S2P Require Import Prelude WireFormat WireCommon JsonTypes AcbcJson AcbcJsonProps AcbcJsonCmds GoFloat RpcAuth RpcServer RpcServerProps.
From S2P Require RpcWebsocket RpcWebsocketProps WsLife RpcClientLife.
From S2P Require Import ChainHash WsAnswers RpcClientNtfn RpcClient RpcClientProps RpcClientApi RpcClientServer.

#[local] Open Scope list_scope.
#[local] Set Warnings "-register-all".

Lemma CmdMethod_nonempty cmd m : CmdMethod the_registry cmd = Ok m -> m <> ""%string.
Proof. apply no_method. vm_compute. reflexivity. Qed.

#[local] Opaque the_registry.

(** ** Requests *)

(** What SendCmd makes of a command, in websocket mode. *)
Definition made (jr : jsonRequest) : Prop :=
  CmdMethod the_registry (j_cmd jr) = Ok (j_method jr) /\
  MarshalCmd the_registry RpcVersion1 (JInt (j_id jr)) (j_cmd jr) = Ok (j_json jr).

(** The request that is read from its text. *)
Definition sent_as (jr : jsonRequest) (req : Request) : Prop :=
  plain req /\ j_json jr = request_json req /\ ID req = JInt (j_id jr).

Lemma MarshalCmd_form reg v id cmd doc m : MarshalCmd reg v id cmd = Ok doc -> CmdMethod reg cmd = Ok m ->
  exists ps, doc = request_json (MkRequest v m (Some ps) id).
Proof.
  unfold MarshalCmd, MarshalCmd_request, CmdMethod, NewRequest. destruct (lookup_method reg cmd) as [m'|]; [|discriminate].
  intros H [= ->]. destruct cmd as [[[| |[| | |name fs]|] u]|]; try discriminate; destruct u as [| | | | |[[]|]| |]; try discriminate.
  destruct (IsValid v), (IsValidIDType id); try discriminate. injection H as <-. eauto.
Qed.

Lemma made_sent_as jr : made jr -> exists req, sent_as jr req /\ Method req = j_method jr.
Proof.
  intros [HM HJ]. destruct (MarshalCmd_form _ _ _ _ _ _ HJ HM) as [ps E].
  exists (MkRequest RpcVersion1 (j_method jr) (Some ps) (JInt (j_id jr))). split; [|done]. split_and!; [|exact E|done].
  split_and!; [exact (CmdMethod_nonempty _ _ HM)|eauto|eauto].
Qed.

(** ** Replies *)

Lemma marshalled_id v id res e j : reply_or_nil (MarshalResponse v id res e) = Some j ->
  exists v res e, j = response_json (AcbcJson.MkResponse v res e (Some id)).
Proof.
  unfold MarshalResponse, NewResponse. destruct (IsValid v), (IsValidIDType id); cbn; try discriminate. intros [= <-]. eauto.
Qed.

Lemma answers_id req reply : answers req reply -> exists v res e, reply = response_json (AcbcJson.MkResponse v res e (Some (ID req))).
Proof.
  unfold answers. rewrite processRequest_eq. cbn [negb andb]. unfold error_reply.
  destruct (is_malformed req); [intros [= H]; eapply marshalled_id, H|]. destruct (is_null (ID req)); [discriminate|].
  destruct (UnmarshalCmd the_registry req) as [cmd|[code desc|]].
  - destruct (standardCmdResult _) as [[res e]|]; [|discriminate]. intros [= H]. eapply marshalled_id, H.
  - destruct code; intros [= H]; eapply marshalled_id, H.
  - intros [= H]. eapply marshalled_id, H.
Qed.

Lemma reply_in_ID v res e id i : 0 <= id < 2 ^ 53 ->
  unmarshal_in (response_json (AcbcJson.MkResponse v res e (Some (JInt id)))) = Some i -> in_ID i = Some (f64_of_Z id).
Proof.
  intros Hid. rewrite unmarshal_response by done. destruct (match e with Some _ => _ | None => _ end); [|discriminate]. now intros [= <-].
Qed.

(** ** What a caller receives *)

(** The client's own errors: the connection was closed, or there is none. *)
Definition own_error (r : Response) : Prop :=
  exists e, r = error_response e /\ (e = ErrClientDisconnect \/ e = ErrClientShutdown \/ e = ErrClientNotConnected).

(** What the client makes of the answer to a request. *)
Definition answered (jr : jsonRequest) (r : Response) : Prop :=
  exists req reply i, sent_as jr req /\ answers req reply /\ unmarshal_in reply = Some i /\
    r = rawResponse_result (in_Result i) (in_Error i).

Definition right (A : list jsonRequest) (p : nat * Response) : Prop :=
  forall jr, jr ∈ A -> j_chan jr = p.1 -> own_error p.2 \/ answered jr p.2.

(** [A] are the requests that the client has made so far. *)
Record client_inv (A : list jsonRequest) (c : Client) : Prop := {
  ci_mode : HTTPPostMode c = false /\ batch c = false;
  ci_id : 0 <= c_id c <= Z.of_nat (next_chan c);
  ci_made : Forall made A;
  ci_ids : NoDup (map j_id A) /\ Forall (fun jr => 0 < j_id jr <= c_id c) A;
  ci_chans : NoDup (map j_chan A) /\ Forall (fun jr => (j_chan jr < next_chan c)%nat) A;
  ci_map id e : requestMap c !! id = Some e -> e_req e ∈ A /\ j_id (e_req e) = id;
  ci_list : Forall (fun e => e_req e ∈ A) (requestList c);
  ci_send : Forall (fun m => m ∈ map j_json A) (sendChan c);
  ci_answers : Forall (fun p => (p.1 < next_chan c)%nat /\ right A p) (responses c) }.

Lemma new_client_inv auto established h : client_inv [] (new_client auto established h).
Proof. constructor; cbn; try done; try (split; [apply NoDup_nil_2|constructor]); constructor. Qed.

(** An operation that only takes requests and messages away. *)
Lemma client_inv_less A c c' : client_inv A c ->
  HTTPPostMode c' = HTTPPostMode c -> batch c' = batch c -> c_id c' = c_id c -> next_chan c' = next_chan c ->
  (forall id e, requestMap c' !! id = Some e -> requestMap c !! id = Some e) ->
  (forall e, e ∈ requestList c' -> e ∈ requestList c) -> (forall m, m ∈ sendChan c' -> m ∈ sendChan c) ->
  responses c' = responses c -> client_inv A c'.
Proof.
  intros [] H1 H2 H3 H4 H5 H6 H7 H8. constructor; rewrite ?H1, ?H2, ?H3, ?H4, ?H8; auto; apply Forall_forall;
    [intros e He; apply H6 in He|intros m Hm; apply H7 in Hm]; revert e He || revert m Hm; now apply Forall_forall.
Qed.

#[local] Ltac less H := eapply client_inv_less; [exact H|..]; cbn; try done; auto; set_solver.

(** Answers to requests that were made. *)
Lemma client_inv_answers A c R : client_inv A c ->
  Forall (fun p => (p.1 < next_chan c)%nat /\ right A p) R -> client_inv A (with_responses (responses c ++ R) c).
Proof. intros [] H. constructor; cbn; auto. apply Forall_app. auto. Qed.

Lemma right_request A c jr r : client_inv A c -> jr ∈ A -> own_error r \/ answered jr r ->
  (j_chan jr < next_chan c)%nat /\ right A (j_chan jr, r).
Proof.
  intros [] HI HR. destruct ci_chans0 as [HN HL]. rewrite Forall_forall in HL. split; [now apply HL|].
  intros jr' HI' E. cbn in *. replace jr' with jr; [done|]. apply list_elem_of_lookup in HI as [i Hi], HI' as [j Hj].
  assert (i = j) as ->; [|congruence].
  apply (NoDup_lookup (map j_chan A) i j (j_chan jr)); [done|rewrite list_lookup_fmap, Hi; done|rewrite list_lookup_fmap, Hj; cbn; congruence].
Qed.

Lemma fail_all_inv A e c : client_inv A c -> own_error (error_response e) -> client_inv A (fail_all e c).
Proof.
  intros HC HE. rewrite fail_all_eq. apply client_inv_answers; [done|]. unfold tracked. rewrite !Forall_map.
  eapply Forall_impl; [exact (ci_list _ _ HC)|]. cbn. intros el Hel. apply right_request; auto.
Qed.

Lemma deliver_inv A c jr r : client_inv A c -> jr ∈ A -> own_error r \/ answered jr r -> client_inv A (deliver (j_chan jr) r c).
Proof.
  intros HC HI HR. apply (client_inv_answers A c [(j_chan jr, r)] HC). constructor; [now apply right_request|constructor].
Qed.

(** From 2^53 on two ids are read as one. *)
Lemma ids_meet other : to_uint64 other (f64_of_Z (2 ^ 53 + 1)) = 2 ^ 53.
Proof. vm_compute. reflexivity. Qed.

(** ** The operations of the client *)

(** A new channel, which no request has. *)
Lemma new_chan_inv A c r : client_inv A c ->
  client_inv A (deliver (next_chan c) r (make_chan c).2).
Proof.
  intros [? ? ? ? [HN HC] ? ? ? HR]. constructor; cbn; auto; [lia|split; [done|]|].
  - eapply Forall_impl; [exact HC|]. cbn. lia.
  - apply Forall_app. split; [eapply Forall_impl; [exact HR|]; cbn; intros ? []; auto|]. constructor; [|constructor]. cbn. split; [lia|].
    intros jr HI E. rewrite Forall_forall in HC. specialize (HC jr HI). cbn in E. lia.
Qed.

Lemma SendCmd_inv A c cmd ch jr c' : client_inv A c -> SendCmd_request the_registry cmd c = (ch, jr, c') ->
  Z.of_nat (next_chan c') < 2 ^ 53 -> client_inv (A ++ option_list jr) c'.
Proof.
  intros HC H HL. unfold SendCmd_request in H. destruct (ci_mode _ _ HC) as [Hm Hb]. rewrite Hb in H.
  destruct (CmdMethod the_registry cmd) as [method|e] eqn:EM; cbn [NextID make_chan] in H.
  2: { unfold newFutureError in H. cbn in H. injection H as <- <- <-. rewrite app_nil_r. now apply new_chan_inv. }
  assert (EN : next_chan c' = S (next_chan c)) by (destruct (MarshalCmd _ _ _ _); [|unfold newFutureError in H; cbn in H]; now inv H).
  pose proof (ci_id _ _ HC) as HI. rewrite u64_small in H by (unfold in_u64; lia).
  assert (HS : client_inv A (make_chan (set_id (c_id c + 1) c)).2).
  { destruct HC as [? ? ? [HN HD] [HN' HD'] ? ? ? HR]. constructor; cbn; auto; try lia.
    - split; [done|]. eapply Forall_impl; [exact HD|]. cbn. lia.
    - split; [done|]. eapply Forall_impl; [exact HD'|]. cbn. lia.
    - eapply Forall_impl; [exact HR|]. cbn. intros ? []. split; [lia|done]. }
  destruct (MarshalCmd _ _ _ _) as [doc|e] eqn:ED.
  - injection H as <- <- <-. cbn [option_list option_rect].
    destruct HS as [S1 S2 S3 S4 S5 S6 S7 S8 S9]. clear S4 S5.
    destruct HC as [? ? ? [HN HD] [HN' HD'] ? ? ? HR]. rewrite Forall_forall in HD, HD'. constructor; cbn in *; auto.
    + apply Forall_app. split; [done|]. constructor; [|constructor]. split; [exact EM|exact ED].
    + rewrite map_app, Forall_app. split; [apply NoDup_app; split_and!; [done| |apply NoDup_singleton]|split].
      * intros x Hx ->%list_elem_of_singleton. apply list_elem_of_fmap in Hx as (jr & E & Hjr). specialize (HD jr Hjr). cbn in E. lia.
      * apply Forall_forall. intros jr Hjr. specialize (HD jr Hjr). lia.
      * constructor; [cbn; lia|constructor].
    + rewrite map_app, Forall_app. split; [apply NoDup_app; split_and!; [done| |apply NoDup_singleton]|split].
      * intros x Hx ->%list_elem_of_singleton. apply list_elem_of_fmap in Hx as (jr & E & Hjr). specialize (HD' jr Hjr). cbn in E. lia.
      * apply Forall_forall. intros jr Hjr. specialize (HD' jr Hjr). lia.
      * constructor; [cbn; lia|constructor].
    + intros id e He. rewrite elem_of_app. destruct (S6 id e He). auto.
    + eapply Forall_impl; [exact S7|]. intros e He. rewrite elem_of_app. auto.
    + eapply Forall_impl; [exact S8|]. intros m Hx. rewrite map_app, elem_of_app. auto.
    + apply Forall_forall. intros p Hp. rewrite Forall_forall in HR. destruct (HR p Hp) as [H1 H2]. split; [lia|].
      intros jr [Hjr|Hjr]%elem_of_app E; [now apply H2|]. apply list_elem_of_singleton in Hjr as ->. cbn in E. lia.
  - unfold newFutureError in H. cbn [make_chan] in H. injection H as <- <- <-. cbn [option_list option_rect]. rewrite app_nil_r.
    apply (client_inv_answers A _ [(next_chan c, error_response (CCmd e))] HS). constructor; [|constructor]. cbn. split; [lia|].
    intros jr HJ E. destruct (ci_chans _ _ HC) as [_ HD]. rewrite Forall_forall in HD. specialize (HD jr HJ). cbn in E. lia.
Qed.

Lemma sendRequest_inv A c jr m c' : client_inv A c -> jr ∈ A -> sendRequest jr c = (m, c') ->
  client_inv A c' /\ (m = None \/ m = Some (j_json jr)).
Proof.
  intros HC HI H. destruct (ci_mode _ _ HC) as [Hm Hb]. unfold sendRequest, addRequest in H. rewrite Hm in H.
  assert (HE : forall e, e = ErrClientShutdown \/ e = ErrClientNotConnected -> client_inv A (deliver (j_chan jr) (error_response e) c)).
  { intros e He. apply deliver_inv; [done|done|]. left. exists e. tauto. }
  destruct (connEstablished c); cbn in H; [destruct (shutdown c); injection H as <- <-; (split; [|auto]); auto|injection H as <- <-; auto].
  destruct HC as [? ? ? ? ? HM HL ? ?]. unfold push_request. rewrite Hb. constructor; cbn; rewrite ?Hb; auto.
  - intros id e. destruct (decide (id = j_id jr)) as [->|Hne]; [rewrite lookup_insert_eq; intros [= <-]; cbn; auto|].
    rewrite lookup_insert_ne by done. apply HM.
  - apply Forall_app. split; [done|]. constructor; [exact HI|constructor].
Qed.

Lemma doDisconnect_inv A c b c' : client_inv A c -> doDisconnect c = (b, c') -> client_inv A c'.
Proof. intros HC H. unfold doDisconnect in H. repeat case_match; inv H; [done|done|]. less HC. Qed.

Lemma finish_inv A c : client_inv A c -> client_inv A (finish_disconnect c).
Proof.
  intros HC. unfold finish_disconnect, doShutdown. destruct (DisableAutoReconnect c); [|done].
  assert (HF := fail_all_inv A ErrClientDisconnect c HC ltac:(eexists; eauto)).
  destruct (shutdown _); cbn [snd]; less HF.
Qed.

Lemma Shutdown_inv A c : client_inv A c -> client_inv A (Shutdown c).
Proof.
  intros HC. unfold Shutdown, doShutdown. destruct (shutdown c); [done|].
  assert (HF : client_inv A (fail_all ErrClientShutdown (set_conn (disconnected c) true c))).
  { apply fail_all_inv; [less HC|eexists; eauto]. }
  destruct (doDisconnect _) as [b c'] eqn:E. cbn [snd]. eapply doDisconnect_inv; [|exact E].
  less HF.
Qed.

Lemma resend_inv A c again ignored c' : client_inv A c -> resendRequests c = (again, ignored, c') ->
  client_inv A c' /\ Forall (fun m => m ∈ map j_json A) (map j_json again).
Proof.
  intros HC H. unfold resendRequests in H. injection H as <- <- <-. split.
  - eapply client_inv_less; [exact HC|..]; try done; cbn.
    + intros id e. rewrite lookup_deletes. now case_decide.
    + intros e He. now apply list_elem_of_In, filter_In in He as [He%list_elem_of_In _].
  - rewrite !Forall_map. apply Forall_forall. intros e He. apply list_elem_of_In, filter_In in He as [He%list_elem_of_In _].
    pose proof (ci_list _ _ HC) as HL. rewrite Forall_forall in HL. apply list_elem_of_fmap_2. now apply HL.
Qed.

(** ** A message from the server *)

(** What the manager queues: a request without an id. *)
Definition ntfn_message (m : list RpcServer.chunk) : Prop :=
  exists method ps, m = [RpcServer.CJson (request_json (MkRequest RpcVersion1 method (Some ps) JNull))].

(** The text of a message, as json.Unmarshal reads it into an inMessage. *)
Definition received (m : list RpcServer.chunk) : result string json :=
  match m with [RpcServer.CJson j] => Ok j | _ => Err "not a JSON object"%string end.

Definition requests (A : list jsonRequest) (req : Request) : Prop := exists jr, jr ∈ A /\ sent_as jr req.

Lemma requests_plain A req : requests A req -> plain req.
Proof. now intros (jr & _ & H & _). Qed.

(** What the client makes of the answers. *)
Lemma sent_as_getblockhash jr req index : made jr -> sent_as jr req -> j_cmd jr = cmd_of GetBlockHashCmd (NewGetBlockHashCmd index) ->
  req = getblockhash_request index (j_id jr).
Proof.
  intros [_ HM] (HP & EJ & _) EC. rewrite EC, MarshalCmd_getblockhash in HM. injection HM as HM. rewrite EJ in HM.
  assert (E := f_equal UnmarshalRequest HM). rewrite UnmarshalRequest_getblockhash, plain_read in E by done. congruence.
Qed.

Lemma answered_getblockhash jr r index : made jr -> answered jr r -> in_i64 index -> 0 <= j_id jr < 2 ^ 53 ->
  j_cmd jr = cmd_of GetBlockHashCmd (NewGetBlockHashCmd index) ->
  0 <= index /\ r = MkResponse (Some (JStr (padded_decimal index))) None.
Proof.
  intros HM (req & reply & i & HS & HA & HU & ->) HI HJ EC. apply (sent_as_getblockhash _ _ index HM) in HS as ->; [|done].
  unfold answers, getblockhash_request in HA. rewrite processRequest_getblockhash in HA by done. destruct (Z.ltb_spec index 0); [discriminate|].
  split; [done|]. assert (reply = reply_json (JStr (padded_decimal index)) (j_id jr)) as -> by (symmetry; now injection HA).
  rewrite unmarshal_reply in HU by done. injection HU as <-. reflexivity.
Qed.

(** An error that is marshalled is read as it was. *)
Lemma rpc_error_read e : in_i64 (Code e) -> unmarshal_rpc_error None (error_json e) = Ok (Some e).
Proof.
  intros HC. destruct e as [c m]. unfold error_json. cbn [Code Message] in *.
  destruct (Z.eqb_spec c 0) as [->|Hc], (decide (m = ""%string)) as [->|Hm]; cbn; try reflexivity.
  all: replace ((- 2 ^ (64 - 1) <=? c) && (c <? 2 ^ (64 - 1))) with true; [reflexivity|].
  all: symmetry; unfold in_i64 in HC; apply andb_true_iff; rewrite Z.leb_le, Z.ltb_lt; lia.
Qed.

Lemma answered_error jr r req e : sent_as jr req -> 0 <= j_id jr < 2 ^ 53 -> in_i64 (Code e) -> processRequest req true = Ok (error_reply req e) ->
  answered jr r -> r = MkResponse None (Some (CRpc e)).
Proof.
  intros (HP & EJ & EI) HJ HC HR (req' & reply & i & (HP' & EJ' & _) & HA & HU & ->).
  assert (req' = req) as -> by (rewrite EJ' in EJ; apply (f_equal UnmarshalRequest) in EJ; rewrite !plain_read in EJ by done; congruence).
  unfold answers in HA. rewrite HR in HA. injection HA as HA. unfold error_reply, MarshalResponse, NewResponse in HA.
  destruct (IsValid _), (IsValidIDType _); try discriminate. cbn in HA. injection HA as <-. rewrite EI in HU.
  rewrite unmarshal_response, rpc_error_read in HU by done. injection HU as <-. reflexivity.
Qed.

(** A method without a handler. *)
Lemma processRequest_other req : plain req -> Method req <> "getblockhash"%string ->
  exists e, processRequest req true = Ok (error_reply req e) /\ (e = ErrRPCMethodNotFound \/ Code e = -32602).
Proof.
  intros HP HM. destruct (plain_well_formed _ HP) as [H1 H2]. rewrite processRequest_eq, H1, H2. cbn [negb andb].
  destruct (UnmarshalCmd the_registry req) as [[t v]|[code desc|]] eqn:EU.
  - rewrite (standardCmdResult_other _ _ _ _ _ t (RpcWebsocketProps.UnmarshalCmd_type _ _ _ EU) HM). exists ErrRPCMethodNotFound. auto.
  - destruct code; eexists; (split; [reflexivity|]); auto.
  - eexists; (split; [reflexivity|]); auto.
Qed.

Lemma answered_other jr r : made jr -> answered jr r -> 0 <= j_id jr < 2 ^ 53 -> j_method jr <> "getblockhash"%string ->
  exists e, r = MkResponse None (Some (CRpc e)) /\ (e = ErrRPCMethodNotFound \/ Code e = -32602).
Proof.
  intros HM HA HJ HN. destruct (made_sent_as _ HM) as (req & HS & EM). rewrite <- EM in HN.
  destruct (processRequest_other _ (proj1 HS) HN) as (e & HE & HC). exists e. split; [|done].
  eapply answered_error; try eassumption. unfold in_i64. destruct HC as [-> | ->]; cbn; lia.
Qed.

Section messages.
Context (w : world) (other_uint64 other_int64 : float64 -> Z).

Lemma handleMessage_inv A c m : client_inv A c -> c_id c < 2 ^ 53 -> owed ntfn_message (requests A) m ->
  client_inv A (handleMessage w other_uint64 other_int64 (received m) c).
Proof.
  intros HC HL [(method & ps & ->)|(req & reply & (jr & HI & HS) & HA & ->)]; cbn [received].
  - unfold handleMessage. rewrite unmarshal_ntfn. cbn [in_ID in_Method in_Params]. destruct (bool_decide _); [done|]. less HC.
  - pose proof HS as (_ & _ & EI). destruct (answers_id _ _ HA) as (v & res & e & ER). rewrite EI in ER.
    unfold handleMessage. destruct (unmarshal_in reply) as [i|] eqn:EU; [|done].
    destruct (ci_ids _ _ HC) as [HN HB]. rewrite Forall_forall in HB. specialize (HB jr HI) as Hid.
    assert (HJ : 0 <= j_id jr < 2 ^ 53) by lia. assert (EID : in_ID i = Some (f64_of_Z (j_id jr))) by (rewrite ER in EU; eapply reply_in_ID; eassumption).
    rewrite EID. destruct (_ || _); [done|]. rewrite to_uint64_id by done. unfold removeRequest.
    destruct (requestMap c !! j_id jr) as [el|] eqn:EM; [|done].
    destruct (ci_map _ _ HC _ _ EM) as [H1 H2].
    assert (e_req el = jr) as ->.
    { apply list_elem_of_lookup in HI as [a Ha], H1 as [b Hb].
      assert (a = b) as ->; [|congruence].
      apply (NoDup_lookup (map j_id A) a b (j_id jr)); [done|rewrite list_lookup_fmap, Ha; done|rewrite list_lookup_fmap, Hb; cbn; congruence]. }
    apply deliver_inv; [|done|].
    + set (c1 := set_requests _ _ _). assert (H1' : client_inv A c1).
      { eapply client_inv_less; [exact HC|..]; cbn; try done.
        - intros id el'. rewrite lookup_delete_Some. tauto.
        - unfold list_Remove. destruct (e_batch el); [done|]. intros el' He. now apply list_elem_of_In, filter_In in He as [He%list_elem_of_In _]. }
      unfold trackRegisteredNtfns. destruct (ntfnHandlers c1); [less H1'|done].
    + right. exists req, reply, i. split_and!; [done|done|congruence|done].
Qed.
End messages.

(** ** The whole system *)

(** A connection: what the client wrote to it and the server did not read yet, the
goroutines that serve it, and how many of the messages they wrote the client has read. *)
Record link := MkLink { up : list json; server : WsLife.conn_life; taken : nat }.

(** The client with its goroutines, its connections by their numbers, and the requests
that it made. *)
Record whole := MkWhole { client : RpcClientLife.life; links : list link; asked : list jsonRequest }.

Definition with_client (s : RpcClientLife.life) (x : whole) : whole := MkWhole s (links x) (asked x).
Definition with_link (n : nat) (l : link) (x : whole) : whole := MkWhole (client x) (<[n := l]> (links x)) (asked x).
Definition with_server (c : WsLife.conn_life) (l : link) : link := MkLink (up l) c (taken l).

Section whole.
Context (w : world) (other_uint64 other_int64 : float64 -> Z).
Context (order : gset (string * Z) -> list (string * Z)) (order' : gset string -> list string).
(** The server's credentials, and who the client is to it. *)
Context (auth : auth_state) (adm : bool).

#[local] Abbreviation client_goes := (RpcClientLife.goes w other_uint64 other_int64 order order').

(** What the server has for a connection whose dial it let in. *)
Definition fresh_link (l : link) : Prop :=
  exists random cap c, RpcWebsocket.newWebsocketClient random cap true adm = Ok c /\ l = MkLink [] (WsLife.Start c) 0.

Inductive whole_step : whole -> whole -> Prop :=
  (* the goroutines of the client *)
  | client_own x p rest ps s1 : RpcClientLife.gs (client x) ≡ₚ p :: rest -> client_goes (client x) p ps s1 ->
      whole_step x (with_client (RpcClientLife.with_gs (ps ++ rest) s1) x)
  | client_read x n rest l r : RpcClientLife.gs (client x) ≡ₚ RpcClientLife.In_read n :: rest -> n ∉ RpcClientLife.closed (client x) ->
      links x !! n = Some l -> WsLife.written (server l) !! taken l = Some r ->
      whole_step x (with_client (RpcClientLife.with_gs (RpcClientLife.In_handle (received (WsLife.r_msg r)) :: rest) (client x))
        (with_link n (MkLink (up l) (server l) (S (taken l))) x))
  | client_write x n m rest l : RpcClientLife.gs (client x) ≡ₚ RpcClientLife.Out_write n m :: rest -> n ∉ RpcClientLife.closed (client x) ->
      links x !! n = Some l ->
      whole_step x (with_client (RpcClientLife.with_gs (RpcClientLife.Out_top :: rest) (client x))
        (with_link n (MkLink (up l ++ [m]) (server l) (taken l)) x))
  | client_rc x s1 r r' new : RpcClientLife.rc (client x) = Some r -> RpcClientLife.rc_goes (client x) r new r' s1 ->
      RpcClientLife.conns s1 = RpcClientLife.conns (client x) ->
      whole_step x (with_client (RpcClientLife.with_rc (Some r') (RpcClientLife.with_gs (new ++ RpcClientLife.gs (client x)) s1)) x)
  | client_dialed x s1 r r' new l : RpcClientLife.rc (client x) = Some r -> RpcClientLife.rc_goes (client x) r new r' s1 ->
      RpcClientLife.conns s1 = S (RpcClientLife.conns (client x)) -> fresh_link l ->
      whole_step x (MkWhole (RpcClientLife.with_rc (Some r') (RpcClientLife.with_gs (new ++ RpcClientLife.gs (client x)) s1))
        (links x ++ [l]) (asked x))
  (* its callers *)
  | client_cmd x cmd ch jr c' : SendCmd_request the_registry cmd (RpcClientLife.lc (client x)) = (ch, jr, c') ->
      let b := RpcClientLife.base (client x) in
      whole_step x (MkWhole
        (RpcClientLife.with_base (MkSystem c' (in_flight b ++ option_list jr) (sending b) (disconnecting b) (forgotten b)) (client x))
        (links x) (asked x ++ option_list jr))
  | client_user x b : RpcClientLife.user_step (RpcClientLife.base (client x)) b ->
      (forall jr, jr ∈ in_flight b -> jr ∈ in_flight (RpcClientLife.base (client x))) ->
      whole_step x (with_client (RpcClientLife.with_base b (client x)) x)
  | client_fail x n : (n < RpcClientLife.conns (client x))%nat ->
      let s := client x in
      whole_step x (with_client (RpcClientLife.MkLife (RpcClientLife.base s) (RpcClientLife.wsConn s) (RpcClientLife.conns s)
        (RpcClientLife.closed s) ({[n]} ∪ RpcClientLife.failed s) (RpcClientLife.disc s) (RpcClientLife.closed_discs s)
        (RpcClientLife.gs s) (RpcClientLife.rc s) (RpcClientLife.wg s)) x)
  | client_disconnect x : whole_step x (with_client (RpcClientLife.with_gs
      (RpcClientLife.Dis_first RpcClientLife.ThenReturn :: RpcClientLife.gs (client x)) (client x)) x)
  | client_shutdown x : whole_step x (with_client (RpcClientLife.shutdown_call (client x)) x)
  (* the goroutines of the server *)
  | server_go x n l c' : links x !! n = Some l -> WsLife.live_step auth (server l) c' -> ~ WsLife.reads (server l) c' ->
      whole_step x (with_link n (with_server c' l) x)
  | server_read x n l m rest : links x !! n = Some l -> up l = m :: rest -> WsLife.crashed (server l) = false ->
      WsLife.inp (server l) = WsLife.In_read -> WsLife.Disconnected (server l) = false ->
      whole_step x (with_link n (MkLink rest (WsLife.with_inp (WsLife.In_got (SingleBody (Ok m))) (server l)) (taken l)) x)
  | server_break x n l : links x !! n = Some l -> WsLife.crashed (server l) = false ->
      whole_step x (with_link n (with_server (WsLife.break_conn (server l)) l) x)
  | server_disconnect x n l : links x !! n = Some l -> WsLife.crashed (server l) = false ->
      whole_step x (with_link n (with_server (WsLife.disconnect (server l)) l) x)
  | server_notify x n l m : links x !! n = Some l -> WsLife.crashed (server l) = false -> WsLife.caller (server l) = None ->
      ntfn_message m -> whole_step x (with_link n (with_server (WsLife.QueueNotification_check m (server l)) l) x).

(** New in websocket mode, connected. *)
Definition whole_init (auto_disabled : bool) (h : option NotificationHandlers) (l : link) : whole :=
  MkWhole (RpcClientLife.New_life auto_disabled h) [l] [].

(** ** The parts *)

Lemma life_rc s s1 r r' new : RpcClientLife.rc s = Some r -> RpcClientLife.rc_goes s r new r' s1 ->
  RpcClientLife.life_step w other_uint64 other_int64 order order' s
    (RpcClientLife.with_rc (Some r') (RpcClientLife.with_gs (new ++ RpcClientLife.gs s) s1)).
Proof.
  intros H1 H2. assert (D : {r = RpcClientLife.Rc_dial} + {r <> RpcClientLife.Rc_dial}) by (destruct r; (now left) || (right; discriminate)).
  destruct D as [->|D]; [eapply RpcClientLife.life_network, RpcClientLife.net_dial|eapply RpcClientLife.life_own, RpcClientLife.own_rc]; eassumption.
Qed.

Lemma whole_life x x' : whole_step x x' -> client x' = client x \/
  RpcClientLife.life_step w other_uint64 other_int64 order order' (client x) (client x').
Proof.
  intros H. destruct H; cbn [client with_client with_link]; [..|now left|now left|now left|now left|now left]; right.
  - eapply RpcClientLife.life_own, RpcClientLife.own_go; eassumption.
  - eapply RpcClientLife.life_network, (RpcClientLife.net_pass _ _ _ _ H). now constructor.
  - eapply RpcClientLife.life_network, (RpcClientLife.net_pass _ _ _ _ H). now constructor.
  - eapply life_rc; eassumption.
  - eapply life_rc; eassumption.
  - eapply RpcClientLife.life_user, RpcClientLife.user_cmd, H.
  - now apply RpcClientLife.life_user.
  - now apply RpcClientLife.life_fail.
  - apply RpcClientLife.life_disconnect.
  - apply RpcClientLife.life_shutdown.
Qed.

Lemma whole_serves x x' n l' : whole_step x x' -> links x' !! n = Some l' -> fresh_link l' \/
  exists l, links x !! n = Some l /\ rtc (WsLife.conn_step auth) (server l) (server l').
Proof.
  intros H. assert (HU : forall k l l1, links x !! k = Some l -> rtc (WsLife.conn_step auth) (server l) (server l1) ->
    <[k := l1]> (links x) !! n = Some l' -> fresh_link l' \/ exists l, links x !! n = Some l /\ rtc (WsLife.conn_step auth) (server l) (server l')).
  { intros k l l1 HL HR [(-> & -> & _)|[_ E]]%list_lookup_insert_Some; right; [now exists l|exists l'; split; [exact E|reflexivity]]. }
  destruct H; cbn [links with_client with_link with_server]; try (intros E; right; eexists; split; [exact E|reflexivity]);
    try (eapply HU; [eassumption|]; cbn [server]; try reflexivity; apply rtc_once; try now constructor).
  - intros [E|[_ E]]%lookup_app_Some; [right; exists l'; split; [exact E|reflexivity]|left]. now apply list_lookup_singleton_Some in E as [_ <-].
  - apply WsLife.conn_own. split; [done|]. now apply WsLife.in_message.
Qed.

(** ** The invariant *)

Definition heard (A : list jsonRequest) (msg : result string json) : Prop :=
  exists m, owed ntfn_message (requests A) m /\ msg = received m.

Definition routine_ok (A : list jsonRequest) (p : RpcClientLife.goroutine) : Prop :=
  match p with
  | RpcClientLife.In_handle msg => heard A msg
  | RpcClientLife.Out_got m | RpcClientLife.Out_write _ m => m ∈ map j_json A
  | RpcClientLife.Rs_loop l => Forall (fun m => m ∈ map j_json A) l
  | RpcClientLife.Rs_send _ m l => m ∈ map j_json A /\ Forall (fun m => m ∈ map j_json A) l
  | _ => True
  end.

Definition link_ok (A : list jsonRequest) (l : link) : Prop :=
  Forall (fun m => m ∈ map j_json A) (up l) /\ carries adm ntfn_message (requests A) (server l).

(** The client between its goroutines. *)
Record base_ok (A : list jsonRequest) (b : system) : Prop := {
  bo_client : client_inv A (cl b);
  bo_flight : Forall (fun jr => jr ∈ A) (in_flight b);
  bo_sending : Forall (fun m => m ∈ map j_json A) (sending b) }.

Record whole_ok (x : whole) : Prop := {
  wo_base : base_ok (asked x) (RpcClientLife.base (client x));
  wo_gs : Forall (routine_ok (asked x)) (RpcClientLife.gs (client x));
  wo_links : Forall (link_ok (asked x)) (links x) }.

Lemma fresh_link_ok A l : fresh_link l -> link_ok A l.
Proof.
  intros (random & cap & c & H & ->). unfold RpcWebsocket.newWebsocketClient in H. destruct random; [|discriminate]. injection H as <-.
  split; [constructor|]. now apply Start_carries.
Qed.

Lemma whole_init_ok auto_disabled h l : fresh_link l -> whole_ok (whole_init auto_disabled h l).
Proof.
  intros HL. unfold whole_init, RpcClientLife.New_life. constructor; cbn.
  - destruct auto_disabled; (constructor; cbn; [apply new_client_inv|constructor|constructor]).
  - destruct auto_disabled; repeat constructor.
  - constructor; [now apply fresh_link_ok|constructor].
Qed.

(** A new request takes nothing away. *)
Lemma requests_mono A A' : (forall jr, jr ∈ A -> jr ∈ A') -> forall req, requests A req -> requests A' req.
Proof. intros H req (jr & HI & HS). exists jr. auto. Qed.

Lemma routine_ok_mono A A' p : (forall jr, jr ∈ A -> jr ∈ A') -> routine_ok A p -> routine_ok A' p.
Proof.
  intros H. assert (HJ : forall m, m ∈ map j_json A -> m ∈ map j_json A').
  { intros m Hm. apply list_elem_of_fmap in Hm as (jr & -> & Hm). apply list_elem_of_fmap_2. auto. }
  assert (HF : forall l, Forall (fun m => m ∈ map j_json A) l -> Forall (fun m => m ∈ map j_json A') l).
  { intros l HF. eapply Forall_impl; [exact HF|]. auto. }
  destruct p; cbn; auto; [|intros []; auto]. intros (m & Hm & ->). exists m. split; [|done].
  eapply owed_mono; [|exact Hm]. now apply requests_mono.
Qed.

Lemma link_ok_mono A A' l : (forall jr, jr ∈ A -> jr ∈ A') -> link_ok A l -> link_ok A' l.
Proof.
  intros H [H1 H2]. split; [|eapply carries_mono; [|exact H2]; now apply requests_mono].
  eapply Forall_impl; [exact H1|]. intros m Hm. apply list_elem_of_fmap in Hm as (jr & -> & Hm). apply list_elem_of_fmap_2. auto.
Qed.

(** *** The goroutines of the client *)

Lemma close_conn_base s : RpcClientLife.base (RpcClientLife.close_conn s) = RpcClientLife.base s.
Proof. done. Qed.

Lemma routine_goes_ok A s p ps s1 : client_goes s p ps s1 -> base_ok A (RpcClientLife.base s) -> routine_ok A p ->
  Z.of_nat (next_chan (RpcClientLife.lc s)) < 2 ^ 53 ->
  base_ok A (RpcClientLife.base s1) /\ Forall (routine_ok A) ps /\ RpcClientLife.gs s1 = RpcClientLife.gs s.
Proof.
  intros H HB HP HL. pose proof HB as [HC HF HS]. unfold RpcClientLife.lc in *.
  pose proof (ci_id _ _ HC) as HI.
  assert (HK : forall c, client_inv A c -> base_ok A (RpcClientLife.base (RpcClientLife.with_cl c s))) by (intros c Hc; now constructor).
  destruct H; cbn in HP; unfold RpcClientLife.lc in *;
    try (split_and!; [exact HB| |done]; try destruct k; repeat constructor; done).
  all: pose proof (ci_send _ _ HC) as HM; split_and!; try done.
  - destruct HP as (m & Hm & ->). apply HK, handleMessage_inv; [done|lia|done].
  - repeat constructor.
  - apply HK. eapply client_inv_less; [exact HC|..]; cbn; auto. intros x Hx. rewrite H. now right.
  - rewrite H in HM. apply Forall_cons in HM as [HM _]. now repeat constructor.
  - apply HK. eapply client_inv_less; [exact HC|..]; cbn; auto. intros x Hx. now apply elem_of_nil in Hx.
  - repeat constructor.
  - apply (HK c'). exact (doDisconnect_inv _ _ _ _ HC H).
  - repeat constructor.
  - now apply HK, finish_inv.
  - destruct k; repeat constructor.
  - destruct (resend_inv _ _ _ _ _ HC H) as [H1 H2]. now constructor.
  - destruct (resend_inv _ _ _ _ _ HC H) as [H1 H2]. now repeat constructor.
  - unfold RpcClientLife.resend_turn. destruct l as [|m l]; [constructor|]. apply Forall_cons in HP as [P1 P2].
    destruct (Disconnected _); now repeat constructor.
  - destruct HP as [P1 P2]. apply HK. destruct HC. constructor; cbn; auto. apply Forall_app. split; [done|]. now repeat constructor.
  - destruct HP. now repeat constructor.
  - destruct HP. now repeat constructor.
Qed.

Lemma reconnect_goes_ok A s r new r' s1 : RpcClientLife.rc_goes s r new r' s1 -> base_ok A (RpcClientLife.base s) ->
  base_ok A (RpcClientLife.base s1) /\ Forall (routine_ok A) new.
Proof.
  intros H HB. destruct H; (split; [|repeat constructor]); try exact HB.
  destruct HB as [HC HF HS]. constructor; [|exact HF|exact HS]. destruct HC; constructor; cbn; auto.
Qed.

Lemma user_ok A b b' : RpcClientLife.user_step b b' -> (forall jr, jr ∈ in_flight b' -> jr ∈ in_flight b) ->
  Z.of_nat (next_chan (cl b')) < 2 ^ 53 -> base_ok A b -> base_ok A b'.
Proof.
  intros H HN HL [HC HF HS]. assert (HF' : Forall (fun jr => jr ∈ A) (in_flight b')).
  { apply Forall_forall. intros jr Hjr%HN. revert jr Hjr. now apply Forall_forall. }
  destruct H; cbn [cl in_flight sending] in *.
  - pose proof (SendCmd_inv _ _ _ _ _ _ HC H HL) as HI.
    assert (jr = None) as ->; [|cbn in HI; rewrite app_nil_r in HI; now constructor]. destruct jr as [jr|]; [exfalso|done].
    specialize (HN jr ltac:(rewrite elem_of_app; right; left)). rewrite Forall_forall in HF. specialize (HF jr HN).
    destruct (ci_ids _ _ HI) as [ND _]. rewrite map_app in ND. apply NoDup_app in ND as (_ & ND & _).
    apply (ND (j_id jr)); [now apply list_elem_of_fmap_2|left].
  - constructor; [|exact HF|exact HS]. now apply new_chan_inv.
  - constructor; [|exact HF|exact HS]. now apply new_chan_inv.
  - assert (HJ : jr ∈ A). { rewrite Forall_forall in HF. apply HF. rewrite H. left. }
    destruct (sendRequest_inv _ _ _ _ _ HC HJ H0) as [H1 H2]. constructor; [done|done|]. cbn. apply Forall_app. split; [done|].
    destruct H2 as [-> | ->]; repeat constructor. now apply list_elem_of_fmap_2.
  - rewrite H in HS. apply Forall_app in HS as [HS1 HS2]. apply Forall_cons in HS2 as [HM HS2].
    constructor; [|done|now apply Forall_app]. destruct drop; [done|]. destruct HC. constructor; cbn; auto.
    apply Forall_app. split; [done|]. now repeat constructor.
Qed.

Lemma links_insert A ls n l : Forall (link_ok A) ls -> link_ok A l -> Forall (link_ok A) (<[n := l]> ls).
Proof. intros H1 H2. now apply Forall_insert. Qed.

(** Channels are only made. *)
Lemma goes_chans s p ps s1 : client_goes s p ps s1 -> next_chan (RpcClientLife.lc s1) = next_chan (RpcClientLife.lc s).
Proof.
  intros H. destruct H; cbn; try done.
  - apply RpcClientLife.calm_handleMessage.
  - now destruct (RpcClientLife.calm_doDisconnect _ _ _ H) as [[E _] _].
  - now destruct (RpcClientLife.calm_finish (RpcClientLife.lc s)) as [[E _] _].
  - unfold resendRequests in H. now injection H as <- <- <-.
Qed.

Lemma whole_chans x x' : whole_step x x' ->
  (next_chan (RpcClientLife.lc (client x)) <= next_chan (RpcClientLife.lc (client x')))%nat.
Proof.
  intros H. destruct H; cbn [client with_client with_link]; try done.
  - apply goes_chans in H0. unfold RpcClientLife.lc in *. cbn in *. lia.
  - destruct H0; done.
  - destruct H0; done.
  - exact (step_chans _ w other_uint64 other_int64 _ _ (step_cmd _ _ _ _ _ _ _ _ _ H)).
  - assert (HC : client_step the_registry w other_uint64 other_int64 (RpcClientLife.base (client x)) b) by
      (destruct H; [eapply step_cmd|apply step_future|apply step_nil_future|eapply step_request|eapply step_send]; eassumption).
    exact (step_chans _ _ _ _ _ _ HC).
  - unfold RpcClientLife.shutdown_call. destruct (shutdown _); [done|].
    assert (HC := step_shutdown the_registry w other_uint64 other_int64 (RpcClientLife.base (client x))).
    apply step_chans in HC. destruct (negb _); exact HC.
Qed.

Lemma whole_step_ok x x' : whole_step x x' -> whole_ok x ->
  Z.of_nat (next_chan (RpcClientLife.lc (client x'))) < 2 ^ 53 -> whole_ok x'.
Proof.
  intros H [HB HG HL] HN. pose proof (whole_chans _ _ H) as HM.
  assert (HLK : forall n l, links x !! n = Some l -> link_ok (asked x) l) by (intros n l; now apply Forall_lookup_1).
  assert (HSV : forall n l c', links x !! n = Some l -> carries adm ntfn_message (requests (asked x)) c' ->
    whole_ok (with_link n (with_server c' l) x)).
  { intros n l c' E HC. constructor; cbn; [done|done|]. apply links_insert; [done|]. split; [exact (proj1 (HLK n l E))|done]. }
  assert (HP : forall p rest, RpcClientLife.gs (client x) ≡ₚ p :: rest -> routine_ok (asked x) p /\ Forall (routine_ok (asked x)) rest).
  { intros p rest E. rewrite E in HG. now apply Forall_cons in HG. }
  destruct H; cbn [client links asked with_client with_link with_server] in HN, HM |- *.
  - destruct (HP _ _ H) as [P1 P2]. destruct (routine_goes_ok _ _ _ _ _ H0 HB P1) as (G1 & G2 & _); [lia|].
    constructor; cbn; [done|now apply Forall_app|done].
  - destruct (HP _ _ H) as [_ P2]. destruct (HLK _ _ H1) as [L1 L2].
    constructor; cbn; [done| |now apply links_insert]. constructor; [|done].
    exists (WsLife.r_msg r). split; [|done]. exact (Forall_lookup_1 _ _ _ _ (ca_written _ _ _ _ L2) H2).
  - destruct (HP _ _ H) as [P1 P2]. destruct (HLK _ _ H1) as [L1 L2].
    constructor; cbn; [done|now constructor|]. apply links_insert; [done|]. split; [|done]. apply Forall_app. split; [done|]. now repeat constructor.
  - destruct (reconnect_goes_ok _ _ _ _ _ _ H0 HB) as [R1 R2]. constructor; cbn; [done|now apply Forall_app|done].
  - destruct (reconnect_goes_ok _ _ _ _ _ _ H0 HB) as [R1 R2]. constructor; cbn; [done|now apply Forall_app|].
    apply Forall_app. split; [done|]. constructor; [now apply fresh_link_ok|constructor].
  - pose proof (SendCmd_inv _ _ _ _ _ _ (bo_client _ _ HB) H HN) as HC.
    assert (HA : forall jr', jr' ∈ asked x -> jr' ∈ asked x ++ option_list jr) by (intros; rewrite elem_of_app; auto).
    constructor; cbn.
    + destruct HB as [_ HF HS]. constructor; cbn; [exact HC| |].
      * apply Forall_app. split; [eapply Forall_impl; [exact HF|]; auto|]. destruct jr; repeat constructor. rewrite elem_of_app. right. left.
      * eapply Forall_impl; [exact HS|]. intros m Hm. rewrite map_app, elem_of_app. auto.
    + eapply Forall_impl; [exact HG|]. intros p. now apply routine_ok_mono.
    + eapply Forall_impl; [exact HL|]. intros l. now apply link_ok_mono.
  - constructor; [|exact HG|exact HL]. eapply user_ok; eassumption.
  - now constructor.
  - constructor; [exact HB| |exact HL]. constructor; [exact I|exact HG].
  - unfold RpcClientLife.shutdown_call. destruct (shutdown _); [now constructor|]. destruct HB as [HC HF HS].
    destruct (negb _); (constructor; cbn; [constructor; [now apply Shutdown_inv|exact HF|exact HS]|exact HG|exact HL]).
  - apply HSV; [done|]. destruct (HLK _ _ H) as [_ L2]. destruct H0 as [_ H0].
    eapply goes_carries; [apply requests_plain|exact H0|exact H1|exact L2].
  - destruct (HLK _ _ H) as [L1 L2]. rewrite H0 in L1. apply Forall_cons in L1 as [LM L1].
    constructor; cbn; [done|done|]. apply links_insert; [done|]. split; [exact L1|]. cbn.
    apply list_elem_of_fmap in LM as (jr & -> & HJ). pose proof (ci_made _ _ (bo_client _ _ HB)) as HMD.
    rewrite Forall_forall in HMD. destruct (made_sent_as _ (HMD jr HJ)) as (req & HS & _). pose proof HS as (_ & -> & _).
    apply message_carries; [|exact L2]. now exists jr.
  - apply HSV; [done|]. now apply break_carries, (HLK _ _ H).
  - apply HSV; [done|]. now apply disconnect_carries, (HLK _ _ H).
  - apply HSV; [done|]. apply notify_carries; [done|done|]. now apply (HLK _ _ H).
Qed.

Lemma whole_runs_ok x x' : rtc whole_step x x' -> whole_ok x ->
  Z.of_nat (next_chan (RpcClientLife.lc (client x'))) < 2 ^ 53 -> whole_ok x'.
Proof.
  intros R. assert (HM : (next_chan (RpcClientLife.lc (client x)) <= next_chan (RpcClientLife.lc (client x')))%nat).
  { induction R as [|x y z H _ IH]; [done|]. apply whole_chans in H. lia. }
  induction R as [|x y z H R IH]; [done|]. intros HO HN. pose proof (whole_chans _ _ H).
  assert (HM' : (next_chan (RpcClientLife.lc (client y)) <= next_chan (RpcClientLife.lc (client z)))%nat).
  { clear -R. induction R as [|x y z H _ IH]; [done|]. apply whole_chans in H. lia. }
  apply IH; [done| |done]. eapply whole_step_ok; [exact H|exact HO|lia].
Qed.
End whole.

(** ** Theorems *)

Section theorems.
Context (w : world) (other_uint64 other_int64 : float64 -> Z).
Context (order : gset (string * Z) -> list (string * Z)) (order' : gset string -> list string).
Context (auth : auth_state) (adm : bool).

#[local] Abbreviation step := (whole_step w other_uint64 other_int64 order order' auth adm).

(** Clients, connections and servers are what they are alone.  In every run of the
whole the client goes through a run of its own goroutines, and the goroutines of every
connection through a run of theirs from the start, so that all that is shown of each
holds when they run together. *)
Theorem whole_parts auto_disabled h l x : fresh_link adm l -> rtc step (whole_init auto_disabled h l) x ->
  rtc (RpcClientLife.life_step w other_uint64 other_int64 order order') (RpcClientLife.New_life auto_disabled h) (client x) /\
  forall n l', links x !! n = Some l' -> exists l0, fresh_link adm l0 /\ rtc (WsLife.conn_step auth) (server l0) (server l').
Proof.
  intros HL R. pattern x. refine (rtc_ind_r _ _ _ _ x R); clear x R.
  - split; [reflexivity|]. intros n l' E. apply list_lookup_singleton_Some in E as [_ <-]. exists l. split; [done|reflexivity].
  - intros y z _ H [I1 I2]. split.
    + destruct (whole_life _ _ _ _ _ _ _ _ _ H) as [-> |HS]; [done|]. eapply rtc_r; eassumption.
    + intros n l' E. destruct (whole_serves _ _ _ _ _ _ _ _ _ _ _ H E) as [HF|(l1 & E1 & R1)].
      * exists l'. split; [done|reflexivity].
      * destruct (I2 n l1 E1) as (l0 & F0 & R0). exists l0. split; [done|]. now transitivity (server l1).
Qed.

Lemma whole_answers auto_disabled h l x jr res : fresh_link adm l -> rtc step (whole_init auto_disabled h l) x ->
  Z.of_nat (next_chan (RpcClientLife.lc (client x))) < 2 ^ 53 -> jr ∈ asked x ->
  ReceiveFuture (j_chan jr) (RpcClientLife.lc (client x)) = Some res ->
  made jr /\ exists r, (own_error r \/ answered jr r) /\ res = match r_err r with Some e => Err e | None => Ok (r_result r) end.
Proof.
  intros HL R HN HI HR. pose proof (whole_runs_ok _ _ _ _ _ _ _ _ _ R (whole_init_ok adm auto_disabled h l HL) HN) as [[HC _ _] _ _].
  split; [pose proof (ci_made _ _ HC) as HM; rewrite Forall_forall in HM; auto|].
  unfold ReceiveFuture in HR. destruct (List.find _ _) as [[ch r]|] eqn:EF; [|discriminate]. injection HR as <-. exists r. split; [|done].
  apply List.find_some in EF as [EI EC]. apply Nat.eqb_eq in EC. cbn in EC. pose proof (ci_answers _ _ HC) as HA.
  rewrite Forall_forall in HA. apply list_elem_of_In in EI. destruct (HA _ EI) as [_ HA']. exact (HA' jr HI (eq_sym EC)).
Qed.

(** C8: a caller receives the answer to its own request.  However the goroutines of the
client, of the connections it dials one after the other, and of the servers interleave,
and whatever breaks, is sent again or shut down on the way: what the future of a command
returns is one of the client's own errors, or what the client reads from the answer that
processRequest, the HTTP side, gives an administrator for the request that was made from
this very command. *)
Theorem answers_are_own auto_disabled h l x jr res : fresh_link adm l -> rtc step (whole_init auto_disabled h l) x ->
  Z.of_nat (next_chan (RpcClientLife.lc (client x))) < 2 ^ 53 -> jr ∈ asked x ->
  ReceiveFuture (j_chan jr) (RpcClientLife.lc (client x)) = Some res ->
  (exists e, res = Err e /\ (e = ErrClientDisconnect \/ e = ErrClientShutdown \/ e = ErrClientNotConnected)) \/
  exists req reply i, MarshalCmd the_registry RpcVersion1 (JInt (j_id jr)) (j_cmd jr) = Ok (request_json req) /\
    UnmarshalRequest (request_json req) = (None, req) /\ ID req = JInt (j_id jr) /\
    processRequest req true = Ok (Some reply) /\ unmarshal_in reply = Some i /\
    res = match in_Error i with Some e => Err (CRpc e) | None => Ok (in_Result i) end.
Proof.
  intros HL R HN HI HR. destruct (whole_answers _ _ _ _ _ _ HL R HN HI HR) as ([_ HM] & r & [(e & -> & HE)|(req & reply & i & HS & HA & HU & ->)] & ->).
  - left. exists e. split; [done|exact HE].
  - right. exists req, reply, i. destruct HS as (HP & EJ & EI). rewrite <- EJ. split_and!; try done.
    + rewrite EJ. now apply plain_read.
    + unfold rawResponse_result. now destruct (in_Error i).
Qed.
(** C9: what GetBlockHash returns.  In every run of the whole, a GetBlockHash that returns
returns one of the client's own errors, or the hash whose text is its index in decimal,
padded with zeros, and then the index is not negative; and any other command that is
answered at all is answered with an error of the server, "Method not found" or
"Invalid parameters". *)
Theorem block_hashes_are_right auto_disabled h l x jr : fresh_link adm l -> rtc step (whole_init auto_disabled h l) x ->
  Z.of_nat (next_chan (RpcClientLife.lc (client x))) < 2 ^ 53 -> jr ∈ asked x ->
  (forall index r, j_cmd jr = cmd_of GetBlockHashCmd (NewGetBlockHashCmd index) -> in_i64 index ->
    GetBlockHash_Receive (j_chan jr) (RpcClientLife.lc (client x)) = Some r ->
    (exists e, r = Err e /\ (e = ErrClientDisconnect \/ e = ErrClientShutdown \/ e = ErrClientNotConnected)) \/
    0 <= index /\ exists hash, r = Ok hash /\ string_of_list_byte (Hash_String hash) = padded_decimal index) /\
  (forall res, j_method jr <> "getblockhash"%string -> ReceiveFuture (j_chan jr) (RpcClientLife.lc (client x)) = Some res ->
    exists e, res = Err e /\ (e = ErrClientDisconnect \/ e = ErrClientShutdown \/ e = ErrClientNotConnected \/
      e = CRpc ErrRPCMethodNotFound \/ exists m, e = CRpc (MkRPCError (-32602) m))).
Proof.
  intros HL R HN HI. assert (HJ : 0 <= j_id jr < 2 ^ 53).
  { pose proof (whole_runs_ok _ _ _ _ _ _ _ _ _ R (whole_init_ok adm auto_disabled h l HL) HN) as [[HC _ _] _ _].
    destruct (ci_ids _ _ HC) as [_ HB]. rewrite Forall_forall in HB. specialize (HB jr HI). pose proof (ci_id _ _ HC).
    unfold RpcClientLife.lc in *. lia. }
  split.
  - intros index r EC HX HR. unfold GetBlockHash_Receive in HR.
    destruct (ReceiveFuture _ _) as [res|] eqn:EF; [|discriminate]. injection HR as <-.
    destruct (whole_answers _ _ _ _ _ _ HL R HN HI EF) as (HM & r & [(e & -> & HE)|HA] & ->); [left; now exists e|right].
    destruct (answered_getblockhash _ _ _ HM HA HX HJ EC) as [HP ->]. split; [done|]. cbn [r_err r_result].
    destruct (padded_hash index) as (hash & E1 & E2); [exact (conj HP (proj2 HX))|]. exists hash. split; [|done].
    unfold hash_result. cbn [mbind result_bind]. rewrite json_string_str. cbn [mbind result_bind]. unfold new_hash. now rewrite E1.
  - intros res HM HR. destruct (whole_answers _ _ _ _ _ _ HL R HN HI HR) as (HD & r & [(e & -> & HE)|HA] & ->).
    + exists e. split; [done|]. tauto.
    + destruct (answered_other _ _ HD HA HJ HM) as ([c m] & -> & HE). eexists. split; [reflexivity|]. cbn in HE.
      destruct HE as [-> | ->]; eauto 6.
Qed.
End theorems.

(** ** A request from the call to the answer *)

#[local] Transparent the_registry.

Section sample.
#[local] Abbreviation sample_auth := (MkAuth zero_digest zero_digest).
#[local] Abbreviation step := (whole_step sample_world (fun _ => 0) (fun _ => 0) elements elements sample_auth false).

Definition sample_link : link := MkLink [] (WsLife.Start (RpcWebsocket.MkClient true false false 7 20 0 [] [] false)) 0.
Definition sample_request : jsonRequest := MkJsonRequest 1 "getblockhash" (sample_command 5) (request_json (getblockhash_request 5 1)) 0.

Lemma sample_fresh : fresh_link false sample_link.
Proof. exists (Ok 7), 20%nat. eexists. split; reflexivity. Qed.

Lemma client_nth i x p ps s1 : RpcClientLife.gs (client x) !! i = Some p ->
  RpcClientLife.goes sample_world (fun _ => 0) (fun _ => 0) elements elements (client x) p ps s1 ->
  step x (with_client (RpcClientLife.with_gs (ps ++ delete i (RpcClientLife.gs (client x))) s1) x).
Proof. intros HP. apply client_own. now apply delete_Permutation. Qed.

#[local] Ltac run tac :=
  eapply rtc_l; [tac|];
  lazymatch goal with |- rtc _ ?a _ => let b := eval vm_compute in a in change a with b end.
#[local] Ltac serves tac := run ltac:(eapply (server_go _ _ _ _ _ _ _ _ 0); [reflexivity|split; [reflexivity|tac]|intros [_ (? & E)]; discriminate E]).

(** The client asks for the hash of block 5, and gets it. *)
Lemma sample_whole_run : exists x, rtc step (whole_init true None sample_link) x /\
  next_chan (RpcClientLife.lc (client x)) = 1%nat /\ asked x = [sample_request] /\
  ReceiveFuture 0 (RpcClientLife.lc (client x)) = Some (Ok (Some (JStr (padded_decimal 5)))).
Proof.
  eexists. split.
  - run ltac:(eapply (client_nth 1); [reflexivity|now apply RpcClientLife.in_next]).
    run ltac:(eapply (client_nth 2); [reflexivity|apply RpcClientLife.out_select]).
    run ltac:(eapply (client_cmd _ _ _ _ _ _ _ _ (sample_command 5)); vm_compute; reflexivity).
    run ltac:(eapply client_user; [eapply RpcClientLife.user_request; [cbv [RpcClientLife.base in_flight client]; reflexivity|vm_compute; reflexivity]|intros ? E; now apply elem_of_nil in E]).
    run ltac:(eapply client_user; [eapply (RpcClientLife.user_send _ false _ [] []); [reflexivity|right; reflexivity]|done]).
    run ltac:(eapply (client_nth 0); [reflexivity|eapply RpcClientLife.out_msg; reflexivity]).
    run ltac:(eapply (client_nth 0); [reflexivity|apply RpcClientLife.out_conn]).
    run ltac:(eapply client_write; [cbv [RpcClientLife.gs client]; reflexivity|apply (bool_decide_unpack _); vm_compute; exact I|reflexivity]).
    serves ltac:(apply WsLife.in_next; reflexivity).
    run ltac:(eapply (server_read _ _ _ _ _ _ _ _ 0); reflexivity).
    serves ltac:(eapply WsLife.in_turn; [reflexivity|vm_compute; reflexivity|vm_compute; lia]).
    serves ltac:(eapply (WsLife.run_serve _ _ _ [] []); [reflexivity|vm_compute; reflexivity]).
    serves ltac:(eapply (WsLife.run_send _ _ _ [] []); reflexivity).
    serves ltac:(eapply (WsLife.run_push _ _ _ [] []); [reflexivity|vm_compute; lia]).
    serves ltac:(eapply WsLife.out_msg; reflexivity).
    serves ltac:(eapply WsLife.out_written; reflexivity).
    run ltac:(eapply client_read; [apply (delete_Permutation _ 1); reflexivity|apply (bool_decide_unpack _); vm_compute; exact I|reflexivity|reflexivity]).
    run ltac:(eapply (client_nth 0); [reflexivity|apply RpcClientLife.in_handle]).
    reflexivity.
  - split; [reflexivity|]. split; vm_compute; reflexivity.
Qed.

Lemma sample_hash x : ReceiveFuture 0 (RpcClientLife.lc (client x)) = Some (Ok (Some (JStr (padded_decimal 5)))) ->
  exists r, GetBlockHash_Receive (j_chan sample_request) (RpcClientLife.lc (client x)) = Some r /\
    forall e, r <> Err e.
Proof.
  intros E. unfold GetBlockHash_Receive. cbn [sample_request j_chan]. rewrite E. eexists. split; [reflexivity|]. vm_compute. discriminate.
Qed.

Lemma sample_small x : next_chan (RpcClientLife.lc (client x)) = 1%nat -> Z.of_nat (next_chan (RpcClientLife.lc (client x))) < 2 ^ 53.
Proof. intros ->. reflexivity. Qed.

Lemma whole_parts_witness : exists x, asked x = [sample_request] /\
  rtc (RpcClientLife.life_step sample_world (fun _ => 0) (fun _ => 0) elements elements) (RpcClientLife.New_life true None) (client x).
Proof.
  destruct sample_whole_run as (x & R & _ & E & _). exists x. split; [exact E|].
  exact (proj1 (whole_parts sample_world (fun _ => 0) (fun _ => 0) elements elements sample_auth false true None sample_link x sample_fresh R)).
Defined.

Lemma answers_are_own_witness : exists x req reply i, asked x = [sample_request] /\
  processRequest req true = Ok (Some reply) /\ unmarshal_in reply = Some i /\ in_Result i = Some (JStr (padded_decimal 5)).
Proof.
  destruct sample_whole_run as (x & R & EN & EA & ER).
  destruct (answers_are_own sample_world (fun _ => 0) (fun _ => 0) elements elements sample_auth false true None sample_link x sample_request _
    sample_fresh R (sample_small x EN) ltac:(rewrite EA; left) ER) as [(e & H & _)|(req & reply & i & _ & _ & _ & HP & HU & H)]; [discriminate H|].
  exists x, req, reply, i. split; [exact EA|]. split; [exact HP|]. split; [exact HU|]. destruct (in_Error i); [discriminate H|]. now injection H.
Defined.

Lemma block_hashes_are_right_witness : exists x hash, asked x = [sample_request] /\
  GetBlockHash_Receive 0 (RpcClientLife.lc (client x)) = Some (Ok hash) /\ string_of_list_byte (Hash_String hash) = padded_decimal 5.
Proof.
  destruct sample_whole_run as (x & R & EN & EA & ER). destruct (sample_hash x ER) as (r & EH & NE).
  destruct (block_hashes_are_right sample_world (fun _ => 0) (fun _ => 0) elements elements sample_auth false true None sample_link x sample_request
    sample_fresh R (sample_small x EN) ltac:(rewrite EA; left)) as [H _].
  destruct (H 5 r eq_refl ltac:(unfold in_i64; lia) EH) as [(e & E & _)|(_ & hash & E & HS)]; [now destruct (NE e)|].
  exists x, hash. split; [exact EA|]. split; [rewrite <- E; exact EH|exact HS].
Defined.
End sample.
