(* ===== verification/Config.v ===== *)
(** * Configuration (config.go, log.go, version.go)

The options of the program, with what loadConfig does to them once go-flags has
parsed them: the checks and settings in the order of the source, each a function
on the options it reads and writes.  The options are grouped by what they are
about.  Addresses, paths and numbers are those of GoStrings. *)

From Stdlib Require Import ZArith Lia List.
From Stdlib Require Import Strings.String Strings.Byte.
From S2P Require Import Prelude WireFormat ChainHash Genesis ChainParams GoStrings GoNet GoFloat Amount AcbcUtil JsonTypes AcbcJson RpcAuth RpcClientNtfn.

#[local] Open Scope list_scope.
#[local] Set Warnings "-register-all".

(** ** Constants *)

Definition defaultConfigFilename : string := "sample-acbc.conf".
Definition sampleConfigFilename : string := "sample-acbc.conf".
Definition defaultMaxPeers : Z := 125.
Definition defaultBanThreshold : Z := 100.
Definition defaultMaxRPCClients : Z := 10.
Definition defaultMaxRPCWebsockets : Z := 25.
Definition defaultSigCacheMaxSize : Z := 100000.
Definition defaultDataDirname : string := "data".
Definition defaultLogLevel : string := "info".
Definition defaultLogDirname : string := "logs".
Definition defaultLogFilename : string := "acbc.log".
Definition second : Z := 10 ^ 9.
Definition defaultBanDuration : Z := 24 * 3600 * second.
Definition defaultConnectTimeout : Z := 30 * second.
Definition defaultMaxRPCConcurrentReqs : Z := 20.
Definition defaultDbType : string := "ffldb".
Definition defaultBlockMinSize : Z := 0.
Definition defaultBlockMaxSize : Z := 750000.
Definition defaultBlockMinWeight : Z := 0.
Definition defaultBlockMaxWeight : Z := 3000000.
Definition blockMaxSizeMin : Z := 1000.
Definition blockMaxSizeMax : Z := MaxBlockBaseSize - 1000.
Definition blockMaxWeightMin : Z := 4000.
Definition blockMaxWeightMax : Z := MaxBlockWeight - 4000.
Definition defaultMaxOrphanTransactions : Z := 100.
Definition DefaultMinRelayTxFee : Z := 1000.
Definition DefaultBlockPrioritySize : Z := 50000.
Definition knownDbTypes : list string := ["levelDB"; "mongoDB"; "ffldb"]%string.

Definition minUint32 (a b : Z) : Z := if a <? b then a else b.

(** ** Log levels *)

(** The subsystems of log.go. *)
Definition subsystemLoggers : list string :=
  ["ADXR"; "AMGR"; "CMGR"; "BCDB"; "ACBC"; "CHAN"; "DISC"; "INDX"; "MINR"; "PEER"; "RPCS"; "SCRP"; "SRVR"; "SYNC"; "TXMP"]%string.

Definition validLogLevel (logLevel : string) : bool :=
  bool_decide (logLevel ∈ ["trace"; "debug"; "info"; "warn"; "error"; "critical"]%string).

(** sort.Strings, by insertion. *)
Fixpoint insert_string (s : string) (l : list string) : list string :=
  match l with [] => [s] | x :: l => if String.leb s x then s :: x :: l else x :: insert_string s l end.
Definition sort_strings (l : list string) : list string := fold_right insert_string [] l.
Definition supportedSubsystems : list string := sort_strings subsystemLoggers.

Inductive debug_error := InvalidLevel (s : string) | InvalidPair (s : string) | InvalidSubsystem (s : string) (supported : list string).

Definition comma : byte := ","%byte.
Definition equals : byte := "="%byte.

Section levels.
(** The levels of the logging package and its reading of their names, which gives
the level for information when it knows none. *)
Context {level : Type} (LevelFromString : string -> level).

(** The loggers are a map from subsystems to their levels. *)

Definition setLogLevel (subsystemID logLevel : string) (l : gmap string level) : gmap string level :=
  match l !! subsystemID with
  | None => l
  | Some _ => <[subsystemID := LevelFromString logLevel]> l
  end.
(** [range] over the map: every order gives the same levels. *)
Definition setLogLevels (logLevel : string) (l : gmap string level) : gmap string level :=
  fold_left (fun l' p => setLogLevel p.1 logLevel l') (map_to_list l) l.

(** The loop over the pairs: the levels as far as they were set. *)
Fixpoint set_pairs (pairs : list bytes) (l : gmap string level) : option debug_error * gmap string level :=
  match pairs with
  | [] => (None, l)
  | logLevelPair :: rest =>
      if negb (ContainsByte logLevelPair equals) then (Some (InvalidPair (to_string logLevelPair)), l)
      else match SplitByte logLevelPair equals with
           | id :: lvl :: _ =>
               let '(subsysID, logLevel) := (to_string id, to_string lvl) in
               match l !! subsysID with
               | None => (Some (InvalidSubsystem subsysID supportedSubsystems), l)
               | Some _ =>
                   if negb (validLogLevel logLevel) then (Some (InvalidLevel logLevel), l)
                   else set_pairs rest (setLogLevel subsysID logLevel l)
               end
           | _ => (Some (InvalidPair (to_string logLevelPair)), l)
           end
  end.

Definition parseAndSetDebugLevels (debugLevel : string) (l : gmap string level) : option debug_error * gmap string level :=
  let b := of_string debugLevel in
  if negb (ContainsByte b comma) && negb (ContainsByte b equals) then
    if negb (validLogLevel debugLevel) then (Some (InvalidLevel debugLevel), l)
    else (None, setLogLevels debugLevel l)
  else set_pairs (SplitByte b comma) l.
End levels.

(** ** Helpers *)

Definition validDbType (dbType : string) : bool := existsb (fun knownType => bool_decide (dbType = knownType)) knownDbTypes.

Fixpoint remove_seen (seen : gset string) (addrs : list string) : list string :=
  match addrs with
  | [] => []
  | val :: addrs =>
      if bool_decide (val ∈ seen) then remove_seen seen addrs else val :: remove_seen ({[val]} ∪ seen) addrs
  end.
Definition removeDuplicateAddresses (addrs : list string) : list string := remove_seen ∅ addrs.

Definition host_port (host port : string) : string := to_string (JoinHostPort (of_string host) (of_string port)).
Definition normalizeAddress (addr defaultPort : string) : string :=
  match SplitHostPort (of_string addr) with Err _ => host_port addr defaultPort | Ok _ => addr end.
Definition normalizeAddresses (addrs : list string) (defaultPort : string) : list string :=
  removeDuplicateAddresses (map (fun addr => normalizeAddress addr defaultPort) addrs).

Inductive checkpoint_error := BadSyntax (s : string) | BadHeight (s : string) | MissingHash (s : string) | BadHash (s : string).

Definition newCheckpointFromStr (checkpoint : string) : result checkpoint_error Checkpoint :=
  match SplitByte (of_string checkpoint) colon with
  | [height; hash] =>
      match ParseInt height 32 with
      | None => Err (BadHeight checkpoint)
      | Some height =>
          if (length hash =? 0)%nat then Err (MissingHash checkpoint)
          else match NewHashFromStr hash with
               | Err _ => Err (BadHash checkpoint)
               | Ok hash => Ok (MkCheckpoint (i32 height) hash)
               end
      end
  | _ => Err (BadSyntax checkpoint)
  end.

Fixpoint parseCheckpoints (checkpointStrings : list string) : result checkpoint_error (list Checkpoint) :=
  match checkpointStrings with
  | [] => Ok []
  | cpString :: rest => checkpoint ← newCheckpointFromStr cpString; cps ← parseCheckpoints rest; Ok (checkpoint :: cps)
  end.

Section paths.
Context (defaultHomeDir : string) (getenv : bytes -> bytes).

Definition cleanAndExpandPath (path : string) : string :=
  let b := of_string path in
  let b := match b with
           | "~"%byte :: rest => Dir (of_string defaultHomeDir) ++ rest
           | _ => b
           end in
  to_string (Clean (ExpandEnv getenv b)).
End paths.

(** ** version.go *)

Definition semanticAlphabet : bytes := of_string "0123456789ABCDEFGHIJKLMNOPQRSTUVWXYZabcdefghijklmnopqrstuvwxyz-".
Definition normalizeVerString (str : bytes) : bytes := List.filter (fun r => bool_decide (r ∈ semanticAlphabet)) str.
Definition appMajor : Z := 0.
Definition appMinor : Z := 22.
Definition appPatch : Z := 0.
Definition appPreRelease : bytes := of_string "beta".
(** [appBuild] is set by the linker. *)
Definition version (appBuild : bytes) : string :=
  let version := (fmt_d appMajor +:+ "." +:+ fmt_d appMinor +:+ "." +:+ fmt_d appPatch)%string in
  let preRelease := normalizeVerString appPreRelease in
  let version := match preRelease with [] => version | _ => (version +:+ "-" +:+ to_string preRelease)%string end in
  let build := normalizeVerString appBuild in
  match build with [] => version | _ => (version +:+ "+" +:+ to_string build)%string end.

(** ** The options *)

Record net_options := MkNetOptions {
  o_TestNet3 : bool; o_RegressionTest : bool; o_SimNet : bool; o_SigNet : bool;
  SigNetChallenge : string; SigNetSeedNode : list string;
  DisableDNSSeed : bool; DisableStallHandler : bool; RelayNonStd : bool; RejectNonStd : bool }.
Record dir_options := MkDirOptions { DataDir : string; LogDir : string; DebugLevel : string; DbType : string; Profile : string }.
Record peer_options := MkPeerOptions {
  BanDuration : Z; Whitelists : list string; AddPeers : list string; ConnectPeers : list string;
  Listeners : list string; DisableListen : bool; UserAgentComments : list string }.
Record rpc_options := MkRpcOptions {
  rpc_users : credentials; DisableRPC : bool; RPCListeners : list string; RPCMaxConcurrentReqs : Z; DisableTLS : bool }.
Record block_options := MkBlockOptions {
  MinRelayTxFee : float64; BlockMaxSize : Z; BlockMinSize : Z; BlockMaxWeight : Z; BlockMinWeight : Z;
  BlockPrioritySize : Z; MaxOrphanTxs : Z }.
Record index_options := MkIndexOptions {
  TxIndex : bool; DropTxIndex : bool; AddrIndex : bool; DropAddrIndex : bool; Generate : bool; MiningAddrs : list string }.
Record proxy_options := MkProxyOptions {
  Proxy : string; ProxyUser : string; ProxyPass : string;
  OnionProxy : string; OnionProxyUser : string; OnionProxyPass : string; NoOnion : bool; TorIsolation : bool }.

(** The options that are only handed on; those no code reads are left out. *)
Record misc_options := MkMiscOptions {
  ConfigFile : string; ShowVersion : bool; MaxPeers : Z; BanThreshold : Z; SigCacheMaxSize : Z;
  RPCMaxClients : Z; RPCMaxWebsockets : Z; RPCQuirks : bool; RPCKey : string; RPCCert : string }.

(** How a connection is made and a name resolved. *)
Inductive dialer := DirectDial | SocksDial (addr user pass : string) (isolation : bool) | TorDisabled.
Inductive resolver := SystemLookup | TorLookup (proxy : string).

Record config := MkConfig {
  misc : misc_options; net : net_options; dirs : dir_options; peers : peer_options; rpc : rpc_options; blocks : block_options;
  indexes : index_options; proxies : proxy_options; AddCheckpoints : list string;
  whitelists : list IPNet; minRelayTxFee : Z; addCheckpoints : list Checkpoint;
  dial : dialer; oniondial : dialer; lookup_fn : resolver }.

(** The errors of loadConfig; [ShowSubsystems] is an exit without one. *)
Inductive conf_error :=
  | SignetChallenge (e : cerr) | ManyNetworks | StallHandler | NonStdBoth | ShowSubsystems | LogRotator
  | DebugLevelError (e : debug_error) | UnknownDbType (s : string) | ProfilePort | BanDurationShort
  | BadWhitelist (s : string) | AddPeerAndConnect | SameUsername | SamePassword | LookupLocalhost (e : string)
  | NegativeConcurrentReqs | BadMinRelayFee | BadBlockMaxSize | BadBlockMaxWeight | NegativeOrphans
  | BadUserAgent | TxIndexBoth | AddrIndexBoth | AddrIndexDropTx | NoMiningAddress
  | BadRPCListener (s : string) (e : addr_error) | TLSRequired (s : string) | OnionBoth
  | CheckpointError (e : checkpoint_error) | TorNeedsProxy | BadProxy (s : string) (e : addr_error)
  | BadOnionProxy (s : string) (e : addr_error).

(** Files by their paths, with content and mode. *)
Notation files := (gmap string (bytes * Z)).

(** What the host provides: directories and environment, the resolution of
localhost, and the conversion of a float64 out of the range of int64. *)
Record host_env := MkHost {
  defaultHomeDir : string; h_getenv : bytes -> bytes; rotator_ok : bool;
  LookupHost : result string (list string); other_int64 : float64 -> Z }.

(** ** createDefaultConfigFile *)

Definition newline : byte := x0a.

(** ReadString up to the end: the lines with their newlines, and what follows the
last of them. *)
Fixpoint read_lines (s : bytes) : list bytes :=
  match s with
  | [] => [[]]
  | x :: s =>
      if bool_decide (x = newline) then [x] :: read_lines s
      else match read_lines s with f :: fs => (x :: f) :: fs | [] => [[x]] end
  end.

Definition rewrite_line (generatedRPCUser generatedRPCPass line : bytes) : bytes :=
  if Contains line (of_string "rpcuser=") then of_string "rpcuser=" ++ generatedRPCUser ++ [newline]
  else if Contains line (of_string "rpcpass=") then of_string "rpcpass=" ++ generatedRPCPass ++ [newline]
  else line.

(** The loop over the lines that ReadString gives: [read_err] is the error that ends
the reading, if it is not the end of the file, and [room] how many writes succeed,
if not all.  The error and what was written. *)
Fixpoint copy_lines (user pass : bytes) (lines : list bytes) (read_err : option string) (room : option nat) : option string * bytes :=
  match lines, read_err with
  | [], _ => (None, [])
  | [_], Some err => (Some err, [])
  | line :: rest, _ =>
      match room with
      | Some O => (Some "write error"%string, [])
      | _ => let '(err, out) := copy_lines user pass rest read_err (Nat.pred <$> room) in (err, rewrite_line user pass line ++ out)
      end
  end.

(** What the system answers: the directory, the absolute path, the entropy source
twice, the sample as far as it can be read, and the destination. *)
Record default_env := MkDefaultEnv {
  mkdir_err : option string; abs_err : option string; random1 : result string bytes; random2 : result string bytes;
  sample : result string (bytes * option string); dest_err : option string; dest_room : option nat }.

(** The error, and the content of the destination if it was opened. *)
Definition createDefaultConfigFile (e : default_env) : option string * option bytes :=
  match mkdir_err e, abs_err e with
  | Some err, _ | None, Some err => (Some err, None)
  | None, None =>
      match random1 e, random2 e with
      | Err err, _ | Ok _, Err err => (Some err, None)
      | Ok r1, Ok r2 =>
          let generatedRPCUser := EncodeToString r1 in
          let generatedRPCPass := EncodeToString r2 in
          match sample e, dest_err e with
          | Err err, _ | Ok _, Some err => (Some err, None)
          | Ok (src, read_err), None =>
              let '(err, out) := copy_lines generatedRPCUser generatedRPCPass (read_lines src) read_err (dest_room e) in
              (err, Some out)
          end
      end
  end.

(** ** loadConfig *)

(** The command line and the file are read by go-flags, which changes the options
it is given and may fail; the file cannot be opened, or does not parse. *)
Inductive flag_error := ErrHelp | FlagError.
Inductive ini_error := PathError | ParseError.
Inductive read_error := HelpShown | VersionShown | BadConfigFile | BadCommandLine (e : flag_error) | NoHomeDir.

#[export] Instance flag_error_eq_dec : EqDecision flag_error.
Proof. solve_decision. Defined.

Section load.
Context (env : host_env).

(** *** The defaults and the reading of the options *)

Definition join_path (a b : string) : string := to_string (Join [of_string a; of_string b]).
Definition defaultConfigFile : string := join_path (defaultHomeDir env) defaultConfigFilename.
Definition defaultDataDir : string := join_path (defaultHomeDir env) defaultDataDirname.
Definition defaultLogDir : string := join_path (defaultHomeDir env) defaultLogDirname.
Definition defaultRPCKeyFile : string := join_path (defaultHomeDir env) "rpc.key".
Definition defaultRPCCertFile : string := join_path (defaultHomeDir env) "rpc.cert".

Definition default_config : config :=
  MkConfig
    (MkMiscOptions defaultConfigFile false defaultMaxPeers defaultBanThreshold defaultSigCacheMaxSize
       defaultMaxRPCClients defaultMaxRPCWebsockets false defaultRPCKeyFile defaultRPCCertFile)
    (MkNetOptions false false false false "" [] false false false false)
    (MkDirOptions defaultDataDir defaultLogDir defaultLogLevel defaultDbType "")
    (MkPeerOptions defaultBanDuration [] [] [] [] false [])
    (MkRpcOptions (MkCredentials "jiajimeidou" "12345678" "" "") false [] defaultMaxRPCConcurrentReqs false)
    (MkBlockOptions (ToBTC DefaultMinRelayTxFee) defaultBlockMaxSize defaultBlockMinSize defaultBlockMaxWeight
       defaultBlockMinWeight DefaultBlockPrioritySize defaultMaxOrphanTransactions)
    (MkIndexOptions false false false false false [])
    (MkProxyOptions "" "" "" "" "" "" false false)
    [] [] 0 [] DirectDial DirectDial SystemLookup.

Section read.
Context (parse_line : config -> option flag_error * config) (parse_file : bytes -> config -> option ini_error * config)
        (copying : default_env) (home_ok : bool).

(** Whether the configuration file is read, by what the command line says. *)
Definition reads_file (preCfg : config) : bool :=
  negb (o_RegressionTest (net preCfg) || o_SimNet (net preCfg) || o_SigNet (net preCfg)) ||
  negb (bool_decide (ConfigFile (misc preCfg) = defaultConfigFile)).

Definition drop_AddPeers (cfg : config) : config :=
  let p := peers cfg in
  MkConfig (misc cfg) (net cfg) (dirs cfg)
    (MkPeerOptions (BanDuration p) (Whitelists p) [] (ConnectPeers p) (Listeners p) (DisableListen p) (UserAgentComments p))
    (rpc cfg) (blocks cfg) (indexes cfg) (proxies cfg) (AddCheckpoints cfg) (whitelists cfg) (minRelayTxFee cfg)
    (addCheckpoints cfg) (dial cfg) (oniondial cfg) (lookup_fn cfg).

(** ParseFile: a file that cannot be opened is a path error. *)
Definition ParseFile (fs : files) (name : string) (cfg : config) : option ini_error * config :=
  match fs !! name with Some (content, _) => parse_file content cfg | None => (Some PathError, cfg) end.

(** The file, made of the sample if there is none; an error of that is printed. *)
Definition ensure_file (fs : files) (name : string) : files :=
  match fs !! name, (createDefaultConfigFile copying).2 with
  | None, Some content => <[name := (content, 384)]> fs
  | _, _ => fs
  end.

(** The options, and whether the file was missing; the files. *)
Definition read_options (fs : files) : result read_error (config * bool) * files :=
  let cfg := default_config in
  let '(err, preCfg) := parse_line cfg in
  if bool_decide (err = Some ErrHelp) then (Err HelpShown, fs)
  else if ShowVersion (misc preCfg) then (Err VersionShown, fs)
  else
    let '(parsed, fs) :=
      if reads_file preCfg then
        let name := ConfigFile (misc preCfg) in
        let fs := ensure_file fs name in
        (match ParseFile fs name cfg with
         | (Some ParseError, _) => Err BadConfigFile
         | (Some PathError, cfg) => Ok (cfg, true)
         | (None, cfg) => Ok (cfg, false)
         end, fs)
      else (Ok (cfg, false), fs) in
    (r ← parsed;
     let '(cfg, missing) := r in
     let cfg := if o_RegressionTest (net preCfg) && (0 <? length (AddPeers (peers cfg)))%nat then drop_AddPeers cfg else cfg in
     match parse_line cfg with
     | (Some e, _) => Err (BadCommandLine e)
     | (None, cfg) => if home_ok then Ok (cfg, missing) else Err NoHomeDir
     end, fs).
End read.

(** *** Networks *)

Definition testNet3 : params := from_option id mainNetParams testNet3Params.

Definition signet_params (o : net_options) : result conf_error params :=
  challenge ← (if bool_decide (SigNetChallenge o = ""%string) then Ok DefaultSignetChallenge
               else map_err SignetChallenge (hex_DecodeString (of_string (SigNetChallenge o))));
  let seeds := match SigNetSeedNode o with [] => DefaultSignetDNSSeeds | l => map (fun seed => MkSeed seed false) l end in
  Ok (MkNetParams (CustomSignetParams challenge seeds) (rpcPort sigNetParams)).

(** The active network and how many were asked for. *)
Definition select_network (o : net_options) : result conf_error (params * nat * net_options) :=
  let '(active, numNets) := (activeNetParams, 0%nat) in
  let '(active, numNets) := if o_TestNet3 o then (testNet3, S numNets) else (active, numNets) in
  let '(active, numNets) := if o_RegressionTest o then (regressionNetParams, S numNets) else (active, numNets) in
  let '(active, numNets) := if o_SimNet o then (simNetParams, S numNets) else (active, numNets) in
  let o := if o_SimNet o then MkNetOptions (o_TestNet3 o) (o_RegressionTest o) (o_SimNet o) (o_SigNet o) (SigNetChallenge o)
             (SigNetSeedNode o) true (DisableStallHandler o) (RelayNonStd o) (RejectNonStd o) else o in
  if o_SigNet o then p ← signet_params o; Ok (p, S numNets, o) else Ok (active, numNets, o).

Definition check_network (active : params) (numNets : nat) (o : net_options) : result conf_error net_options :=
  if (1 <? numNets)%nat then Err ManyNetworks
  else if (Net (chain active) =? MainNet) && DisableStallHandler o then Err StallHandler
  else
    relayNonStd ← (if RelayNonStd o && RejectNonStd o then Err NonStdBoth
                   else if RejectNonStd o then Ok false
                   else if RelayNonStd o then Ok true
                   else Ok (RelayNonStdTxs (chain active)));
    Ok (MkNetOptions (o_TestNet3 o) (o_RegressionTest o) (o_SimNet o) (o_SigNet o) (SigNetChallenge o) (SigNetSeedNode o)
          (DisableDNSSeed o) (DisableStallHandler o) relayNonStd (RejectNonStd o)).

(** *** Directories, logging, database *)

Definition namespaced (active : params) (dir : string) : string :=
  to_string (Join [of_string (cleanAndExpandPath (defaultHomeDir env) (h_getenv env) dir); of_string (netName active)]).

Definition check_dirs {level} (LevelFromString : string -> level) (active : params) (d : dir_options) (l : gmap string level)
    : result conf_error (dir_options * gmap string level) :=
  let d := MkDirOptions (namespaced active (DataDir d)) (namespaced active (LogDir d)) (DebugLevel d) (DbType d) (Profile d) in
  if bool_decide (DebugLevel d = "show"%string) then Err ShowSubsystems
  else if negb (rotator_ok env) then Err LogRotator
  else
    match parseAndSetDebugLevels LevelFromString (DebugLevel d) l with
    | (Some e, _) => Err (DebugLevelError e)
    | (None, l) =>
        if negb (validDbType (DbType d)) then Err (UnknownDbType (DbType d))
        else if negb (bool_decide (Profile d = ""%string)) &&
                match Atoi (of_string (Profile d)) with
                | None => true
                | Some profilePort => (profilePort <? 1024) || (65535 <? profilePort)
                end
        then Err ProfilePort else Ok (d, l)
    end.

(** *** Peers *)

Fixpoint parse_whitelists (addrs : list string) : result conf_error (list IPNet) :=
  match addrs with
  | [] => Ok []
  | addr :: rest =>
      ipnet ← (match ParseCIDR (of_string addr) with
               | Some (_, ipnet) => Ok ipnet
               | None =>
                   match ParseIP (of_string addr) with
                   | None => Err (BadWhitelist addr)
                   | Some ip => let bits := match To4 ip with None => 128 | Some _ => 32 end in
                                Ok (MkIPNet ip (CIDRMask bits (Z.to_nat (bits / 8))))
                   end
               end);
      l ← parse_whitelists rest; Ok (ipnet :: l)
  end.

(** The ban duration, the whitelist, --addpeer and --connect, the listeners. *)
Definition check_peers (active : params) (proxy : string) (p : peer_options) (n : net_options)
    : result conf_error (peer_options * net_options * list IPNet) :=
  if BanDuration p <? second then Err BanDurationShort
  else
    wl ← parse_whitelists (Whitelists p);
    if (0 <? length (AddPeers p))%nat && (0 <? length (ConnectPeers p))%nat then Err AddPeerAndConnect
    else
      let connect := (0 <? length (ConnectPeers p))%nat in
      let noListeners := (length (Listeners p) =? 0)%nat in
      let disableListen := if (negb (bool_decide (proxy = ""%string)) || connect) && noListeners then true else DisableListen p in
      let listeners := if noListeners then [host_port "" (DefaultPort (chain active))] else Listeners p in
      Ok (MkPeerOptions (BanDuration p) (Whitelists p) (AddPeers p) (ConnectPeers p) listeners disableListen (UserAgentComments p),
          MkNetOptions (o_TestNet3 n) (o_RegressionTest n) (o_SimNet n) (o_SigNet n) (SigNetChallenge n) (SigNetSeedNode n)
            (if connect then true else DisableDNSSeed n) (DisableStallHandler n) (RelayNonStd n) (RejectNonStd n),
          wl).

(** *** The RPC server *)

Definition empty (s : string) : bool := bool_decide (s = ""%string).

Definition check_rpc (active : params) (r : rpc_options) : result conf_error rpc_options :=
  let u := rpc_users r in
  if bool_decide (RPCUser u = RPCLimitUser u) && negb (empty (RPCUser u)) then Err SameUsername
  else if bool_decide (RPCPass u = RPCLimitPass u) && negb (empty (RPCPass u)) then Err SamePassword
  else
    let disable := if (empty (RPCUser u) || empty (RPCPass u)) && (empty (RPCLimitUser u) || empty (RPCLimitPass u))
                   then true else DisableRPC r in
    listeners ← (if negb disable && (length (RPCListeners r) =? 0)%nat
                 then addrs ← map_err LookupLocalhost (LookupHost env); Ok (map (fun addr => host_port addr (rpcPort active)) addrs)
                 else Ok (RPCListeners r));
    if RPCMaxConcurrentReqs r <? 0 then Err NegativeConcurrentReqs
    else Ok (MkRpcOptions u disable listeners (RPCMaxConcurrentReqs r) (DisableTLS r)).

(** *** Blocks *)

Definition check_blocks (b : block_options) : result conf_error (block_options * Z) :=
  fee ← (match NewAmount (other_int64 env) (MinRelayTxFee b) with Some a => Ok a | None => Err BadMinRelayFee end);
  if (BlockMaxSize b <? blockMaxSizeMin) || (blockMaxSizeMax <? BlockMaxSize b) then Err BadBlockMaxSize
  else if (BlockMaxWeight b <? blockMaxWeightMin) || (blockMaxWeightMax <? BlockMaxWeight b) then Err BadBlockMaxWeight
  else if MaxOrphanTxs b <? 0 then Err NegativeOrphans
  else
    let prioritySize := minUint32 (BlockPrioritySize b) (BlockMaxSize b) in
    let minSize := minUint32 (BlockMinSize b) (BlockMaxSize b) in
    let minWeight := minUint32 (BlockMinWeight b) (BlockMaxWeight b) in
    let '(maxSize, maxWeight) :=
      if (BlockMaxSize b =? defaultBlockMaxSize) && negb (BlockMaxWeight b =? defaultBlockMaxWeight)
      then (MaxBlockBaseSize - 1000, BlockMaxWeight b)
      else if negb (BlockMaxSize b =? defaultBlockMaxSize) && (BlockMaxWeight b =? defaultBlockMaxWeight)
      then (BlockMaxSize b, u32 (BlockMaxSize b * WitnessScaleFactor))
      else (BlockMaxSize b, BlockMaxWeight b) in
    Ok (MkBlockOptions (MinRelayTxFee b) maxSize minSize maxWeight minWeight prioritySize (MaxOrphanTxs b), fee).

(** *** Indexes and mining *)

Definition check_indexes (comments : list string) (i : index_options) : result conf_error unit :=
  if existsb (fun uaComment => ContainsAny (of_string uaComment) (of_string "/:()")) comments then Err BadUserAgent
  else if TxIndex i && DropTxIndex i then Err TxIndexBoth
  else if AddrIndex i && DropAddrIndex i then Err AddrIndexBoth
  else if AddrIndex i && DropTxIndex i then Err AddrIndexDropTx
  else if Generate i && (length (MiningAddrs i) =? 0)%nat then Err NoMiningAddress
  else Ok tt.

(** *** Listeners and peers, with their ports *)

Definition allowedTLSListeners : list string := ["localhost"; "127.0.0.1"; "::1"]%string.

Fixpoint check_tls (listeners : list string) : result conf_error unit :=
  match listeners with
  | [] => Ok tt
  | addr :: rest =>
      match SplitHostPort (of_string addr) with
      | Err e => Err (BadRPCListener addr e)
      | Ok (host, _) => if bool_decide (to_string host ∈ allowedTLSListeners) then check_tls rest else Err (TLSRequired addr)
      end
  end.

Definition normalize_listeners (active : params) (p : peer_options) (r : rpc_options)
    : result conf_error (peer_options * rpc_options) :=
  let listeners := normalizeAddresses (Listeners p) (DefaultPort (chain active)) in
  let rpcListeners := normalizeAddresses (RPCListeners r) (rpcPort active) in
  _ ← (if negb (DisableRPC r) && DisableTLS r then check_tls rpcListeners else Ok tt);
  Ok (MkPeerOptions (BanDuration p) (Whitelists p) (normalizeAddresses (AddPeers p) (DefaultPort (chain active)))
        (normalizeAddresses (ConnectPeers p) (DefaultPort (chain active))) listeners (DisableListen p) (UserAgentComments p),
      MkRpcOptions (rpc_users r) (DisableRPC r) rpcListeners (RPCMaxConcurrentReqs r) (DisableTLS r)).

(** *** Dialing *)

Definition setup_proxy (o : proxy_options) : result conf_error (dialer * resolver) :=
  if empty (Proxy o) then Ok (DirectDial, SystemLookup)
  else
    match SplitHostPort (of_string (Proxy o)) with
    | Err e => Err (BadProxy (Proxy o) e)
    | Ok _ =>
        let torIsolation := TorIsolation o && empty (OnionProxy o) && (negb (empty (ProxyUser o)) || negb (empty (ProxyPass o))) in
        Ok (SocksDial (Proxy o) (ProxyUser o) (ProxyPass o) torIsolation,
            if negb (NoOnion o) && empty (OnionProxy o) then TorLookup (Proxy o) else SystemLookup)
    end.

Definition setup_onion (o : proxy_options) (dial : dialer) (lookup : resolver) : result conf_error (dialer * resolver) :=
  r ← (if empty (OnionProxy o) then Ok (dial, lookup)
       else match SplitHostPort (of_string (OnionProxy o)) with
            | Err e => Err (BadOnionProxy (OnionProxy o) e)
            | Ok _ => Ok (SocksDial (OnionProxy o) (OnionProxyUser o) (OnionProxyPass o) (TorIsolation o),
                          if negb (empty (Proxy o)) then TorLookup (OnionProxy o) else lookup)
            end);
  Ok (if NoOnion o then TorDisabled else r.1, r.2).

Definition setup_dial (o : proxy_options) : result conf_error (dialer * dialer * resolver) :=
  if TorIsolation o && empty (Proxy o) && empty (OnionProxy o) then Err TorNeedsProxy
  else
    r ← setup_proxy o;
    s ← setup_onion o r.1 r.2;
    Ok (r.1, s.1, s.2).

(** *** loadConfig, once the options are parsed *)

Definition loadConfig {level} (LevelFromString : string -> level) (cfg : config) (l : gmap string level)
    : result conf_error (config * params * gmap string level) :=
  n ← select_network (net cfg);
  let '(active, numNets, n) := n in
  n ← check_network active numNets n;
  d ← check_dirs LevelFromString active (dirs cfg) l;
  p ← check_peers active (Proxy (proxies cfg)) (peers cfg) n;
  let '(p, n, wl) := p in
  r ← check_rpc active (rpc cfg);
  b ← check_blocks (blocks cfg);
  _ ← check_indexes (UserAgentComments p) (indexes cfg);
  pr ← normalize_listeners active p r;
  _ ← (if NoOnion (proxies cfg) && negb (empty (OnionProxy (proxies cfg))) then Err OnionBoth else Ok tt);
  cps ← map_err CheckpointError (parseCheckpoints (AddCheckpoints cfg));
  dl ← setup_dial (proxies cfg);
  Ok (MkConfig (misc cfg) n d.1 pr.1 pr.2 b.1 (indexes cfg) (proxies cfg) (AddCheckpoints cfg) wl b.2 cps dl.1.1 dl.1.2 dl.2, active, d.2).
End load.

(** ** acbcDial and acbcLookup *)

Definition acbcDial (cfg : config) (addr : string) : dialer :=
  if Contains (of_string addr) (of_string ".onion:") then oniondial cfg else dial cfg.
Definition acbcLookup (cfg : config) (host : string) : option resolver :=
  if HasSuffix (of_string host) (of_string ".onion") then None else Some (lookup_fn cfg).
