(* ===== verification/ConfigProps.v ===== *)
(** * What loadConfig promises

Theorems about the configuration the program runs with once its options were
accepted: blocks, credentials, listeners, dialing, networks and directories,
checkpoints, log levels, addresses, and the file of defaults. *)

From Stdlib Require Import ZArith Lia List.
From Stdlib Require Import Strings.String Strings.Byte.
From S2P Require Import Prelude WireFormat Sha256 ChainHash Genesis ChainParams GoStrings GoNet GoFloat Amount AcbcUtil JsonTypes.
From S2P Require Import AcbcJson RpcAuth RpcServerProps RpcClientNtfn Config.

#[local] Open Scope list_scope.
#[local] Set Warnings "-register-all".

(** [accepted H]: the parts of an accepted computation in the error monad. *)
Ltac accepted H :=
  repeat match type of H with
  | Ok _ = Ok _ => injection H as H
  | Err _ = Ok _ => discriminate H
  | (_ ≫= _) = Ok _ =>
      let r := fresh "r" in let E := fresh "E" in
      match type of H with (?m ≫= _) = _ => destruct m as [r|] eqn:E; cbn [mbind result_bind] in H; [|discriminate H] end
  | (if ?b then _ else _) = Ok _ => let E := fresh "E" in destruct b eqn:E; try discriminate H
  | (let '(_, _) := ?p in _) = Ok _ => destruct p
  | match ?m with _ => _ end = Ok _ => let E := fresh "E" in destruct m eqn:E; try discriminate H
  end.

Lemma map_err_ok {E F A} (f : E -> F) (r : result E A) a : map_err f r = Ok a -> r = Ok a.
Proof. destruct r as [x|]; [|discriminate]. cbn. intros H. injection H as ->. done. Qed.

(** The steps of an accepted configuration. *)
Lemma loadConfig_inv env {level} (L : string -> level) cfg l c active l' :
  loadConfig env L cfg l = Ok (c, active, l') ->
  exists k n0 n1 p0 r0,
    select_network (net cfg) = Ok (active, k, n0) /\ check_network active k n0 = Ok n1 /\
    check_dirs env L active (dirs cfg) l = Ok (dirs c, l') /\
    check_peers active (Proxy (proxies cfg)) (peers cfg) n1 = Ok (p0, net c, whitelists c) /\
    check_rpc env active (rpc cfg) = Ok r0 /\
    check_blocks env (blocks cfg) = Ok (blocks c, minRelayTxFee c) /\
    check_indexes (UserAgentComments p0) (indexes cfg) = Ok tt /\
    normalize_listeners active p0 r0 = Ok (peers c, rpc c) /\
    NoOnion (proxies cfg) && negb (empty (OnionProxy (proxies cfg))) = false /\
    parseCheckpoints (AddCheckpoints cfg) = Ok (addCheckpoints c) /\
    setup_dial (proxies cfg) = Ok (dial c, oniondial c, lookup_fn c) /\ misc c = misc cfg /\ proxies c = proxies cfg.
Proof.
  unfold loadConfig. intros H. accepted H.
  match goal with E : map_err _ _ = Ok _ |- _ => apply map_err_ok in E end.
  repeat match goal with x : (_ * _)%type |- _ => destruct x | u : unit |- _ => destruct u end.
  cbn [fst snd] in *. match goal with E : (if _ then Err OnionBoth else _) = _ |- _ => accepted E end.
  subst. do 5 eexists. split_and!; try eassumption; reflexivity.
Qed.

(** ** Blocks *)

Lemma minUint32_min a b : minUint32 a b = Z.min a b.
Proof. unfold minUint32. destruct (Z.ltb_spec a b); lia. Qed.

(** The sizes are unsigned 32-bit integers. *)
Definition uint32_blocks (b : block_options) : Prop :=
  in_u32 (BlockMaxSize b) /\ in_u32 (BlockMinSize b) /\ in_u32 (BlockMaxWeight b) /\ in_u32 (BlockMinWeight b) /\
  in_u32 (BlockPrioritySize b).

(** The accepted options, in closed form. *)
Lemma check_blocks_ok env b b' fee : check_blocks env b = Ok (b', fee) ->
  1000 <= BlockMaxSize b <= 999000 /\ 4000 <= BlockMaxWeight b <= 3996000 /\ 0 <= MaxOrphanTxs b /\
  let setSize := negb (BlockMaxSize b =? 750000) in
  let setWeight := negb (BlockMaxWeight b =? 3000000) in
  b' = MkBlockOptions (MinRelayTxFee b) (if negb setSize && setWeight then 999000 else BlockMaxSize b)
         (Z.min (BlockMinSize b) (BlockMaxSize b))
         (if setSize && negb setWeight then u32 (BlockMaxSize b * 4) else BlockMaxWeight b)
         (Z.min (BlockMinWeight b) (BlockMaxWeight b)) (Z.min (BlockPrioritySize b) (BlockMaxSize b)) (MaxOrphanTxs b).
Proof.
  unfold check_blocks, blockMaxSizeMin, blockMaxSizeMax, blockMaxWeightMin, blockMaxWeightMax, MaxBlockBaseSize,
    MaxBlockWeight, defaultBlockMaxSize, defaultBlockMaxWeight, WitnessScaleFactor. rewrite !minUint32_min.
  intros H. destruct (NewAmount _ _); [cbn [mbind result_bind] in H|discriminate].
  destruct (_ || _)%bool eqn:E1 in H; [discriminate|]. destruct (_ || _)%bool eqn:E2 in H; [discriminate|].
  destruct (MaxOrphanTxs b <? 0) eqn:E3; [discriminate|].
  apply orb_false_iff in E1 as [? ?], E2 as [? ?]. boolify. split_and!; try lia.
  destruct (BlockMaxSize b =? 750000), (BlockMaxWeight b =? 3000000); cbn [negb andb] in *; now injection H as <- <-.
Qed.

(** The limits on the blocks that are created.  Whatever was asked for, an
accepted configuration has a size from 1000 to 999000 and a weight from 4000 to
3996000, no minimum or priority size is above the maximum, and the minimum
weight is not above the maximum weight unless it is above what the maximum size
allows and the maximum weight was derived from it; the scaling does not wrap. *)
Theorem loadConfig_blocks env {level} (L : string -> level) cfg l c active l' :
  uint32_blocks (blocks cfg) -> loadConfig env L cfg l = Ok (c, active, l') ->
  let b := blocks c in
  1000 <= BlockMaxSize b <= 999000 /\ 4000 <= BlockMaxWeight b <= 3996000 /\
  0 <= BlockMinSize b <= BlockMaxSize b /\ 0 <= BlockPrioritySize b <= BlockMaxSize b /\
  0 <= MaxOrphanTxs b /\
  (BlockMinWeight b <= BlockMaxWeight b \/
   (BlockMaxWeight b = 4 * BlockMaxSize (blocks cfg) /\ 4 * BlockMaxSize (blocks cfg) < BlockMinWeight (blocks cfg) /\
    BlockMaxWeight (blocks cfg) = defaultBlockMaxWeight)).
Proof.
  intros (U1 & U2 & U3 & U4 & U5) H. apply loadConfig_inv in H as (? & ? & ? & ? & ? & _ & _ & _ & _ & _ & H & _).
  apply check_blocks_ok in H as (Hs & Hw & Ho & ->). unfold in_u32 in *. unfold defaultBlockMaxWeight.
  cbn [blocks BlockMaxSize BlockMinSize BlockMaxWeight BlockMinWeight BlockPrioritySize MaxOrphanTxs].
  rewrite u32_small by (unfold in_u32; lia).
  destruct (Z.eqb_spec (BlockMaxSize (blocks cfg)) 750000), (Z.eqb_spec (BlockMaxWeight (blocks cfg)) 3000000);
    cbn [negb andb]; split_and!; lia.
Qed.

(** A host, and the defaults on it. *)
Definition sample_host : host_env :=
  MkHost "/home/u/.acbc" (fun _ => []) true (Ok ["127.0.0.1"; "::1"]%string) (fun _ => 0).
Definition with_blocks (b : block_options) (cfg : config) : config :=
  MkConfig (misc cfg) (net cfg) (dirs cfg) (peers cfg) (rpc cfg) b (indexes cfg) (proxies cfg) (AddCheckpoints cfg)
    (whitelists cfg) (minRelayTxFee cfg) (addCheckpoints cfg) (dial cfg) (oniondial cfg) (lookup_fn cfg).
Definition small_blocks : block_options := MkBlockOptions (ToBTC 1000) 1000 0 3000000 5000 0 100.
Definition no_levels : gmap string string := list_to_map (map (fun s => (s, "info"%string)) subsystemLoggers).

(** A computation that succeeds with a result of which [f] holds, by evaluation. *)
Lemma on_ok {E A} (r : result E A) (f : A -> bool) :
  match r with Ok a => f a | Err _ => false end = true -> exists a, r = Ok a /\ f a = true.
Proof. destruct r; [eauto|discriminate]. Qed.

(** The second case is met: a minimum weight of 5000 with a maximum of 4000. *)
Lemma loadConfig_blocks_witness :
  exists r, loadConfig sample_host id (with_blocks small_blocks (default_config sample_host)) no_levels = Ok r /\
    1000 <= BlockMaxSize (blocks r.1.1) <= 999000 /\
    (BlockMaxWeight (blocks r.1.1) =? 4000) && (BlockMinWeight (blocks r.1.1) =? 5000) = true.
Proof.
  destruct (on_ok (loadConfig sample_host id (with_blocks small_blocks (default_config sample_host)) no_levels)
    (fun r => (BlockMaxWeight (blocks r.1.1) =? 4000) && (BlockMinWeight (blocks r.1.1) =? 5000)))
    as ([[c active] l] & E & F); [vm_compute; reflexivity|].
  exists (c, active, l). split; [exact E|split; [|exact F]].
  refine (proj1 (loadConfig_blocks sample_host id _ _ _ _ _ _ E)).
  unfold uint32_blocks, in_u32. cbn. lia.
Defined.

(** ** The RPC server *)

Definition complete (user pass : string) : bool := negb (empty user) && negb (empty pass).

Lemma check_rpc_ok env active r r' : check_rpc env active r = Ok r' ->
  let u := rpc_users r in
  rpc_users r' = u /\ DisableTLS r' = DisableTLS r /\ 0 <= RPCMaxConcurrentReqs r' /\
  DisableRPC r' = DisableRPC r || negb (complete (RPCUser u) (RPCPass u) || complete (RPCLimitUser u) (RPCLimitPass u)) /\
  (RPCUser u = RPCLimitUser u -> RPCUser u = ""%string) /\ (RPCPass u = RPCLimitPass u -> RPCPass u = ""%string) /\
  (DisableRPC r' = false -> RPCListeners r = [] ->
     exists addrs, LookupHost env = Ok addrs /\ RPCListeners r' = map (fun a => host_port a (rpcPort active)) addrs).
Proof.
  unfold check_rpc. intros H.
  destruct (bool_decide (RPCUser _ = _) && _)%bool eqn:E1 in H; [discriminate|].
  destruct (bool_decide (RPCPass _ = _) && _)%bool eqn:E2 in H; [discriminate|].
  apply andb_false_iff in E1, E2.
  set (disable := if (_ && _)%bool then true else DisableRPC r) in H.
  assert (Hd : disable = DisableRPC r ||
    negb (complete (RPCUser (rpc_users r)) (RPCPass (rpc_users r)) || complete (RPCLimitUser (rpc_users r)) (RPCLimitPass (rpc_users r)))).
  { unfold disable, complete.
    destruct (empty (RPCUser _)), (empty (RPCPass _)), (empty (RPCLimitUser _)), (empty (RPCLimitPass _)), (DisableRPC r); done. }
  clearbody disable. destruct (if (_ && _)%bool then _ else _) as [listeners|e] eqn:E3 in H; [cbn [mbind result_bind] in H|discriminate].
  destruct (_ <? 0) eqn:E4 in H; [discriminate|]. injection H as <-. boolify.
  cbn [rpc_users DisableTLS RPCMaxConcurrentReqs DisableRPC RPCListeners]. unfold empty in E1, E2. split_and!; try done.
  - intros E. destruct E1 as [E1|E1]; [now apply bool_decide_eq_false in E1|]. now apply negb_false_iff, bool_decide_eq_true in E1.
  - intros E. destruct E2 as [E2|E2]; [now apply bool_decide_eq_false in E2|]. now apply negb_false_iff, bool_decide_eq_true in E2.
  - intros -> El. rewrite El in E3. cbn in E3. destruct (LookupHost env) as [addrs|]; [|discriminate].
    injection E3 as <-. eauto.
Qed.

Lemma check_tls_ok l u : check_tls l = Ok u ->
  Forall (fun addr => exists host port, SplitHostPort (of_string addr) = Ok (host, port) /\
                                        to_string host ∈ allowedTLSListeners) l.
Proof.
  induction l as [|addr l IH]; intros H; constructor; cbn [check_tls] in H.
  all: destruct (SplitHostPort _) as [[host port]|] eqn:E; [|discriminate]; case_bool_decide; [|discriminate]; eauto.
Qed.

(** The listeners of an accepted configuration without TLS. *)
Lemma loadConfig_tls env {level} (L : string -> level) cfg l c active l' :
  loadConfig env L cfg l = Ok (c, active, l') -> DisableRPC (rpc c) = false -> DisableTLS (rpc c) = true ->
  Forall (fun addr => exists host port, SplitHostPort (of_string addr) = Ok (host, port) /\
                                        to_string host ∈ allowedTLSListeners) (RPCListeners (rpc c)).
Proof.
  intros H. apply loadConfig_inv in H as (? & ? & ? & p0 & r0 & _ & _ & _ & _ & _ & _ & _ & N & _). unfold normalize_listeners in N.
  destruct (if (_ && _)%bool then _ else _) as [x'|] eqn:E in N; [cbn [mbind result_bind] in N|discriminate].
  injection N as _ <-. cbn [DisableTLS DisableRPC RPCListeners]. intros D T. rewrite D, T in E. cbn in E. eapply check_tls_ok, E.
Qed.

(** The RPC server an accepted configuration asks for.  It is disabled exactly
when that was asked for or neither pair of credentials is complete; the two users
are distinct and so are their passwords; without listeners it listens on the
addresses of localhost; and TLS is off only when every listener is on a loopback
name or address. *)
Theorem loadConfig_rpc env {level} (L : string -> level) cfg l c active l' :
  loadConfig env L cfg l = Ok (c, active, l') ->
  let u := rpc_users (rpc cfg) in
  rpc_users (rpc c) = u /\ 0 <= RPCMaxConcurrentReqs (rpc c) /\
  DisableRPC (rpc c) =
    DisableRPC (rpc cfg) || negb (complete (RPCUser u) (RPCPass u) || complete (RPCLimitUser u) (RPCLimitPass u)) /\
  (RPCUser u = RPCLimitUser u -> RPCUser u = ""%string) /\ (RPCPass u = RPCLimitPass u -> RPCPass u = ""%string) /\
  (DisableRPC (rpc c) = false -> RPCListeners (rpc cfg) = [] ->
     exists addrs, LookupHost env = Ok addrs /\
       RPCListeners (rpc c) = normalizeAddresses (map (fun a => host_port a (rpcPort active)) addrs) (rpcPort active)) /\
  (DisableRPC (rpc c) = false -> DisableTLS (rpc c) = true ->
     Forall (fun addr => exists host port, SplitHostPort (of_string addr) = Ok (host, port) /\
                                           to_string host ∈ allowedTLSListeners) (RPCListeners (rpc c))).
Proof.
  intros H. assert (T := loadConfig_tls env L cfg l c active l' H).
  apply loadConfig_inv in H as (? & ? & ? & p0 & r0 & _ & _ & _ & _ & H & _ & _ & N & _).
  apply check_rpc_ok in H as (Hu & Ht & Hc & Hd & H1 & H2 & Hl). unfold normalize_listeners in N.
  destruct (if (_ && _)%bool then _ else _) as [x'|] in N; [cbn [mbind result_bind] in N|discriminate].
  injection N as _ N. rewrite <- N in T |- *. cbn [rpc_users DisableTLS RPCMaxConcurrentReqs DisableRPC RPCListeners].
  split_and!; try done. intros D E'. destruct (Hl D E') as (addrs & ? & ->). eauto.
Qed.

Definition with_rpc (r : rpc_options) (cfg : config) : config :=
  MkConfig (misc cfg) (net cfg) (dirs cfg) (peers cfg) r (blocks cfg) (indexes cfg) (proxies cfg) (AddCheckpoints cfg)
    (whitelists cfg) (minRelayTxFee cfg) (addCheckpoints cfg) (dial cfg) (oniondial cfg) (lookup_fn cfg).

Definition notls : config :=
  with_rpc (MkRpcOptions (MkCredentials "admin" "secret" "" "") false [] 20 true) (default_config sample_host).

Lemma loadConfig_rpc_witness :
  exists r, loadConfig sample_host id notls no_levels = Ok r /\
    Forall (fun addr => exists host port, SplitHostPort (of_string addr) = Ok (host, port) /\
                                          to_string host ∈ allowedTLSListeners) (RPCListeners (rpc r.1.1)) /\
    bool_decide (RPCListeners (rpc r.1.1) = ["127.0.0.1:8334"; "[::1]:8334"]%string) = true.
Proof.
  destruct (on_ok (loadConfig sample_host id notls no_levels)
    (fun r => (negb (DisableRPC (rpc r.1.1)) && DisableTLS (rpc r.1.1)) &&
              bool_decide (RPCListeners (rpc r.1.1) = ["127.0.0.1:8334"; "[::1]:8334"]%string)))
    as ([[c active] l] & E & F); [vm_compute; reflexivity|].
  apply andb_true_iff in F as [F1 F2]. apply andb_true_iff in F1 as [F1 F3]. apply negb_true_iff in F1.
  exists (c, active, l). split; [exact E|split; [|exact F2]].
  destruct (loadConfig_rpc sample_host id _ _ _ _ _ E) as (_ & _ & _ & _ & _ & _ & H). exact (H F1 F3).
Defined.

(** *** Logins *)

Lemma login_inj u p u' p' : colon ∉ of_string u -> colon ∉ of_string u' ->
  (u +:+ ":" +:+ p)%string = (u' +:+ ":" +:+ p')%string -> u = u' /\ p = p'.
Proof.
  intros H H' E. apply (f_equal of_string) in E. rewrite !of_string_app in E.
  change (of_string ":") with [colon] in E. cbn [app] in E.
  apply app_cons_inj in E as [E1 E2]; [|done..]. split; now apply of_string_inj.
Qed.

Lemma is_login_complete u p login :
  is_login u p login = complete u p && bool_decide ((u +:+ ":" +:+ p)%string = login).
Proof. done. Qed.

(** C27: whom the RPC server of an accepted configuration lets in.  With an enabled
server at least one login is configured; when no user name holds a colon the
administrator's login makes an administrator and the limited one a limited user,
by header and by authenticate command alike, short of a SHA-256 collision. *)
Theorem loadConfig_logins env {level} (L : string -> level) cfg l c active l' :
  loadConfig env L cfg l = Ok (c, active, l') -> DisableRPC (rpc c) = false ->
  let u := rpc_users (rpc cfg) in
  let s := newRPCServer_auth (rpc_users (rpc c)) in
  (complete (RPCUser u) (RPCPass u) = true \/ complete (RPCLimitUser u) (RPCLimitPass u) = true) /\
  (colon ∉ of_string (RPCUser u) -> colon ∉ of_string (RPCLimitUser u) ->
   (complete (RPCUser u) (RPCPass u) = true -> no_collision u (RPCUser u) (RPCPass u) ->
      checkAuth s [basic_auth (RPCUser u) (RPCPass u)] true = (true, true, None) /\
      check_credentials s (RPCUser u) (RPCPass u) = Some true) /\
   (complete (RPCLimitUser u) (RPCLimitPass u) = true -> no_collision u (RPCLimitUser u) (RPCLimitPass u) ->
      checkAuth s [basic_auth (RPCLimitUser u) (RPCLimitPass u)] true = (true, false, None) /\
      check_credentials s (RPCLimitUser u) (RPCLimitPass u) = Some false)).
Proof.
  intros H D. apply loadConfig_inv in H as (? & ? & ? & p0 & r0 & _ & _ & _ & _ & H & _ & _ & N & _).
  apply check_rpc_ok in H as (Hu & Ht & Hc & Hd & H1 & H2 & Hl). unfold normalize_listeners in N.
  destruct (if (_ && _)%bool then _ else _) as [x'|] eqn:E in N; [cbn [mbind result_bind] in N|discriminate].
  injection N as _ N. rewrite <- N in D. cbn [DisableRPC] in D. rewrite D in Hd.
  assert (Hc' : rpc_users (rpc c) = rpc_users (rpc cfg)) by (rewrite <- N; exact Hu). rewrite Hc'.
  intros u s. fold u in Hd, H1, H2. symmetry in Hd. apply orb_false_iff in Hd as [_ Hd]. apply negb_false_iff, orb_true_iff in Hd.
  split; [exact Hd|]. intros C1 C2.
  assert (Hne : complete (RPCUser u) (RPCPass u) = true ->
    (RPCUser u +:+ ":" +:+ RPCPass u)%string <> (RPCLimitUser u +:+ ":" +:+ RPCLimitPass u)%string).
  { intros Hcomp Eq. apply login_inj in Eq as [Eq _]; [|done..]. unfold complete, empty in Hcomp.
    rewrite (H1 Eq) in Hcomp. discriminate. }
  split; intros Hcomp NC; destruct (auth_by_login u _ _ NC) as [A1 A2]; subst s; fold u; rewrite A1, A2;
    rewrite !is_login_complete, Hcomp.
  - rewrite (bool_decide_eq_false_2 (_ = _)) by (now apply not_eq_sym, Hne).
    rewrite andb_false_r, bool_decide_eq_true_2 by done. done.
  - rewrite (bool_decide_eq_true_2 (RPCLimitUser u +:+ _ = _)%string) by done. cbn [andb]. split; [done|].
    destruct (complete (RPCUser u) _) eqn:E'; cbn [andb]; [|done]. now rewrite bool_decide_eq_false_2 by (now apply Hne).
Qed.

(** The built-in defaults let the administrator jiajimeidou in with 12345678. *)
Lemma loadConfig_logins_witness :
  exists r, loadConfig sample_host id (default_config sample_host) no_levels = Ok r /\
    checkAuth (newRPCServer_auth (rpc_users (rpc r.1.1))) [basic_auth "jiajimeidou" "12345678"] true = (true, true, None).
Proof.
  destruct (on_ok (loadConfig sample_host id (default_config sample_host) no_levels)
    (fun r => negb (DisableRPC (rpc r.1.1)))) as ([[c active] l] & E & F); [vm_compute; reflexivity|].
  exists (c, active, l). split; [exact E|]. apply negb_true_iff in F.
  destruct (loadConfig_logins sample_host id _ _ _ _ _ E F) as [_ H].
  destruct H as [H _]; [apply (bool_decide_unpack _); vm_compute; exact I..|].
  refine (proj1 (H _ _)); [reflexivity|].
  split_and!; [apply (bool_decide_unpack _); vm_compute; exact I|intros _; reflexivity|].
  intros E'. exfalso. revert E'. apply (bool_decide_unpack _). vm_compute. exact I.
Defined.

(** Two logins can still be the same text: the administrator is then a limited user. *)
Example logins_coincide :
  let u := MkCredentials "a" "b:c" "a:b" "c" in
  is_ok (loadConfig sample_host id (with_rpc (MkRpcOptions u false [] 20 false) (default_config sample_host)) no_levels) = true /\
  checkAuth (newRPCServer_auth u) [basic_auth "a" "b:c"] true = (true, false, None).
Proof. vm_compute. auto. Qed.

(** ** Dialing *)

Lemma empty_false s : s <> ""%string -> empty s = false.
Proof. intros H. now apply bool_decide_eq_false. Qed.

Definition normal_dial (o : proxy_options) : dialer :=
  if empty (Proxy o) then DirectDial
  else SocksDial (Proxy o) (ProxyUser o) (ProxyPass o)
         (TorIsolation o && empty (OnionProxy o) && negb (empty (ProxyUser o) && empty (ProxyPass o))).
Definition onion_dial (o : proxy_options) : dialer :=
  if NoOnion o then TorDisabled
  else if empty (OnionProxy o) then normal_dial o
  else SocksDial (OnionProxy o) (OnionProxyUser o) (OnionProxyPass o) (TorIsolation o).
Definition dns (o : proxy_options) : resolver :=
  if empty (Proxy o) then SystemLookup
  else if negb (empty (OnionProxy o)) then TorLookup (OnionProxy o)
  else if NoOnion o then SystemLookup else TorLookup (Proxy o).

Lemma setup_dial_ok o r : setup_dial o = Ok r ->
  r = (normal_dial o, onion_dial o, dns o) /\
  (TorIsolation o = true -> Proxy o <> ""%string \/ OnionProxy o <> ""%string).
Proof.
  unfold setup_dial, setup_proxy, setup_onion, onion_dial, normal_dial, dns. intros H.
  destruct (_ && _ && _)%bool eqn:E1 in H; [discriminate|]. split.
  - destruct (empty (Proxy o)), (empty (OnionProxy o)), (NoOnion o), (empty (ProxyUser o)), (empty (ProxyPass o)), (TorIsolation o); cbn in *.
    all: repeat match type of H with context [match ?m with Ok _ => _ | Err _ => _ end] => destruct m; cbn in H; [|discriminate H] end.
  all: now injection H as <-.
  - intros T. rewrite T in E1. cbn in E1. apply andb_false_iff in E1 as [E|E]; unfold empty in E;
      apply bool_decide_eq_false in E; auto.
Qed.

(** How an accepted configuration connects and resolves.  Ordinary addresses go
through the proxy when there is one, hidden services through the onion proxy when
there is one and nowhere when they are disabled; with a proxy and hidden services
enabled nothing is dialed directly and no name goes to the system resolver, and
names of hidden services are never resolved; stream isolation needs a proxy, and
is in force for a sole proxy only when it was given a user or a password. *)
Theorem loadConfig_dial env {level} (L : string -> level) cfg l c active l' :
  loadConfig env L cfg l = Ok (c, active, l') ->
  let o := proxies cfg in
  (forall addr, acbcDial c addr = if Contains (of_string addr) (of_string ".onion:") then onion_dial o else normal_dial o) /\
  (forall host, acbcLookup c host = if HasSuffix (of_string host) (of_string ".onion") then None else Some (dns o)) /\
  (Proxy o <> ""%string -> NoOnion o = false ->
     forall addr host, acbcDial c addr <> DirectDial /\ acbcLookup c host <> Some SystemLookup) /\
  (TorIsolation o = true -> Proxy o <> ""%string \/ OnionProxy o <> ""%string) /\
  (Proxy o <> ""%string -> OnionProxy o = ""%string -> forall a u p i, dial c = SocksDial a u p i ->
     i = TorIsolation o && negb (empty (ProxyUser o) && empty (ProxyPass o))).
Proof.
  intros H. apply loadConfig_inv in H as (? & ? & ? & ? & ? & _ & _ & _ & _ & _ & _ & _ & _ & N & _ & H & _).
  apply setup_dial_ok in H as [H T]. injection H as Hd Ho Hl. intros o. unfold acbcDial, acbcLookup.
  rewrite Hd, Ho, Hl. split_and!; try done.
  - intros P NO addr host. apply empty_false in P. subst o.
    unfold onion_dial, normal_dial, dns. rewrite NO, P. split; repeat case_match; congruence.
  - intros P O a u p i. apply empty_false in P.
    unfold normal_dial. subst o. rewrite P, O. change (empty "") with true. rewrite andb_true_r. intros E. now injection E as _ _ _ <-.
Qed.

Definition with_proxies (o : proxy_options) (cfg : config) : config :=
  MkConfig (misc cfg) (net cfg) (dirs cfg) (peers cfg) (rpc cfg) (blocks cfg) (indexes cfg) o (AddCheckpoints cfg)
    (whitelists cfg) (minRelayTxFee cfg) (addCheckpoints cfg) (dial cfg) (oniondial cfg) (lookup_fn cfg).
Definition tor_options : proxy_options := MkProxyOptions "127.0.0.1:9050" "" "" "" "" "" false true.

(** Isolation asked for with a proxy, and not in force. *)
Lemma loadConfig_dial_witness :
  exists r, loadConfig sample_host id (with_proxies tor_options (default_config sample_host)) no_levels = Ok r /\
    acbcDial r.1.1 "1.2.3.4:8333" <> DirectDial /\
    (forall a u p i, dial r.1.1 = SocksDial a u p i -> i = false).
Proof.
  destruct (on_ok (loadConfig sample_host id (with_proxies tor_options (default_config sample_host)) no_levels) (fun _ => true))
    as ([[c active] l] & E & _); [vm_compute; reflexivity|].
  exists (c, active, l). split; [exact E|]. destruct (loadConfig_dial sample_host id _ _ _ _ _ E) as (_ & _ & H & _ & I).
  split.
  - refine (proj1 (H _ eq_refl "1.2.3.4:8333"%string ""%string)). discriminate.
  - intros a u p i Hd. rewrite (I ltac:(discriminate) eq_refl a u p i Hd). reflexivity.
Defined.

(** ** Networks and their directories *)

Definition asked (n : net_options) : nat :=
  length (List.filter id [o_TestNet3 n; o_RegressionTest n; o_SimNet n; o_SigNet n]).

Lemma select_network_ok n active k n' : select_network n = Ok (active, k, n') ->
  k = asked n /\
  ((k <= 1)%nat ->
   if o_TestNet3 n then active = testNet3 else if o_RegressionTest n then active = regressionNetParams
   else if o_SimNet n then active = simNetParams else if o_SigNet n then signet_params n = Ok active
   else active = activeNetParams) /\
  DisableDNSSeed n' = DisableDNSSeed n || o_SimNet n /\ DisableStallHandler n' = DisableStallHandler n /\
  RelayNonStd n' = RelayNonStd n /\ RejectNonStd n' = RejectNonStd n.
Proof.
  unfold select_network, asked. destruct (o_TestNet3 n) eqn:E1, (o_RegressionTest n) eqn:E2, (o_SimNet n) eqn:E3, (o_SigNet n) eqn:E4.
  all: cbn; rewrite ?E1, ?E2, ?E3, ?E4; intros H.
  all: try (destruct (signet_params _) as [p|] eqn:Ep in H; [cbn in H|discriminate H]).
  all: injection H as <- <- <-; cbn; rewrite ?orb_true_r, ?orb_false_r; split_and!; try done; intros; try done; lia.
Qed.

Lemma netName_plain active : In (netName active) ["testnet"; "simnet"; "signet"]%string ->
  let name := of_string (netName active) in
  (slash ∉ name) /\ name <> [] /\ name <> dot /\ name <> dotdot.
Proof. cbn. intros H. destruct_or! H; try done; rewrite <- H; split_and!; try done; decide_now. Qed.

Lemma netName_values n active k n' : select_network n = Ok (active, k, n') -> (k <= 1)%nat ->
  netName active = ""%string \/ In (netName active) ["testnet"; "simnet"; "signet"]%string.
Proof.
  intros H Hk. apply select_network_ok in H as (_ & H & _). specialize (H Hk).
  assert (T : netName testNet3 = "testnet"%string) by (vm_compute; reflexivity).
  destruct (o_TestNet3 n); [subst; rewrite T; cbn; auto|]. destruct (o_RegressionTest n); [now subst; left|].
  destruct (o_SimNet n); [subst; right; cbn; auto|]. destruct (o_SigNet n); [|now subst; left].
  unfold signet_params in H. destruct (if bool_decide _ then _ else _); [|discriminate H]. cbn [mbind result_bind] in H.
  injection H as <-. unfold netName. cbn [chain]. unfold CustomSignetParams. cbn [Net Name]. right. destruct (_ =? _); cbn; auto.
Qed.

Lemma namespaced_last env active dir : In (netName active) ["testnet"; "simnet"; "signet"]%string ->
  last (SplitByte (of_string (namespaced env active dir)) slash) = Some (of_string (netName active)).
Proof.
  intros H%netName_plain. destruct H as (H1 & H2 & H3 & H4). unfold namespaced. rewrite of_to_string.
  set (name := of_string (netName active)) in *. clearbody name.
  unfold cleanAndExpandPath. rewrite of_to_string. set (b := match of_string dir with [] => _ | _ => _ end). clearbody b.
  assert (Hne := Clean_nonempty (ExpandEnv (h_getenv env) b)). set (d := Clean _) in *. clearbody d.
  destruct d as [|x d]; [done|]. change (Join (((x : byte) :: d) :: [name])) with (Clean ((x :: d) ++ slash :: name)). now apply Clean_last.
Qed.

(** The network of an accepted configuration.  At most one network was asked
for and it is the active one; the data and log directories end with its name when
it has one, so the directories of the test, simulation and signet networks are
apart whatever was given; DNS seeding is off when asked for, on the simulation
network and with --connect; non-standard transactions are relayed as asked for,
else as the network does. *)
Theorem loadConfig_network env {level} (L : string -> level) cfg l c active l' :
  loadConfig env L cfg l = Ok (c, active, l') ->
  let n := net cfg in
  (asked n <= 1)%nat /\
  (if o_TestNet3 n then active = testNet3 else if o_RegressionTest n then active = regressionNetParams
   else if o_SimNet n then active = simNetParams else if o_SigNet n then signet_params n = Ok active
   else active = activeNetParams) /\
  (netName active <> ""%string ->
     last (SplitByte (of_string (DataDir (dirs c))) slash) = Some (of_string (netName active)) /\
     last (SplitByte (of_string (LogDir (dirs c))) slash) = Some (of_string (netName active))) /\
  DisableDNSSeed (net c) = (DisableDNSSeed n || o_SimNet n || (0 <? length (ConnectPeers (peers cfg)))%nat) /\
  RelayNonStd n && RejectNonStd n = false /\
  RelayNonStd (net c) =
    (if RejectNonStd n then false else if RelayNonStd n then true else RelayNonStdTxs (chain active)).
Proof.
  intros H n. apply loadConfig_inv in H as (k & n0 & n1 & p0 & r0 & S & N & D & P & _). fold n in S.
  assert (V := netName_values _ _ _ _ S). apply select_network_ok in S as (Hk & Ha & S1 & S2 & S3 & S4).
  unfold check_network in N. destruct (1 <? k)%nat eqn:K; [discriminate|]. apply Nat.ltb_ge in K. specialize (V K).
  destruct (_ && _)%bool in N; [discriminate|]. rewrite S3, S4 in N.
  unfold check_dirs in D. destruct (bool_decide _) in D; [discriminate|]. destruct (negb _) in D; [discriminate|].
  destruct (parseAndSetDebugLevels _ _ _) as [[e|] lv] in D; [discriminate|].
  destruct (negb _) in D; [discriminate|]. destruct (_ && _)%bool in D; [discriminate|]. injection D as D _.
  unfold check_peers in P. destruct (_ <? _) in P; [discriminate|]. destruct (parse_whitelists _) in P; [cbn [mbind result_bind] in P|discriminate].
  destruct (_ && _)%bool in P; [discriminate|]. injection P as _ P _. rewrite <- P, <- D. clear P D.
  destruct (RelayNonStd n && RejectNonStd n)%bool eqn:B in N; [discriminate|].
  assert (N' : n1 = MkNetOptions (o_TestNet3 n0) (o_RegressionTest n0) (o_SimNet n0) (o_SigNet n0) (SigNetChallenge n0)
    (SigNetSeedNode n0) (DisableDNSSeed n0) (DisableStallHandler n0)
    (if RejectNonStd n then false else if RelayNonStd n then true else RelayNonStdTxs (chain active)) (RejectNonStd n))
    by (destruct (RejectNonStd n), (RelayNonStd n); cbn in N; now injection N as <-).
  rewrite N'. cbn. rewrite S1. split_and!; try done.
  - rewrite Hk in K. exact K.
  - apply Ha, K.
  - intros Hn. destruct V as [V|V]; [done|]. split; now apply namespaced_last.
  - destruct (ConnectPeers (peers cfg)); cbn; now rewrite ?orb_true_r, ?orb_false_r.
Qed.

Definition with_net (n : net_options) (cfg : config) : config :=
  MkConfig (misc cfg) n (dirs cfg) (peers cfg) (rpc cfg) (blocks cfg) (indexes cfg) (proxies cfg) (AddCheckpoints cfg)
    (whitelists cfg) (minRelayTxFee cfg) (addCheckpoints cfg) (dial cfg) (oniondial cfg) (lookup_fn cfg).
Definition simnet_options : net_options := MkNetOptions false false true false "" [] false true false false.

Lemma loadConfig_network_witness :
  exists r, loadConfig sample_host id (with_net simnet_options (default_config sample_host)) no_levels = Ok r /\
    last (SplitByte (of_string (DataDir (dirs r.1.1))) slash) = Some (of_string "simnet") /\
    bool_decide (DataDir (dirs r.1.1) = "/home/u/.acbc/data/simnet"%string) = true.
Proof.
  destruct (on_ok (loadConfig sample_host id (with_net simnet_options (default_config sample_host)) no_levels)
    (fun r => bool_decide (DataDir (dirs r.1.1) = "/home/u/.acbc/data/simnet"%string)))
    as ([[c active] l] & E & F); [vm_compute; reflexivity|].
  exists (c, active, l). split; [exact E|split; [|exact F]].
  destruct (loadConfig_network sample_host id _ _ _ _ _ E) as (_ & -> & H & _). exact (proj1 (H ltac:(discriminate))).
Defined.

(** The default network and the regression test network have no name and share
their directories. *)
Example shared_directories env dir :
  namespaced env activeNetParams dir = namespaced env regressionNetParams dir.
Proof. reflexivity. Qed.

(** ** Addresses *)

Lemma remove_seen_spec addrs : forall seen,
  NoDup (remove_seen seen addrs) /\ sublist (remove_seen seen addrs) addrs /\
  (forall a, a ∈ remove_seen seen addrs <-> a ∈ addrs /\ (a ∉ seen)).
Proof.
  induction addrs as [|x addrs IH]; intros seen; cbn [remove_seen].
  - split_and!; [constructor|constructor|]. set_solver.
  - case_bool_decide as Hx.
    + destruct (IH seen) as (H1 & H2 & H3). split_and!; [done|by constructor|]. intros a. rewrite H3. set_solver.
    + destruct (IH ({[x]} ∪ seen)) as (H1 & H2 & H3). split_and!.
      * constructor; [|done]. rewrite H3. set_solver.
      * by constructor.
      * intros a. rewrite !elem_of_cons, H3. destruct (decide (a = x)); set_solver.
Qed.

Lemma remove_seen_id addrs : forall seen, NoDup addrs -> (forall a, a ∈ addrs -> a ∉ seen) -> remove_seen seen addrs = addrs.
Proof.
  induction addrs as [|x addrs IH]; intros seen Hn Hs; [done|]. cbn [remove_seen]. inv Hn.
  rewrite bool_decide_eq_false_2 by (apply Hs; left). f_equal. apply IH; [done|]. intros a Ha. set_solver.
Qed.

(** Text without the brackets of an IPv6 address. *)
Definition plain (s : string) : Prop := (lbracket ∉ of_string s) /\ (rbracket ∉ of_string s).
Definition good_port (port : string) : Prop := plain port /\ (colon ∉ of_string port).

Lemma normalizeAddress_ok addr port : plain addr -> good_port port ->
  exists host p, SplitHostPort (of_string (normalizeAddress addr port)) = Ok (host, p) /\
    (normalizeAddress addr port = addr \/
     is_ok (SplitHostPort (of_string addr)) = false /\ host = of_string addr /\ p = of_string port).
Proof.
  intros [A1 A2] [[P1 P2] P3]. unfold normalizeAddress. destruct (SplitHostPort (of_string addr)) as [[host p]|e] eqn:E.
  - exists host, p. auto.
  - exists (of_string addr), (of_string port). unfold host_port. rewrite of_to_string, SplitHostPort_Join by done. auto.
Qed.

(** Normalised addresses.  Whatever addresses without brackets are given, the
result lists the given addresses in their order without repetitions, each with a
host and a port: its own, or the default port behind it when it had none; and
normalising again changes nothing. *)
Theorem normalizeAddresses_spec addrs port :
  Forall plain addrs -> good_port port ->
  let r := normalizeAddresses addrs port in
  NoDup r /\ sublist r (map (fun a => normalizeAddress a port) addrs) /\
  (forall a, a ∈ r <-> exists addr, addr ∈ addrs /\ a = normalizeAddress addr port) /\
  (forall addr, addr ∈ addrs -> exists host p, SplitHostPort (of_string (normalizeAddress addr port)) = Ok (host, p) /\
     (normalizeAddress addr port = addr \/
      is_ok (SplitHostPort (of_string addr)) = false /\ host = of_string addr /\ p = of_string port)) /\
  normalizeAddresses r port = r.
Proof.
  intros Ha Hp r. destruct (remove_seen_spec (map (fun a => normalizeAddress a port) addrs) ∅) as (H1 & H2 & H3).
  assert (H4 : forall a, a ∈ r <-> exists addr, addr ∈ addrs /\ a = normalizeAddress addr port).
  { intros a. unfold r, normalizeAddresses, removeDuplicateAddresses. rewrite H3, list_elem_of_fmap.
    split; [intros [(y & -> & ?) _]; eauto|intros (y & ? & ->); split; [eauto|set_solver]]. }
  rewrite Forall_forall in Ha. split_and!; try done.
  - intros addr Hin. apply normalizeAddress_ok; [now apply Ha|done].
  - unfold normalizeAddresses at 1.
    assert (E : map (fun a => normalizeAddress a port) r = r).
    { rewrite <- (map_id r) at 2. apply map_ext_in. intros a Hin. apply list_elem_of_In, H4 in Hin as (addr & Hin & ->).
      destruct (normalizeAddress_ok addr port (Ha _ Hin) Hp) as (host & p & E & _).
      unfold normalizeAddress at 1. now rewrite E. }
    rewrite E. apply remove_seen_id; [exact H1|set_solver].
Qed.

Lemma normalizeAddresses_spec_witness :
  normalizeAddresses (normalizeAddresses ["::1"; "localhost"; "localhost:8334"; ":9"]%string "8334") "8334" =
    ["[::1]:8334"; "localhost:8334"; ":9"]%string.
Proof.
  rewrite (proj2 (proj2 (proj2 (proj2 (normalizeAddresses_spec ["::1"; "localhost"; "localhost:8334"; ":9"]%string "8334"
    ltac:(unfold plain; decide_now) ltac:(unfold good_port, plain; decide_now)))))).
  vm_compute. reflexivity.
Defined.

(** A bracketed address without a port gets a second pair of brackets. *)
Example normalizeAddress_brackets :
  normalizeAddress "[::1]" "8334" = "[[::1]]:8334"%string /\
  is_ok (SplitHostPort (of_string (normalizeAddress "[::1]" "8334"))) = false.
Proof. vm_compute. auto. Qed.

(** ** Checkpoints *)

Definition checkpoint_text (height : Z) (hash : bytes) : string :=
  (fmt_d height +:+ ":" +:+ to_string (Hash_String hash))%string.

Lemma toHexChar_colon d : 0 <= d < 16 -> toHexChar d <> colon.
Proof. intros Hd E. pose proof (fromHex_toHex d Hd) as F. rewrite E in F. discriminate. Qed.

Lemma Hash_String_no_colon h : length h = 32%nat -> colon ∉ Hash_String h.
Proof.
  intros Hh. rewrite Hash_String_spec by done. unfold hex_EncodeToString. rewrite list_elem_of_In, in_concat.
  intros (x & Hx & Hin). apply in_map_iff in Hx as (b & <- & _).
  destruct (nibbles (byte_val b) (byte_val_range b)) as (N1 & N2 & _).
  destruct Hin as [E|[E|[]]]; revert E; now apply toHexChar_colon.
Qed.

(** Checkpoints round trip.  The height, a colon and the display form of the
hash read back as the checkpoint, for every height of 32 bits, and any list of
such texts as the list of checkpoints; a text without exactly one colon, with a
height that does not fit, or without a hash is refused as such. *)
Theorem newCheckpointFromStr_roundtrip height hash :
  in_i32 height -> length hash = 32%nat ->
  newCheckpointFromStr (checkpoint_text height hash) = Ok (MkCheckpoint height hash) /\
  (forall rest, parseCheckpoints (checkpoint_text height hash :: rest) =
     (cps ← parseCheckpoints rest; Ok (MkCheckpoint height hash :: cps))) /\
  newCheckpointFromStr (fmt_d height) = Err (BadSyntax (fmt_d height)) /\
  newCheckpointFromStr (fmt_d height +:+ ":") = Err (MissingHash (fmt_d height +:+ ":")).
Proof.
  intros Hh Hl. unfold in_i32 in Hh.
  assert (Hp : ParseInt (of_string (fmt_d height)) 32 = Some height) by (apply ParseInt_fmt_d; lia).
  assert (Hc : colon ∉ of_string (fmt_d height)).
  { intros H. apply fmt_d_bytes in H as [H|H]; [unfold is_dec in H; cbn in H; lia|discriminate]. }
  assert (Hi : i32 height = height) by (unfold i32; rewrite Z.mod_small; lia).
  assert (E : newCheckpointFromStr (checkpoint_text height hash) = Ok (MkCheckpoint height hash)).
  { unfold newCheckpointFromStr, checkpoint_text. rewrite !of_string_app, of_to_string.
    change (of_string ":" ++ Hash_String hash) with (colon :: Hash_String hash).
    rewrite SplitByte_app, (SplitByte_none (Hash_String hash)) by (try apply Hash_String_no_colon; done). rewrite Hp.
    destruct (Hash_String_roundtrip hash Hl) as (Hlen & _ & ->). rewrite Hlen. cbn [Nat.eqb]. now rewrite Hi. }
  split_and!; [done| | |].
  - intros rest. cbn [parseCheckpoints]. now rewrite E.
  - unfold newCheckpointFromStr. now rewrite SplitByte_none.
  - unfold newCheckpointFromStr. rewrite of_string_app. change (of_string ":") with (colon :: []).
    rewrite SplitByte_app by done. cbn [SplitByte]. now rewrite Hp.
Qed.

Lemma newCheckpointFromStr_roundtrip_witness :
  newCheckpointFromStr (checkpoint_text 546 (x01 :: replicate 31 x00)) = Ok (MkCheckpoint 546 (x01 :: replicate 31 x00)).
Proof. exact (proj1 (newCheckpointFromStr_roundtrip 546 (x01 :: replicate 31 x00) ltac:(words) eq_refl)). Defined.

(** The credentials of sample-acbc.conf as it stands are refused. *)
Example sample_conf_refused :
  loadConfig sample_host id
    (with_rpc (MkRpcOptions (MkCredentials "jajimeidou" "12345678" "jiajimeidoulimit" "12345678") false [] 20 false)
       (default_config sample_host)) no_levels = Err SamePassword.
Proof. vm_compute. reflexivity. Qed.

(** ** Log levels *)

Section levels.
Context {level : Type} (L : string -> level).

Lemma setLogLevel_lookup id lvl (l : gmap string level) id' :
  setLogLevel L id lvl l !! id' = if decide (id = id') then (fun _ => L lvl) <$> l !! id' else l !! id'.
Proof.
  unfold setLogLevel. destruct (decide (id = id')) as [->|Hne].
  - destruct (l !! id') eqn:E; [|now rewrite E]. now rewrite lookup_insert_eq.
  - destruct (l !! id); [|done]. now rewrite lookup_insert_ne.
Qed.

(** Setting the level of every logger. *)
Lemma setLogLevels_lookup lvl (l : gmap string level) id : setLogLevels L lvl l !! id = (fun _ => L lvl) <$> l !! id.
Proof.
  unfold setLogLevels.
  assert (H : forall (ps : list (string * level)) (l' : gmap string level), (forall id, l' !! id = l !! id \/ l' !! id = (fun _ => L lvl) <$> l !! id) ->
    (id ∈ map fst ps \/ l' !! id = (fun _ => L lvl) <$> l !! id) ->
    fold_left (fun l' p => setLogLevel L p.1 lvl l') ps l' !! id = (fun _ => L lvl) <$> l !! id).
  { intros ps. induction ps as [|p ps IH]; intros l' Hl Hid; cbn [fold_left map] in *.
    - destruct Hid as [Hid|Hid]; [now apply elem_of_nil in Hid|done].
    - assert (Hp : forall id', setLogLevel L p.1 lvl l' !! id' = if decide (p.1 = id') then (fun _ => L lvl) <$> l !! id' else l' !! id').
      { intros id'. rewrite setLogLevel_lookup. case_decide; [|done]. destruct (Hl id') as [->| ->]; [done|]. now destruct (l !! id'). }
      apply IH; [intros id'; rewrite Hp; case_decide; auto|]. rewrite Hp. case_decide; [auto|]. rewrite elem_of_cons in Hid.
      destruct Hid as [[->|Hid]|Hid]; [done|auto|auto]. }
  apply H; [auto|]. destruct (l !! id) as [v|] eqn:E; [|now right]. left.
  apply list_elem_of_fmap. exists (id, v). split; [done|]. now apply elem_of_map_to_list.
Qed.

(** The text of subsystem and level pairs. *)
Fixpoint pairs_text (ps : list (string * string)) : bytes :=
  match ps with
  | [] => []
  | [p] => of_string p.1 ++ equals :: of_string p.2
  | p :: ps => (of_string p.1 ++ equals :: of_string p.2) ++ comma :: pairs_text ps
  end.
Definition plain_pair (p : string * string) : Prop :=
  (comma ∉ of_string p.1) /\ (equals ∉ of_string p.1) /\ (comma ∉ of_string p.2) /\ (equals ∉ of_string p.2).

Lemma pairs_text_split ps : ps <> [] -> Forall plain_pair ps ->
  SplitByte (pairs_text ps) comma = map (fun p => of_string p.1 ++ equals :: of_string p.2) ps.
Proof.
  intros Hne H. induction H as [|p ps Hp Hps IH]; [done|].
  assert (Hc : comma ∉ of_string p.1 ++ equals :: of_string p.2).
  { destruct Hp as (? & ? & ? & ?). rewrite elem_of_app, elem_of_cons. intuition discriminate. }
  destruct ps as [|q ps]; [now apply SplitByte_none|].
  change (pairs_text (p :: q :: ps)) with ((of_string p.1 ++ equals :: of_string p.2) ++ comma :: pairs_text (q :: ps)).
  rewrite SplitByte_app by done. cbn [map]. f_equal. now apply IH.
Qed.

Definition known_pair (l : gmap string level) (p : string * string) : Prop :=
  is_Some (l !! p.1) /\ validLogLevel p.2 = true.
Definition set_pair (l : gmap string level) (p : string * string) : gmap string level := <[p.1 := L p.2]> l.

Lemma set_pairs_known ps : forall rest (l : gmap string level), Forall plain_pair ps -> Forall (known_pair l) ps ->
  set_pairs L (map (fun p => of_string p.1 ++ equals :: of_string p.2) ps ++ rest) l =
    set_pairs L rest (fold_left set_pair ps l).
Proof.
  induction ps as [|p ps IH]; intros rest l Hp Hk; [done|]. inv Hp. inv Hk.
  match goal with H : plain_pair p |- _ => destruct H as (P1 & P2 & P3 & P4) end.
  match goal with H : known_pair l p |- _ => destruct H as [[v Hv] Hl] end.
  cbn [map app fold_left set_pairs]. unfold ContainsByte. rewrite bool_decide_eq_true_2 by set_solver. cbn [negb].
  rewrite SplitByte_app, SplitByte_none by done. rewrite !to_of_string, Hv, Hl. cbn [negb].
  unfold setLogLevel. rewrite Hv. apply IH; [done|].
  eapply Forall_impl; [eassumption|]. intros q [[w Hw] Hq]. split; [unfold set_pair|done].
  destruct (decide (p.1 = q.1)) as [E|E]; [rewrite E, lookup_insert_eq|rewrite lookup_insert_ne]; eauto.
Qed.
End levels.

(** Debug levels.  A level alone is given to every subsystem; pairs of
subsystem and level are applied one after the other; an unknown subsystem or
level is an error that names it, and leaves what the pairs before it have set. *)
Theorem parseAndSetDebugLevels_spec {level} (L : string -> level) (l : gmap string level) ps bad rest :
  Forall plain_pair (ps ++ bad :: rest) -> Forall (known_pair l) ps ->
  let after := fold_left (set_pair L) ps l in
  (forall lvl, validLogLevel lvl = true -> exists l', parseAndSetDebugLevels L lvl l = (None, l') /\
     forall id, l' !! id = (fun _ => L lvl) <$> l !! id) /\
  (ps <> [] -> parseAndSetDebugLevels L (to_string (pairs_text ps)) l = (None, after)) /\
  (l !! bad.1 = None ->
     parseAndSetDebugLevels L (to_string (pairs_text (ps ++ bad :: rest))) l =
       (Some (InvalidSubsystem bad.1 supportedSubsystems), after)) /\
  (is_Some (l !! bad.1) -> validLogLevel bad.2 = false ->
     parseAndSetDebugLevels L (to_string (pairs_text (ps ++ bad :: rest))) l = (Some (InvalidLevel bad.2), after)).
Proof.
  intros Hp Hk after. set (text := fun p : string * string => of_string p.1 ++ equals :: of_string p.2).
  assert (Hset : forall qs, qs <> [] -> Forall plain_pair qs ->
    parseAndSetDebugLevels L (to_string (pairs_text qs)) l = set_pairs L (map text qs) l).
  { intros qs Hne Hq. unfold parseAndSetDebugLevels. rewrite of_to_string.
    assert (He : ContainsByte (pairs_text qs) equals = true).
    { destruct qs as [|q [|q' qs]]; [done| |]; cbn [pairs_text]; apply bool_decide_eq_true; set_solver. }
    rewrite He, andb_false_r. now rewrite pairs_text_split. }
  assert (Hdom : forall id, is_Some (after !! id) <-> is_Some (l !! id)).
  { assert (G : forall l0 : gmap string level, (forall id, is_Some (l0 !! id) <-> is_Some (l !! id)) -> Forall (known_pair l) ps ->
      forall id, is_Some (fold_left (set_pair L) ps l0 !! id) <-> is_Some (l !! id)).
    { clear. induction ps as [|p ps IH]; intros l0 H0 Hk id; [apply H0|]. inv Hk. cbn [fold_left]. apply IH; [|done].
      intros id'. unfold set_pair. match goal with H : known_pair l p |- _ => destruct H as [Hs _] end.
      destruct (decide (p.1 = id')) as [<-|E]; [rewrite lookup_insert_eq; split; eauto|rewrite lookup_insert_ne by done; apply H0]. }
    apply G; done. }
  assert (Hpre : Forall plain_pair ps) by (now apply Forall_app in Hp).
  assert (Hbad : set_pairs L (map text (ps ++ bad :: rest)) l =
    match after !! bad.1 with
    | None => (Some (InvalidSubsystem bad.1 supportedSubsystems), after)
    | Some _ => if negb (validLogLevel bad.2) then (Some (InvalidLevel bad.2), after)
                else set_pairs L (map text rest) (setLogLevel L bad.1 bad.2 after)
    end).
  { rewrite map_app. unfold text at 1. rewrite set_pairs_known by done. fold after. cbn [map set_pairs].
    apply Forall_app in Hp as [_ Hp]. inv Hp. match goal with H : plain_pair bad |- _ => destruct H as (P1 & P2 & P3 & P4) end.
    unfold ContainsByte, text at 1. rewrite bool_decide_eq_true_2 by set_solver. cbn [negb].
    unfold text at 1. rewrite SplitByte_app, SplitByte_none by done. now rewrite !to_of_string. }
  split_and!.
  - intros lvl Hl. exists (setLogLevels L lvl l). split; [|intros id; apply setLogLevels_lookup].
    unfold parseAndSetDebugLevels.
    pose proof Hl as Hin. unfold validLogLevel in Hin. apply bool_decide_eq_true, list_elem_of_In in Hin.
    rewrite Hl. cbn in Hin. now destruct_or! Hin; subst.
  - intros Hne. rewrite Hset by done. rewrite <- (app_nil_r (map text ps)). unfold text. now rewrite set_pairs_known.
  - intros Hb. rewrite Hset by (done || now destruct ps). rewrite Hbad.
    destruct (after !! bad.1) eqn:E; [|done]. destruct (proj1 (Hdom bad.1)) as [v Hv]; [eauto|]. congruence.
  - intros Hb Hv. rewrite Hset by (done || now destruct ps). rewrite Hbad.
    destruct (proj2 (Hdom bad.1) Hb) as [v ->]. now rewrite Hv.
Qed.

Lemma parseAndSetDebugLevels_spec_witness :
  exists l', parseAndSetDebugLevels id "RPCS=debug,PEER=loud" no_levels = (Some (InvalidLevel "loud"), l') /\
    l' !! "RPCS"%string = Some "debug"%string.
Proof.
  destruct (parseAndSetDebugLevels_spec id no_levels [("RPCS", "debug")%string] ("PEER", "loud")%string [])
    as (_ & _ & _ & H).
  - unfold plain_pair. cbn [app]. repeat constructor; decide_now.
  - constructor; [|constructor]. split; [eexists|]; vm_compute; reflexivity.
  - eexists. split; [refine (H _ _)|].
    + eexists. vm_compute. reflexivity.
    + reflexivity.
    + vm_compute. reflexivity.
Defined.

(** ** The default configuration file *)

Definition end_line (line : bytes) : bytes := line ++ [newline].

Lemma read_lines_end line s : newline ∉ line -> read_lines (end_line line ++ s) = end_line line :: read_lines s.
Proof.
  induction line as [|x line IH]; intros H; [done|]. apply not_elem_of_cons in H as [H1 H2].
  change (read_lines (end_line (x :: line) ++ s)) with
    (if bool_decide (x = newline) then [x] :: read_lines (end_line line ++ s)
     else match read_lines (end_line line ++ s) with f :: fs => (x :: f) :: fs | [] => [[x]] end).
  rewrite bool_decide_eq_false_2 by congruence. now rewrite IH.
Qed.

Lemma read_lines_last line : newline ∉ line -> read_lines line = [line].
Proof.
  induction line as [|x line IH]; intros H; [done|]. apply not_elem_of_cons in H as [H1 H2]. cbn.
  rewrite bool_decide_eq_false_2 by congruence. now rewrite IH.
Qed.

(** Every text is lines with their ends and a last one without. *)
Lemma read_lines_inv s : exists lines end_, Forall (fun l => newline ∉ l) lines /\ (newline ∉ end_) /\
  s = concat (map end_line lines) ++ end_ /\ read_lines s = map end_line lines ++ [end_].
Proof.
  induction s as [|x s (lines & end_ & H1 & H2 & E1 & E2)]; [exists [], []; split_and!; set_solver|].
  cbn [read_lines]. rewrite E2. case_bool_decide as Hx.
  - exists ([] :: lines), end_. subst. split_and!; try done. constructor; set_solver.
  - destruct lines as [|l lines]; cbn [map app].
    + exists [], (x :: end_). subst. split_and!; set_solver.
    + exists ((x :: l) :: lines), end_. inv H1. split_and!; try done. constructor; set_solver.
Qed.

Lemma read_lines_concat lines end_ : Forall (fun l => newline ∉ l) lines -> newline ∉ end_ ->
  read_lines (concat (map end_line lines) ++ end_) = map end_line lines ++ [end_].
Proof.
  intros H He. induction H as [|l lines Hl Hlines IH]; [now apply read_lines_last|].
  cbn [map concat app]. rewrite <- app_assoc, read_lines_end by done. now rewrite IH.
Qed.

Lemma copy_lines_all user pass lines : copy_lines user pass lines None None = (None, concat (map (rewrite_line user pass) lines)).
Proof.
  induction lines as [|l [|l2 lines] IH]; [done|done|].
  change (copy_lines user pass (l :: l2 :: lines) None None) with
    (let '(err, out) := copy_lines user pass (l2 :: lines) None None in (err, rewrite_line user pass l ++ out)).
  now rewrite IH.
Qed.

(** A system on which nothing fails. *)
Definition copying (src r1 r2 : bytes) : default_env := MkDefaultEnv None None (Ok r1) (Ok r2) (Ok (src, None)) None None.

(** What becomes of a line of the sample. *)
Definition default_line (r1 r2 line : bytes) : bytes :=
  if Contains (end_line line) (of_string "rpcuser=") then of_string "rpcuser=" ++ EncodeToString r1
  else if Contains (end_line line) (of_string "rpcpass=") then of_string "rpcpass=" ++ EncodeToString r2
  else line.

(** The file of defaults.  It has the lines of the sample in their order, where
each line that mentions the administrator's user is replaced by the generated
user and each other line that mentions the password by the generated password;
all else, the limited credentials included, is copied as it stands. *)
Theorem createDefaultConfigFile_lines lines r1 r2 :
  Forall (fun l => newline ∉ l) lines ->
  exists out, createDefaultConfigFile (copying (concat (map end_line lines)) r1 r2) = (None, Some out) /\
  read_lines out = map end_line (map (default_line r1 r2) lines) ++ [[]] /\
  (forall line, In line lines -> Contains (end_line line) (of_string "rpcuser=") = false ->
     Contains (end_line line) (of_string "rpcpass=") = false -> In (end_line line) (read_lines out)) /\
  (Forall (fun l => Contains (end_line l) (of_string "rpcuser=") = false /\ Contains (end_line l) (of_string "rpcpass=") = false) lines ->
     out = concat (map end_line lines)).
Proof.
  intros Hl. unfold createDefaultConfigFile, copying. cbn [mkdir_err abs_err random1 random2 sample dest_err dest_room].
  rewrite copy_lines_all. set (out := concat (map (rewrite_line _ _) _)). exists out.
  assert (Hd : Forall (fun l => newline ∉ l) (map (default_line r1 r2) lines)).
  { apply Forall_map. eapply Forall_impl; [exact Hl|]. intros l Hn. cbn. unfold default_line.
    repeat case_match; [| |done]; rewrite elem_of_app; intros [G|G]; try (now apply b64_no_newline in G).
    all: revert G; decide_now. }
  assert (E : out = concat (map end_line (map (default_line r1 r2) lines))).
  { unfold out.
    rewrite <- (app_nil_r (concat (map end_line lines))), read_lines_concat by (done || apply not_elem_of_nil).
    rewrite map_app, concat_app, !map_map.
    change (concat (map (rewrite_line (EncodeToString r1) (EncodeToString r2)) [[]])) with (@nil byte). rewrite app_nil_r.
    f_equal. apply map_ext. intros l. unfold rewrite_line, default_line, end_line.
    destruct (Contains _ (of_string "rpcuser=")); [now rewrite <- app_assoc|].
    destruct (Contains _ _); [now rewrite <- app_assoc|done]. }
  assert (R : read_lines out = map end_line (map (default_line r1 r2) lines) ++ [[]]).
  { rewrite E, <- (app_nil_r (concat _)). apply read_lines_concat; [done|apply not_elem_of_nil]. }
  split_and!; [done|exact R| |].
  - intros line Hin H1 H2. rewrite R. apply in_app_iff. left. apply in_map, in_map_iff. exists line.
    unfold default_line. rewrite H1, H2. auto.
  - intros H. rewrite E. do 2 f_equal. rewrite <- (map_id lines) at 2. apply map_ext_Forall.
    eapply Forall_impl; [exact H|]. intros l [H1 H2]. unfold default_line. now rewrite H1, H2.
Qed.

Lemma createDefaultConfigFile_lines_witness :
  let lines := map of_string ["  rpcuser=jajimeidou"; "  rpcpass=12345678"; "  rpclimituser=jiajimeidoulimit"; "  rpclimitpass=12345678"]%string in
  exists out, createDefaultConfigFile (copying (concat (map end_line lines)) (replicate 20 x01) (replicate 20 x02)) = (None, Some out) /\
    In (end_line (of_string "  rpclimitpass=12345678")) (read_lines out).
Proof.
  intros lines.
  destruct (createDefaultConfigFile_lines lines (replicate 20 x01) (replicate 20 x02)) as (out & E & _ & H & _); [decide_now|].
  exists out. split; [exact E|]. apply H; [cbn; auto 10|vm_compute; reflexivity..].
Defined.
