(* ===== verification/RpcClientExamples.v ===== *)
(** * The example programs (rpcclient/examples)

The two programs that the package comes with, against a server with the default
configuration: the one that posts prints the hash it asks for if the host trusts the
server's certificate, and panics if not; the one over a websocket never gets to ask. *)

From Stdlib Require Import ZArith Lia List.
From Stdlib Require Import Strings.String Strings.Byte.
From S2P Require Import Prelude WireFormat ChainHash JsonTypes AcbcJson AcbcJsonProps AcbcJsonCmds GoFloat GoStrings AcbcUtil.
From S2P Require Import ChainParams RpcAuth RpcServer RpcServerProps RpcHttp RpcHttpProps Config.
From S2P Require ConfigProps.
From S2P Require Import RpcClientNtfn RpcClient RpcClientProps RpcClientApi RpcClientConn RpcClientServer.

#[local] Open Scope list_scope.
#[local] Set Warnings "-register-all".

#[local] Opaque the_registry.

(** What a program prints: a line, a hash in a format, or the error it ends with. *)
Inductive line := Println (s : string) | Printf (format : string) (hash : bytes) | Fatal (err : cerr).

Section programs.
(** The parser of proxy URLs, the files and the network at the time of New, and what
runs while a call waits. *)
Context (parse_ok : string -> bool) (v : fs_view) (net : dial_request -> dial_outcome) (receive : waiting_for).

(** ** acbccorehttp/main.go *)

Definition corehttp_config : ConnConfig :=
  MkConnConfig "127.0.0.1:8334" "" "jiajimeidou" "12345678" "" false [] "" "" "" false false true [].

(** The lines, and the client when main returns, which it shuts down: log.Fatal skips
what is deferred. *)
Definition corehttp_main : list line * option Client :=
  match New parse_ok corehttp_config None v net zero_cookie with
  | Err err => ([Fatal err], None)
  | Ok (client, _, _) =>
      let '(blockhash, client) := GetBlockHash the_registry receive 1111 client in
      match blockhash with
      | Err err => ([Println "before"; Fatal err], None)
      | Ok blockhash => ([Println "before"; Println "after"; Printf "Block hash: %s" blockhash], Some (Shutdown client))
      end
  end.

(** How the program ends: main returns, with the client; log.Fatal; a panic; or not, as
long as no attempt at the request decides. *)
Inductive ending := Returns (c : Client) | Exits | Panics | Waits.

(** What waits for the response, when sendPostHandler takes the request and makes these
attempts at it; [parse] is the JSON reader. *)
Definition posting (parse : string -> option json) (attempts : list attempt) : waiting_for := fun ch _ c =>
  match post_next c with
  | Some (jReq, c) =>
      match handleSendPostMessage parse corehttp_config jReq attempts zero_cookie c with
      | (Answered c, _) => (default (Err ErrClientShutdown) (ReceiveFuture ch c), c)
      | _ => (Err ErrClientShutdown, c)
      end
  | None => (Err ErrClientShutdown, c)
  end.
End programs.

Section runs.
Context (parse_ok : string -> bool) (v : fs_view) (net : dial_request -> dial_outcome).

(** The whole program: the request is made once "before" is printed; what the attempts at
it come to decides whether main gets to go on. *)
Definition corehttp_run (parse : string -> option json) (attempts : list attempt) : list line * ending :=
  match New parse_ok corehttp_config None v net zero_cookie with
  | Err err => ([Fatal err], Exits)
  | Ok (client, _, _) =>
      let '(_, _, client) := GetBlockHashAsync the_registry 1111 client in
      match post_next client with
      | None => ([Println "before"], Waits)
      | Some (jReq, client) =>
          match handleSendPostMessage parse corehttp_config jReq attempts zero_cookie client with
          | (Panicked, _) => ([Println "before"], Panics)
          | (Trying, _) => ([Println "before"], Waits)
          | (Answered _, _) =>
              let '(lines, c) := corehttp_main parse_ok v net (posting parse attempts) in
              (lines, match c with Some c => Returns c | None => Exits end)
          end
      end
  end.
End runs.

Section programs.
Context (parse_ok : string -> bool) (v : fs_view) (net : dial_request -> dial_outcome) (receive : waiting_for).

(** ** acbcwebsockets/main.go *)

Definition websockets_handlers : NotificationHandlers :=
  MkHandlers false false true false true false false false false false false false false false false false.
Definition websockets_config (certs : bytes) : ConnConfig :=
  MkConnConfig "localhost:8334" "ws" "yourrpcuser" "yourrpcpass" "" false certs "" "" "" false false false [].

(** The function set for later runs only if the process still does. *)
Definition websockets_main (acbcHomeDir : string) (readFile : string -> result cerr bytes) : list line * option Client :=
  let start := [Println acbcHomeDir] in
  match readFile (to_string (Join [of_string acbcHomeDir; of_string "rpc.cert"])) with
  | Err err => (start ++ [Fatal err], None)
  | Ok certs =>
      match New parse_ok (websockets_config certs) (Some websockets_handlers) v net zero_cookie with
      | Err err => (start ++ [Fatal err], None)
      | Ok (client, _, _) =>
          match NotifyBlocks the_registry receive client with
          | (Some err, _) => (start ++ [Fatal err], None)
          | (None, client) =>
              let start := start ++ [Println "NotifyBlocks: Registration Complete"] in
              let '(blockCount, client) := GetBlockHash the_registry receive 1111 client in
              match blockCount with
              | Err err => (start ++ [Fatal err], None)
              | Ok blockCount =>
                  (start ++ [Printf "Block count: %d" blockCount; Println "Client shutdown in 10 seconds..."], Some client)
              end
          end
      end
  end.
End programs.

(** ** The posting example *)

Definition posted_request : jsonRequest :=
  MkJsonRequest 1 "getblockhash" (cmd_of GetBlockHashCmd (NewGetBlockHashCmd 1111)) (request_json (getblockhash_request 1111 1)) 0.

(** The client that New makes of the configuration, and after it posted the request. *)
Definition http_client : Client :=
  MkClient 0 0 0 true false true false false false [] ∅ [] None newNotificationState [] [] [] [].
Definition http_asked : Client :=
  MkClient 1 0 1 true false true false false false [] ∅ [] None newNotificationState [] [posted_request] [] [].

Lemma New_corehttp parse_ok v net : New parse_ok corehttp_config None v net zero_cookie = Ok (http_client, TestNet3Params, [SendPostHandler]).
Proof. reflexivity. Qed.

Lemma GetBlockHashAsync_posts : GetBlockHashAsync the_registry 1111 http_client = (0%nat, None, http_asked).
Proof.
  unfold GetBlockHashAsync, SendCmd, SendCmd_request. rewrite CmdMethod_getblockhash. cbn [NextID].
  change (u64 (c_id http_client + 1)) with 1. cbn [batch http_client]. rewrite MarshalCmd_getblockhash. reflexivity.
Qed.

Lemma unmarshal_raw_reply res id : unmarshal_raw (reply_json res id) = Some (Some res, None).
Proof. reflexivity. Qed.

(** The program with a client whose request was answered by the server. *)
Lemma corehttp_answered parse_ok v net parse body attempts index k : in_i64 index -> 0 <= index ->
  parse body = Some (reply_json (JStr (padded_decimal index)) 1) ->
  handleSendPostMessage parse corehttp_config posted_request attempts zero_cookie (set_queues [] [] http_asked) =
    (Answered (deliver 0 (post_response parse false 200 (Ok body)) (set_queues [] [] http_asked)), k) ->
  exists hash client, corehttp_run parse_ok v net parse attempts =
      ([Println "before"; Println "after"; Printf "Block hash: %s" hash], Returns client) /\
    string_of_list_byte (Hash_String hash) = padded_decimal index.
Proof.
  intros HI HP Hparse EH. destruct (padded_hash index (conj HP (proj2 HI))) as (hash & E1 & E2).
  set (c1 := set_queues [] [] http_asked) in *.
  unfold post_response in EH. rewrite Hparse, unmarshal_raw_reply in EH.
  assert (HR : (posting parse attempts 0%nat None http_asked).1 = Ok (Some (JStr (padded_decimal index)))).
  { unfold posting. change (post_next http_asked) with (Some (posted_request, c1)). cbv iota beta. rewrite EH. reflexivity. }
  unfold corehttp_run, corehttp_main. rewrite New_corehttp. cbv iota beta. unfold GetBlockHash. rewrite GetBlockHashAsync_posts.
  change (post_next http_asked) with (Some (posted_request, c1)). cbv iota beta. rewrite EH.
  destruct (posting parse attempts 0%nat None http_asked) as [res c]. cbn in HR. subst res.
  exists hash, (Shutdown c). split; [|exact E2]. unfold hash_result. cbn [mbind result_bind]. rewrite json_string_str. cbn [mbind result_bind].
  unfold new_hash. now rewrite E1.
Qed.

(** The request as the server gets it: the posted text, with the header that the client
sets, over a connection that can be hijacked and takes all writes. *)
Definition posted : http_request :=
  MkHttpRequest (Ok (SingleBody (Ok (j_json posted_request)))) [basic_auth (User corehttp_config) (Pass corehttp_config)] (1, 1) true None None.

(** The roots that the transport of the example's client verifies a certificate against;
[None] are those of the host. *)
Definition transport_roots (parse_ok : string -> bool) (config : ConnConfig) : option bytes :=
  match newHTTPClient parse_ok config with Ok (_, Some t) => RootCAs t | _ => None end.

(** An attempt over TLS at a server with the certificate [cert], which answers with status
200 and [body]: as net/http and crypto/tls have it, it fails in the handshake unless the
certificate verifies against the transport's roots, so that the server never gets the
request. *)
Definition exchange (parse_ok : string -> bool) (verifies : option bytes -> bytes -> bool) (cert : bytes) (body : string) (a : attempt) : Prop :=
  at_request a = None /\
  if verifies (transport_roots parse_ok corehttp_config) cert then at_response a = Ok (200, Ok body)
  else exists err, at_response a = Err err.

(** C25: the posting example works with a server as it is configured by default only where
the host trusts the server's certificate.  Both sides use TLS; the example is given no
certificate, so that its transport verifies the server's against the roots of the host,
and the server's own is self-signed ([first_start_certificate]).  If the certificate
verifies nonetheless, then the credentials of the example, which are those of the default
configuration, make it an administrator to the server; a server that is not shut down and
has room for a client takes the posted request and writes a response with one document;
and when a body that parses to it comes back, the program prints the hash, which is 1111
in decimal padded with zeros, and shuts its client down.  The chain has no part in it.
If the certificate does not verify, the program prints "before" and panics when the tenth
attempt has failed. *)
Theorem corehttp_prints host cfg s parse_ok v net :
  auth s = newRPCServer_auth (rpc_users (Config.rpc (default_config host))) -> RpcHttp.shutdown s = 0 -> cache_ok (statusLines s) ->
  0 <= numClients s < RpcHttp.RPCMaxClients cfg -> RpcHttp.RPCMaxClients cfg < 2 ^ 31 - 1 ->
  Config.DisableTLS (Config.rpc (default_config host)) = false /\ post_url corehttp_config = "https://127.0.0.1:8334"%string /\
  transport_roots parse_ok corehttp_config = None /\
  exists head doc, (serve_root cfg s posted).1 = Ok (RpcHttp.Answered (MkOut (head ++ [RpcServer.CJson doc; CText RpcHttp.newline]) None)) /\
    Forall (fun c => match c with CText _ => True | _ => False end) head /\
    forall verifies cert parse body attempts, parse body = Some doc ->
    Forall (exchange parse_ok verifies cert body) attempts -> length attempts = tries ->
    if verifies None cert then
      exists hash client, corehttp_run parse_ok v net parse attempts =
          ([Println "before"; Println "after"; Printf "Block hash: %s" hash], Returns client) /\
        string_of_list_byte (Hash_String hash) = padded_decimal 1111
    else corehttp_run parse_ok v net parse attempts = ([Println "before"], Panics).
Proof.
  intros HA HS HC HN HM. split; [reflexivity|]. split; [reflexivity|]. split; [reflexivity|].
  unfold serve_root, limitConnections. rewrite i32_id by lia.
  destruct (Z.ltb_spec (RpcHttp.RPCMaxClients cfg) (numClients s + 1)); [lia|].
  assert (HX : checkAuth (auth s) (h_auth posted) true = (true, true, None)).
  { rewrite HA. vm_compute. reflexivity. }
  change (RpcHttp.auth (incrementClients s)) with (RpcHttp.auth s). rewrite HX.
  destruct (jsonRPCRead_written cfg (incrementClients s) posted (SingleBody (Ok (j_json posted_request))) true
    HS eq_refl eq_refl eq_refl eq_refl HC) as [HJ _].
  destruct (jsonRPCRead cfg (incrementClients s) posted true) as [o s']. cbn [fst] in *. subst o.
  assert (HB : body_msg cfg (SingleBody (Ok (j_json posted_request))) true =
    Ok (Some [RpcServer.CJson (reply_json (JStr (padded_decimal 1111)) 1)])).
  { unfold body_msg, single_results. change (UnmarshalRequest (j_json posted_request)) with (@None string, getblockhash_request 1111 1).
    cbn [mbind result_bind]. change (ID (getblockhash_request 1111 1)) with (JInt 1). cbv iota.
    unfold getblockhash_request at 1. rewrite processRequest_getblockhash by (done || (unfold in_i64; lia)). reflexivity. }
  rewrite HB. eexists [_; _; _], _. split; [reflexivity|]. split; [repeat constructor|].
  intros verifies cert parse body attempts HP HE HL. unfold exchange in HE. change (transport_roots parse_ok corehttp_config) with (@None bytes) in HE.
  destruct (verifies None cert).
  - destruct attempts as [|a attempts]; [discriminate HL|]. apply Forall_cons in HE as [[R1 R2] _].
    eapply corehttp_answered; [unfold in_i64; lia|lia|exact HP|].
    unfold handleSendPostMessage. change tries with (S 9). rewrite (post_attempts_found corehttp_config _ _ a attempts zero_cookie 200 (Ok body)) by done. reflexivity.
  - assert (HF : Forall fails attempts).
    { eapply Forall_impl; [exact HE|]. intros a [R1 [err R2]]. split; [exact R1|]. rewrite R2. eauto. }
    unfold corehttp_run. rewrite New_corehttp. cbv iota beta. rewrite GetBlockHashAsync_posts.
    change (post_next http_asked) with (Some (posted_request, set_queues [] [] http_asked)). cbv iota beta.
    destruct (handleSendPostMessage_spec parse corehttp_config posted_request attempts refused [] zero_cookie (set_queues [] [] http_asked)
      ltac:(discriminate) HF) as [_ H10]. now destruct (H10 HL) as [-> _].
Qed.

(** ** The websocket example *)

(** What waits returns the response once it is there. *)
Definition honest (receive : waiting_for) : Prop :=
  forall ch m c r, ReceiveFuture ch c = Some r -> (receive ch m c).1 = r.

(** The websocket example never asks for a hash.  Whatever the files, the network and the
server do, it prints the directory and ends with an error; with a certificate that can
be read and a client that is connected the error is that the command of NotifyBlocks is
not registered. *)
Theorem websockets_main_ends parse_ok v net receive home readFile : honest receive ->
  exists err, websockets_main parse_ok v net receive home readFile = ([Println home; Fatal err], None) /\
    forall certs client, readFile (to_string (Join [of_string home; of_string "rpc.cert"])) = Ok certs ->
      New parse_ok (websockets_config certs) (Some websockets_handlers) v net zero_cookie = Ok client -> err = CCmd (notRegistered "").
Proof.
  intros HR. unfold websockets_main. destruct (readFile _) as [certs|err] eqn:EF; [|eexists; split; [reflexivity|]; discriminate].
  destruct (New _ _ _ _ _ _) as [[[client params] gs]|err] eqn:EN;
    [|eexists; split; [reflexivity|]; intros ? ? [= <-]; rewrite EN; discriminate].
  assert (EC : HTTPPostMode client = false /\ ntfnHandlers client = Some websockets_handlers /\ responses client = []).
  { unfold New, websockets_config in EN. cbn [cc_HTTPPostMode DisableConnectOnNew negb cc_Params] in EN.
    destruct (dial _ _ _ _) as [[d [e|]] k]; [discriminate EN|]. unfold chain_of in EN. cbn in EN. injection EN as <- <- <-. done. }
  destruct EC as (E1 & E2 & E3).
  assert (EA : NotifyBlocks the_registry receive client = (Some (CCmd (notRegistered "")), (NotifyBlocks the_registry receive client).2)).
  { unfold NotifyBlocks, wait_for, NotifyBlocksAsync, websocket_only. rewrite E1, E2, SendCmd_websocket by (unfold websocket_commands; cbn; tauto).
    unfold failed, newFutureError. cbn [make_chan]. set (c := deliver _ _ _).
    assert (H : ReceiveFuture (next_chan client) c = Some (Err (CCmd (notRegistered "")))).
    { unfold c, ReceiveFuture. cbn. rewrite E3. cbn. now rewrite Nat.eqb_refl. }
    apply (HR _ None) in H. destruct (receive (next_chan client) None c) as [res c']. cbn in H. now subst res. }
  rewrite EA. eexists. split; [reflexivity|]. done.
Qed.

Lemma websockets_main_ends_witness : exists err,
  websockets_main (fun _ => true) sample_view (fun _ => Connected) (fun ch _ c => (default (Err ErrClientShutdown) (ReceiveFuture ch c), c)) "/home/u/.acbc"
    (fun _ => Ok []) = ([Println "/home/u/.acbc"; Fatal err], None).
Proof.
  destruct (websockets_main_ends (fun _ => true) sample_view (fun _ => Connected)
    (fun ch _ c => (default (Err ErrClientShutdown) (ReceiveFuture ch c), c)) "/home/u/.acbc" (fun _ => Ok [])) as (err & H & _).
  - intros ch m c r E. cbn. now rewrite E.
  - exists err. exact H.
Defined.

(** The answer that comes back, and a certificate that the host trusts, or not. *)
Lemma corehttp_prints_witness : exists doc body_of,
  (serve_root (MkRpcConfig false 10 25) (newRPCServer (MkCredentials "jiajimeidou" "12345678" "" "")) posted).1 = Ok (RpcHttp.Answered body_of) /\
  (exists hash client, corehttp_run (fun _ => true) sample_view (fun _ => Connected) (fun _ => Some doc)
      (replicate 10 (MkAttempt None sample_view (Ok (200, Ok "body"%string)))) =
      ([Println "before"; Println "after"; Printf "Block hash: %s" hash], Returns client) /\
    string_of_list_byte (Hash_String hash) = padded_decimal 1111) /\
  corehttp_run (fun _ => true) sample_view (fun _ => Connected) (fun _ => Some doc) (replicate 10 refused) = ([Println "before"], Panics).
Proof.
  destruct (corehttp_prints ConfigProps.sample_host (MkRpcConfig false 10 25) (newRPCServer (MkCredentials "jiajimeidou" "12345678" "" ""))
    (fun _ => true) sample_view (fun _ => Connected) eq_refl eq_refl empty_cache_ok) as (_ & _ & _ & head & doc & HS & _ & H); [cbn; lia|cbn; lia|].
  exists doc. eexists. split; [exact HS|]. split.
  - apply (H (fun _ _ => true) [] (fun _ => Some doc) "body"%string); [done| |done]. apply Forall_replicate. split; reflexivity.
  - apply (H (fun _ _ => false) [] (fun _ => Some doc) "body"%string); [done| |done]. apply Forall_replicate. split; [reflexivity|]. eexists. reflexivity.
Defined.
