(* ===== verification/Connmgr.v ===== *)
(** * Package connmgr: the Tor resolver and the ban score

TorLookupIP (connmgr/tor.go) as a dialogue over a connection that delivers what
the proxy sends in pieces of its own choice, and DynamicBanScore
(connmgr/dynamicbanscore.go) over binary64 floating point. *)

From Stdlib Require Import ZArith Lia List.
From Stdlib Require Import Strings.String Strings.Byte.
From Stdlib Require Import Floats.SpecFloat.
From S2P Require Import Prelude WireFormat GoStrings GoNet GoFloat Config.

#[local] Open Scope list_scope.
#[local] Set Warnings "-register-all".

(** ** tor.go *)

Definition torSucceeded : Z := 0x00.
Definition torGeneralError : Z := 0x01.
Definition torNotAllowed : Z := 0x02.
Definition torNetUnreachable : Z := 0x03.
Definition torHostUnreachable : Z := 0x04.
Definition torConnectionRefused : Z := 0x05.
Definition torTTLExpired : Z := 0x06.
Definition torCmdNotSupported : Z := 0x07.
Definition torAddrNotSupported : Z := 0x08.

(** Errors of the connection come with what it says of them. *)
Inductive tor_error :=
  | ErrTorInvalidAddressResponse | ErrTorInvalidProxyResponse | ErrTorUnrecognizedAuthMethod
  | TorStatus (msg : string) | TorIO (msg : string).

Definition torStatusErrors : list (Z * string) :=
  [(torSucceeded, "tor succeeded"); (torGeneralError, "tor general error"); (torNotAllowed, "tor not allowed");
   (torNetUnreachable, "tor network is unreachable"); (torHostUnreachable, "tor host is unreachable");
   (torConnectionRefused, "tor connection refused"); (torTTLExpired, "tor TTL expired");
   (torCmdNotSupported, "tor command not supported"); (torAddrNotSupported, "tor address type not supported")]%string.

Definition torStatusError (code : Z) : option string :=
  snd <$> List.find (fun p => p.1 =? code) torStatusErrors.

(** A connection: what it will deliver, piece by piece, each a piece of text or an
error, then the end of the stream; whether each Write succeeds; what was written. *)
Record conn := MkConn { incoming : list (result string bytes); writes : list (option string); written : bytes }.

(** conn.Read into a buffer of [n] zero bytes: at most one piece, and what of it
does not fit stays.  The buffer and the number of bytes read. *)
Definition conn_Read (n : nat) : stm conn tor_error (bytes * nat) := fun c =>
  match incoming c with
  | [] => (Err (TorIO "EOF"), c)
  | Err e :: rest => (Err (TorIO e), MkConn rest (writes c) (written c))
  | Ok piece :: rest =>
      let got := take n piece in
      let left := drop n piece in
      (Ok (got ++ replicate (n - length got) x00, length got),
       MkConn (match left with [] => rest | _ => Ok left :: rest end) (writes c) (written c))
  end.

Definition conn_Write (b : bytes) : stm conn tor_error unit := fun c =>
  match writes c with
  | Some e :: rest => (Err (TorIO e), MkConn (incoming c) rest (written c))
  | None :: rest => (Ok tt, MkConn (incoming c) rest (written c ++ b))
  | [] => (Ok tt, MkConn (incoming c) [] (written c ++ b))
  end.

Definition at_ (buf : bytes) (i : nat) : Z := byte_val (nth i buf x00).

Definition greeting : bytes := [x05; x01; x00].

(** [copy(buf[5:], host)] into a buffer of 6+len(host) bytes, the last of them 0. *)
Definition resolve_request (host : bytes) : bytes :=
  [x05; xf0; x00; x03; byte_of (len host)] ++ host ++ [x00].

(** The exchange once the proxy is dialed. *)
Definition tor_dialogue (host : bytes) : stm conn tor_error (list bytes) :=
  conn_Write greeting ;;
  r ← conn_Read 2;
  let buf := r.1 in
  if negb (at_ buf 0 =? 5) then fail ErrTorInvalidProxyResponse
  else if negb (at_ buf 1 =? 0) then fail ErrTorUnrecognizedAuthMethod
  else
    conn_Write (resolve_request host) ;;
    r ← conn_Read 4;
    let buf := r.1 in
    if negb (at_ buf 0 =? 5) then fail ErrTorInvalidProxyResponse
    else if negb (at_ buf 1 =? 0) then
      if len torStatusErrors <=? at_ buf 1 then fail ErrTorInvalidProxyResponse
      else match torStatusError (at_ buf 1) with
           | Some err => fail (TorStatus err)
           | None => fail ErrTorInvalidProxyResponse
           end
    else if negb (at_ buf 3 =? 1) then fail (TorStatus (default "" (torStatusError torGeneralError)))
    else
      r ← conn_Read 4;
      let '(buf, n) := r in
      if negb (n =? 4)%nat then fail ErrTorInvalidAddressResponse
      else
        let r := be_val buf in
        mret [IPv4 (byte_of (Z.shiftr r 24)) (byte_of (Z.shiftr r 16)) (byte_of (Z.shiftr r 8)) (byte_of r)].

(** [proxy] is the connection, or why it was not made. *)
Definition TorLookupIP (host : string) (proxy : result string conn) : result tor_error (list bytes) * option conn :=
  match proxy with
  | Err e => (Err (TorIO e), None)
  | Ok c => let '(r, c) := tor_dialogue (of_string host) c in (r, Some c)
  end.

(** ** dynamicbanscore.go *)

Definition Halflife : Z := 60.
Definition Lifetime : Z := 1800.
Definition precomputedLen : Z := 64.

(** The constant math.Ln2 / Halflife as a float64. *)
Definition Ln2_digits : positive := 693147180559945309417232121458176568075500134360255254120680009.
Definition lambda : float64 := f64_div (S754_finite false Ln2_digits 0) (S754_finite false (60 * 10 ^ 63)%positive 0).

Record DynamicBanScore := MkBanScore { lastUnix : Z; transient : float64; persistent : Z }.
Definition zero_score : DynamicBanScore := MkBanScore 0 f64_zero 0.

Section score.
(** math.Exp, and what uint32(f) gives when f is out of range. *)
Context (Exp : float64 -> float64) (other : float64 -> Z).

Definition f64_opp : float64 -> float64 := SFopp.
Definition exp_at (t : Z) : float64 := Exp (f64_mul (f64_mul (f64_of_Z (-1)) (f64_of_Z t)) lambda).
(** init. *)
Definition precomputedFactor : list float64 := map (fun i => exp_at (Z.of_nat i)) (seq 0 (Z.to_nat precomputedLen)).
(** A negative [t] is out of range of the table. *)
Definition decayFactor (t : Z) : option float64 :=
  if t <? precomputedLen then (if t <? 0 then None else precomputedFactor !! Z.to_nat t) else Some (exp_at t).

Definition to_uint32 (f : float64) : Z :=
  match f with
  | S754_zero _ => 0
  | S754_finite _ _ _ => let z := trunc_Z f in if (0 <=? z) && (z <? 2 ^ 32) then z else other f
  | _ => other f
  end.

Definition f64_one : float64 := f64_of_Z 1.

(** int(t) and increase(persistent, transient, t), at [tu] seconds; [None] is an
index out of range. *)
Definition score_int (s : DynamicBanScore) (tu : Z) : option Z :=
  let dt := i64 (tu - lastUnix s) in
  if f64_ltb (transient s) f64_one || (dt <? 0) || (Lifetime <? dt) then Some (persistent s)
  else d ← decayFactor dt; Some (u32 (persistent s + to_uint32 (f64_mul (transient s) d))).

Definition increase (p t : Z) (tu : Z) (s : DynamicBanScore) : option (Z * DynamicBanScore) :=
  let persistent' := u32 (persistent s + p) in
  let dt := i64 (tu - lastUnix s) in
  s' ← (if 0 <? t then
          tr ← (if Lifetime <? dt then Some f64_zero
                else if f64_ltb f64_one (transient s) && (0 <? dt) then d ← decayFactor dt; Some (f64_mul (transient s) d)
                else Some (transient s));
          Some (MkBanScore tu (f64_add tr (f64_of_Z t)) persistent')
        else Some (MkBanScore (lastUnix s) (transient s) persistent'));
  Some (u32 (persistent s' + to_uint32 (transient s')), s').

(** Int and Increase hold the lock for one call each, at the time [now] of the clock. *)
Definition Int (now : Z) (s : DynamicBanScore) : option Z := score_int s now.
Definition Increase (now p t : Z) (s : DynamicBanScore) : option (Z * DynamicBanScore) := increase p t now s.

Definition Reset : DynamicBanScore := zero_score.
End score.

(** ** The resolver *)

(** What the proxy sends before an error or the end. *)
Fixpoint stream (l : list (result string bytes)) : bytes :=
  match l with Ok piece :: l => piece ++ stream l | _ => [] end.

Lemma conn_Read_ok n c buf k c' : conn_Read n c = (Ok (buf, k), c') ->
  exists got, k = length got /\ (k <= n)%nat /\ buf = got ++ replicate (n - k) x00 /\
    stream (incoming c) = got ++ stream (incoming c') /\ written c' = written c.
Proof.
  unfold conn_Read. destruct (incoming c) as [|[piece|e] rest]; intros H; [discriminate| |discriminate].
  injection H as <- <- <-. exists (take n piece). cbn [incoming written stream]. split_and!; try done.
  - rewrite length_take. lia.
  - rewrite <- (take_drop n piece) at 1. rewrite <- app_assoc. f_equal. now destruct (drop n piece).
Qed.

Lemma conn_Write_ok b c u c' : conn_Write b c = (Ok u, c') ->
  incoming c' = incoming c /\ written c' = written c ++ b.
Proof. unfold conn_Write. destruct (writes c) as [|[e|] l]; intros H; try discriminate; injection H as _ <-; done. Qed.

Lemma at_pad got k i : at_ (got ++ replicate k x00) i <> 0 -> (i < length got)%nat.
Proof.
  intros H. destruct (decide (i < length got)%nat) as [|Hge]; [done|]. exfalso. apply H. unfold at_. rewrite app_nth2 by lia.
  assert (N : forall j k, nth j (replicate k x00) x00 = x00)
    by (clear; intros j k; revert j; induction k as [|k IH]; intros [|j]; cbn; auto).
  now rewrite N.
Qed.

Lemma byte_is b z : byte_val b = z -> b = byte_of z.
Proof. intros <-. now rewrite byte_of_val. Qed.

(** The four bytes of an address, taken apart and put together again. *)
Lemma IPv4_bytes ip : length ip = 4%nat ->
  IPv4 (byte_of (Z.shiftr (be_val ip) 24)) (byte_of (Z.shiftr (be_val ip) 16)) (byte_of (Z.shiftr (be_val ip) 8)) (byte_of (be_val ip))
    = v4InV6Prefix ++ ip.
Proof.
  destruct ip as [|a [|b [|c [|d [|? ?]]]]]; intros H; try discriminate H. unfold IPv4. f_equal.
  unfold be_val. cbn [rev app le_val]. rewrite !Z.shiftr_div_pow2 by lia.
  pose proof (byte_val_range a). pose proof (byte_val_range b). pose proof (byte_val_range c). pose proof (byte_val_range d).
  set (va := byte_val a) in *. set (vb := byte_val b) in *. set (vc := byte_val c) in *. set (vd := byte_val d) in *.
  repeat f_equal; symmetry; apply byte_val_inj; rewrite byte_val_of; fold va vb vc vd.
  all: change (2 ^ 24) with 16777216; change (2 ^ 16) with 65536; change (2 ^ 8) with 256; Z.div_mod_to_equations; lia.
Qed.

(** The pieces a successful exchange is made of. *)
Lemma tor_dialogue_ok host c l c' : tor_dialogue host c = (Ok l, c') ->
  exists hello rsv ip, (hello = [x05] \/ hello = [x05; x00]) /\ length ip = 4%nat /\
    stream (incoming c) = hello ++ [x05; x00; rsv; x01] ++ ip ++ stream (incoming c') /\
    l = [v4InV6Prefix ++ ip] /\ written c' = written c ++ greeting ++ resolve_request host.
Proof.
  unfold tor_dialogue. intros H. apply bind_Ok_inv in H as (? & c1 & W1 & H). apply conn_Write_ok in W1 as [I1 W1].
  apply bind_Ok_inv in H as ([buf1 k1] & c2 & R1 & H). apply conn_Read_ok in R1 as (got1 & K1 & L1 & B1 & S1 & W2). cbn [fst] in H.
  destruct (at_ buf1 0 =? 5) eqn:A1; [|discriminate H]. cbn [negb] in H.
  destruct (at_ buf1 1 =? 0) eqn:A2; [|discriminate H]. cbn [negb] in H.
  apply bind_Ok_inv in H as (? & c3 & W3 & H). apply conn_Write_ok in W3 as [I3 W3].
  apply bind_Ok_inv in H as ([buf2 k2] & c4 & R2 & H). apply conn_Read_ok in R2 as (got2 & K2 & L2 & B2 & S2 & W4). cbn [fst] in H.
  destruct (at_ buf2 0 =? 5) eqn:A3; [|discriminate H]. cbn [negb] in H.
  destruct (at_ buf2 1 =? 0) eqn:A4; cbn [negb] in H;
    [|destruct (_ <=? _) in H; [discriminate H|destruct (torStatusError _) in H; discriminate H]].
  destruct (at_ buf2 3 =? 1) eqn:A5; [|discriminate H]. cbn [negb] in H.
  apply bind_Ok_inv in H as ([buf3 k3] & c5 & R3 & H). apply conn_Read_ok in R3 as (ip & K3 & L3 & B3 & S3 & W5).
  destruct (k3 =? 4)%nat eqn:A6; [|discriminate H]. cbn [negb] in H. apply Nat.eqb_eq in A6. boolify.
  assert (G1 : got1 = [x05] \/ got1 = [x05; x00]).
  { subst buf1. assert (0 < length got1)%nat by (apply (at_pad got1 (2 - k1)); lia).
    destruct got1 as [|a [|b [|? ?]]]; cbn [length] in *; try lia.
    - left. f_equal. now apply byte_val_inj.
    - right. repeat f_equal; now apply byte_val_inj. }
  assert (G2 : exists rsv, got2 = [x05; x00; rsv; x01]).
  { subst buf2. assert (3 < length got2)%nat by (apply (at_pad got2 (4 - k2)); lia).
    destruct got2 as [|a [|b [|e [|d [|? ?]]]]]; cbn [length] in *; try lia.
    exists e. repeat f_equal; now apply byte_val_inj. }
  destruct G2 as [rsv ->].
  assert (Hl : length ip = 4%nat) by lia. rewrite A6 in B3. cbn [Nat.sub replicate] in B3. rewrite app_nil_r in B3. subst buf3.
  cbv zeta in H. rewrite IPv4_bytes in H by done. injection H as <- <-. exists got1, rsv, ip. split_and!; try done.
  - rewrite <- I1, S1, <- I3, S2, S3. done.
  - rewrite W5, W4, W3, W2, W1, <- !app_assoc. done.
Qed.

(** What TorLookupIP returns.  A success means that the proxy accepted the
method (or said nothing of it), answered the request with success and an IPv4
address, and that address, as it stood on the wire, is the only result; the greeting
and the request were written.  Conversely a proxy that delivers its method, its
reply and the address is understood, whether or not the address comes with the
reply; one that refuses the method or reports a failure gives that error. *)
Theorem TorLookupIP_spec host c :
  (forall l c', TorLookupIP host (Ok c) = (Ok l, Some c') ->
     exists hello rsv ip, (hello = [x05] \/ hello = [x05; x00]) /\ length ip = 4%nat /\
       stream (incoming c) = hello ++ [x05; x00; rsv; x01] ++ ip ++ stream (incoming c') /\
       l = [v4InV6Prefix ++ ip] /\ written c' = written c ++ greeting ++ resolve_request (of_string host)) /\
  (writes c = [] -> forall rsv ip port later, length ip = 4%nat ->
     incoming c = Ok [x05; x00] :: Ok ([x05; x00; rsv; x01] ++ ip ++ port) :: later \/
     incoming c = Ok [x05; x00] :: Ok [x05; x00; rsv; x01] :: Ok (ip ++ port) :: later ->
     (TorLookupIP host (Ok c)).1 = Ok [v4InV6Prefix ++ ip]) /\
  (writes c = [] -> forall m later, incoming c = Ok [x05; m] :: later -> m <> x00 ->
     (TorLookupIP host (Ok c)).1 = Err ErrTorUnrecognizedAuthMethod) /\
  (writes c = [] -> forall status rest later, incoming c = Ok [x05; x00] :: Ok (x05 :: status :: rest) :: later ->
     status <> x00 ->
     (TorLookupIP host (Ok c)).1 =
       Err (match torStatusError (byte_val status) with Some msg => TorStatus msg | None => ErrTorInvalidProxyResponse end)).
Proof.
  unfold TorLookupIP. split_and!.
  - intros l c' H. destruct (tor_dialogue _ _) as [r c1] eqn:E. injection H as -> ->. now apply tor_dialogue_ok.
  - intros Hw rsv ip port later Hl Hin. destruct c as [inc wr wn]. cbn in Hw, Hin. subst wr.
    destruct ip as [|x1 [|x2 [|x3 [|x4 [|? ?]]]]]; try discriminate Hl.
    assert (I4 := IPv4_bytes [x1; x2; x3; x4] eq_refl).
    destruct Hin as [-> | ->]; unfold tor_dialogue, mbind, stm_bind, conn_Write, conn_Read; cbn -[be_val IPv4 Z.shiftr v4InV6Prefix byte_of]; change (take 0 port) with (@nil byte); cbn -[be_val IPv4 Z.shiftr v4InV6Prefix byte_of]; now rewrite I4.
  - intros Hw m later Hin Hm. destruct c as [inc wr wn]. cbn in Hw, Hin. subst.
    unfold tor_dialogue, mbind, stm_bind, conn_Write, conn_Read. cbn. destruct (Z.eqb_spec (at_ [x05; m] 1) 0) as [E|]; [|done].
    exfalso. apply Hm. now apply byte_val_inj.
  - intros Hw st rest later Hin Hm. destruct c as [inc wr wn]. cbn in Hw, Hin. subst.
    assert (Hn : (byte_val st =? 0) = false) by (apply Z.eqb_neq; intros E; apply Hm; now apply byte_val_inj).
    assert (Hbig : 9 <= byte_val st -> torStatusError (byte_val st) = None).
    { intros Hb. unfold torStatusError, torStatusErrors. cbn [List.find fst].
      repeat match goal with |- context [?a =? byte_val st] =>
        replace (a =? byte_val st) with false by (symmetry; apply Z.eqb_neq; unfold torSucceeded, torGeneralError, torNotAllowed,
          torNetUnreachable, torHostUnreachable, torConnectionRefused, torTTLExpired, torCmdNotSupported, torAddrNotSupported; lia) end.
      reflexivity. }
    unfold tor_dialogue, mbind, stm_bind, conn_Write, conn_Read. cbn -[resolve_request torStatusError torStatusErrors].
    change (at_ (x05 :: st :: _) 0) with 5. change (at_ (x05 :: st :: _) 1) with (byte_val st). rewrite Hn. cbn -[resolve_request torStatusError torStatusErrors].
    change (len torStatusErrors) with 9. destruct (Z.leb_spec 9 (byte_val st)) as [Hb|_]; [now rewrite Hbig|]. now destruct (torStatusError _).
Qed.

Definition tor_proxy (pieces : list bytes) : conn := MkConn (map Ok pieces) [] [].

Lemma TorLookupIP_spec_witness :
  (TorLookupIP "example.com" (Ok (tor_proxy [[x05; x00]; [x05; x00; x00; x01; x5d; xb8; xd8; x22; x00; x00]]))).1 =
    Ok [v4InV6Prefix ++ [x5d; xb8; xd8; x22]].
Proof.
  destruct (TorLookupIP_spec "example.com" (tor_proxy [[x05; x00]; [x05; x00; x00; x01; x5d; xb8; xd8; x22; x00; x00]])) as (_ & H & _).
  refine (H eq_refl x00 [x5d; xb8; xd8; x22] [x00; x00] [] eq_refl (or_introl eq_refl)).
Defined.

(** The bytes that arrive make no difference, but the pieces do: an honest proxy
whose method arrives in two pieces is taken for a bad one. *)
Example TorLookupIP_pieces :
  (TorLookupIP "example.com" (Ok (tor_proxy [[x05]; [x00]; [x05; x00; x00; x01]; [x5d; xb8; xd8; x22]]))).1 =
    Err ErrTorInvalidProxyResponse.
Proof. reflexivity. Qed.

(** *** The request *)

(** A SOCKS5 request for a name (RFC 1928): version, command, a reserved byte, the
type and the length of the name, the name, and a port of two bytes; [None] when
more is to come.  The command, the name, the port and what follows. *)
Definition socks5_request (b : bytes) : option (byte * bytes * Z * bytes) :=
  match b with
  | x05 :: cmd :: x00 :: x03 :: n :: rest =>
      let n := Z.to_nat (byte_val n) in
      if (length rest <? n + 2)%nat then None
      else Some (cmd, take n rest, be_val (take 2 (drop n rest)), drop (n + 2) rest)
  | _ => None
  end.

(** The request is one byte short.  For a name of at most 255 bytes what is
written is no complete SOCKS5 request, and would be one with one more byte: a
proxy that follows the format waits for the second byte of the port. *)
Theorem resolve_request_short host : len host <= 255 ->
  socks5_request (resolve_request host) = None /\
  forall b, socks5_request (resolve_request host ++ [b]) = Some (xf0, host, byte_val b, []).
Proof.
  intros Hl. unfold len in Hl.
  assert (Hn : Z.to_nat (byte_val (byte_of (len host))) = length host).
  { unfold len. rewrite byte_val_of, Z.mod_small by lia. lia. }
  unfold resolve_request. cbn [app socks5_request]. rewrite Hn. split.
  - rewrite length_app. cbn [length]. now rewrite (proj2 (Nat.ltb_lt _ _)) by lia.
  - intros b. rewrite <- !app_assoc. cbn [app]. rewrite length_app. cbn [length].
    rewrite (proj2 (Nat.ltb_ge _ _)) by lia. rewrite take_app_length, drop_app_length. cbn [take].
    change (be_val [x00; b]) with (byte_val b + 256 * 0).
    replace (drop (length host + 2) (host ++ [x00; b])) with (@nil byte); [do 3 f_equal; lia|].
    symmetry. apply drop_ge. rewrite length_app. cbn. lia.
Qed.

Lemma resolve_request_short_witness : socks5_request (resolve_request (of_string "example.com")) = None.
Proof. refine (proj1 (resolve_request_short _ _)). vm_compute. discriminate. Defined.

(** ** The ban score *)

Section score_props.
Context (Exp : float64 -> float64) (other : float64 -> Z).

Lemma decayFactor_total t : 0 <= t -> is_Some (decayFactor Exp t).
Proof.
  intros Ht. unfold decayFactor. destruct (Z.ltb_spec t precomputedLen) as [H|H]; [|eauto].
  rewrite (proj2 (Z.ltb_ge t 0)) by lia. apply lookup_lt_is_Some_2. unfold precomputedFactor, precomputedLen in *.
  rewrite length_map, length_seq. lia.
Qed.

Lemma increase_total p t tu s : exists r s', increase Exp other p t tu s = Some (r, s') /\
  persistent s' = u32 (persistent s + p) /\ lastUnix s' = (if 0 <? t then tu else lastUnix s) /\
  (t <= 0 -> transient s' = transient s) /\ r = u32 (persistent s' + to_uint32 other (transient s')).
Proof.
  unfold increase. destruct (Z.ltb_spec 0 t) as [Ht|Ht].
  2: { cbn [mbind option_bind]. do 2 eexists. split_and!; reflexivity. }
  destruct (Lifetime <? _); cbn [mbind option_bind].
  1: { do 2 eexists. split_and!; try reflexivity. lia. }
  destruct (_ && (0 <? i64 _))%bool eqn:E; cbn [mbind option_bind].
  2: { do 2 eexists. split_and!; try reflexivity. lia. }
  boolify. destruct (decayFactor_total (i64 (tu - lastUnix s))) as [d ->]; [lia|]. cbn [mbind option_bind].
  do 2 eexists. split_and!; try reflexivity. lia.
Qed.

(** Calls of Increase: the two amounts and the time. *)
Fixpoint run_score (ops : list (Z * Z * Z)) (s : DynamicBanScore) : option DynamicBanScore :=
  match ops with
  | [] => Some s
  | (p, t, tu) :: ops => r ← increase Exp other p t tu s; run_score ops r.2
  end.

Definition last_transient (ops : list (Z * Z * Z)) (start : Z) : Z :=
  fold_left (fun last op => if 0 <? op.1.2 then op.2 else last) ops start.

(** The ban score over time.  From any score and after any calls of Increase
nothing is indexed out of range, the persistent part is the sum of what was added
modulo 2^32, and once more than half an hour has passed since the last transient
increase, or the clock went back before it, the score is the persistent part. *)
Theorem ban_score_history ops s0 :
  in_u32 (persistent s0) ->
  exists s, run_score ops s0 = Some s /\
    persistent s = u32 (persistent s0 + sum_map (fun op => op.1.1) ops) /\
    lastUnix s = last_transient ops (lastUnix s0) /\
    forall tu, in_i64 (tu - lastUnix s) ->
      is_Some (score_int Exp other s tu) /\
      (tu < lastUnix s \/ Lifetime < tu - lastUnix s -> score_int Exp other s tu = Some (persistent s)).
Proof.
  revert s0. induction ops as [|[[p t] tu] ops IH]; intros s0 H0; cbn [run_score].
  - exists s0. cbn [sum_map fold_right last_transient fold_left]. rewrite Z.add_0_r, u32_small by done. split_and!; try done.
    intros tu Ht. unfold score_int. rewrite i64_small by done.
    destruct (f64_ltb _ _); [split; eauto|]. cbn [orb].
    destruct (Z.ltb_spec (tu - lastUnix s0) 0); [split; eauto|]. cbn [orb].
    destruct (Z.ltb_spec Lifetime (tu - lastUnix s0)); [split; eauto|]. split; [|lia].
    destruct (decayFactor_total (tu - lastUnix s0)) as [d ->]; [lia|]. cbn [mbind option_bind]. eauto.
  - destruct (increase_total p t tu s0) as (r & s1 & E & Hp & Hl & _). rewrite E. cbn [mbind option_bind snd].
    destruct (IH s1) as (s & R & P & L & F); [rewrite Hp; apply u32_range|]. exists s. split_and!; try done.
    + rewrite P, Hp. cbn [sum_map fold_right fst]. unfold u32. rewrite Zplus_mod_idemp_l. f_equal. unfold sum_map. lia.
    + rewrite L, Hl. reflexivity.
Qed.
End score_props.

Lemma ban_score_history_witness :
  exists s, run_score (fun _ => f64_one) (fun _ => 0) [(10, 20, 1000); (5, 0, 1100)] zero_score = Some s /\
    persistent s = 15 /\ score_int (fun _ => f64_one) (fun _ => 0) s 5000 = Some 15.
Proof.
  destruct (ban_score_history (fun _ => f64_one) (fun _ => 0) [(10, 20, 1000); (5, 0, 1100)] zero_score) as (s & R & P & L & F);
    [words|].
  exists s. assert (P' : persistent s = 15) by exact P. assert (L' : lastUnix s = 1000) by exact L.
  split_and!; [exact R|exact P'|]. rewrite <- P'. apply F; rewrite L'; [words|right; unfold Lifetime; lia].
Defined.

(** While it lasts the transient part counts. *)
Example ban_score_decays :
  (s ← run_score (fun _ => f64_one) (fun _ => 0) [(10, 20, 1000)] zero_score; score_int (fun _ => f64_one) (fun _ => 0) s 1010) = Some 30.
Proof. vm_compute. reflexivity. Qed.
