(* ===== verification/Server.v ===== *)
(** * The server and its process (server.go, acbc.go, signal.go, rpcadapters.go)

The addresses the RPC server listens on, the creation, start and stop of the
server, and the process around it: acbcMain as a function up to the point where it
waits, then the goroutine of the interrupt listener, the main goroutine and the
handler of HTTP requests as a step relation. *)

From Stdlib Require Import ZArith Lia List.
From Stdlib Require Import Strings.String Strings.Byte.
From stdpp Require Import relations.
From S2P Require Import Prelude WireFormat ChainParams GoStrings GoNet GoFloat JsonTypes RpcAuth.
From S2P Require Import RpcServer.
From S2P Require Import Certgen.
From S2P Require Import RpcHttp.
From S2P Require Import Config.
From S2P Require Import Connmgr.

#[local] Open Scope list_scope.
#[local] Set Warnings "-register-all".

(** ** Listen addresses *)

Record simpleAddr := MkAddr { Network : string; AddrString : string }.
#[export] Instance simpleAddr_eq_dec : EqDecision simpleAddr.
Proof. solve_decision. Defined.

Inductive listen_error := BadAddress (e : addr_error) | NotAnIP (host : string).

(** The IPv6 zone, from the last percent sign that is not the first byte. *)
Definition strip_zone (host : bytes) : bytes :=
  match LastIndexByte host "%"%byte with Some (S i) => take (S i) host | _ => host end.

(** One address; [plan9] tells whether GOOS is plan9. *)
Definition listen_addrs (plan9 : bool) (addr : string) : result listen_error (list simpleAddr) :=
  match SplitHostPort (of_string addr) with
  | Err err => Err (BadAddress err)
  | Ok (host, _) =>
      if bool_decide (host = []) || (bool_decide (host = of_string "*") && plan9)
      then Ok [MkAddr "tcp4" addr; MkAddr "tcp6" addr]
      else
        let host := strip_zone host in
        match ParseIP host with
        | None => Err (NotAnIP (to_string host))
        | Some ip => match To4 ip with None => Ok [MkAddr "tcp6" addr] | Some _ => Ok [MkAddr "tcp4" addr] end
        end
  end.

Fixpoint parseListeners (plan9 : bool) (addrs : list string) : result listen_error (list simpleAddr) :=
  match addrs with
  | [] => Ok []
  | addr :: addrs => l ← listen_addrs plan9 addr; rest ← parseListeners plan9 addrs; Ok (l ++ rest)
  end.

(** What the system does for the server: the files with their modes, the paths whose
status cannot be read for another reason than absence, the time and the rest of what a
certificate is generated from, the writes of it, whether two files are a key pair, and the error of listening on an
address, with TLS or without. *)
Record server_env := MkServerEnv {
  plan9 : bool; stat_fails : string -> bool;
  cert_time : Z; cert_system : cert_env; write_cert : option (string * bytes); write_key : option (string * bytes);
  X509KeyPair : bytes -> bytes -> option string;
  listen : bool -> simpleAddr -> option string }.

Inductive server_error := CertError (msg : string) | KeyPairError (msg : string) | ListenError (e : listen_error) | NoListenAddress.

Section server.
Context (env : server_env).

Definition fileExists (fs : files) (name : string) : bool :=
  stat_fails env name || match fs !! name with Some _ => true | None => false end.

Definition LoadX509KeyPair (fs : files) (certFile keyFile : string) : option string :=
  match fs !! certFile, fs !! keyFile with
  | Some (cert, _), Some (key, _) => X509KeyPair env cert key
  | _, _ => Some "open: no such file or directory"%string
  end.

(** The loop over the addresses: those that cannot be listened on are left out. *)
Definition open_listeners (useTLS : bool) (netAddrs : list simpleAddr) : list (simpleAddr * bool) :=
  map (fun addr => (addr, useTLS)) (List.filter (fun addr => bool_decide (listen env useTLS addr = None)) netAddrs).

(** The listeners, each with whether it speaks TLS, and the files. *)
Definition setupRPCListeners (cfg : config) (fs : files) : result server_error (list (simpleAddr * bool)) * files :=
  let useTLS := negb (DisableTLS (rpc cfg)) in
  let '(certFile, keyFile) := (RPCCert (misc cfg), RPCKey (misc cfg)) in
  let '(err, fs) :=
    if useTLS then
      let '(err, fs) :=
        if negb (fileExists fs keyFile) && negb (fileExists fs certFile)
        then let '(err, fs) := genCertPair (cert_system env) (cert_time env) (write_cert env) (write_key env) certFile keyFile fs in
             (option_map CertError err, fs)
        else (None, fs) in
      match err with
      | Some err => (Some err, fs)
      | None => (option_map KeyPairError (LoadX509KeyPair fs certFile keyFile), fs)
      end
    else (None, fs) in
  match err with
  | Some err => (Err err, fs)
  | None =>
      (match parseListeners (plan9 env) (RPCListeners (rpc cfg)) with
       | Err err => Err (ListenError err)
       | Ok netAddrs => Ok (open_listeners useTLS netAddrs)
       end, fs)
  end.

(** ** The server *)

(** The fields that the code uses: the RPC server with its listeners, whether the
quit channel is closed, and the counter of the wait group. *)
Record server := MkServerState {
  s_rpcServer : option rpcServer; s_listeners : list (simpleAddr * bool); s_quit : bool; s_wg : Z }.

Definition newServer (cfg : config) (fs : files) : result server_error server * files :=
  if DisableRPC (rpc cfg) then (Ok (MkServerState None [] false 0), fs)
  else
    match setupRPCListeners cfg fs with
    | (Err err, fs) => (Err err, fs)
    | (Ok [], fs) => (Err NoListenAddress, fs)
    | (Ok listeners, fs) => (Ok (MkServerState (Some (newRPCServer (rpc_users (rpc cfg)))) listeners false 0), fs)
    end.

(** rebroadcastHandler, whose body is commented out. *)
Definition rebroadcastHandler (s : server) : server := s.

(** The goroutines it starts are run at once: they do nothing. *)
Definition Start (cfg : config) (s : server) : result panic server :=
  if DisableRPC (rpc cfg) then Ok s
  else
    let s := MkServerState (s_rpcServer s) (s_listeners s) (s_quit s) (s_wg s + 1) in
    let s := rebroadcastHandler s in
    match s_rpcServer s with
    | None => Err NilDereference
    | Some r => Ok (MkServerState (Some (RpcHttp.Start r).2) (s_listeners s) (s_quit s) (s_wg s))
    end.

(** [closing] are the errors of closing the listeners; that of the RPC server's Stop
is not looked at. *)
Definition Stop (cfg : config) (closing : list (option string)) (s : server) : result panic server :=
  s ← (if DisableRPC (rpc cfg) then Ok s
       else match s_rpcServer s with
            | None => Err NilDereference
            | Some r =>
                match RpcHttp.Stop closing r with
                | (Err p, _) => Err p
                | (Ok _, r) => Ok (MkServerState (Some r) (s_listeners s) (s_quit s) (s_wg s))
                end
            end);
  if s_quit s then Err CloseOfClosedChannel
  else Ok (MkServerState (s_rpcServer s) (s_listeners s) true (s_wg s)).

(** WaitForShutdown returns when the counter is zero. *)
Definition WaitForShutdown_returns (s : server) : bool := s_wg s =? 0.
End server.

(** ** rpcadapters.go *)

Record serverPeer := MkServerPeer {
  p_peer : option nat; p_feeFilter : Z; p_disableRelayTx : bool; p_banScore : DynamicBanScore }.
(** A nil rpcPeer is [None]; [None] as a result is a nil peer, [Err] a panic. *)
Definition ToPeer (p : option serverPeer) : option nat := p ≫= p_peer.
Definition IsTxRelayDisabled (p : option serverPeer) : result panic bool :=
  match p with None => Err NilDereference | Some p => Ok (p_disableRelayTx p) end.
Definition BanScore Exp other (now : Z) (p : option serverPeer) : result panic (option Z) :=
  match p with None => Err NilDereference | Some p => Ok (score_int Exp other (p_banScore p) now) end.
Definition FeeFilter (p : option serverPeer) : result panic Z :=
  match p with None => Err NilDereference | Some p => Ok (p_feeFilter p) end.

(** ** The process *)

(** signal.go: the buffer of one signal, the senders on shutdownRequestChannel, and
whether the channel that main waits on is closed. *)
Record listener := MkListener { signalled : bool; requests : nat; interrupted : bool }.
Definition interruptListener : listener := MkListener false 0 false.
Definition interruptRequested (i : listener) : bool := interrupted i.

Inductive phase := Waiting | Exited (code : Z) | Crashed (p : panic).
Record process := MkProcess { p_phase : phase; p_server : server; p_listener : listener }.

(** The exit code when the options cannot be read or are refused. *)
Definition read_exit (e : read_error) : Z := match e with VersionShown => 0 | _ => 1 end.
Definition conf_exit (e : conf_error) : Z := match e with ShowSubsystems => 0 | _ => 1 end.

(** main and acbcMain up to the wait: the process with its configuration, or the exit
code; and the files. *)
Definition acbcMain (host : host_env) (env : server_env) {level} (LevelFromString : string -> level)
    (parse_line : config -> option flag_error * config) (parse_file : bytes -> config -> option ini_error * config)
    (copying : default_env) (home_ok : bool) (levels : gmap string level) (fs : files) : result Z (config * process) * files :=
  match read_options host parse_line parse_file copying home_ok fs with
  | (Err e, fs) => (Err (read_exit e), fs)
  | (Ok (cfg, _), fs) =>
      match loadConfig host LevelFromString cfg levels with
      | Err e => (Err (conf_exit e), fs)
      | Ok (cfg, _, _) =>
          match newServer env cfg fs with
          | (Err _, fs) => (Err 1, fs)
          | (Ok s, fs) =>
              (Ok (cfg, match Start cfg s with
                        | Ok s => MkProcess Waiting s interruptListener
                        | Err p => MkProcess (Crashed p) s interruptListener
                        end), fs)
          end
      end
  end.

(** winServiceMain, which nothing assigns: nil. *)
Definition winServiceMain : option (result string bool) := None.
(** main, around what acbcMain does: a panic, an exit code or the process. *)
Definition main {A} (windows : bool) (acbc : result Z A) : result panic (result Z A) :=
  if windows then
    match winServiceMain with
    | None => Err NilDereference
    | Some (Err _) => Ok (Err 1)
    | Some (Ok isService) => if isService then Ok (Err 0) else Ok acbc
    end
  else Ok acbc.

(** On Windows the program does not get as far as its configuration. *)
Example windows_crashes A (acbc : result Z A) : main true acbc = Err NilDereference /\ main false acbc = Ok acbc.
Proof. done. Qed.

(** A signal that finds the buffer full is dropped. *)
Inductive event : process -> process -> Prop :=
  | e_signal s i : event (MkProcess Waiting s i) (MkProcess Waiting s (MkListener true (requests i) (interrupted i)))
  | e_request s i : event (MkProcess Waiting s i)
      (MkProcess Waiting s (MkListener (signalled i) (S (requests i)) (interrupted i))).

(** The listener takes a signal or a request, closing the channel the first time, and
main, once the channel is closed, stops the server and returns. *)
Inductive own_step (cfg : config) (closing : list (option string)) : process -> process -> Prop :=
  | o_signal s i : signalled i = true ->
      own_step cfg closing (MkProcess Waiting s i) (MkProcess Waiting s (MkListener false (requests i) true))
  | o_request s i n : requests i = S n ->
      own_step cfg closing (MkProcess Waiting s i) (MkProcess Waiting s (MkListener (signalled i) n true))
  | o_exit s i : interruptRequested i = true ->
      own_step cfg closing (MkProcess Waiting s i)
        (match Stop cfg closing s with
         | Ok s => MkProcess (Exited 0) s i
         | Err p => MkProcess (Crashed p) s i
         end).

(** The RPC configuration of the process. *)
Definition rpc_config_of (cfg : config) : rpc_config :=
  MkRpcConfig (RPCQuirks (misc cfg)) (RPCMaxClients (misc cfg)) (RPCMaxWebsockets (misc cfg)).

(** A request to the root endpoint is answered; net/http recovers a panic of the
handler. *)
Inductive http_step (cfg : config) : process -> process -> Prop :=
  | h_root s i r req : s_rpcServer s = Some r ->
      http_step cfg (MkProcess Waiting s i)
        (MkProcess Waiting (MkServerState (Some (serve_root (rpc_config_of cfg) r req).2) (s_listeners s) (s_quit s) (s_wg s)) i).

Definition step (cfg : config) (closing : list (option string)) (p p' : process) : Prop :=
  event p p' \/ http_step cfg p p' \/ own_step cfg closing p p'.
