(* ===== verification/ServerProps.v ===== *)
(** * Theorems about the server and its process

Which addresses are listened on and how, and that the process waits for a signal,
survives any interleaving of signals with its goroutines, and ends after the first
of them with the server stopped. *)

From Stdlib Require Import ZArith Lia List.
From Stdlib Require Import Strings.String Strings.Byte.
From stdpp Require Import relations.
From S2P Require Import Prelude WireFormat ChainParams GoStrings GoNet GoFloat JsonTypes RpcAuth.
From S2P Require Import RpcServer.
From S2P Require Import RpcHttp.
From S2P Require Import Certgen.
From S2P Require Import RpcHttpProps.
From S2P Require Import Config.
From S2P Require Import ConfigProps.
From S2P Require Import Connmgr.
From S2P Require Import Server.

#[local] Open Scope list_scope.
#[local] Set Warnings "-register-all".

(** ** Listen addresses *)

(** Whether the host is absent, or an IP address but for its zone. *)
Definition listenable (addr : string) : bool :=
  match SplitHostPort (of_string addr) with
  | Err _ => false
  | Ok (host, _) => bool_decide (host = []) || match ParseIP (strip_zone host) with Some _ => true | None => false end
  end.
(** The address families of a listenable address. *)
Definition families (addr : string) : list simpleAddr :=
  match SplitHostPort (of_string addr) with
  | Err _ => []
  | Ok (host, _) =>
      if bool_decide (host = []) then [MkAddr "tcp4" addr; MkAddr "tcp6" addr]
      else match ParseIP (strip_zone host) ≫= To4 with
           | Some _ => [MkAddr "tcp4" addr]
           | None => [MkAddr "tcp6" addr]
           end
  end.

Lemma listen_addrs_spec addr :
  listen_addrs false addr =
    if listenable addr then Ok (families addr)
    else match SplitHostPort (of_string addr) with
         | Err e => Err (BadAddress e)
         | Ok (host, _) => Err (NotAnIP (to_string (strip_zone host)))
         end.
Proof.
  unfold listen_addrs, listenable, families. destruct (SplitHostPort _) as [[host port]|e]; [|done].
  rewrite andb_false_r, orb_false_r. destruct (bool_decide (host = [])); [done|]. cbn [orb].
  destruct (ParseIP _) as [ip|]; [|done]. cbn [mbind option_bind]. now destruct (To4 ip).
Qed.

(** The addresses listened on.  They are found exactly when every host is absent
or an IP address, and then in order, one for each address by its family, both
families where there is no host; the first other address, a name included, is the
error. *)
Lemma parseListeners_spec addrs :
  match parseListeners false addrs with
  | Ok l => forallb listenable addrs = true /\ l = concat (map families addrs) /\
            (length addrs <= length l <= 2 * length addrs)%nat
  | Err e => exists pre addr post, addrs = pre ++ addr :: post /\ forallb listenable pre = true /\ listenable addr = false /\
             listen_addrs false addr = Err e
  end.
Proof.
  induction addrs as [|addr addrs IH]; [cbn; auto|]. cbn [parseListeners]. pose proof (listen_addrs_spec addr) as L.
  destruct (listenable addr) eqn:E.
  - rewrite L. cbn [mbind result_bind]. destruct (parseListeners false addrs) as [l|e]; cbn [mbind result_bind].
    + destruct IH as (H1 & -> & H3). cbn [forallb map concat length]. rewrite E, H1. split_and!; try done.
      all: rewrite length_app.
      all: assert (1 <= length (families addr) <= 2)%nat by
        (revert E; unfold listenable, families; destruct (SplitHostPort _) as [[host ?]|]; [|done]; repeat case_match; cbn; lia).
      all: lia.
    + destruct IH as (pre & a & post & -> & H1 & H2 & H3). exists (addr :: pre), a, post. cbn [forallb]. now rewrite E, H1.
  - destruct (listen_addrs false addr) as [l|e] eqn:E'.
    + exfalso. destruct (SplitHostPort (of_string addr)) as [[? ?]|] in L; discriminate L.
    + cbn [mbind result_bind]. exists [], addr, addrs. auto.
Qed.

(** What the listeners of a server are made of. *)
Lemma setupRPCListeners_ok env cfg fs ls fs' : setupRPCListeners env cfg fs = (Ok ls, fs') ->
  exists netAddrs, parseListeners (plan9 env) (RPCListeners (rpc cfg)) = Ok netAddrs /\
    ls = open_listeners env (negb (DisableTLS (rpc cfg))) netAddrs.
Proof.
  unfold setupRPCListeners. intros H.
  match type of H with (let '(_, _) := ?m in _) = _ => destruct m as [[err|] fs1] end; [discriminate H|].
  destruct (parseListeners _ _) as [netAddrs|e]; [|discriminate H]. injection H as <- _. eauto.
Qed.

Lemma newServer_ok env cfg fs s fs' : newServer env cfg fs = (Ok s, fs') ->
  s_quit s = false /\ s_wg s = 0 /\
  if DisableRPC (rpc cfg) then s_rpcServer s = None /\ s_listeners s = []
  else s_rpcServer s = Some (newRPCServer (rpc_users (rpc cfg))) /\ s_listeners s <> [] /\
       exists fs0, setupRPCListeners env cfg fs = (Ok (s_listeners s), fs0).
Proof.
  unfold newServer. intros H. destruct (DisableRPC (rpc cfg)); [injection H as <- _; done|].
  destruct (setupRPCListeners env cfg fs) as [[[|a ls]|e] fs1]; [discriminate H| |discriminate H].
  injection H as <- _. cbn. split_and!; try done. eauto.
Qed.

Lemma families_addr text a : In a (families text) -> AddrString a = text.
Proof. unfold families. destruct (SplitHostPort _) as [[? ?]|]; [|intros []]. repeat case_match; cbn; intuition (subst; done). Qed.

(** C28: nothing is served in the clear but to this machine.  The listeners of a
server created from an accepted configuration speak TLS exactly when it was not
disabled, each on an address of the configuration; and one that does not is bound
to 127.0.0.1 or to ::1.  (On Plan 9 parseListeners has rules of its own.) *)
Theorem clear_listeners_are_local host env {level} (L : string -> level) cfg l c active l' fs s fs' :
  plan9 env = false ->
  loadConfig host L cfg l = Ok (c, active, l') -> newServer env c fs = (Ok s, fs') ->
  forall addr tls, In (addr, tls) (s_listeners s) ->
    tls = negb (DisableTLS (rpc c)) /\ In (AddrString addr) (RPCListeners (rpc c)) /\
    (tls = false -> exists h port, SplitHostPort (of_string (AddrString addr)) = Ok (h, port) /\
       (h = of_string "127.0.0.1" \/ h = of_string "::1")).
Proof.
  intros Hp9 HL HS addr tls Hin. apply newServer_ok in HS as (_ & _ & HS).
  destruct (DisableRPC (rpc c)) eqn:D; [destruct HS as [_ E]; rewrite E in Hin; destruct Hin|].
  destruct HS as (_ & _ & fs0 & HS). apply setupRPCListeners_ok in HS as (netAddrs & P & E). rewrite Hp9 in P.
  pose proof (parseListeners_spec (RPCListeners (rpc c))) as PS. rewrite P in PS. destruct PS as (P1 & P2 & _).
  rewrite E in Hin. apply in_map_iff in Hin as (a & [= -> <-] & Ha). apply filter_In in Ha as [Ha _]. rewrite P2 in Ha.
  apply in_concat in Ha as (fam & Hfam & Ha). apply in_map_iff in Hfam as (text & <- & Htext).
  rewrite (families_addr _ _ Ha). split_and!; try done. intros Ht. apply negb_false_iff in Ht.
  pose proof (loadConfig_tls _ _ _ _ _ _ _ HL D Ht) as T. rewrite List.Forall_forall in T.
  destruct (T text Htext) as (h & port & Hs & Hh). exists h, port. split; [done|].
  rewrite forallb_forall in P1. specialize (P1 text Htext). unfold listenable in P1. rewrite Hs in P1.
  rewrite <- (of_to_string h). apply list_elem_of_In in Hh. cbn in Hh. destruct Hh as [Hh|[Hh|[Hh|[]]]]; rewrite <- Hh; auto.
  exfalso. rewrite <- (of_to_string h), <- Hh in P1. discriminate P1.
Qed.

(** A system that makes certificates: their encoding is a placeholder of a byte. *)
Definition sample_cert_system : cert_env :=
  MkCertEnv 1 (Ok [x07]) (fun _ => Ok 5) (Ok "node"%string) (Ok ["127.0.0.1/8"; "192.168.1.7/24"]%string)
    (fun _ _ => Ok [x01]) (fun _ => Ok [x02]).

(** A system on which everything works: a key pair is two files that are not empty. *)
Definition sample_system : server_env :=
  MkServerEnv false (fun _ => false) 0 sample_cert_system None None
    (fun cert key => if bool_decide (cert = []) || bool_decide (key = []) then Some "tls: no PEM data"%string else None)
    (fun _ _ => None).

Definition v6_clear : simpleAddr * bool := (MkAddr "tcp6" "[::1]:8334", false).

Lemma clear_listeners_are_local_witness :
  exists r s, loadConfig sample_host id notls no_levels = Ok r /\ (newServer sample_system r.1.1 ∅).1 = Ok s /\
    In v6_clear (s_listeners s) /\
    exists h port, SplitHostPort (of_string "[::1]:8334") = Ok (h, port) /\ (h = of_string "127.0.0.1" \/ h = of_string "::1").
Proof.
  destruct (on_ok (loadConfig sample_host id notls no_levels)
    (fun r => match (newServer sample_system r.1.1 ∅).1 with Ok s => bool_decide (v6_clear ∈ s_listeners s) | Err _ => false end))
    as ([[c active] l] & E & F); [vm_compute; reflexivity|]. cbn [fst] in F.
  destruct (newServer sample_system c ∅) as [[s|e] fs'] eqn:S; cbn [fst] in F; [|discriminate F].
  apply bool_decide_eq_true, list_elem_of_In in F. exists (c, active, l), s. cbn [fst]. rewrite S. split_and!; [exact E|done|exact F|].
  exact (proj2 (proj2 (clear_listeners_are_local sample_host sample_system id notls no_levels c active l ∅ s fs' eq_refl E S _ _ F)) eq_refl).
Defined.

(** ** The certificate of the first start *)

Lemma fileExists_insert env fs name v : fileExists env (<[name := v]> fs) name = true.
Proof. unfold fileExists. rewrite lookup_insert_eq. apply orb_true_r. Qed.

Lemma genCertPair_ok sys now wc wk certFile keyFile fs fs' : genCertPair sys now wc wk certFile keyFile fs = (None, fs') ->
  exists cert key, NewTLSCertPair sys "btcd autogenerated cert" (now + 10 * 365 * 24 * hour) [] = Ok (cert, key) /\
    fs' = <[keyFile := (key, 384)]> (<[certFile := (cert, 438)]> fs).
Proof.
  unfold genCertPair. destruct (NewTLSCertPair _ _ _ _) as [[cert key]|e]; [|discriminate].
  destruct wc as [[? ?]|]; [discriminate|]. destruct wk as [[? ?]|]; [discriminate|]. intros [= <-]. eauto.
Qed.

Lemma LoadX509KeyPair_files env fs certFile keyFile cert key cm km : certFile <> keyFile ->
  LoadX509KeyPair env (<[keyFile := (key, km)]> (<[certFile := (cert, cm)]> fs)) certFile keyFile = X509KeyPair env cert key.
Proof. intros Hne. unfold LoadX509KeyPair. now rewrite lookup_insert_ne, !lookup_insert_eq. Qed.

(** Creation with TLS by the files there are: they stay as they are. *)
Lemma newServer_existing env cfg fs s fs' :
  DisableTLS (rpc cfg) = false -> fileExists env fs (RPCKey (misc cfg)) || fileExists env fs (RPCCert (misc cfg)) = true ->
  newServer env cfg fs = (s, fs') -> fs' = fs.
Proof.
  intros HT HK. unfold newServer, setupRPCListeners. rewrite HT, <- negb_orb, HK. cbn [negb].
  destruct (DisableRPC _); [now intros [= <- <-]|]. destruct (LoadX509KeyPair _ _ _ _) as [e|]; cbn; [now intros [= <- <-]|].
  destruct (parseListeners _ _) as [netAddrs|e]; [|now intros [= <- <-]].
  destruct (open_listeners _ _ _); now intros [= <- <-].
Qed.

Lemma open_listeners_ext env env' tls netAddrs : (forall addr, listen env' tls addr = listen env tls addr) ->
  open_listeners env' tls netAddrs = open_listeners env tls netAddrs.
Proof. intros H. unfold open_listeners. f_equal. apply List.filter_ext. intros a. now rewrite H. Qed.

(** C29: the certificate of a first start.  When TLS is in force, with two
different files for the certificate and the key, and neither is there, a server is
created only with a new pair: the two files hold the
PEM texts of a certificate for the name of this host, for localhost under its name and
both of its addresses and for every interface, none of them twice, valid from a day ago
for ten years or to the end of 2049, and of its key, which only its owner may read; no
other file changes.  A restart uses the pair that is there: it changes no file, and
where the pair loads and the addresses can be listened on as before it creates the
same server.  In general a pair is generated only where both files are missing: with
either of them there, the creation of a server changes no file. *)
Theorem first_start_certificate env cfg fs s fs' :
  DisableRPC (rpc cfg) = false -> DisableTLS (rpc cfg) = false -> RPCCert (misc cfg) <> RPCKey (misc cfg) ->
  fileExists env fs (RPCCert (misc cfg)) = false -> fileExists env fs (RPCKey (misc cfg)) = false ->
  newServer env cfg fs = (Ok s, fs') ->
  exists cert key t host addrs,
    fs' = <[RPCKey (misc cfg) := (key, 384)]> (<[RPCCert (misc cfg) := (cert, 438)]> fs) /\
    pair_of (cert_system env) t cert key /\ X509KeyPair env cert key = None /\
    Hostname (cert_system env) = Ok host /\ InterfaceAddrs (cert_system env) = Ok addrs /\
    certifies t (Now (cert_system env)) (cert_time env + 10 * 365 * 24 * hour) "btcd autogenerated cert" host addrs [] /\
    (forall name, In name (DNSNames t) <-> name = host \/ name = "localhost"%string) /\
    (forall ip, ip = localhost4 \/ ip = localhost6 -> exists ip', In ip' (IPAddresses t) /\ IP_Equal ip' ip = true) /\
    forall env', (newServer env' cfg fs').2 = fs' /\
      (X509KeyPair env' cert key = None -> plan9 env' = plan9 env ->
       (forall addr, listen env' true addr = listen env true addr) -> newServer env' cfg fs' = (Ok s, fs')) /\
      forall fs0, fileExists env' fs0 (RPCKey (misc cfg)) || fileExists env' fs0 (RPCCert (misc cfg)) = true -> (newServer env' cfg fs0).2 = fs0.
Proof.
  intros HR HT Hne HC HK HS.
  assert (G : exists netAddrs, parseListeners (plan9 env) (RPCListeners (rpc cfg)) = Ok netAddrs /\
      open_listeners env true netAddrs <> [] /\ s = MkServerState (Some (newRPCServer (rpc_users (rpc cfg)))) (open_listeners env true netAddrs) false 0 /\
      genCertPair (cert_system env) (cert_time env) (write_cert env) (write_key env) (RPCCert (misc cfg)) (RPCKey (misc cfg)) fs = (None, fs') /\
      LoadX509KeyPair env fs' (RPCCert (misc cfg)) (RPCKey (misc cfg)) = None).
  { revert HS. unfold newServer, setupRPCListeners. rewrite HR, HT, HC, HK. cbn [negb andb].
    destruct (genCertPair _ _ _ _ _ _ _) as [[err|] fs1] eqn:G; cbn [option_map]; [discriminate|].
    destruct (LoadX509KeyPair _ _ _ _) as [err|] eqn:X; cbn [option_map]; [discriminate|].
    destruct (parseListeners _ _) as [netAddrs|e]; [|discriminate].
    destruct (open_listeners _ _ _) as [|l ls] eqn:O; [discriminate|]. intros [= <- <-].
    exists netAddrs. rewrite O. split_and!; done. }
  destruct G as (netAddrs & P & O & -> & G & X). apply genCertPair_ok in G as (cert & key & N & ->).
  rewrite LoadX509KeyPair_files in X by done.
  pose proof (NewTLSCertPair_cases (cert_system env) "btcd autogenerated cert" (cert_time env + 10 * 365 * 24 * hour) []) as C.
  rewrite N in C. destruct C as (_ & t & host & addrs & Hh & Ha & Ht & Hp). pose proof Ht as (_ & _ & _ & _ & (_ & _ & HI) & _ & HD & _).
  exists cert, key, t, host, addrs. split_and!; try done.
  - intros name. rewrite HD. cbn. intuition congruence.
  - intros ip Hip. apply HI. cbn. intuition.
  - intros env'. split; [|split].
    + destruct (newServer env' cfg _) as [r fs2] eqn:E. apply newServer_existing in E; [done|done|now rewrite fileExists_insert].
    + intros HX Hp9 HL. unfold newServer, setupRPCListeners. rewrite HR, HT, fileExists_insert. cbn [negb andb].
      rewrite LoadX509KeyPair_files, HX, Hp9, P by done. cbn [option_map].
      rewrite (open_listeners_ext env) by done. now destruct (open_listeners env true netAddrs).
    + intros fs0 HE. destruct (newServer env' cfg fs0) as [r fs2] eqn:E. now apply newServer_existing in E.
Qed.

(** The defaults with a listener on this machine. *)
Definition tls_config : config :=
  with_rpc (MkRpcOptions (MkCredentials "admin" "secret" "" "") false ["127.0.0.1:8334"%string] 20 false) (default_config sample_host).

Lemma first_start_certificate_witness :
  (exists s, (newServer sample_system tls_config ∅).1 = Ok s) /\
  exists cert key, (newServer sample_system tls_config ∅).2 = <[RPCKey (misc tls_config) := (key, 384)]> {[RPCCert (misc tls_config) := (cert, 438)]} /\
    X509KeyPair sample_system cert key = None.
Proof.
  destruct (newServer sample_system tls_config ∅) as [[s|e] fs'] eqn:E.
  - split; [eauto|]. cbn [snd].
    destruct (first_start_certificate sample_system tls_config ∅ s fs') as (cert & key & t & host & addrs & -> & _ & X & _);
      try (vm_compute; reflexivity); [intros D; vm_compute in D; discriminate D|exact E|eauto].
  - exfalso. vm_compute in E. discriminate E.
Defined.

(** The configuration lets TLS be disabled for a listener on localhost by name; the
server then does not start, for localhost is no IP address. *)
Example localhost_by_name :
  let cfg := with_rpc (MkRpcOptions (MkCredentials "admin" "secret" "" "") false ["localhost"%string] 20 true) (default_config sample_host) in
  match loadConfig sample_host id cfg no_levels with
  | Ok r => (newServer sample_system r.1.1 ∅).1 = Err (ListenError (NotAnIP "localhost"))
  | Err _ => False
  end.
Proof. vm_compute. reflexivity. Qed.

(** ** The process *)

Section process.
Context (cfg : config) (closing : list (option string)).

(** What holds of the process between its steps. *)
Definition process_inv (p : process) : Prop :=
  let s := p_server p in
  let rpc_on := negb (DisableRPC (rpc cfg)) in
  s_wg s = (if rpc_on then 1 else 0) /\
  (rpc_on = true -> exists r, s_rpcServer s = Some r /\ started r = 1 /\
     shutdown r = (match p_phase p with Waiting => 0 | _ => 1 end) /\
     match p_phase p with
     | Waiting => quit_closed r = false /\ numClients r = 0 /\ auth r = newRPCServer_auth (rpc_users (rpc cfg))
     | _ => Forall (fun e => e = None) closing -> quit_closed r = true /\ listeners_closed r = length closing
     end) /\
  match p_phase p with
  | Waiting => s_quit s = false
  | Exited code => code = 0 /\ s_quit s = true /\ interrupted (p_listener p) = true
  | Crashed _ => False
  end.

Lemma RpcHttp_Stop_first r : shutdown r = 0 -> quit_closed r = false ->
  exists e r', RpcHttp.Stop closing r = (Ok e, r') /\ started r' = started r /\ shutdown r' = 1 /\
    (Forall (fun e => e = None) closing -> quit_closed r' = true /\ listeners_closed r' = length closing).
Proof.
  intros Hs Hq. unfold RpcHttp.Stop. rewrite Hs. change (i32 (0 + 1)) with 1. cbn [negb Z.eqb Pos.eqb].
  destruct (close_listeners closing 0) as [k [e|]] eqn:E; cbn [quit_closed].
  - do 2 eexists. split_and!; try reflexivity. intros H. rewrite close_listeners_all in E by done. discriminate.
  - rewrite Hq. do 2 eexists. split_and!; try reflexivity. intros H. rewrite close_listeners_all in E by done.
    injection E as <-. done.
Qed.

Lemma Stop_ok s i : process_inv (MkProcess Waiting s i) ->
  exists s', Stop cfg closing s = Ok s' /\ (interrupted i = true -> process_inv (MkProcess (Exited 0) s' i)).
Proof.
  unfold process_inv, Stop. cbn [p_phase p_server p_listener]. intros (W & R & Q). destruct (DisableRPC (rpc cfg)); cbn [negb] in *.
  - cbn [mbind result_bind]. rewrite Q. eexists. split; [reflexivity|]. intros Hi. cbn. split_and!; done.
  - destruct (R eq_refl) as (r & -> & R1 & R2 & R3 & _). destruct (RpcHttp_Stop_first r R2 R3) as (e & r' & -> & S1 & S2 & S3).
    cbn [mbind result_bind s_quit]. rewrite Q. eexists. split; [reflexivity|]. intros Hi. cbn. split_and!; try done.
    intros _. exists r'. rewrite S1, R1. done.
Qed.

Lemma step_inv p p' : process_inv p -> step cfg closing p p' -> process_inv p'.
Proof.
  intros H St. revert H. destruct St as [[s i|s i]|[[s i r req Hr]|[s i Hi|s i n Hi|s i Hi]]]; intros H; try exact H.
  - destruct H as (W & R & Q). unfold process_inv. cbn [p_phase p_server p_listener s_wg s_rpcServer s_quit] in *.
    split; [exact W|split; [|exact Q]]. intros E. destruct (R E) as (r' & E' & R1 & R2 & R3 & R4 & R5).
    rewrite Hr in E'. injection E' as <-. destruct (serve_root_state (rpc_config_of cfg) r req) as [m Hm]; [lia|].
    rewrite Hm. exists (set_statusLines m r). cbn. auto 10.
  - destruct (Stop_ok s i H) as (s' & -> & H'). now apply H'.
Qed.

(** How much the process still does on its own. *)
Definition measure (p : process) : nat :=
  match p_phase p with
  | Waiting => S ((if signalled (p_listener p) then 1 else 0) + requests (p_listener p))
  | _ => 0
  end.

Lemma own_step_measure p p' : own_step cfg closing p p' -> (measure p' < measure p)%nat.
Proof.
  intros [s i Hi|s i n Hi|s i Hi]; unfold measure; cbn [p_phase p_listener signalled requests]; rewrite ?Hi; [lia|lia|].
  destruct (Stop _ _ _); cbn; lia.
Qed.

(** Something was sent to the listener. *)
Definition delivered (p : process) : Prop :=
  match p_phase p with
  | Waiting => signalled (p_listener p) = true \/ (0 < requests (p_listener p))%nat \/ interrupted (p_listener p) = true
  | _ => True
  end.

Lemma delivered_step p p' : delivered p -> own_step cfg closing p p' -> delivered p'.
Proof.
  intros H St. revert H. destruct St as [s i Hi|s i n Hi|s i Hi]; intros H; cbn; auto. now destruct (Stop _ _ _).
Qed.

Lemma delivered_progress p : process_inv p -> delivered p ->
  (forall p', ~ own_step cfg closing p p') -> p_phase p = Exited 0.
Proof.
  destruct p as [[|code|e] s i]; intros (_ & _ & I) D N; [|now destruct I as [-> _]|done]. exfalso. cbn in D.
  destruct D as [D|[D|D]].
  - eapply N, o_signal, D.
  - destruct (requests i) as [|n] eqn:E; [lia|]. eapply N, o_request, E.
  - eapply N, o_exit, D.
Qed.

Lemma rtc_step_inv p p' : process_inv p -> rtc (step cfg closing) p p' -> process_inv p'.
Proof. intros H R. induction R; [done|]. eauto using step_inv. Qed.
End process.

(** The process acbcMain hands over. *)
Lemma acbcMain_start host env {level} (L : string -> level) parse_line parse_file copying home_ok levels fs fs' cfg p closing :
  acbcMain host env L parse_line parse_file copying home_ok levels fs = (Ok (cfg, p), fs') ->
  process_inv cfg closing p /\ p_phase p = Waiting /\ p_listener p = interruptListener.
Proof.
  unfold acbcMain. destruct (read_options _ _ _ _ _ _) as [[[cfg0 missing]|] fs0]; [|discriminate].
  destruct (loadConfig _ _ _ _) as [[[c active] lv]|]; [|discriminate].
  destruct (newServer env c fs0) as [[s|] fs1] eqn:E; [|discriminate]. intros H. injection H as <- <- <-.
  apply newServer_ok in E as (Q & W & E). unfold Start, rebroadcastHandler, process_inv.
  destruct (DisableRPC (rpc c)) eqn:D; cbn [negb].
  - cbn. split_and!; done.
  - destruct E as [R _]. cbn [s_rpcServer]. rewrite R. cbn. rewrite W. split_and!; try done.
    intros _. eexists. split_and!; reflexivity.
Qed.

(** C30: the process ends well.  From the process that acbcMain hands over, whatever
signals and requests arrive, HTTP requests included, and however they interleave
with its goroutines, it never crashes; until it exits the server runs; it exits only once a signal or a
request was taken, with code 0, its quit channel and RPC server closed once and,
when no listener fails to close, all of them closed; and the counter that
WaitForShutdown waits on is not zero as long as there is an RPC server. *)
Theorem process_safe host env {level} (L : string -> level) parse_line parse_file copying home_ok levels fs fs' cfg p0 closing p :
  acbcMain host env L parse_line parse_file copying home_ok levels fs = (Ok (cfg, p0), fs') -> rtc (step cfg closing) p0 p ->
  let s := p_server p in
  match p_phase p with
  | Waiting => s_quit s = false /\ (DisableRPC (rpc cfg) = false -> exists r, s_rpcServer s = Some r /\ started r = 1 /\ shutdown r = 0)
  | Exited code => code = 0 /\ s_quit s = true /\ interrupted (p_listener p) = true /\
      (DisableRPC (rpc cfg) = false -> exists r, s_rpcServer s = Some r /\ shutdown r = 1 /\
         (Forall (fun e => e = None) closing -> quit_closed r = true /\ listeners_closed r = length closing))
  | Crashed _ => False
  end /\
  WaitForShutdown_returns s = DisableRPC (rpc cfg).
Proof.
  intros H R. apply acbcMain_start with (closing := closing) in H as (I & _ & _). eapply rtc_step_inv in R; [|exact I]. destruct R as (W & R & Q).
  unfold WaitForShutdown_returns. cbn. rewrite W. destruct (DisableRPC (rpc cfg)); cbn [negb] in *.
  - split; [|done]. destruct (p_phase p); [split; done|destruct Q as (? & ? & ?); split_and!; done|done].
  - destruct (R eq_refl) as (r & R0 & R1 & R2 & R3). split; [|done].
    destruct (p_phase p); [|destruct Q as (? & ? & ?)|done]; split_and!; eauto 10.
Qed.

(** C32: the process ends.  It takes no step of its own before something arrives;
once a signal or a request has, every run of its own steps is bounded by the number
of what arrived, and one that cannot go on has exited with code 0. *)
Theorem process_terminates host env {level} (L : string -> level) parse_line parse_file copying home_ok levels fs fs' cfg p0 closing :
  acbcMain host env L parse_line parse_file copying home_ok levels fs = (Ok (cfg, p0), fs') ->
  (forall p, ~ own_step cfg closing p0 p) /\
  forall p e, rtc (step cfg closing) p0 p -> event p e ->
    (forall n p', nsteps (own_step cfg closing) n e p' -> (n <= measure e)%nat) /\
    (forall p', rtc (own_step cfg closing) e p' -> (forall p'', ~ own_step cfg closing p' p'') -> p_phase p' = Exited 0).
Proof.
  intros H. apply acbcMain_start with (closing := closing) in H as (I & Hw & Hl). split.
  { intros p Hp. destruct Hp as [s i Hi|s i n Hi|s i Hi]; cbn in Hl; subst; discriminate Hi. }
  intros p e R Ev. split.
  - intros n p' N. clear R Ev. induction N as [|n x y z S N IH]; [lia|]. apply own_step_measure in S. lia.
  - assert (Ie : process_inv cfg closing e) by (eapply step_inv; [eapply rtc_step_inv; eauto|now left]).
    assert (De : delivered e) by (destruct Ev; cbn; auto with lia).
    intros p' R' N. clear Ev R. revert Ie De. induction R' as [x|x y z S R' IH]; intros Ie De.
    + eapply delivered_progress; eauto.
    + apply IH; [done|eapply step_inv; [exact Ie|right; now right]|eapply delivered_step; eauto].
Qed.

(** C31: whom the process serves.  As long as it waits, whatever was served before and
whatever signals arrived, a request to its RPC server without an Authorization header
is refused; one with a login gets the answer of a limited user exactly when it is the
limited login of the configuration, else that of an administrator exactly when it is
the administrator's, and is refused else; as far as the SHA-256 sums of the logins do
not collide, and with a limit on clients that lets any in. *)
Theorem process_serves host env {level} (L : string -> level) parse_line parse_file copying home_ok levels fs fs' cfg p0 closing p r req u pw rest :
  acbcMain host env L parse_line parse_file copying home_ok levels fs = (Ok (cfg, p0), fs') ->
  rtc (step cfg closing) p0 p -> p_phase p = Waiting -> s_rpcServer (p_server p) = Some r -> DisableRPC (rpc cfg) = false ->
  0 < RPCMaxClients (misc cfg) -> no_collision (rpc_users (rpc cfg)) u pw ->
  let users := rpc_users (rpc cfg) in
  let login := (u +:+ ":" +:+ pw)%string in
  let serve := jsonRPCRead (rpc_config_of cfg) (incrementClients r) req in
  (h_auth req = [] -> (serve_root (rpc_config_of cfg) r req).1 = Ok AuthFail) /\
  (h_auth req = basic_auth u pw :: rest ->
     (serve_root (rpc_config_of cfg) r req).1 =
       (if is_login (RPCLimitUser users) (RPCLimitPass users) login then (serve false).1
        else if is_login (RPCUser users) (RPCPass users) login then (serve true).1
        else Ok AuthFail)).
Proof.
  intros H R Hw Hr D HM NC users login serve. apply acbcMain_start with (closing := closing) in H as (I & _ & _).
  eapply rtc_step_inv in R; [|exact I]. destruct R as (_ & R & _). rewrite D in R.
  destruct (R eq_refl) as (r' & E & _ & _ & Q). rewrite Hw in Q. destruct Q as (_ & Hn & Ha). rewrite Hr in E. injection E as <-.
  assert (Hlim : limitConnections (rpc_config_of cfg) r = false).
  { unfold limitConnections. rewrite Hn. change (i32 (0 + 1)) with 1. cbn. apply Z.ltb_ge. lia. }
  assert (Hroot : (serve_root (rpc_config_of cfg) r req).1 =
    match checkAuth (auth r) (h_auth req) true with (_, _, Some _) => Ok AuthFail | (_, isAdmin, None) => (serve isAdmin).1 end).
  { unfold serve_root. rewrite Hlim. change (auth (incrementClients r)) with (auth r).
    destruct (checkAuth _ _ _) as [[a isAdmin] [e|]]; [done|]. subst serve. cbv beta. now destruct (jsonRPCRead _ _ _ _). }
  rewrite Hroot, Ha. split; intros ->; [done|]. destruct (auth_by_login _ _ _ NC) as [A _]. rewrite A. fold users login.
  destruct (is_login (RPCLimitUser users) _ _); [done|]. now destruct (is_login (RPCUser users) _ _).
Qed.

(** A run with no options, no configuration file and no sample to make one of. *)
Definition no_options (c : config) : option flag_error * config := (None, c).
Definition no_file (_ : bytes) (c : config) : option ini_error * config := (None, c).
Definition no_sample : default_env := MkDefaultEnv None None (Ok []) (Ok []) (Err "no sample"%string) None None.
Definition sample_run : result Z (config * process) * files :=
  acbcMain sample_host sample_system id no_options no_file no_sample true no_levels ∅.

Lemma sample_run_ok : is_ok sample_run.1 = true.
Proof. vm_compute. reflexivity. Qed.

Lemma process_safe_witness :
  exists cfg p0 p, sample_run.1 = Ok (cfg, p0) /\ rtc (step cfg [None; None]) p0 p /\ p_phase p = Exited 0 /\ s_quit (p_server p) = true.
Proof.
  destruct sample_run as [[[cfg p0]|] fs'] eqn:E; [|pose proof sample_run_ok as H; rewrite E in H; discriminate H].
  destruct (acbcMain_start _ _ _ _ _ _ _ _ _ _ _ _ [None; None] E) as (I & Hw & Hl).
  destruct p0 as [ph s i]. cbn in Hw, Hl. subst ph i.
  assert (R : exists s', rtc (step cfg [None; None]) (MkProcess Waiting s interruptListener) (MkProcess (Exited 0) s' (MkListener false 0 true))).
  { destruct (Stop_ok cfg [None; None] s interruptListener I) as (s' & Hs & _). exists s'.
    eapply rtc_l; [left; apply e_signal|]. eapply rtc_l; [right; right; apply o_signal; reflexivity|]. apply rtc_once. right. right.
    pose proof (o_exit cfg [None; None] s (MkListener false 0 true) eq_refl) as X. rewrite Hs in X. exact X. }
  destruct R as [s' R].
  exists cfg, (MkProcess Waiting s interruptListener), (MkProcess (Exited 0) s' (MkListener false 0 true)).
  split_and!; [done|exact R|done|].
  exact (proj1 (proj2 (proj1 (process_safe _ _ _ _ _ _ _ _ _ _ _ _ _ _ E R)))).
Defined.

Lemma process_terminates_witness :
  exists cfg p0, sample_run.1 = Ok (cfg, p0) /\ (forall p, ~ own_step cfg [] p0 p) /\
    forall e, event p0 e -> forall p', rtc (own_step cfg []) e p' -> (forall p'', ~ own_step cfg [] p' p'') -> p_phase p' = Exited 0.
Proof.
  destruct sample_run as [[[cfg p0]|] fs'] eqn:E; [|pose proof sample_run_ok as H; rewrite E in H; discriminate H].
  exists cfg, p0. destruct (process_terminates _ _ _ _ _ _ _ _ _ _ _ _ [] E) as [H1 H2]. split_and!; [done|exact H1|].
  intros e Ev. exact (proj2 (H2 p0 e (rtc_refl _ _) Ev)).
Defined.

(** With the defaults the RPC server listens on the loopback addresses with TLS, and
closing the server twice would panic. *)
Example sample_run_listeners :
  match sample_run.1 with
  | Ok (cfg, p) =>
      s_listeners (p_server p) = [(MkAddr "tcp4" "127.0.0.1:8334", true); (MkAddr "tcp6" "[::1]:8334", true)] /\
      (s ← Stop cfg [None; None] (p_server p); Stop cfg [None; None] s) = Err CloseOfClosedChannel
  | Err _ => False
  end.
Proof. vm_compute. auto. Qed.

(** The process with its defaults serves the built-in administrator. *)
Definition ask (user pass : string) : http_request :=
  MkHttpRequest (Ok (BatchBody None [])) [basic_auth user pass] (1, 1) true None None.

Lemma process_serves_witness :
  exists cfg p0 r, sample_run.1 = Ok (cfg, p0) /\ s_rpcServer (p_server p0) = Some r /\
    (serve_root (rpc_config_of cfg) r (ask "jiajimeidou" "12345678")).1 =
      (jsonRPCRead (rpc_config_of cfg) (incrementClients r) (ask "jiajimeidou" "12345678") true).1.
Proof.
  assert (O : match sample_run.1 with
    | Ok (cfg, _) => negb (DisableRPC (rpc cfg)) && (0 <? RPCMaxClients (misc cfg)) &&
        bool_decide (rpc_users (rpc cfg) = MkCredentials "jiajimeidou" "12345678" "" "")
    | Err _ => false end = true) by (vm_compute; reflexivity).
  destruct sample_run as [[[cfg p0]|e] fs'] eqn:E; cbn [fst] in O; [|discriminate O].
  apply andb_true_iff in O as [O O3]. apply andb_true_iff in O as [O1 O2]. apply negb_true_iff in O1. apply Z.ltb_lt in O2.
  apply bool_decide_eq_true in O3.
  destruct (acbcMain_start _ _ _ _ _ _ _ _ _ _ _ _ [] E) as ((_ & R & _) & Hw & _). rewrite O1 in R.
  destruct (R eq_refl) as (r & Hr & _). exists cfg, p0, r. split_and!; [done|exact Hr|].
  assert (NC : no_collision (rpc_users (rpc cfg)) "jiajimeidou" "12345678").
  { rewrite O3. split_and!; [apply (bool_decide_unpack _); vm_compute; exact I|intros _; reflexivity|].
    intros E'. exfalso. revert E'. apply (bool_decide_unpack _). vm_compute. exact I. }
  destruct (process_serves _ _ _ _ _ _ _ _ _ _ _ _ [] p0 r (ask "jiajimeidou" "12345678") _ _ [] E (rtc_refl _ _) Hw Hr O1 O2 NC) as [_ H].
  rewrite (H eq_refl), O3. reflexivity.
Defined.
